(** * A byte-level model of the HMM heap allocator (src/HMM.c)

    The allocator keeps its chunk headers in-band, inside the very region it
    hands out, so the model keeps one flat byte memory for headers and
    payloads alike.  The target is the LP64 little-endian ABI the source
    assumes (it compares [size_t] values against [ULONG_MAX] and calls
    [sbrk]): [sizeof(mem_chunk_t) = 40] with the fields at offsets
    0 ([is_added]), 1 ([is_free]), 8 ([size]), 16 ([prev]), 24 ([next]) and
    32 ([next_free]).  [size_t] arithmetic wraps modulo [2^64]; a null
    pointer is the address 0.  Loops and the recursion of
    [HMMget_free_chunk] are driven by fuel: [None] means that the fuel ran
    out, never that the C function returned. *)

From Stdlib Require Import ZArith List Bool Lia.
Import ListNotations.
Local Open Scope Z_scope.

(** ** Machine words *)

Definition WORD : Z := 2 ^ 64.
Definition wrap (x : Z) : Z := x mod WORD.

(** The macros of HMM.c. *)
Definition ALIGNMENT : Z := 8.
Definition ALLOCATED_BYTES : Z := 8 * 1024 * 1024.
Definition MULTIPLES_MAX : Z := ALLOCATED_BYTES / ALIGNMENT.
Definition ULONG_MAX : Z := WORD - 1.
(** [sizeof(mem_chunk_t)] under LP64. *)
Definition HDR : Z := 40.

(** [(x + (ALIGNMENT - 1)) & ~(ALIGNMENT - 1)] on a 64-bit unsigned word. *)
Definition align_up (x : Z) : Z :=
  Z.land (wrap (x + (ALIGNMENT - 1))) (wrap (Z.lnot (ALIGNMENT - 1))).

(** A [size_t] read as the [intptr_t] that [sbrk] takes. *)
Definition to_signed (x : Z) : Z := if x <? 2 ^ 63 then x else x - WORD.

(** ** Memory *)

Definition memory : Type := Z -> Z.

Definition load8 (m : memory) (a : Z) : Z := m a.
Definition store8 (m : memory) (a v : Z) : memory :=
  fun x => if x =? a then v mod 256 else m x.

Definition load64 (m : memory) (a : Z) : Z :=
  m a + 2 ^ 8 * m (a + 1) + 2 ^ 16 * m (a + 2) + 2 ^ 24 * m (a + 3)
  + 2 ^ 32 * m (a + 4) + 2 ^ 40 * m (a + 5) + 2 ^ 48 * m (a + 6)
  + 2 ^ 56 * m (a + 7).
Definition store64 (m : memory) (a v : Z) : memory :=
  fun x => if (a <=? x) && (x <? a + 8)
           then (v / 2 ^ (8 * (x - a))) mod 256 else m x.

(** [memset(p, 0, n)] and [memcpy(dst, src, n)] (the two regions never
    overlap where HMM.c calls it). *)
Definition memset0 (m : memory) (p n : Z) : memory :=
  fun x => if (p <=? x) && (x <? p + n) then 0 else m x.
Definition memcpy (m : memory) (dst src n : Z) : memory :=
  fun x => if (dst <=? x) && (x <? dst + n) then m (src + (x - dst)) else m x.

(** ** Allocator state

    The static variables of HMM.c, the memory, and the program break with
    the window [brk_lo, brk_hi] inside which the kernel lets it move.
    [sbrk_log] records the argument of every [sbrk] call, latest first. *)

Record state : Type := mkState {
  mem : memory;
  block_freq : Z -> Z;
  head : Z;
  tail : Z;
  current_free_size : Z;
  brk : Z;
  brk_lo : Z;
  brk_hi : Z;
  sbrk_log : list Z
}.

Definition with_mem (st : state) (m : memory) : state :=
  mkState m (block_freq st) (head st) (tail st) (current_free_size st)
          (brk st) (brk_lo st) (brk_hi st) (sbrk_log st).
Definition with_freq (st : state) (f : Z -> Z) : state :=
  mkState (mem st) f (head st) (tail st) (current_free_size st)
          (brk st) (brk_lo st) (brk_hi st) (sbrk_log st).
Definition with_head (st : state) (h : Z) : state :=
  mkState (mem st) (block_freq st) h (tail st) (current_free_size st)
          (brk st) (brk_lo st) (brk_hi st) (sbrk_log st).
Definition with_tail (st : state) (t : Z) : state :=
  mkState (mem st) (block_freq st) (head st) t (current_free_size st)
          (brk st) (brk_lo st) (brk_hi st) (sbrk_log st).
Definition with_cfs (st : state) (c : Z) : state :=
  mkState (mem st) (block_freq st) (head st) (tail st) c
          (brk st) (brk_lo st) (brk_hi st) (sbrk_log st).

Definition set_freq (st : state) (idx p : Z) : state :=
  with_freq st (fun i => if i =? idx then p else block_freq st i).

(** Field accessors of [mem_chunk_t] at address [c]. *)
Definition is_added (st : state) (c : Z) : Z := load8 (mem st) c.
Definition is_free (st : state) (c : Z) : Z := load8 (mem st) (c + 1).
Definition size (st : state) (c : Z) : Z := load64 (mem st) (c + 8).
Definition prev (st : state) (c : Z) : Z := load64 (mem st) (c + 16).
Definition next (st : state) (c : Z) : Z := load64 (mem st) (c + 24).
Definition next_free (st : state) (c : Z) : Z := load64 (mem st) (c + 32).

Definition set_is_added (st : state) (c v : Z) : state :=
  with_mem st (store8 (mem st) c v).
Definition set_is_free (st : state) (c v : Z) : state :=
  with_mem st (store8 (mem st) (c + 1) v).
Definition set_size (st : state) (c v : Z) : state :=
  with_mem st (store64 (mem st) (c + 8) v).
Definition set_prev (st : state) (c v : Z) : state :=
  with_mem st (store64 (mem st) (c + 16) v).
Definition set_next (st : state) (c v : Z) : state :=
  with_mem st (store64 (mem st) (c + 24) v).
Definition set_next_free (st : state) (c v : Z) : state :=
  with_mem st (store64 (mem st) (c + 32) v).

(** ** The break primitive

    [sbrk(n)] moves the break by the signed reading of [n] and returns the
    old break; it fails (returns [(void * )-1]) when the new break would
    leave the window.  The call is logged either way. *)
Definition sbrk (n : Z) (st : state) : option Z * state :=
  let nb := brk st + to_signed n in
  let st' := mkState (mem st) (block_freq st) (head st) (tail st)
                     (current_free_size st)
                     (if (brk_lo st <=? nb) && (nb <=? brk_hi st)
                      then nb else brk st)
                     (brk_lo st) (brk_hi st) (n :: sbrk_log st) in
  if (brk_lo st <=? nb) && (nb <=? brk_hi st)
  then (Some (brk st), st') else (None, st').

(** ** The freelist index *)

(** The [while (current)] loop of [HMMremove_free_block] (lines 81-100). *)
Fixpoint remove_loop (fuel : nat) (block idx current prv : Z) (st : state)
  : option state :=
  match fuel with
  | O => None
  | S f =>
    if current =? 0 then Some st
    else if current =? block then
      let st1 := set_is_added st current 0 in
      let st2 := with_cfs st1 (wrap (current_free_size st1 - size st1 current)) in
      if negb (prv =? 0)
      then Some (set_next_free st2 prv (next_free st2 current))
      else Some (set_freq st2 idx (next_free st2 (block_freq st2 idx)))
    else remove_loop f block idx (next_free st current) current st
  end.

Definition HMMremove_free_block (fuel : nat) (block : Z) (st : state)
  : option state :=
  if block =? 0 then Some st
  else
    let cur_size := size st block in
    let idx := wrap (cur_size / ALIGNMENT - 1) in
    if idx <? MULTIPLES_MAX
    then remove_loop fuel block idx (block_freq st idx) 0 st
    else Some st.

Definition HMMis_block_found (st : state) (block : Z) : Z := is_added st block.

Definition HMMadd_free_block (block : Z) (st : state) : state :=
  if block =? 0 then st
  else
    let cur_size := size st block in
    let idx := wrap (cur_size / ALIGNMENT - 1) in
    if idx <? MULTIPLES_MAX then
      if negb (HMMis_block_found st block =? 0) then st
      else
        let st1 := with_cfs st (wrap (current_free_size st + size st block)) in
        let st2 := set_is_added st1 block 1 in
        if block_freq st2 idx =? 0
        then set_next_free (set_freq st2 idx block) block 0
        else set_freq (set_next_free st2 block (block_freq st2 idx)) idx block
    else st.

Definition HMMget_free_block (sz : Z) (st : state) : Z * state :=
  let idx := wrap (sz / ALIGNMENT - 1) in
  if idx <? MULTIPLES_MAX then
    if negb (block_freq st idx =? 0) then
      let ret := block_freq st idx in
      let st1 := with_cfs st (wrap (current_free_size st - size st ret)) in
      let st2 := set_is_added st1 ret 0 in
      (ret, set_freq st2 idx (next_free st2 (block_freq st2 idx)))
    else (0, st)
  else (0, st).

(** ** Coalescing *)

(** The [while (current)] loop of [HMMcoalesce] (lines 179-198); it yields
    the final [current], [last_collecting] and [total_size]. *)
Fixpoint coalesce_loop (fuel : nat) (current last_collecting total_size : Z)
  (st : state) : option (Z * Z * Z * state) :=
  match fuel with
  | O => None
  | S f =>
    if current =? 0 then Some (current, last_collecting, total_size, st)
    else if is_free st current =? 1 then
      let '(lc, ts) :=
        if last_collecting =? 0 then (current, total_size)
        else (last_collecting, wrap (total_size + size st current + HDR)) in
      match HMMremove_free_block f current st with
      | None => None
      | Some st1 => coalesce_loop f (next st1 current) lc ts st1
      end
    else Some (current, last_collecting, total_size, st)
  end.

Definition HMMcoalesce (fuel : nat) (start : Z) (st : state) : option state :=
  if start =? 0 then Some st
  else
    match coalesce_loop fuel start 0 0 st with
    | None => None
    | Some (current, lc, ts, st1) =>
      if 0 <? ts then
        let st2 := set_size st1 lc (wrap (size st1 lc + ts)) in
        let st3 := set_next st2 lc current in
        let st4 := if negb (current =? 0) then set_prev st3 current lc else st3 in
        if current =? 0
        then Some (let st5 := with_tail st4 lc in set_next st5 (tail st5) 0)
        else Some st4
      else Some st1
    end.

(** ** Finding or creating a free chunk *)

(** The split of lines 241-258. *)
Definition split_chunk (current sz : Z) (st : state) : state :=
  let current_next := next st current in
  let splitted := wrap (current + HDR + sz) in
  let st1 := set_prev st splitted current in
  let st2 := set_next st1 splitted current_next in
  let st3 := set_is_free st2 splitted 1 in
  let st4 := if negb (current_next =? 0)
             then set_prev st3 current_next splitted else st3 in
  let st5 := set_next st4 current splitted in
  let st6 := if current =? tail st5
             then (let s := with_tail st5 splitted in set_next s (tail s) 0)
             else st5 in
  let st7 := set_size st6 splitted (wrap (size st6 current - sz - HDR)) in
  let st8 := HMMadd_free_block splitted st7 in
  set_size st8 current sz.

(** The tail-first scan of lines 229-267: [Some (c, st)] with [c <> 0] when
    a chunk was taken, [Some (0, st)] when the scan reached the list's
    front. *)
Fixpoint scan_loop (fuel : nat) (current sz : Z) (st : state)
  : option (Z * state) :=
  match fuel with
  | O => None
  | S f =>
    if current =? 0 then Some (0, st)
    else if (is_free st current =? 1) && (sz <=? size st current) then
      match HMMremove_free_block f current st with
      | None => None
      | Some st1 =>
        if wrap (HDR + sz) <? size st1 current
        then Some (current, split_chunk current sz st1)
        else Some (current, st1)
      end
    else
      let st1 := if is_free st current =? 1
                 then HMMadd_free_block current st else st in
      scan_loop f (prev st1 current) sz st1
  end.

(** [num_allocated_bytes] of line 271. *)
Definition num_allocated_bytes (sz : Z) : Z :=
  wrap (wrap (sz + HDR + ALLOCATED_BYTES) / ALLOCATED_BYTES * ALLOCATED_BYTES).

(** Lines 289-300: a new chunk on the fresh range. *)
Definition append_new_chunk (new_chunk nbytes : Z) (st : state) : state :=
  let st1 := set_is_free st new_chunk 1 in
  let st2 := set_size st1 new_chunk (wrap (nbytes - HDR)) in
  let st3 := set_prev st2 new_chunk (tail st2) in
  let st4 := set_next st3 new_chunk 0 in
  let st5 := if negb (tail st4 =? 0)
             then set_next st4 (tail st4) new_chunk else st4 in
  let st6 := with_tail st5 new_chunk in
  let st7 := set_next st6 (tail st6) 0 in
  let st8 := if head st7 =? 0 then with_head st7 (tail st7) else st7 in
  HMMadd_free_block (tail st8) st8.

Fixpoint HMMget_free_chunk (fuel : nat) (sz : Z) (st : state)
  : option (Z * state) :=
  match fuel with
  | O => None
  | S f =>
    let '(get_free, st0) := HMMget_free_block sz st in
    if negb (get_free =? 0) then Some (get_free, st0)
    else
      match scan_loop f (tail st0) sz st0 with
      | None => None
      | Some (found, st1) =>
        if negb (found =? 0) then Some (found, st1)
        else
          let nbytes := num_allocated_bytes sz in
          match sbrk nbytes st1 with
          | (None, st2) => Some (0, st2)
          | (Some new_free_space, st2) =>
            match HMMremove_free_block f (tail st2) st2 with
            | None => None
            | Some st3 =>
              if negb (tail st3 =? 0) && (is_free st3 (tail st3) =? 1) then
                let st4 := set_size st3 (tail st3)
                                    (wrap (size st3 (tail st3) + nbytes)) in
                let st5 := set_next st4 (tail st4) 0 in
                HMMget_free_chunk f sz st5
              else
                HMMget_free_chunk f sz (append_new_chunk new_free_space nbytes st3)
            end
          end
      end
  end.

(** ** The four operations *)

(** The backward walk of the shrink check (lines 350-362); yields the final
    [current] and [total_size]. *)
Fixpoint shrink_loop (fuel : nat) (current total_size : Z) (st : state)
  : option (Z * Z * state) :=
  match fuel with
  | O => None
  | S f =>
    if current =? 0 then Some (current, total_size, st)
    else if is_free st current =? 1 then
      let ts := wrap (total_size + size st current + HDR) in
      match HMMremove_free_block f current st with
      | None => None
      | Some st1 => shrink_loop f (prev st1 current) ts st1
      end
    else Some (current, total_size, st)
  end.

(** The coalescing part of [HMMfree] (lines 329-342); [am] is the chunk
    that was just marked free. *)
Definition free_merge (fuel : nat) (am : Z) (st1 : state) : option state :=
  if negb (prev st1 am =? 0) && (is_free st1 (prev st1 am) =? 1) then
    match HMMcoalesce fuel (prev st1 am) st1 with
    | None => None
    | Some s => Some (HMMadd_free_block (prev s am) s)
    end
  else if negb (next st1 am =? 0) && (is_free st1 (next st1 am) =? 1) then
    match HMMcoalesce fuel am st1 with
    | None => None
    | Some s => Some (HMMadd_free_block am s)
    end
  else Some (HMMadd_free_block am st1).

(** The shrink check of [HMMfree] (lines 345-380). *)
Definition shrink_check (fuel : nat) (st2 : state) : option state :=
  if ALLOCATED_BYTES <=? current_free_size st2 then
    match shrink_loop fuel (tail st2) 0 st2 with
    | None => None
    | Some (current, total_size, st3) =>
      if ALLOCATED_BYTES <=? total_size then
        let st4 := if current =? 0
                   then with_head (with_tail st3 0) 0
                   else (let s := with_tail st3 current in
                         set_next s (tail s) 0) in
        Some (snd (sbrk (wrap (- total_size)) st4))
      else Some st3
    end
  else Some st2.

Definition HMMfree (fuel : nat) (ptr : Z) (st : state) : option state :=
  if ptr =? 0 then Some st
  else
    let am := wrap (ptr - HDR) in
    if negb (is_free st am =? 0) then Some st
    else
      match free_merge fuel am (set_is_free st am 1) with
      | None => None
      | Some st2 => shrink_check fuel st2
      end.

Definition HMMmalloc (fuel : nat) (n : Z) (st : state) : option (Z * state) :=
  let sz := if n =? 0 then ALIGNMENT else n in
  let sz := align_up sz in
  match HMMget_free_chunk fuel sz st with
  | None => None
  | Some (c, st1) =>
    if c =? 0 then Some (0, st1)
    else Some (wrap (c + HDR), set_is_free st1 c 0)
  end.

Definition HMMcalloc (fuel : nat) (nmemb sz : Z) (st : state)
  : option (Z * state) :=
  if negb (sz =? 0) && (ULONG_MAX / sz <? nmemb) then Some (0, st)
  else
    let sz := align_up (wrap (sz * nmemb)) in
    let sz := if sz =? 0 then ALIGNMENT else sz in
    match HMMmalloc fuel sz st with
    | None => None
    | Some (p, st1) =>
      if p =? 0 then Some (0, st1)
      else Some (p, with_mem st1 (memset0 (mem st1) p (size st1 (wrap (p - HDR)))))
    end.

Definition HMMrealloc (fuel : nat) (ptr n : Z) (st : state)
  : option (Z * state) :=
  let sz := align_up n in
  if ptr =? 0 then HMMmalloc fuel sz st
  else if sz =? 0 then
    match HMMfree fuel ptr st with
    | None => None
    | Some st1 => HMMmalloc fuel ALIGNMENT st1
    end
  else if sz =? size st (wrap (ptr - HDR)) then Some (ptr, st)
  else
    match HMMmalloc fuel sz st with
    | None => None
    | Some (q, st1) =>
      if q =? 0 then Some (0, st1)
      else
        let allocation_size :=
          if size st1 (wrap (ptr - HDR)) <? size st1 (wrap (q - HDR))
          then size st1 (wrap (ptr - HDR)) else size st1 (wrap (q - HDR)) in
        let st2 := with_mem st1 (memcpy (mem st1) q ptr allocation_size) in
        match HMMfree fuel ptr st2 with
        | None => None
        | Some st3 => Some (q, st3)
        end
    end.

(** The exported wrappers take the process-wide mutex around the [HMM]
    routine; one thread runs at a time here, so the lock is always
    acquired and the wrappers are the routines themselves. *)
Definition malloc := HMMmalloc.
Definition free := HMMfree.
Definition calloc := HMMcalloc.
Definition realloc := HMMrealloc.

(** The empty heap: zero-filled memory, zeroed statics, and the break at
    [b] inside the window [b, hi]. *)
Definition init_state (b hi : Z) : state :=
  mkState (fun _ => 0) (fun _ => 0) 0 0 0 b b hi [].

(** A caller writing one byte of a payload it owns. *)
Definition user_store (st : state) (a v : Z) : state :=
  with_mem st (store8 (mem st) a v).

(** ** Well-formed heaps

    The predicates below describe a heap through ghost data: the list [L]
    of chunk addresses in address order, and the contents [bk i] of every
    bucket of the freelist index. *)

Definition bytes_ok (st : state) : Prop := forall x, 0 <= mem st x < 256.

(** The size class [(size / ALIGNMENT) - 1] of a chunk. *)
Definition bucket_of (st : state) (c : Z) : Z :=
  wrap (size st c / ALIGNMENT - 1).

(** Headers do not overlap, are not null and fit in the address space. *)
Definition apart (L : list Z) : Prop :=
  forall a b, In a L -> In b L -> a = b \/ a + HDR <= b \/ b + HDR <= a.
Definition placed (L : list Z) : Prop :=
  forall a, In a L -> 0 < a /\ a + HDR <= WORD.

(** [fchain st p l]: following [next_free] from [p] visits exactly [l] and
    then reaches null. *)
Fixpoint fchain (st : state) (p : Z) (l : list Z) : Prop :=
  match l with
  | [] => p = 0
  | a :: l' => p = a /\ a <> 0 /\ fchain st (next_free st a) l'
  end.

Definition index_ok (st : state) (L : list Z) (bk : Z -> list Z) : Prop :=
  forall i, 0 <= i < MULTIPLES_MAX ->
    fchain st (block_freq st i) (bk i) /\ NoDup (bk i) /\
    forall a, In a (bk i) ->
      In a L /\ bucket_of st a = i /\ is_added st a = 1.

Definition bk_remove (bk : Z -> list Z) (i b : Z) : Z -> list Z :=
  fun j => if j =? i then List.remove Z.eq_dec b (bk j) else bk j.
Definition bk_add (bk : Z -> list Z) (i b : Z) : Z -> list Z :=
  fun j => if j =? i then b :: bk j else bk j.

(** What [HMMremove_free_block] does once the loop has found [block], with
    [prv] its predecessor in the bucket (lines 86-96). *)
Definition remove_found (st : state) (block idx prv : Z) : state :=
  let st1 := set_is_added st block 0 in
  let st2 := with_cfs st1 (wrap (current_free_size st1 - size st1 block)) in
  if negb (prv =? 0)
  then set_next_free st2 prv (next_free st2 block)
  else set_freq st2 idx (next_free st2 (block_freq st2 idx)).

(** The bytes the index routines may write: the [is_added] and [next_free]
    fields of the headers in [L]. *)
Definition index_byte (L : list Z) (x : Z) : Prop :=
  exists a, In a L /\ (x = a \/ a + 32 <= x < a + HDR).

(** [st'] differs from [st] in index bytes, the bucket array and the
    accumulator at most. *)
Definition index_step (L : list Z) (st st' : state) : Prop :=
  head st' = head st /\ tail st' = tail st /\ brk st' = brk st /\
  brk_lo st' = brk_lo st /\ brk_hi st' = brk_hi st /\
  sbrk_log st' = sbrk_log st /\
  forall x, ~ index_byte L x -> mem st' x = mem st x.

(** [tiling st L]: consecutive chunks of [L] are linked both ways and each
    one starts where the payload of the one before ends. *)
Fixpoint tiling (st : state) (L : list Z) : Prop :=
  match L with
  | a :: ((b :: _) as L') =>
    next st a = b /\ prev st b = a /\ b = a + HDR + size st a /\ tiling st L'
  | _ => True
  end.

(** Bytes covered by the chunks of [r], headers included. *)
Fixpoint span (st : state) (r : list Z) : Z :=
  match r with
  | [] => 0
  | c :: r' => size st c + HDR + span st r'
  end.

(** Sum of the payload sizes of the chunks of [r]. *)
Fixpoint sum_sizes (st : state) (r : list Z) : Z :=
  match r with
  | [] => 0
  | c :: r' => size st c + sum_sizes st r'
  end.

(** The chunk list of HMM.c: the chunks [L] in address order from [head]
    to [tail], inside the address space. *)
Definition chunk_list (st : state) (L : list Z) : Prop :=
  tiling st L /\ head st = hd 0 L /\ tail st = last L 0 /\
  (L <> [] ->
   0 < hd 0 L /\ prev st (hd 0 L) = 0 /\ next st (last L 0) = 0 /\
   hd 0 L + span st L <= WORD).

(** [nseg st r stop]: following [next] through the chunks of [r] leads to
    [stop]. *)
Fixpoint nseg (st : state) (r : list Z) (stop : Z) : Prop :=
  match r with
  | [] => True
  | c :: r' => next st c = hd stop r' /\ nseg st r' stop
  end.

(** The writes of [HMMcoalesce] after its loop, taken when
    [total_size > 0] (lines 201-209). *)
Definition coalesce_finish (st1 : state) (lc current ts : Z) : state :=
  let st2 := set_size st1 lc (wrap (size st1 lc + ts)) in
  let st3 := set_next st2 lc current in
  let st4 := if negb (current =? 0) then set_prev st3 current lc else st3 in
  if current =? 0
  then (let st5 := with_tail st4 lc in set_next st5 (tail st5) 0)
  else st4.

(** Flags and index agree: a set [is_added] flag means the chunk is in the
    bucket of its size; a free chunk whose size class the index can hold is
    in the index. *)
Definition flags_ok (st : state) (L : list Z) (bk : Z -> list Z) : Prop :=
  forall a, In a L -> is_added st a <> 0 ->
    bucket_of st a < MULTIPLES_MAX /\ In a (bk (bucket_of st a)).
Definition free_indexed (st : state) (L : list Z) (bk : Z -> list Z) : Prop :=
  forall a, In a L -> is_free st a = 1 -> bucket_of st a < MULTIPLES_MAX ->
    In a (bk (bucket_of st a)).

Definition heap_ok (st : state) (L : list Z) (bk : Z -> list Z) : Prop :=
  bytes_ok st /\ chunk_list st L /\ index_ok st L bk /\
  flags_ok st L bk /\ free_indexed st L bk.

(** The setting of the scan: non-overlapping headers, a well-formed index,
    and [prev] links that stay inside [L]. *)
Definition scan_ok (st : state) (L : list Z) (bk : Z -> list Z) : Prop :=
  bytes_ok st /\ apart L /\ placed L /\ index_ok st L bk /\
  (tail st = 0 \/ In (tail st) L) /\
  (forall a, In a L -> prev st a = 0 \/ In (prev st a) L).


(** An allocated chunk [c] whose payload [lo, hi) no header of [L]
    overlaps. *)
Definition guarded (st : state) (L : list Z) (c lo hi : Z) : Prop :=
  In c L /\ is_free st c = 0 /\
  (forall a, In a L -> a + HDR <= lo \/ hi <= a).

(** The break lies in its window; a header placed at the top of the
    window still fits in the address space. *)
Definition env_ok (st : state) : Prop :=
  0 < brk_lo st /\ brk_lo st <= brk st <= brk_hi st /\
  brk_hi st + HDR <= WORD.

Definition below_brk (st : state) (L : list Z) (hi : Z) : Prop :=
  (forall a, In a L -> a + HDR <= brk st) /\ hi <= brk st.

(** The state of [append_new_chunk] just before the new chunk is
    indexed. *)
Definition link_new_chunk (new_chunk nbytes : Z) (st : state) : state :=
  let st1 := set_is_free st new_chunk 1 in
  let st2 := set_size st1 new_chunk (wrap (nbytes - HDR)) in
  let st3 := set_prev st2 new_chunk (tail st2) in
  let st4 := set_next st3 new_chunk 0 in
  let st5 := if negb (tail st4 =? 0)
             then set_next st4 (tail st4) new_chunk else st4 in
  let st6 := with_tail st5 new_chunk in
  let st7 := set_next st6 (tail st6) 0 in
  if head st7 =? 0 then with_head st7 (tail st7) else st7.

(** The state of [split_chunk] just before the remainder is indexed
    (lines 241-256). *)
Definition split_link (current sz : Z) (st : state) : state :=
  let current_next := next st current in
  let splitted := wrap (current + HDR + sz) in
  let st1 := set_prev st splitted current in
  let st2 := set_next st1 splitted current_next in
  let st3 := set_is_free st2 splitted 1 in
  let st4 := if negb (current_next =? 0)
             then set_prev st3 current_next splitted else st3 in
  let st5 := set_next st4 current splitted in
  let st6 := if current =? tail st5
             then (let s := with_tail st5 splitted in set_next s (tail s) 0)
             else st5 in
  set_size st6 splitted (wrap (size st6 current - sz - HDR)).

(** What the scan does with the chunk it found once the chunk has left the
    index (lines 239-260). *)
Definition take_chunk (current sz : Z) (st1 : state) : state :=
  if wrap (HDR + sz) <? size st1 current
  then split_chunk current sz st1 else st1.

(** The chunk list ends at the break. *)
Definition top_ok (st : state) (L : list Z) : Prop :=
  L <> [] -> hd 0 L + span st L = brk st.

(** A well-formed arena: chunk list, index and break. *)
Definition arena_ok (st : state) (L : list Z) (bk : Z -> list Z) : Prop :=
  bytes_ok st /\ chunk_list st L /\ index_ok st L bk /\ env_ok st /\
  top_ok st L.

(** [heap_ok] but for the chunk [c], which may be free and outside the
    index: the state between taking [c] out of the index and marking it
    allocated. *)
Definition heap_ok_but (st : state) (L : list Z) (bk : Z -> list Z) (c : Z)
  : Prop :=
  bytes_ok st /\ chunk_list st L /\ index_ok st L bk /\ flags_ok st L bk /\
  forall a, In a L -> a <> c -> is_free st a = 1 ->
    bucket_of st a < MULTIPLES_MAX -> In a (bk (bucket_of st a)).

(** ** Specification-side definitions and scenarios *)

(** The grow amount as the specification words it: the ceiling of
    [(requested + header_size + ARENA_UNIT) / ARENA_UNIT], times
    [ARENA_UNIT]. *)
Definition spec_grow_bytes (requested : Z) : Z :=
  (requested + HDR + ALLOCATED_BYTES + (ALLOCATED_BYTES - 1)) / ALLOCATED_BYTES
  * ALLOCATED_BYTES.

(** The same with the floor that C's unsigned division computes. *)
Definition floor_grow_bytes (requested : Z) : Z :=
  wrap (requested + HDR + ALLOCATED_BYTES) / ALLOCATED_BYTES * ALLOCATED_BYTES.

(** Sum of [size] over the chunks reached from [c] by [next] whose
    [is_added] flag is set. *)
Fixpoint added_sum (fuel : nat) (c : Z) (st : state) : Z :=
  match fuel with
  | O => 0
  | S f =>
    if c =? 0 then 0
    else (if is_added st c =? 0 then 0 else size st c)
         + added_sum f (next st c) st
  end.

(** Every chunk reached from [c] by [next] that is free has its
    [is_added] flag set. *)
Fixpoint all_free_added (fuel : nat) (c : Z) (st : state) : bool :=
  match fuel with
  | O => true
  | S f =>
    if c =? 0 then true
    else (negb (is_free st c =? 1) || negb (is_added st c =? 0))
         && all_free_added f (next st c) st
  end.

(** A caller filling [n] bytes from [a] with the byte [v]. *)
Fixpoint fill (n : nat) (a v : Z) (st : state) : state :=
  match n with
  | O => st
  | S k => fill k (a + 1) v (user_store st a v)
  end.

(** An empty heap with the break at 4 MiB and room for 64 MiB. *)
Definition heap0 : state := init_state 4194304 (4194304 + 64 * 1024 * 1024).

(** Sequencing of fallible steps. *)
Definition bind {A B : Type} (x : option A) (k : A -> option B) : option B :=
  match x with
  | Some a => k a
  | None => None
  end.

(** [malloc(8)], [free], [malloc(16)] on the empty heap. *)
Definition acc_scenario : option state :=
  bind (HMMmalloc 8 8 heap0) (fun '(p, s1) =>
  bind (HMMfree 8 p s1) (fun s2 =>
  bind (HMMmalloc 8 16 s2) (fun '(_, s3) => Some s3))).

(** [malloc(16 MiB)] then [free] on the empty heap. *)
Definition big_free_scenario : option state :=
  bind (HMMmalloc 8 (16 * 1024 * 1024) heap0) (fun '(p, s1) => HMMfree 8 p s1).

(** [malloc(40)] then [free] on the empty heap; yields the pointer too. *)
Definition cycle_scenario : option (Z * state) :=
  bind (HMMmalloc 8 40 heap0) (fun '(p, s1) =>
  bind (HMMfree 8 p s1) (fun s2 => Some (p, s2))).

(** [p = malloc(64)], the caller fills the 64 bytes with [0xFF], then
    [realloc(p, SIZE_MAX)]; yields [p], the state before the resize, the
    returned pointer and the final state. *)
Definition resize_scenario : option (Z * state * Z * state) :=
  bind (HMMmalloc 8 64 heap0) (fun '(p, s1) =>
  let s2 := fill 64 p 255 s1 in
  bind (HMMrealloc 8 p (WORD - 1) s2) (fun '(q, s3) => Some (p, s2, q, s3))).

(** The heap after [malloc(16)] on the empty heap, as far as the request
    of [2^64 - 8 MiB - 40] bytes looks at it: an allocated chunk at
    4194304, then the free tail chunk at 4194360 with 8388512 payload
    bytes, alone or absent in bucket 1048563. *)
Definition diverge_inv (s : state) : Prop :=
  tail s = 4194360 /\ is_free s 4194360 = 1 /\ size s 4194360 = 8388512 /\
  prev s 4194360 = 4194304 /\ is_free s 4194304 = 0 /\ prev s 4194304 = 0 /\
  brk_lo s <= brk s <= brk_hi s /\
  (block_freq s 1048563 = 0 \/ block_freq s 1048563 = 4194360) /\
  (next_free s 4194360 = 0 \/ next_free s 4194360 = 4194360).

(** The request whose grow amount wraps to zero. *)
Definition wrapping_request : Z := WORD - ALLOCATED_BYTES - HDR.

(** A header written field by field. *)
Definition put_chunk (m : memory) (c added free sz pv nx nf : Z) : memory :=
  store64 (store64 (store64 (store64 (store8 (store8 m c added) (c + 1) free)
    (c + 8) sz) (c + 16) pv) (c + 24) nx) (c + 32) nf.

(** A full 8 MiB arena at 4194304 with three chunks: 64 bytes allocated,
    64 bytes free and indexed in bucket 7, 8388360 bytes allocated.  It is
    the heap [malloc(64); malloc(64); malloc(8388360); free(second)] builds
    when the break cannot go beyond the first arena. *)
Definition heap1 : state :=
  mkState
    (put_chunk
       (put_chunk
          (put_chunk (fun _ => 0) 4194304 0 0 64 0 4194408 0)
          4194408 1 1 64 4194304 4194512 0)
       4194512 0 0 8388360 4194408 0 0)
    (fun i => if i =? 7 then 4194408 else 0)
    4194304 4194512 64 12582912 4194304 12582912 [].

Definition chunks1 : list Z := [4194304; 4194408; 4194512].
Definition buckets1 : Z -> list Z := fun i => if i =? 7 then [4194408] else [].

(** [heap1] after a request of 16 MiB that the break cannot serve. *)
Definition heap1_failed : state :=
  match HMMget_free_chunk 8 16777216 heap1 with
  | Some (_, s) => s
  | None => heap1
  end.

(** The empty heap after the chunk for a 16-byte request was found. *)
Definition heap0_grown : state :=
  match HMMget_free_chunk 8 16 heap0 with
  | Some (_, s) => s
  | None => heap0
  end.

(** [p = malloc(64)], the caller stores the byte 1 at [p + 16], then
    [free(p)] and [malloc(16)]. *)
Definition acc_payload_scenario : option state :=
  bind (HMMmalloc 8 64 heap0) (fun '(p, s1) =>
  bind (HMMfree 8 p (user_store s1 (p + 16) 1)) (fun s2 =>
  bind (HMMmalloc 8 16 s2) (fun '(_, s3) => Some s3))).

(** The operations that build [heap1]. *)
Definition heap1_built : option state :=
  bind (HMMmalloc 8 64 (init_state 4194304 12582912)) (fun '(_, s1) =>
  bind (HMMmalloc 8 64 s1) (fun '(p2, s2) =>
  bind (HMMmalloc 8 8388360 s2) (fun '(_, s3) => HMMfree 8 p2 s3))).

(** The 40 header bytes of every chunk of [cs] agree in [s] and [s']. *)
Definition same_headers (cs : list Z) (s s' : state) : bool :=
  forallb (fun c =>
    forallb (fun i => load8 (mem s) (c + Z.of_nat i)
                      =? load8 (mem s') (c + Z.of_nat i)) (seq 0 40)) cs.

(** Every chunk in the index is free. *)
Definition index_free (st : state) (bk : Z -> list Z) : Prop :=
  forall i a, 0 <= i < MULTIPLES_MAX -> In a (bk i) -> is_free st a = 1.

(** [taken st L bk sz c st' L' bk']: from the arena [st] with chunks [L]
    and index [bk], the allocator took the chunk [c] for a request of [sz]
    bytes without moving the break, and left the arena [st'] with chunks
    [L'] and index [bk'].  The only header [L'] may have more than [L] is
    the remainder of a split, at [c + HDR + sz]; bytes outside the headers
    are untouched. *)
Definition taken (st : state) (L : list Z) (bk : Z -> list Z) (sz c : Z)
  (st' : state) (L' : list Z) (bk' : Z -> list Z) : Prop :=
  bytes_ok st' /\ chunk_list st' L' /\ index_ok st' L' bk' /\
  In c L' /\ sz <= size st' c <= sz + HDR /\
  hd 0 L' = hd 0 L /\ span st' L' = span st L /\
  (forall a, In a L -> In a L' /\ is_free st' a = is_free st a) /\
  (forall a, In a L -> a <> c -> size st' a = size st a) /\
  (forall a, In a L' -> In a L \/ a = c + HDR + sz) /\
  (forall i, 0 <= i < MULTIPLES_MAX -> ~ In c (bk' i)) /\
  head st' = head st /\ brk st' = brk st /\ brk_lo st' = brk_lo st /\
  brk_hi st' = brk_hi st /\ sbrk_log st' = sbrk_log st /\
  (forall x, (forall a, In a L' -> x < a \/ a + HDR <= x) ->
             mem st' x = mem st x) /\
  (heap_ok_but st L bk c ->
   (forall a, In a L' -> ~ In a L -> is_added st a = 0) ->
   heap_ok_but st' L' bk' c) /\
  (index_free st bk -> index_free st' bk' /\ is_free st c = 1).

(** Two states with the same memory and the same list and index roots. *)
Definition same_heap (st st' : state) : Prop :=
  mem st' = mem st /\ block_freq st' = block_freq st /\
  head st' = head st /\ tail st' = tail st.

(** [grown_by st L bk sz num st5 L5 bk5]: the break moved up by [num]
    bytes and the arena [st5] now ends in a free tail chunk of at least
    [sz] bytes, either the old tail chunk grown in place or a new chunk at
    the old break. *)
Definition grown_by (st : state) (L : list Z) (bk : Z -> list Z) (sz num : Z)
  (st5 : state) (L5 : list Z) (bk5 : Z -> list Z) : Prop :=
  bytes_ok st5 /\ chunk_list st5 L5 /\ index_ok st5 L5 bk5 /\
  tail st5 <> 0 /\ is_free st5 (tail st5) = 1 /\ sz <= size st5 (tail st5) /\
  hd 0 L5 + span st5 L5 = brk st + num /\
  brk st5 = brk st + num /\
  brk_lo st5 = brk_lo st /\ brk_hi st5 = brk_hi st /\
  sbrk_log st5 = num :: sbrk_log st /\
  brk_lo st <= brk st + num <= brk_hi st /\
  (length L5 <= S (length L))%nat /\
  (forall a, In a L -> In a L5 /\ is_free st5 a = is_free st a) /\
  (forall a, In a L -> is_free st a <> 1 -> size st5 a = size st a) /\
  (forall a, In a L5 -> In a L \/ a = brk st) /\
  (forall x, (forall a, In a L5 -> x < a \/ a + HDR <= x) ->
             mem st5 x = mem st x) /\
  (heap_ok st L bk ->
   (forall a, In a L5 -> ~ In a L -> is_added st a = 0) ->
   heap_ok_but st5 L5 bk5 (tail st5) /\
   (MULTIPLES_MAX <= wrap (sz / ALIGNMENT - 1) \/
    bk (wrap (sz / ALIGNMENT - 1)) = [] ->
    MULTIPLES_MAX <= wrap (sz / ALIGNMENT - 1) \/
    bk5 (wrap (sz / ALIGNMENT - 1)) = [])) /\
  (index_free st bk -> index_free st5 bk5).

(** [granted st L bk sz c st' L' bk']: [HMMget_free_chunk] answered the
    request of [sz] bytes with the chunk [c], after at most one call of the
    break primitive.  The headers [L'] may have more than [L] are the
    remainder of a split, at [c + HDR + sz], and a chunk created at the old
    break. *)
Definition granted (st : state) (L : list Z) (bk : Z -> list Z) (sz c : Z)
  (st' : state) (L' : list Z) (bk' : Z -> list Z) : Prop :=
  arena_ok st' L' bk' /\
  In c L' /\ sz <= size st' c <= sz + HDR /\
  (forall a, In a L -> In a L' /\ is_free st' a = is_free st a) /\
  (forall a, In a L -> a <> c -> is_free st a <> 1 ->
     size st' a = size st a) /\
  (forall a, In a L' -> In a L \/ a = c + HDR + sz \/ a = brk st) /\
  (forall i, 0 <= i < MULTIPLES_MAX -> ~ In c (bk' i)) /\
  brk_lo st' = brk_lo st /\ brk_hi st' = brk_hi st /\
  (sbrk_log st' = sbrk_log st /\ brk st' = brk st \/
   sbrk_log st' = num_allocated_bytes sz :: sbrk_log st /\
   brk st' = brk st + num_allocated_bytes sz) /\
  (forall x, (forall a, In a L' -> x < a \/ a + HDR <= x) ->
             mem st' x = mem st x) /\
  (heap_ok st L bk ->
   (forall a, In a L' -> ~ In a L -> is_added st a = 0) ->
   heap_ok_but st' L' bk' c) /\
  (index_free st bk ->
   index_free st' bk' /\ (In c L -> is_free st c = 1)).

(** [refused st L bk sz st' bk']: the break primitive refused the request;
    the arena is as it was, but for the log of the call. *)
Definition refused (st : state) (L : list Z) (bk : Z -> list Z) (sz : Z)
  (st' : state) (bk' : Z -> list Z) : Prop :=
  arena_ok st' L bk' /\
  brk_hi st < brk st + num_allocated_bytes sz /\
  sbrk_log st' = num_allocated_bytes sz :: sbrk_log st /\
  brk st' = brk st /\ brk_lo st' = brk_lo st /\ brk_hi st' = brk_hi st /\
  (forall a, In a L ->
     is_free st' a = is_free st a /\ size st' a = size st a) /\
  (forall x, (forall a, In a L -> x < a \/ a + HDR <= x) ->
             mem st' x = mem st x) /\
  (heap_ok st L bk -> heap_ok st' L bk') /\
  (index_free st bk -> index_free st' bk').

(** Chunk headers and the break sit on 8-byte boundaries. *)
Definition aligned (st : state) (L : list Z) : Prop :=
  brk st mod 8 = 0 /\ forall a, In a L -> a mod 8 = 0.

(** [handed_out st L bk sz c st' L' bk']: [HMMmalloc] answered a request
    rounded to [sz] bytes with the payload of the chunk [c]: [c] is
    allocated and has between [sz] and [sz + HDR] payload bytes, the other
    chunks of [L] keep their state, the allocated ones their size, bytes
    outside the headers of [L'] are untouched, and the break primitive was
    called at most once. *)
Definition handed_out (st : state) (L : list Z) (bk : Z -> list Z) (sz c : Z)
  (st' : state) (L' : list Z) (bk' : Z -> list Z) : Prop :=
  arena_ok st' L' bk' /\
  In c L' /\ is_free st' c = 0 /\ sz <= size st' c <= sz + HDR /\
  (forall a, In a L -> In a L' /\ (a <> c -> is_free st' a = is_free st a)) /\
  (forall a, In a L -> a <> c -> is_free st a <> 1 ->
     size st' a = size st a) /\
  (forall a, In a L' -> In a L \/ a = c + HDR + sz \/ a = brk st) /\
  brk_lo st' = brk_lo st /\ brk_hi st' = brk_hi st /\
  (sbrk_log st' = sbrk_log st /\ brk st' = brk st \/
   sbrk_log st' = num_allocated_bytes sz :: sbrk_log st /\
   brk st' = brk st + num_allocated_bytes sz) /\
  (forall x, (forall a, In a L' -> x < a \/ a + HDR <= x) ->
             mem st' x = mem st x) /\
  (heap_ok st L bk ->
   (forall a, In a L' -> ~ In a L -> is_added st a = 0) ->
   heap_ok st' L' bk') /\
  (index_free st bk ->
   index_free st' bk' /\ (In c L -> is_free st c = 1)).

(** The size [HMMmalloc] asks [HMMget_free_chunk] for (lines 390-394). *)
Definition request_size (n : Z) : Z :=
  align_up (if n =? 0 then ALIGNMENT else n).

(** ** [HMMtraverse] (lines 531-541)

    The walk prints one line per chunk; the model yields the values passed
    to [printf], in order: node number, address, [is_free], [size] (the
    conversions of the format string are not modelled). *)
Fixpoint traverse_loop (fuel : nat) (cur cnt : Z) (st : state)
  : option (list (Z * Z * Z * Z)) :=
  match fuel with
  | O => None
  | S f =>
    if cur =? 0 then Some []
    else
      match traverse_loop f (next st cur) (wrap (cnt + 1)) st with
      | None => None
      | Some l => Some ((cnt, cur, is_free st cur, size st cur) :: l)
      end
  end.

Definition HMMtraverse (fuel : nat) (st : state)
  : option (list (Z * Z * Z * Z)) :=
  traverse_loop fuel (head st) 1 st.

(** The lines expected for the chunks [L], numbered from [cnt]. *)
Fixpoint report (st : state) (cnt : Z) (L : list Z) : list (Z * Z * Z * Z) :=
  match L with
  | [] => []
  | a :: L' => (cnt, a, is_free st a, size st a) :: report st (wrap (cnt + 1)) L'
  end.

(** ** The driver (src/free_and_sbrk.c) *)

Definition MAX_ALLOCS : Z := 10000.

Definition min (a b : Z) : Z := if a <? b then a else b.

Record params : Type := mkParams {
  numAllocs : Z;
  blockSize : Z;
  freeStep : Z;
  freeMin : Z;
  freeMax : Z
}.

(** The parameters [main] draws from five successive results of [rand()];
    [%] on [int] truncates, as [Z.rem]. *)
Definition draw (r1 r2 r3 r4 r5 : Z) : params :=
  let na := Z.rem r1 MAX_ALLOCS + 1 in
  mkParams na (Z.rem r2 MAX_ALLOCS + 1) (Z.rem r3 MAX_ALLOCS + 1)
           (Z.rem r4 MAX_ALLOCS + 1) (min na (Z.rem r5 MAX_ALLOCS + 1)).

(** The test of line 31, which guards the message
    ["free-max > num-allocs"]. *)
Definition warns (p : params) : bool := numAllocs p <? freeMax p.

(** The allocation loop: [count] calls of [malloc(blockSize)], the
    pointers stored in order. *)
Fixpoint alloc_loop (fuel count : nat) (bsize : Z) (st : state)
  : option (list Z * state) :=
  match count with
  | O => Some ([], st)
  | S k =>
    match malloc fuel bsize st with
    | None => None
    | Some (p, st1) =>
      match alloc_loop fuel k bsize st1 with
      | None => None
      | Some (ps, st2) => Some (p :: ps, st2)
      end
    end
  end.

(** The indices the loop [for (j = freeMin - 1; j < freeMax; j += freeStep)]
    visits. *)
Fixpoint free_indices (steps : nat) (j fmax fstep : Z) : option (list Z) :=
  match steps with
  | O => None
  | S s =>
    if j <? fmax then
      match free_indices s (j + fstep) fmax fstep with
      | None => None
      | Some l => Some (j :: l)
      end
    else Some []
  end.

(** The free loop itself; [ptr[j]] is the [j]-th pointer stored (a slot
    the allocation loop did not fill, which the loop never reaches, reads
    as null here). *)
Fixpoint free_loop (steps fuel : nat) (j fmax fstep : Z) (ptr : list Z)
  (st : state) : option state :=
  match steps with
  | O => None
  | S s =>
    if j <? fmax then
      match free fuel (nth (Z.to_nat j) ptr 0) st with
      | None => None
      | Some st1 => free_loop s fuel (j + fstep) fmax fstep ptr st1
      end
    else Some st
  end.

(** [main] from the draw to the last [sbrk(0)]; the three calls of
    [sbrk(0)] only read the break. *)
Definition driver (steps fuel : nat) (r1 r2 r3 r4 r5 : Z) (st : state)
  : option state :=
  let p := draw r1 r2 r3 r4 r5 in
  let st0 := snd (sbrk 0 st) in
  match alloc_loop fuel (Z.to_nat (numAllocs p)) (blockSize p) st0 with
  | None => None
  | Some (ptr, st1) =>
    match free_loop steps fuel (freeMin p - 1) (freeMax p) (freeStep p) ptr
                    (snd (sbrk 0 st1)) with
    | None => None
    | Some st2 => Some (snd (sbrk 0 st2))
    end
  end.

(** [memset(p, 0, size)] as [HMMcalloc] applies it (line 424). *)
Definition zero_payload (st : state) (p : Z) : state :=
  with_mem st (memset0 (mem st) p (size st (wrap (p - HDR)))).

(** The size [HMMcalloc] passes to [HMMmalloc] (lines 416-418). *)
Definition calloc_size (nmemb sz : Z) : Z :=
  let s := align_up (wrap (sz * nmemb)) in
  if s =? 0 then ALIGNMENT else s.

(** ** Giving chunks back *)

(** Every chunk lies at or above the bottom of the break window. *)
Definition based (st : state) (L : list Z) : Prop :=
  forall a, In a L -> brk_lo st <= a.

(** [kept st L c st' L']: the headers [L'] are among those of [L]; [c] is
    no longer handed out; every other allocated chunk of [L] is still
    there, allocated and of the same size; bytes outside the headers of
    [L] are untouched. *)
Definition kept (st : state) (L : list Z) (c : Z) (st' : state) (L' : list Z)
  : Prop :=
  (forall a, In a L' -> In a L) /\
  (forall a, In a L' -> is_free st' a = 0 -> a <> c /\ is_free st a = 0) /\
  (forall a, In a L -> a <> c -> is_free st a = 0 ->
     In a L' /\ is_free st' a = 0 /\ size st' a = size st a) /\
  (forall x, (forall a, In a L -> x < a \/ a + HDR <= x) ->
             mem st' x = mem st x) /\
  brk_lo st' = brk_lo st /\ brk_hi st' = brk_hi st.

(** [freed st L bk c st' L' bk']: [HMMfree] took back the chunk [c] and left
    the arena [st'] with chunks [L'] and index [bk']; the break either
    stayed, or went down by [t >= ALLOCATED_BYTES] bytes, to the address
    of a chunk of [L], in one call of the break primitive; an index of
    free chunks stays one. *)
Definition freed (st : state) (L : list Z) (bk : Z -> list Z) (c : Z)
  (st' : state) (L' : list Z) (bk' : Z -> list Z) : Prop :=
  arena_ok st' L' bk' /\ kept st L c st' L' /\
  (sbrk_log st' = sbrk_log st /\ brk st' = brk st \/
   exists t, ALLOCATED_BYTES <= t /\
     sbrk_log st' = wrap (- t) :: sbrk_log st /\ brk st' = brk st - t /\
     In (brk st') L) /\
  (index_free st bk -> index_free st' bk').

(** The arenas the four operations work on: well-formed, inside the break
    window, every indexed chunk free, headers on 8-byte boundaries, and
    addresses that fit a signed word. *)
Definition sound (st : state) (L : list Z) (bk : Z -> list Z) : Prop :=
  arena_ok st L bk /\ based st L /\ index_free st bk /\ aligned st L /\
  brk_hi st < 2 ^ 63.

(** [distinct_live st L ps]: every pointer of [ps] is null or the payload
    of an allocated chunk of [L], and no payload occurs twice. *)
Fixpoint distinct_live (st : state) (L : list Z) (ps : list Z) : Prop :=
  match ps with
  | [] => True
  | p :: ps' =>
    (p = 0 \/ (exists c, p = c + HDR /\ In c L /\ is_free st c = 0 /\
                         ~ In p ps')) /\
    distinct_live st L ps'
  end.

(** * Memory lemmas *)

Lemma mod_split (v k j : Z) : 0 <= k -> 0 <= j ->
  (v / 2 ^ k) mod (2 ^ (8 + j))
  = (v / 2 ^ k) mod 256 + 256 * ((v / 2 ^ (k + 8)) mod 2 ^ j).
Proof.
  intros Hk Hj. rewrite (Z.pow_add_r 2 8 j) by lia.
  rewrite (Z.pow_add_r 2 k 8) by lia. change (2 ^ 8) with 256.
  rewrite <- Z.div_div by lia.
  apply Z.rem_mul_r; lia.
Qed.

Lemma bytes_sum (v : Z) :
  v mod 256 + 2 ^ 8 * ((v / 2 ^ 8) mod 256) + 2 ^ 16 * ((v / 2 ^ 16) mod 256)
  + 2 ^ 24 * ((v / 2 ^ 24) mod 256) + 2 ^ 32 * ((v / 2 ^ 32) mod 256)
  + 2 ^ 40 * ((v / 2 ^ 40) mod 256) + 2 ^ 48 * ((v / 2 ^ 48) mod 256)
  + 2 ^ 56 * ((v / 2 ^ 56) mod 256) = v mod 2 ^ 64.
Proof.
  pose proof (mod_split v 0 56 ltac:(lia) ltac:(lia)) as H0.
  pose proof (mod_split v 8 48 ltac:(lia) ltac:(lia)) as H1.
  pose proof (mod_split v 16 40 ltac:(lia) ltac:(lia)) as H2.
  pose proof (mod_split v 24 32 ltac:(lia) ltac:(lia)) as H3.
  pose proof (mod_split v 32 24 ltac:(lia) ltac:(lia)) as H4.
  pose proof (mod_split v 40 16 ltac:(lia) ltac:(lia)) as H5.
  pose proof (mod_split v 48 8 ltac:(lia) ltac:(lia)) as H6.
  change (2 ^ 0) with 1 in H0. rewrite Z.div_1_r in H0.
  change (8 + 56) with 64 in *. change (8 + 48) with 56 in *.
  change (8 + 40) with 48 in *. change (8 + 32) with 40 in *.
  change (8 + 24) with 32 in *. change (8 + 16) with 24 in *.
  change (8 + 8) with 16 in *. change (0 + 8) with 8 in *.
  change (16 + 8) with 24 in *. change (24 + 8) with 32 in *.
  change (32 + 8) with 40 in *. change (40 + 8) with 48 in *.
  change (48 + 8) with 56 in *.
  change (2 ^ 8) with 256 in *.
  rewrite H0, H1, H2, H3, H4, H5, H6.
  generalize (v mod 256) ((v / 256) mod 256) ((v / 2 ^ 16) mod 256)
    ((v / 2 ^ 24) mod 256) ((v / 2 ^ 32) mod 256) ((v / 2 ^ 40) mod 256)
    ((v / 2 ^ 48) mod 256) ((v / 2 ^ 56) mod 256).
  intros. lia.
Qed.

Lemma load64_store64_same m a v : load64 (store64 m a v) a = wrap v.
Proof.
  unfold load64, store64, wrap, WORD.
  replace (a <=? a) with true by (symmetry; apply Z.leb_le; lia).
  repeat match goal with
  | |- context [ (a <=? a + ?k) ] => replace (a <=? a + k) with true by (symmetry; apply Z.leb_le; lia)
  | |- context [ (?x <? a + 8) ] => replace (x <? a + 8) with true by (symmetry; apply Z.ltb_lt; lia)
  end.
  cbn [andb].
  replace (a - a) with 0 by lia.
  replace (a + 1 - a) with 1 by lia. replace (a + 2 - a) with 2 by lia.
  replace (a + 3 - a) with 3 by lia. replace (a + 4 - a) with 4 by lia.
  replace (a + 5 - a) with 5 by lia. replace (a + 6 - a) with 6 by lia.
  replace (a + 7 - a) with 7 by lia.
  change (8 * 0) with 0. change (2 ^ 0) with 1. rewrite Z.div_1_r.
  change (8 * 1) with 8. change (8 * 2) with 16. change (8 * 3) with 24.
  change (8 * 4) with 32. change (8 * 5) with 40. change (8 * 6) with 48.
  change (8 * 7) with 56.
  apply bytes_sum.
Qed.

Lemma store64_other m a v x : x < a \/ a + 8 <= x -> store64 m a v x = m x.
Proof.
  intros H. unfold store64.
  destruct (a <=? x) eqn:E1; destruct (x <? a + 8) eqn:E2; cbn; try reflexivity.
  apply Z.leb_le in E1. apply Z.ltb_lt in E2. lia.
Qed.

Lemma store8_other m a v x : x <> a -> store8 m a v x = m x.
Proof.
  intros H. unfold store8. destruct (x =? a) eqn:E; [apply Z.eqb_eq in E; lia | reflexivity].
Qed.

Lemma load64_store64_other m a v b :
  a + 8 <= b \/ b + 8 <= a -> load64 (store64 m a v) b = load64 m b.
Proof. intros H. unfold load64. rewrite !store64_other by lia. reflexivity. Qed.

Lemma load64_store8_other m a v b :
  a < b \/ b + 8 <= a -> load64 (store8 m a v) b = load64 m b.
Proof. intros H. unfold load64. rewrite !store8_other by lia. reflexivity. Qed.

Lemma load8_store8_same m a v : load8 (store8 m a v) a = v mod 256.
Proof. unfold load8, store8. rewrite Z.eqb_refl. reflexivity. Qed.

Lemma load8_store8_other m a v b : b <> a -> load8 (store8 m a v) b = load8 m b.
Proof. apply store8_other. Qed.

Lemma load8_store64_other m a v b :
  b < a \/ a + 8 <= b -> load8 (store64 m a v) b = load8 m b.
Proof. apply store64_other. Qed.

Lemma wrap_range x : 0 <= wrap x < WORD.
Proof. unfold wrap, WORD. apply Z.mod_pos_bound. lia. Qed.

Lemma wrap_small x : 0 <= x < WORD -> wrap x = x.
Proof. intros H. unfold wrap. apply Z.mod_small. exact H. Qed.

Lemma wrap_wrap x : wrap (wrap x) = wrap x.
Proof. apply wrap_small, wrap_range. Qed.

Lemma wrap_add_l a b : wrap (wrap a + b) = wrap (a + b).
Proof. unfold wrap, WORD. apply Z.add_mod_idemp_l. lia. Qed.

Lemma load64_range m a :
  (forall x, 0 <= m x < 256) -> 0 <= load64 m a < WORD.
Proof.
  intros H. unfold load64, WORD.
  pose proof (H a). pose proof (H (a + 1)). pose proof (H (a + 2)).
  pose proof (H (a + 3)). pose proof (H (a + 4)). pose proof (H (a + 5)).
  pose proof (H (a + 6)). pose proof (H (a + 7)).
  change (2 ^ 8) with 256. change (2 ^ 16) with 65536.
  change (2 ^ 24) with 16777216. change (2 ^ 32) with 4294967296.
  change (2 ^ 40) with 1099511627776. change (2 ^ 48) with 281474976710656.
  change (2 ^ 56) with 72057594037927936.
  change (2 ^ 64) with 18446744073709551616.
  lia.
Qed.

Lemma store8_bytes m a v :
  (forall x, 0 <= m x < 256) -> forall x, 0 <= store8 m a v x < 256.
Proof.
  intros H x. unfold store8. destruct (x =? a); [apply Z.mod_pos_bound; lia | apply H].
Qed.

Lemma store64_bytes m a v :
  (forall x, 0 <= m x < 256) -> forall x, 0 <= store64 m a v x < 256.
Proof.
  intros H x. unfold store64.
  destruct ((a <=? x) && (x <? a + 8)); [apply Z.mod_pos_bound; lia | apply H].
Qed.

(** Normalisation of reads after writes; side conditions go to [lia]. *)
Ltac hlia := unfold HDR in *; lia.

Ltac mem_step :=
  match goal with
  | |- context [load64 (store64 ?m ?a ?v) ?a] =>
      rewrite (load64_store64_same m a v)
  | |- context [load8 (store8 ?m ?a ?v) ?a] =>
      rewrite (load8_store8_same m a v)
  | |- context [load64 (store64 ?m ?a ?v) ?b] =>
      rewrite (load64_store64_other m a v b) by hlia
  | |- context [load64 (store8 ?m ?a ?v) ?b] =>
      rewrite (load64_store8_other m a v b) by hlia
  | |- context [load8 (store8 ?m ?a ?v) ?b] =>
      rewrite (load8_store8_other m a v b) by hlia
  | |- context [load8 (store64 ?m ?a ?v) ?b] =>
      rewrite (load8_store64_other m a v b) by hlia
  end.

(** Projections of updated states. *)
Lemma mem_with_mem st m : mem (with_mem st m) = m.
Proof. reflexivity. Qed.
Lemma block_freq_with_mem st m : block_freq (with_mem st m) = block_freq st.
Proof. reflexivity. Qed.
Lemma head_with_mem st m : head (with_mem st m) = head st.
Proof. reflexivity. Qed.
Lemma tail_with_mem st m : tail (with_mem st m) = tail st.
Proof. reflexivity. Qed.
Lemma current_free_size_with_mem st m : current_free_size (with_mem st m) = current_free_size st.
Proof. reflexivity. Qed.
Lemma brk_with_mem st m : brk (with_mem st m) = brk st.
Proof. reflexivity. Qed.
Lemma brk_lo_with_mem st m : brk_lo (with_mem st m) = brk_lo st.
Proof. reflexivity. Qed.
Lemma brk_hi_with_mem st m : brk_hi (with_mem st m) = brk_hi st.
Proof. reflexivity. Qed.
Lemma sbrk_log_with_mem st m : sbrk_log (with_mem st m) = sbrk_log st.
Proof. reflexivity. Qed.
Lemma mem_with_freq st f : mem (with_freq st f) = mem st.
Proof. reflexivity. Qed.
Lemma block_freq_with_freq st f : block_freq (with_freq st f) = f.
Proof. reflexivity. Qed.
Lemma head_with_freq st f : head (with_freq st f) = head st.
Proof. reflexivity. Qed.
Lemma tail_with_freq st f : tail (with_freq st f) = tail st.
Proof. reflexivity. Qed.
Lemma current_free_size_with_freq st f : current_free_size (with_freq st f) = current_free_size st.
Proof. reflexivity. Qed.
Lemma brk_with_freq st f : brk (with_freq st f) = brk st.
Proof. reflexivity. Qed.
Lemma brk_lo_with_freq st f : brk_lo (with_freq st f) = brk_lo st.
Proof. reflexivity. Qed.
Lemma brk_hi_with_freq st f : brk_hi (with_freq st f) = brk_hi st.
Proof. reflexivity. Qed.
Lemma sbrk_log_with_freq st f : sbrk_log (with_freq st f) = sbrk_log st.
Proof. reflexivity. Qed.
Lemma mem_with_head st h : mem (with_head st h) = mem st.
Proof. reflexivity. Qed.
Lemma block_freq_with_head st h : block_freq (with_head st h) = block_freq st.
Proof. reflexivity. Qed.
Lemma head_with_head st h : head (with_head st h) = h.
Proof. reflexivity. Qed.
Lemma tail_with_head st h : tail (with_head st h) = tail st.
Proof. reflexivity. Qed.
Lemma current_free_size_with_head st h : current_free_size (with_head st h) = current_free_size st.
Proof. reflexivity. Qed.
Lemma brk_with_head st h : brk (with_head st h) = brk st.
Proof. reflexivity. Qed.
Lemma brk_lo_with_head st h : brk_lo (with_head st h) = brk_lo st.
Proof. reflexivity. Qed.
Lemma brk_hi_with_head st h : brk_hi (with_head st h) = brk_hi st.
Proof. reflexivity. Qed.
Lemma sbrk_log_with_head st h : sbrk_log (with_head st h) = sbrk_log st.
Proof. reflexivity. Qed.
Lemma mem_with_tail st t : mem (with_tail st t) = mem st.
Proof. reflexivity. Qed.
Lemma block_freq_with_tail st t : block_freq (with_tail st t) = block_freq st.
Proof. reflexivity. Qed.
Lemma head_with_tail st t : head (with_tail st t) = head st.
Proof. reflexivity. Qed.
Lemma tail_with_tail st t : tail (with_tail st t) = t.
Proof. reflexivity. Qed.
Lemma current_free_size_with_tail st t : current_free_size (with_tail st t) = current_free_size st.
Proof. reflexivity. Qed.
Lemma brk_with_tail st t : brk (with_tail st t) = brk st.
Proof. reflexivity. Qed.
Lemma brk_lo_with_tail st t : brk_lo (with_tail st t) = brk_lo st.
Proof. reflexivity. Qed.
Lemma brk_hi_with_tail st t : brk_hi (with_tail st t) = brk_hi st.
Proof. reflexivity. Qed.
Lemma sbrk_log_with_tail st t : sbrk_log (with_tail st t) = sbrk_log st.
Proof. reflexivity. Qed.
Lemma mem_with_cfs st c : mem (with_cfs st c) = mem st.
Proof. reflexivity. Qed.
Lemma block_freq_with_cfs st c : block_freq (with_cfs st c) = block_freq st.
Proof. reflexivity. Qed.
Lemma head_with_cfs st c : head (with_cfs st c) = head st.
Proof. reflexivity. Qed.
Lemma tail_with_cfs st c : tail (with_cfs st c) = tail st.
Proof. reflexivity. Qed.
Lemma current_free_size_with_cfs st c : current_free_size (with_cfs st c) = c.
Proof. reflexivity. Qed.
Lemma brk_with_cfs st c : brk (with_cfs st c) = brk st.
Proof. reflexivity. Qed.
Lemma brk_lo_with_cfs st c : brk_lo (with_cfs st c) = brk_lo st.
Proof. reflexivity. Qed.
Lemma brk_hi_with_cfs st c : brk_hi (with_cfs st c) = brk_hi st.
Proof. reflexivity. Qed.
Lemma sbrk_log_with_cfs st c : sbrk_log (with_cfs st c) = sbrk_log st.
Proof. reflexivity. Qed.
Create Rewrite HintDb state_proj.
#[export] Hint Rewrite mem_with_mem block_freq_with_mem head_with_mem tail_with_mem current_free_size_with_mem brk_with_mem brk_lo_with_mem brk_hi_with_mem sbrk_log_with_mem mem_with_freq block_freq_with_freq head_with_freq tail_with_freq current_free_size_with_freq brk_with_freq brk_lo_with_freq brk_hi_with_freq sbrk_log_with_freq mem_with_head block_freq_with_head head_with_head tail_with_head current_free_size_with_head : state_proj.
#[export] Hint Rewrite brk_with_head brk_lo_with_head brk_hi_with_head sbrk_log_with_head mem_with_tail block_freq_with_tail head_with_tail tail_with_tail current_free_size_with_tail brk_with_tail brk_lo_with_tail brk_hi_with_tail sbrk_log_with_tail mem_with_cfs block_freq_with_cfs head_with_cfs tail_with_cfs current_free_size_with_cfs brk_with_cfs brk_lo_with_cfs brk_hi_with_cfs sbrk_log_with_cfs : state_proj.

Ltac unfold_fields :=
  unfold is_added, is_free, size, prev, next, next_free,
    set_is_added, set_is_free, set_size, set_prev, set_next, set_next_free,
    set_freq in *;
  cbv zeta in *;
  autorewrite with state_proj in *.

Ltac mem_simpl := unfold_fields; repeat mem_step.

(** * The freelist index *)

Lemma bytes_ok_load8 st a : bytes_ok st -> 0 <= load8 (mem st) a < 256.
Proof. intros H. apply H. Qed.

Lemma bytes_ok_load64 st a : bytes_ok st -> 0 <= load64 (mem st) a < WORD.
Proof. intros H. apply load64_range. apply H. Qed.

Lemma size_range st a : bytes_ok st -> 0 <= size st a < WORD.
Proof. intros H. apply bytes_ok_load64, H. Qed.

Lemma bytes_ok_store8 st a v : bytes_ok st -> bytes_ok (with_mem st (store8 (mem st) a v)).
Proof. intros H x. cbn. apply store8_bytes, H. Qed.

Lemma bytes_ok_store64 st a v : bytes_ok st -> bytes_ok (with_mem st (store64 (mem st) a v)).
Proof. intros H x. cbn. apply store64_bytes, H. Qed.

Lemma last_cons_default (a : Z) l d : last (a :: l) d = last l a.
Proof.
  revert a d. induction l as [|b l IH]; intros a d; [reflexivity|].
  change (last (a :: b :: l) d) with (last (b :: l) d).
  rewrite (IH b d), (IH b a). reflexivity.
Qed.

Lemma remove_loop_notin st block idx :
  forall l fuel cur prv,
    fchain st cur l -> ~ In block l -> (length l < fuel)%nat ->
    remove_loop fuel block idx cur prv st = Some st.
Proof.
  induction l as [|a l IH]; intros fuel cur prv Hc Hn Hf.
  - cbn in Hc. subst cur. destruct fuel; [cbn in Hf; lia|]. reflexivity.
  - destruct Hc as (-> & Ha0 & Hc).
    destruct fuel as [|f]; [cbn in Hf; lia|]. cbn [remove_loop].
    destruct (Z.eqb_spec a 0) as [E|_]; [contradiction|].
    destruct (Z.eqb_spec a block) as [E|_].
    + exfalso. apply Hn. left. exact E.
    + apply IH; [exact Hc| |cbn in Hf; lia].
      intros Hin. apply Hn. right. exact Hin.
Qed.

Lemma remove_loop_in st block idx l2 :
  forall l1 fuel cur prv,
    fchain st cur (l1 ++ block :: l2) -> ~ In block l1 ->
    (length l1 < fuel)%nat ->
    remove_loop fuel block idx cur prv st
    = Some (remove_found st block idx (last l1 prv)).
Proof.
  induction l1 as [|a l1 IH]; intros fuel cur prv Hc Hn Hf.
  - destruct Hc as (-> & Hb0 & _).
    destruct fuel as [|f]; [cbn in Hf; lia|]. cbn [remove_loop].
    destruct (Z.eqb_spec block 0) as [E|_]; [contradiction|].
    rewrite Z.eqb_refl. unfold remove_found. cbn [last].
    destruct (negb (prv =? 0)); reflexivity.
  - destruct Hc as (-> & Ha0 & Hc).
    destruct fuel as [|f]; [cbn in Hf; lia|]. cbn [remove_loop].
    destruct (Z.eqb_spec a 0) as [E|_]; [contradiction|].
    destruct (Z.eqb_spec a block) as [E|_].
    + exfalso. apply Hn. left. exact E.
    + rewrite last_cons_default.
      apply IH; [exact Hc| |cbn in Hf; lia].
      intros Hin. apply Hn. right. exact Hin.
Qed.

Lemma fchain_frame st st' :
  forall l p,
    (forall a, In a l -> next_free st' a = next_free st a) ->
    fchain st p l -> fchain st' p l.
Proof.
  induction l as [|a l IH]; intros p Hf Hc; [exact Hc|].
  destruct Hc as (-> & Ha0 & Hc). cbn. repeat split; [exact Ha0|].
  rewrite Hf by (left; reflexivity).
  apply IH; [|exact Hc]. intros b Hb. apply Hf. right. exact Hb.
Qed.

Lemma fchain_unlink st st' block q l2 :
  forall l0 p,
    fchain st p ((l0 ++ [q]) ++ block :: l2) ->
    (forall a, In a (l0 ++ l2) -> next_free st' a = next_free st a) ->
    next_free st' q = next_free st block ->
    fchain st' p ((l0 ++ [q]) ++ l2).
Proof.
  induction l0 as [|a l0 IH]; intros p Hc Hfr Hq.
  - cbn in Hc. destruct Hc as (-> & Hq0 & _ & _ & Hc).
    cbn. repeat split; [exact Hq0|]. rewrite Hq.
    apply (fchain_frame st); [|exact Hc].
    intros c Hc2. apply Hfr. exact Hc2.
  - cbn [app fchain] in Hc. destruct Hc as (-> & Ha0 & Hc).
    cbn [app fchain]. repeat split; [exact Ha0|].
    rewrite Hfr by (left; reflexivity).
    apply IH; [exact Hc| |exact Hq].
    intros c Hc2. apply Hfr. right. exact Hc2.
Qed.

Lemma remove_app_mid (b : Z) l1 l2 :
  ~ In b l1 -> ~ In b l2 ->
  List.remove Z.eq_dec b (l1 ++ b :: l2) = l1 ++ l2.
Proof.
  intros H1 H2. rewrite remove_app. cbn [List.remove].
  destruct (Z.eq_dec b b) as [_|N]; [|contradiction].
  rewrite !notin_remove by assumption. reflexivity.
Qed.

Lemma NoDup_mid (b : Z) l1 l2 :
  NoDup (l1 ++ b :: l2) -> ~ In b l1 /\ ~ In b l2 /\ NoDup (l1 ++ l2).
Proof.
  intros H. pose proof (NoDup_remove_1 _ _ _ H) as H1.
  pose proof (NoDup_remove_2 _ _ _ H) as H2.
  repeat split; [| |exact H1]; intros Hin; apply H2, in_or_app; auto.
Qed.

Lemma index_step_refl L st : index_step L st st.
Proof. unfold index_step. repeat split; reflexivity. Qed.

Lemma index_step_trans L st1 st2 st3 :
  index_step L st1 st2 -> index_step L st2 st3 -> index_step L st1 st3.
Proof.
  unfold index_step.
  intros (A1 & A2 & A3 & A4 & A5 & A6 & A7) (B1 & B2 & B3 & B4 & B5 & B6 & B7).
  repeat split; try congruence.
  intros x Hx. rewrite B7, A7 by exact Hx. reflexivity.
Qed.

(** Under [index_step] the list fields of every header of [L] keep their
    values. *)
Lemma index_step_fields L st st' a :
  apart L -> index_step L st st' -> In a L ->
  is_free st' a = is_free st a /\ size st' a = size st a /\
  prev st' a = prev st a /\ next st' a = next st a.
Proof.
  intros Hap (_ & _ & _ & _ & _ & _ & Hm) Ha.
  assert (Hb : forall x, a < x < a + 32 -> mem st' x = mem st x).
  { intros x Hx. apply Hm. intros (b & Hb & Hxb).
    destruct (Hap a b Ha Hb) as [E|E]; unfold HDR in *; lia. }
  unfold is_free, size, prev, next, load8, load64.
  rewrite !Hb by lia. repeat split; reflexivity.
Qed.

Lemma index_step_outside L st st' x :
  index_step L st st' ->
  (forall a, In a L -> x < a \/ a + HDR <= x) ->
  mem st' x = mem st x.
Proof.
  intros (_ & _ & _ & _ & _ & _ & Hm) Hx. apply Hm.
  intros (b & Hb & Hxb). specialize (Hx b Hb). unfold HDR in *. lia.
Qed.

Lemma index_step_intro L st st' :
  head st' = head st -> tail st' = tail st -> brk st' = brk st ->
  brk_lo st' = brk_lo st -> brk_hi st' = brk_hi st ->
  sbrk_log st' = sbrk_log st ->
  (forall x, ~ index_byte L x -> mem st' x = mem st x) ->
  index_step L st st'.
Proof. unfold index_step. tauto. Qed.

Lemma remove_found_mem st L block idx prv :
  bytes_ok st -> apart L -> In block L -> prv = 0 \/ In prv L ->
  prv <> block -> (prv = 0 -> block_freq st idx = block) ->
  let st' := remove_found st block idx prv in
  index_step L st st' /\ bytes_ok st' /\
  (forall a, In a L -> a <> prv -> next_free st' a = next_free st a) /\
  (prv <> 0 -> next_free st' prv = next_free st block) /\
  is_added st' block = 0 /\
  (forall a, In a L -> a <> block -> is_added st' a = is_added st a) /\
  (forall i, block_freq st' i =
             if (prv =? 0) && (i =? idx)
             then next_free st block else block_freq st i) /\
  current_free_size st' = wrap (current_free_size st - size st block).
Proof.
  intros Hb Hap HbL Hprv Hne Hhd st'. subst st'. unfold remove_found.
  destruct (Z.eqb_spec prv 0) as [E0|E0]; cbn [negb andb].
  - (* head of the bucket *)
    specialize (Hhd E0).
    split; [|split; [|split; [|split; [|split; [|split; [|split]]]]]].
    + apply index_step_intro; try reflexivity.
      intros x Hx. mem_simpl. apply store8_other. intros ->. apply Hx.
      exists block. split; [exact HbL|left; reflexivity].
    + mem_simpl. intros x. apply store8_bytes, Hb.
    + intros a Ha Hap'. pose proof (Hap a block Ha HbL). unfold HDR in *.
      mem_simpl. reflexivity.
    + intros; contradiction.
    + mem_simpl. reflexivity.
    + intros a Ha Hab. mem_simpl. reflexivity.
    + intros i. mem_simpl. destruct (i =? idx); [|reflexivity].
      rewrite Hhd. mem_simpl. reflexivity.
    + mem_simpl. reflexivity.
  - destruct Hprv as [?|HpL]; [contradiction|].
    pose proof (Hap prv block HpL HbL) as Hpb. unfold HDR in *.
    split; [|split; [|split; [|split; [|split; [|split; [|split]]]]]].
    + apply index_step_intro; try reflexivity.
      intros x Hx. mem_simpl. rewrite store64_other, store8_other; [reflexivity| |].
      * intros ->. apply Hx. exists block. split; [exact HbL|left; reflexivity].
      * destruct (Z_lt_dec x (prv + 32)) as [?|?]; [left; assumption|].
        destruct (Z_le_dec (prv + 32 + 8) x) as [?|?]; [right; assumption|].
        exfalso. apply Hx. exists prv. split; [exact HpL|right; unfold HDR; lia].
    + mem_simpl. intros x. apply store64_bytes, store8_bytes, Hb.
    + intros a Ha Hap'. pose proof (Hap a block Ha HbL).
      pose proof (Hap a prv Ha HpL). mem_simpl. reflexivity.
    + intros _. mem_simpl. apply wrap_small. apply load64_range, Hb.
    + mem_simpl. reflexivity.
    + intros a Ha Hab. pose proof (Hap a prv Ha HpL). mem_simpl. reflexivity.
    + intros i. mem_simpl. reflexivity.
    + mem_simpl. reflexivity.
Qed.

Lemma bucket_of_step L st st' a :
  apart L -> index_step L st st' -> In a L -> bucket_of st' a = bucket_of st a.
Proof.
  intros Hap Hs Ha. unfold bucket_of.
  destruct (index_step_fields L st st' a Hap Hs Ha) as (_ & -> & _). reflexivity.
Qed.

Lemma remove_found_spec st L bk block l1 l2 :
  bytes_ok st -> apart L -> placed L -> index_ok st L bk ->
  0 <= bucket_of st block < MULTIPLES_MAX ->
  bk (bucket_of st block) = l1 ++ block :: l2 ->
  let st' := remove_found st block (bucket_of st block) (last l1 0) in
  index_ok st' L (bk_remove bk (bucket_of st block) block) /\
  index_step L st st' /\ bytes_ok st' /\
  is_added st' block = 0 /\
  (forall a, In a L -> a <> block -> is_added st' a = is_added st a) /\
  current_free_size st' = wrap (current_free_size st - size st block).
Proof.
  intros Hb Hap Hpl Hix Hrange Hbk st'.
  set (idx := bucket_of st block) in *.
  destruct (Hix idx Hrange) as (Hch & Hnd & Hmem).
  rewrite Hbk in Hch, Hnd.
  destruct (NoDup_mid _ _ _ Hnd) as (Hn1 & Hn2 & Hnd').
  assert (HbL : In block L).
  { apply (Hmem block). rewrite Hbk. apply in_or_app. right. left. reflexivity. }
  assert (Hin1 : forall a, In a l1 -> In a L /\ a <> 0 /\ a <> block).
  { intros a Ha. assert (In a (bk idx)) as Hin
      by (rewrite Hbk; apply in_or_app; left; exact Ha).
    destruct (Hmem a Hin) as (HaL & _ & _). repeat split; [exact HaL| |].
    - destruct (Hpl a HaL). lia.
    - intros ->. contradiction. }
  assert (Hprv : (last l1 0 = 0 \/ In (last l1 0) L) /\ last l1 0 <> block
                 /\ (last l1 0 = 0 -> l1 = [])
                 /\ (last l1 0 <> 0 -> In (last l1 0) l1)).
  { destruct l1 as [|x l1 _] using rev_ind.
    - cbn. repeat split; auto; try contradiction.
      intros E. destruct (Hpl block HbL). lia.
    - rewrite last_last.
      assert (Hx : In x (l1 ++ [x])) by (apply in_or_app; right; left; reflexivity).
      destruct (Hin1 x Hx) as (? & ? & ?).
      repeat split; auto. intros; contradiction. }
  destruct Hprv as (Hp1 & Hp2 & Hp3 & Hp4).
  assert (Hhd : last l1 0 = 0 -> block_freq st idx = block).
  { intros E. rewrite (Hp3 E) in Hch. cbn in Hch. apply Hch. }
  destruct (remove_found_mem st L block idx (last l1 0) Hb Hap HbL Hp1 Hp2 Hhd)
    as (Hstep & Hb' & Hnf & Hnfp & Hia & Hia' & Hbf & Hcfs).
  fold st' in Hstep, Hb', Hnf, Hnfp, Hia, Hia', Hbf, Hcfs.
  split; [|split; [exact Hstep|split; [exact Hb'|split; [exact Hia|split; [exact Hia'|exact Hcfs]]]]].
  intros i Hi. unfold bk_remove.
  destruct (Z.eqb_spec i idx) as [->|Hne].
  - (* the bucket of [block] *)
    rewrite Hbk, remove_app_mid by assumption.
    split; [|split].
    + rewrite Hbf, Z.eqb_refl, andb_true_r.
      destruct l1 as [|q l0 _] using rev_ind.
      * cbn [last app]. rewrite Z.eqb_refl.
        cbn in Hch. destruct Hch as (_ & _ & Hch).
        apply (fchain_frame st); [|exact Hch].
        intros a Ha. apply Hnf.
        -- apply (Hmem a). rewrite Hbk. right. exact Ha.
        -- cbn. intros ->.
           assert (In 0 (bk idx)) as Hin by (rewrite Hbk; right; exact Ha).
           destruct (Hmem 0 Hin) as (H0L & _). destruct (Hpl 0 H0L). lia.
      * rewrite last_last in *.
        assert (Hq : In q (l0 ++ [q])) by (apply in_or_app; right; left; reflexivity).
        destruct (Hin1 q Hq) as (HqL & Hq0 & Hqb).
        destruct (Z.eqb_spec q 0) as [?|_]; [contradiction|].
        apply (fchain_unlink st st' block q l2 l0); [exact Hch| |].
        -- intros a Ha. apply Hnf.
           ++ apply (Hmem a). rewrite Hbk. apply in_app_or in Ha.
              rewrite <- app_assoc. apply in_or_app.
              destruct Ha as [Ha|Ha]; [left; exact Ha|right; right; right; exact Ha].
           ++ intros ->.
              rewrite <- app_assoc in Hnd. cbn in Hnd.
              apply NoDup_remove_2 in Hnd. apply Hnd.
              apply in_app_or in Ha. apply in_or_app.
              destruct Ha as [Ha|Ha]; [left; exact Ha|right; right; exact Ha].
        -- apply Hnfp. exact Hq0.
    + exact Hnd'.
    + intros a Ha.
      assert (In a (bk idx)) as Hin.
      { rewrite Hbk. apply in_app_or in Ha. apply in_or_app.
        destruct Ha; [left|right; right]; assumption. }
      destruct (Hmem a Hin) as (HaL & Hbo & Had).
      assert (a <> block) by (intros ->; apply in_app_or in Ha; destruct Ha; contradiction).
      split; [exact HaL|]. split.
      * rewrite (bucket_of_step L st st' a Hap Hstep HaL). exact Hbo.
      * rewrite Hia' by assumption. exact Had.
  - (* any other bucket *)
    destruct (Hix i Hi) as (Hchi & Hndi & Hmemi).
    split; [|split].
    + rewrite Hbf. replace (i =? idx) with false by (symmetry; apply Z.eqb_neq; exact Hne).
      rewrite andb_false_r.
      apply (fchain_frame st); [|exact Hchi].
      intros a Ha. destruct (Hmemi a Ha) as (HaL & Hbo & _).
      apply Hnf; [exact HaL|]. intros ->.
      destruct (Z.eq_dec (last l1 0) 0) as [E|E].
      * destruct (Hpl 0); [rewrite <- E; exact HaL|lia].
      * specialize (Hp4 E).
        assert (In (last l1 0) (bk idx)) as Hin
          by (rewrite Hbk; apply in_or_app; left; exact Hp4).
        destruct (Hmem _ Hin) as (_ & Hbo' & _). congruence.
    + exact Hndi.
    + intros a Ha. destruct (Hmemi a Ha) as (HaL & Hbo & Had).
      split; [exact HaL|]. split.
      * rewrite (bucket_of_step L st st' a Hap Hstep HaL). exact Hbo.
      * rewrite Hia'; [exact Had|exact HaL|]. intros ->.
        subst idx. congruence.
Qed.

Lemma index_ok_ext st L bk bk' :
  (forall i, 0 <= i < MULTIPLES_MAX -> bk' i = bk i) ->
  index_ok st L bk -> index_ok st L bk'.
Proof. intros He H i Hi. rewrite (He i Hi). apply H. exact Hi. Qed.

Lemma bucket_length st L bk i :
  index_ok st L bk -> 0 <= i < MULTIPLES_MAX ->
  (length (bk i) <= length L)%nat.
Proof.
  intros H Hi. destruct (H i Hi) as (_ & Hnd & Hm).
  apply NoDup_incl_length; [exact Hnd|]. intros a Ha. apply (Hm a Ha).
Qed.

Lemma bucket_of_nonneg st a : 0 <= bucket_of st a.
Proof. unfold bucket_of. apply wrap_range. Qed.

(** [HMMremove_free_block] on a chunk of a well-formed heap. *)
Lemma HMMremove_spec st L bk b fuel :
  bytes_ok st -> apart L -> placed L -> index_ok st L bk -> In b L ->
  (length L < fuel)%nat ->
  exists st',
    HMMremove_free_block fuel b st = Some st' /\
    index_ok st' L (bk_remove bk (bucket_of st b) b) /\
    index_step L st st' /\ bytes_ok st' /\
    (forall a, In a L -> a <> b -> is_added st' a = is_added st a) /\
    (In b (bk (bucket_of st b)) -> bucket_of st b < MULTIPLES_MAX ->
       is_added st' b = 0 /\
       current_free_size st' = wrap (current_free_size st - size st b)) /\
    (~ In b (bk (bucket_of st b)) \/ MULTIPLES_MAX <= bucket_of st b -> st' = st).
Proof.
  intros Hb Hap Hpl Hix HbL Hfuel.
  unfold HMMremove_free_block.
  destruct (Z.eqb_spec b 0) as [E|_]; [destruct (Hpl b HbL); lia|].
  fold (bucket_of st b).
  pose proof (bucket_of_nonneg st b) as Hnn.
  destruct (Z.ltb_spec (bucket_of st b) MULTIPLES_MAX) as [Hlt|Hge].
  - destruct (in_dec Z.eq_dec b (bk (bucket_of st b))) as [Hin|Hnin].
    + destruct (in_split _ _ Hin) as (l1 & l2 & Hbk).
      destruct (Hix (bucket_of st b) (conj Hnn Hlt)) as (Hch & Hnd & _).
      rewrite Hbk in Hch, Hnd.
      destruct (NoDup_mid _ _ _ Hnd) as (Hn1 & _ & _).
      pose proof (bucket_length st L bk _ Hix (conj Hnn Hlt)) as Hlen.
      rewrite Hbk, length_app in Hlen.
      rewrite (remove_loop_in st b _ l2 l1) by (try assumption; lia).
      destruct (remove_found_spec st L bk b l1 l2 Hb Hap Hpl Hix (conj Hnn Hlt) Hbk)
        as (H1 & H2 & H3 & H4 & H5 & H6).
      eexists. split; [reflexivity|].
      split; [exact H1|]. split; [exact H2|]. split; [exact H3|].
      split; [exact H5|]. split; [intros _ _; split; assumption|].
      intros [N|N]; [contradiction|lia].
    + destruct (Hix (bucket_of st b) (conj Hnn Hlt)) as (Hch & Hnd & _).
      pose proof (bucket_length st L bk _ Hix (conj Hnn Hlt)) as Hlen.
      rewrite (remove_loop_notin st b _ (bk (bucket_of st b)))
        by (try assumption; lia).
      exists st. split; [reflexivity|].
      split.
      { apply (index_ok_ext st L bk); [|exact Hix]. intros i Hi.
        unfold bk_remove. destruct (Z.eqb_spec i (bucket_of st b)) as [->|_];
          [apply notin_remove; exact Hnin|reflexivity]. }
      split; [apply index_step_refl|]. split; [exact Hb|].
      split; [reflexivity|]. split; [intros; contradiction|reflexivity].
  - exists st. split; [reflexivity|].
    split.
    { apply (index_ok_ext st L bk); [|exact Hix]. intros i Hi.
      unfold bk_remove. destruct (Z.eqb_spec i (bucket_of st b)) as [->|_];
        [lia|reflexivity]. }
    split; [apply index_step_refl|]. split; [exact Hb|].
    split; [reflexivity|]. split; [intros; lia|reflexivity].
Qed.

Lemma fchain_head_range st L bk i :
  placed L -> index_ok st L bk -> 0 <= i < MULTIPLES_MAX ->
  0 <= block_freq st i < WORD.
Proof.
  intros Hpl Hix Hi. destruct (Hix i Hi) as (Hch & _ & Hm).
  destruct (bk i) as [|a l]; cbn in Hch.
  - rewrite Hch. unfold WORD. lia.
  - destruct Hch as (-> & _ & _).
    destruct (Hm a (or_introl eq_refl)) as (HaL & _).
    destruct (Hpl a HaL). unfold HDR in *. lia.
Qed.

(** [HMMadd_free_block] on a chunk of a well-formed heap. *)
Lemma HMMadd_spec st L bk b :
  bytes_ok st -> apart L -> placed L -> index_ok st L bk -> In b L ->
  let st' := HMMadd_free_block b st in
  index_step L st st' /\ bytes_ok st' /\
  (bucket_of st b < MULTIPLES_MAX -> is_added st b = 0 ->
     index_ok st' L (bk_add bk (bucket_of st b) b) /\
     is_added st' b = 1 /\
     current_free_size st' = wrap (current_free_size st + size st b) /\
     forall a, In a L -> a <> b -> is_added st' a = is_added st a) /\
  (MULTIPLES_MAX <= bucket_of st b \/ is_added st b <> 0 -> st' = st).
Proof.
  intros Hb Hap Hpl Hix HbL st'. subst st'.
  unfold HMMadd_free_block, HMMis_block_found.
  destruct (Z.eqb_spec b 0) as [E|_]; [destruct (Hpl b HbL); lia|].
  fold (bucket_of st b). set (idx := bucket_of st b).
  pose proof (bucket_of_nonneg st b) as Hnn. fold idx in Hnn.
  destruct (Z.ltb_spec idx MULTIPLES_MAX) as [Hlt|Hge].
  2:{ split; [apply index_step_refl|]. split; [exact Hb|].
      split; [intros; lia|reflexivity]. }
  destruct (Z.eqb_spec (is_added st b) 0) as [Hz|Hnz]; cbn [negb].
  2:{ split; [apply index_step_refl|]. split; [exact Hb|].
      split; [intros; contradiction|reflexivity]. }
  pose proof (fchain_head_range st L bk idx Hpl Hix (conj Hnn Hlt)) as Hhr.
  set (st' := if block_freq (set_is_added (with_cfs st (wrap (current_free_size st + size st b))) b 1) idx =? 0
              then _ else _).
  assert (Hmemeq : mem st' = store64 (store8 (mem st) b 1) (b + 32) (block_freq st idx)
                   /\ block_freq st' = (fun i => if i =? idx then b else block_freq st i)
                   /\ head st' = head st /\ tail st' = tail st /\ brk st' = brk st
                   /\ brk_lo st' = brk_lo st /\ brk_hi st' = brk_hi st
                   /\ sbrk_log st' = sbrk_log st
                   /\ current_free_size st' = wrap (current_free_size st + size st b)).
  { subst st'. unfold_fields.
    destruct (Z.eqb_spec (block_freq st idx) 0) as [E|E]; cbn.
    - rewrite E. repeat split; reflexivity.
    - repeat split; reflexivity. }
  clearbody st'.
  destruct Hmemeq as (Hm & Hbf & Hh & Ht & Hbr & Hlo & Hhi & Hlog & Hcfs).
  assert (Hstep : index_step L st st').
  { apply index_step_intro; try assumption.
    intros x Hx. rewrite Hm. rewrite store64_other, store8_other; [reflexivity| |].
    - intros ->. apply Hx. exists b. split; [exact HbL|left; reflexivity].
    - destruct (Z_lt_dec x (b + 32)) as [?|?]; [left; assumption|].
      destruct (Z_le_dec (b + 32 + 8) x) as [?|?]; [right; assumption|].
      exfalso. apply Hx. exists b. split; [exact HbL|right; unfold HDR; lia]. }
  assert (Hb' : bytes_ok st').
  { intros x. rewrite Hm. apply store64_bytes, store8_bytes, Hb. }
  assert (Hia : forall a, In a L -> a <> b -> is_added st' a = is_added st a).
  { intros a Ha Hab. pose proof (Hap a b Ha HbL). unfold is_added. rewrite Hm.
    mem_simpl. reflexivity. }
  assert (Hnf : forall a, In a L -> a <> b -> next_free st' a = next_free st a).
  { intros a Ha Hab. pose proof (Hap a b Ha HbL). unfold next_free. rewrite Hm.
    mem_simpl. reflexivity. }
  assert (Hnb : forall i a, 0 <= i < MULTIPLES_MAX -> In a (bk i) -> In a L /\ a <> b).
  { intros i a Hi Ha. destruct (Hix i Hi) as (_ & _ & Hmi).
    destruct (Hmi a Ha) as (HaL & _ & Had). split; [exact HaL|].
    intros ->. lia. }
  split; [exact Hstep|]. split; [exact Hb'|].
  split; [|intros [N|N]; [lia|contradiction]].
  intros _ _. split; [|split; [|split; [exact Hcfs|exact Hia]]].
  - intros i Hi. unfold bk_add. rewrite Hbf.
    destruct (Hix i Hi) as (Hch & Hnd & Hmi).
    destruct (Z.eqb_spec i idx) as [->|Hne].
    + split; [|split].
      * cbn [fchain]. split; [reflexivity|]. split; [destruct (Hpl b HbL); lia|].
        replace (next_free st' b) with (block_freq st idx).
        2:{ unfold next_free. rewrite Hm. mem_simpl. symmetry. apply wrap_small. exact Hhr. }
        apply (fchain_frame st); [|exact Hch].
        intros a Ha. destruct (Hnb idx a (conj Hnn Hlt) Ha). apply Hnf; assumption.
      * constructor; [|exact Hnd]. intros Hin.
        destruct (Hnb idx b (conj Hnn Hlt) Hin) as (_ & N). apply N. reflexivity.
      * intros a [<-|Ha].
        -- split; [exact HbL|]. split.
           ++ apply (bucket_of_step L st st' b Hap Hstep HbL).
           ++ unfold is_added. rewrite Hm. mem_simpl. reflexivity.
        -- destruct (Hmi a Ha) as (HaL & Hbo & Had).
           destruct (Hnb idx a (conj Hnn Hlt) Ha) as (_ & Hab).
           split; [exact HaL|]. split.
           ++ rewrite (bucket_of_step L st st' a Hap Hstep HaL). exact Hbo.
           ++ rewrite Hia by assumption. exact Had.
    + split; [|split].
      * apply (fchain_frame st); [|exact Hch].
        intros a Ha. destruct (Hnb i a Hi Ha). apply Hnf; assumption.
      * exact Hnd.
      * intros a Ha. destruct (Hmi a Ha) as (HaL & Hbo & Had).
        destruct (Hnb i a Hi Ha) as (_ & Hab).
        split; [exact HaL|]. split.
        -- rewrite (bucket_of_step L st st' a Hap Hstep HaL). exact Hbo.
        -- rewrite Hia by assumption. exact Had.
  - unfold is_added. rewrite Hm. mem_simpl. reflexivity.
Qed.

(** * The chunk list *)

Lemma span_nonneg st r : bytes_ok st -> 0 <= span st r.
Proof.
  intros Hb. induction r as [|c r IH]; cbn; [lia|].
  pose proof (size_range st c Hb). unfold HDR. lia.
Qed.

Lemma span_app st r1 r2 : span st (r1 ++ r2) = span st r1 + span st r2.
Proof. induction r1 as [|c r IH]; cbn; [reflexivity|]. rewrite IH. lia. Qed.

Lemma span_sum st r : span st r = sum_sizes st r + HDR * Z.of_nat (length r).
Proof.
  induction r as [|c r IH]; [reflexivity|].
  cbn [span sum_sizes length]. rewrite IH. lia.
Qed.

Lemma tiling_app_r st : forall r1 r2, tiling st (r1 ++ r2) -> tiling st r2.
Proof.
  induction r1 as [|a r1 IH]; intros r2 H; [exact H|].
  apply IH. destruct r1 as [|b r1]; cbn in H.
  - destruct r2; [exact I|]. apply H.
  - apply H.
Qed.

Lemma tiling_app_l st : forall r1 r2, tiling st (r1 ++ r2) -> tiling st r1.
Proof.
  induction r1 as [|a r1 IH]; intros r2 H; [exact I|].
  destruct r1 as [|b r1]; [exact I|].
  cbn in H. destruct H as (H1 & H2 & H3 & H4).
  cbn. repeat split; try assumption. apply (IH r2). exact H4.
Qed.

(** Every chunk of a tiled list sits [span] bytes after the list's first
    chunk. *)
Lemma tiling_offset st : forall r1 a c r2,
  tiling st (a :: r1 ++ c :: r2) -> c = a + span st (a :: r1).
Proof.
  induction r1 as [|b r1 IH]; intros a c r2 H.
  - cbn in H. destruct H as (_ & _ & H & _). cbn. lia.
  - cbn [app] in H. destruct H as (_ & _ & Hb & H).
    rewrite (IH b c r2 H). cbn [span]. lia.
Qed.

Lemma tiling_in_range st L a :
  bytes_ok st -> tiling st L -> L <> [] -> 0 < hd 0 L ->
  hd 0 L + span st L <= WORD -> In a L ->
  hd 0 L <= a /\ a + HDR + size st a <= WORD.
Proof.
  intros Hb Ht Hne Hpos Hend Ha.
  destruct L as [|h L]; [contradiction|]. cbn [hd] in *.
  destruct Ha as [<-|Ha].
  - cbn [span] in Hend. pose proof (span_nonneg st L Hb). lia.
  - destruct (in_split _ _ Ha) as (r1 & r2 & ->).
    pose proof (tiling_offset st r1 h a r2 Ht) as Hoff.
    change (h :: r1 ++ a :: r2) with ((h :: r1) ++ a :: r2) in Hend.
    rewrite span_app in Hend. cbn [span] in Hend, Hoff.
    pose proof (span_nonneg st r1 Hb). pose proof (span_nonneg st r2 Hb).
    pose proof (size_range st h Hb). unfold HDR in *. lia.
Qed.

Lemma tiling_apart st : forall L,
  bytes_ok st -> tiling st L ->
  forall r1 a r2 b r3, L = r1 ++ a :: r2 ++ b :: r3 -> a + HDR <= b.
Proof.
  intros L Hb Ht r1 a r2 b r3 ->.
  apply tiling_app_r in Ht.
  rewrite (tiling_offset st r2 a b r3 Ht). cbn [span].
  pose proof (span_nonneg st r2 Hb). pose proof (size_range st a Hb). lia.
Qed.

Lemma in_two_split (a b : Z) L :
  In a L -> In b L -> a = b \/
  (exists r1 r2 r3, L = r1 ++ a :: r2 ++ b :: r3) \/
  (exists r1 r2 r3, L = r1 ++ b :: r2 ++ a :: r3).
Proof.
  intros Ha Hb. destruct (Z.eq_dec a b) as [E|E]; [left; exact E|right].
  destruct (in_split _ _ Ha) as (r1 & r2 & ->).
  apply in_app_or in Hb. destruct Hb as [Hb|[Hb|Hb]]; [|contradiction|].
  - right. destruct (in_split _ _ Hb) as (s1 & s2 & ->).
    exists s1, s2, r2. rewrite <- app_assoc. reflexivity.
  - left. destruct (in_split _ _ Hb) as (s1 & s2 & ->).
    exists r1, s1, s2. reflexivity.
Qed.

Lemma chunk_list_apart st L : bytes_ok st -> chunk_list st L -> apart L.
Proof.
  intros Hb (Ht & _) a b Ha Hb'.
  destruct (in_two_split a b L Ha Hb') as [E|[(r1 & r2 & r3 & E)|(r1 & r2 & r3 & E)]].
  - left. exact E.
  - right. left. apply (tiling_apart st L Hb Ht _ _ _ _ _ E).
  - right. right. apply (tiling_apart st L Hb Ht _ _ _ _ _ E).
Qed.

Lemma chunk_list_placed st L : bytes_ok st -> chunk_list st L -> placed L.
Proof.
  intros Hb (Ht & _ & _ & Hne) a Ha.
  assert (L <> []) as HL by (intros ->; contradiction).
  destruct (Hne HL) as (Hpos & _ & _ & Hend).
  destruct (tiling_in_range st L a Hb Ht HL Hpos Hend Ha).
  pose proof (size_range st a Hb). lia.
Qed.

Lemma tiling_nseg st : forall r post,
  tiling st (r ++ post) ->
  (post = [] -> r <> [] -> next st (last r 0) = 0) ->
  nseg st r (hd 0 post).
Proof.
  induction r as [|c r IH]; intros post Ht Hl; [exact I|].
  cbn [nseg]. split.
  - destruct r as [|d r].
    + cbn [hd]. destruct post as [|p post].
      * cbn. apply Hl; [reflexivity|discriminate].
      * cbn in Ht. apply Ht.
    + cbn in Ht. apply Ht.
  - apply IH.
    + change ((c :: r) ++ post) with ([c] ++ (r ++ post)) in Ht.
      apply (tiling_app_r st [c]). exact Ht.
    + intros Hp Hr. specialize (Hl Hp ltac:(discriminate)).
      destruct r; [contradiction|exact Hl].
Qed.

Lemma last_app_nonempty (l1 l2 : list Z) d :
  l2 <> [] -> last (l1 ++ l2) d = last l2 d.
Proof.
  intros H. induction l1 as [|a l1 IH]; [reflexivity|].
  cbn [app]. destruct (l1 ++ l2) eqn:E.
  - apply app_eq_nil in E. destruct E. contradiction.
  - rewrite <- IH. reflexivity.
Qed.

Lemma chunk_list_nseg st pre run post :
  chunk_list st (pre ++ run ++ post) -> nseg st run (hd 0 post).
Proof.
  intros (Ht & _ & _ & Hne).
  apply tiling_nseg.
  - apply (tiling_app_r st pre). exact Ht.
  - intros -> Hr. rewrite app_nil_r in *.
    assert (pre ++ run <> []) as HL
      by (intros E; apply app_eq_nil in E; destruct E; contradiction).
    destruct (Hne HL) as (_ & _ & Hn & _).
    rewrite last_app_nonempty in Hn by exact Hr. exact Hn.
Qed.

Lemma nseg_step L st st' r stop :
  apart L -> index_step L st st' -> incl r L -> nseg st r stop ->
  nseg st' r stop.
Proof.
  intros Hap Hs. induction r as [|c r IH]; intros Hin Hn; [exact I|].
  destruct Hn as (Hn1 & Hn2). cbn [nseg]. split.
  - destruct (index_step_fields L st st' c Hap Hs) as (_ & _ & _ & ->);
      [apply Hin; left; reflexivity|exact Hn1].
  - apply IH; [|exact Hn2]. intros a Ha. apply Hin. right. exact Ha.
Qed.

Lemma span_step L st st' r :
  apart L -> index_step L st st' -> incl r L -> span st' r = span st r.
Proof.
  intros Hap Hs. induction r as [|c r IH]; intros Hin; [reflexivity|].
  cbn [span]. rewrite IH by (intros a Ha; apply Hin; right; exact Ha).
  destruct (index_step_fields L st st' c Hap Hs) as (_ & -> & _);
    [apply Hin; left; reflexivity|reflexivity].
Qed.

Lemma bk_remove_in st L bk c i a :
  index_ok st L bk -> 0 <= i < MULTIPLES_MAX ->
  In a (bk_remove bk (bucket_of st c) c i) <-> In a (bk i) /\ a <> c.
Proof.
  intros Hix Hi. unfold bk_remove.
  destruct (Z.eqb_spec i (bucket_of st c)) as [Ei|Ei].
  - split.
    + intros H. apply in_remove in H. exact H.
    + intros (H1 & H2). apply in_in_remove; assumption.
  - split; [|tauto]. intros H. split; [exact H|].
    destruct (Hix i Hi) as (_ & _ & Hm).
    destruct (Hm a H) as (_ & Hbo & _). congruence.
Qed.

(** The loop of [HMMcoalesce] from its second iteration on: it walks the
    free chunks [r], unindexes each, and adds their spans to [ts]. *)
Lemma coalesce_loop_spec L lc stop :
  apart L -> placed L -> lc <> 0 ->
  forall r st bk ts fuel,
    bytes_ok st -> index_ok st L bk -> incl r L ->
    nseg st r stop -> (forall c, In c r -> is_free st c = 1) ->
    stop = 0 \/ In stop L /\ is_free st stop <> 1 ->
    0 <= ts < WORD -> (length L + length r < fuel)%nat ->
    exists st' bk',
      coalesce_loop fuel (hd stop r) lc ts st
      = Some (stop, lc, wrap (ts + span st r), st') /\
      index_step L st st' /\ index_ok st' L bk' /\ bytes_ok st' /\
      (forall i a, 0 <= i < MULTIPLES_MAX ->
                   In a (bk' i) <-> In a (bk i) /\ ~ In a r) /\
      (forall a, In a L -> ~ In a r -> is_added st' a = is_added st a).
Proof.
  intros Hap Hpl Hlc.
  induction r as [|c r IH]; intros st bk ts fuel Hb Hix Hin Hn Hfree Hstop Hts Hfuel.
  - cbn [hd span]. destruct fuel as [|f]; [lia|]. cbn [coalesce_loop].
    exists st, bk.
    replace (wrap (ts + 0)) with ts
      by (rewrite Z.add_0_r; symmetry; apply wrap_small; exact Hts).
    assert (Hrest : index_step L st st /\ index_ok st L bk /\ bytes_ok st /\
                    (forall i a, 0 <= i < MULTIPLES_MAX ->
                                 In a (bk i) <-> In a (bk i) /\ ~ In a []) /\
                    (forall a, In a L -> ~ In a [] -> is_added st a = is_added st a)).
    { split; [apply index_step_refl|]. split; [exact Hix|]. split; [exact Hb|].
      split; [intros i a _; cbn; tauto|reflexivity]. }
    split; [|exact Hrest].
    destruct Hstop as [->|(HsL & Hsf)]; [reflexivity|].
    destruct (Z.eqb_spec stop 0) as [->|_]; [reflexivity|].
    destruct (Z.eqb_spec (is_free st stop) 1) as [E|_]; [contradiction|reflexivity].
  - cbn [hd]. destruct fuel as [|f]; [cbn in Hfuel; lia|]. cbn [coalesce_loop].
    assert (HcL : In c L) by (apply Hin; left; reflexivity).
    destruct (Z.eqb_spec c 0) as [E|_]; [destruct (Hpl c HcL); lia|].
    rewrite (Hfree c (or_introl eq_refl)). cbn [Z.eqb Pos.eqb].
    destruct (Z.eqb_spec lc 0) as [E|_]; [contradiction|].
    destruct (HMMremove_spec st L bk c f Hb Hap Hpl Hix HcL ltac:(cbn in Hfuel; lia))
      as (st1 & Hrm & Hix1 & Hs1 & Hb1 & Hia1 & _).
    rewrite Hrm.
    destruct Hn as (Hn1 & Hn2).
    destruct (index_step_fields L st st1 c Hap Hs1 HcL) as (_ & _ & _ & Hnx).
    rewrite Hnx, Hn1.
    assert (Hin' : incl r L) by (intros a Ha; apply Hin; right; exact Ha).
    destruct (IH st1 (bk_remove bk (bucket_of st c) c) (wrap (ts + size st c + HDR)) f)
      as (st' & bk' & Hloop & Hs' & Hix' & Hb' & Hsub & Hia'); try assumption.
    + apply (nseg_step L st st1); assumption.
    + intros d Hd. destruct (index_step_fields L st st1 d Hap Hs1 (Hin' d Hd)) as (-> & _).
      apply Hfree. right. exact Hd.
    + destruct Hstop as [?|(HsL & Hsf)]; [left; assumption|right].
      split; [exact HsL|].
      destruct (index_step_fields L st st1 stop Hap Hs1 HsL) as (-> & _). exact Hsf.
    + apply wrap_range.
    + cbn in Hfuel. lia.
    + exists st', bk'. rewrite Hloop.
      rewrite (span_step L st st1 r Hap Hs1 Hin').
      split.
      { replace (wrap (ts + span st (c :: r)))
          with (wrap (wrap (ts + size st c + HDR) + span st r)); [reflexivity|].
        rewrite wrap_add_l. cbn [span]. f_equal. lia. }
      split; [apply (index_step_trans L st st1 st'); assumption|].
      split; [exact Hix'|]. split; [exact Hb'|]. split.
      * intros i a Hi. rewrite (Hsub i a Hi).
        rewrite (bk_remove_in st L bk c i a Hix Hi). cbn [In]. 
        split; [intros ((A & B) & C)|intros (A & B)].
        -- split; [exact A|]. intros [E|E]; [congruence|contradiction].
        -- split; [split; [exact A|]|]; intros N; apply B; [left|right]; congruence.
      * intros a Ha Har. rewrite Hia' by (try assumption; intros N; apply Har; right; exact N).
        apply Hia1; [exact Ha|]. intros ->. apply Har. left. reflexivity.
Qed.

Lemma tiling_frame st st' : forall l,
  (forall a, In a l -> size st' a = size st a /\ next st' a = next st a) ->
  (forall a, In a (tl l) -> prev st' a = prev st a) ->
  tiling st l -> tiling st' l.
Proof.
  induction l as [|a l IH]; intros Hf Hp Ht; [exact I|].
  destruct l as [|b l]; [exact I|].
  destruct Ht as (H1 & H2 & H3 & H4). cbn [tiling].
  destruct (Hf a (or_introl eq_refl)) as (-> & ->).
  rewrite (Hp b (or_introl eq_refl)).
  repeat split; try assumption.
  apply IH; [| |exact H4].
  - intros c Hc. apply Hf. right. exact Hc.
  - intros c Hc. apply Hp. right. exact Hc.
Qed.

Lemma tiling_link st : forall l1 l2,
  tiling st (l1 ++ l2) -> l1 <> [] -> l2 <> [] ->
  next st (last l1 0) = hd 0 l2 /\ prev st (hd 0 l2) = last l1 0 /\
  hd 0 l2 = last l1 0 + HDR + size st (last l1 0).
Proof.
  induction l1 as [|a l1 IH]; intros l2 Ht H1 H2; [contradiction|].
  destruct l1 as [|b l1].
  - destruct l2 as [|c l2]; [contradiction|]. cbn in Ht. cbn. tauto.
  - change (last (a :: b :: l1) 0) with (last (b :: l1) 0).
    apply IH; [|discriminate|exact H2].
    cbn in Ht. cbn. apply Ht.
Qed.

Lemma tiling_join st : forall l1 l2,
  tiling st l1 -> tiling st l2 ->
  (l1 <> [] -> l2 <> [] ->
   next st (last l1 0) = hd 0 l2 /\ prev st (hd 0 l2) = last l1 0 /\
   hd 0 l2 = last l1 0 + HDR + size st (last l1 0)) ->
  tiling st (l1 ++ l2).
Proof.
  induction l1 as [|a l1 IH]; intros l2 H1 H2 Hl; [exact H2|].
  destruct l1 as [|b l1].
  - destruct l2 as [|c l2]; [exact I|].
    cbn. destruct (Hl ltac:(discriminate) ltac:(discriminate)) as (? & ? & ?).
    cbn in *. tauto.
  - cbn [app tiling]. destruct H1 as (A1 & A2 & A3 & A4).
    repeat split; try assumption.
    apply (IH l2); [exact A4|exact H2|].
    intros _ Hn. apply (Hl ltac:(discriminate) Hn).
Qed.

(** In a tiled list a chunk of an earlier part lies a header below any
    chunk of a later part. *)
Lemma tiling_before st l1 l2 a b :
  bytes_ok st -> tiling st (l1 ++ l2) -> In a l1 -> In b l2 -> a + HDR <= b.
Proof.
  intros Hb Ht Ha Hb2.
  destruct (in_split _ _ Ha) as (r1 & r2 & ->).
  destruct (in_split _ _ Hb2) as (s1 & s2 & ->).
  apply (tiling_apart st _ Hb Ht r1 a (r2 ++ s1) b s2).
  rewrite <- !app_assoc. reflexivity.
Qed.

Lemma hd_app_nonempty (l1 l2 : list Z) d : l1 <> [] -> hd d (l1 ++ l2) = hd d l1.
Proof. destruct l1; [contradiction|reflexivity]. Qed.

Lemma hd_in (l : list Z) d : l <> [] -> In (hd d l) l.
Proof. destruct l; [contradiction|left; reflexivity]. Qed.

Lemma last_in (l : list Z) d : l <> [] -> In (last l d) l.
Proof.
  induction l as [|a l IH]; [contradiction|]. intros _.
  destruct l as [|b l]; [left; reflexivity|].
  right. apply IH. discriminate.
Qed.

Lemma HMMcoalesce_unfold fuel start st :
  start <> 0 ->
  HMMcoalesce fuel start st =
  match coalesce_loop fuel start 0 0 st with
  | None => None
  | Some (current, lc, ts, st1) =>
    Some (if 0 <? ts then coalesce_finish st1 lc current ts else st1)
  end.
Proof.
  intros H. unfold HMMcoalesce, coalesce_finish.
  destruct (Z.eqb_spec start 0) as [E|_]; [contradiction|].
  destruct (coalesce_loop fuel start 0 0 st) as [[[[c l] t] s]|]; [|reflexivity].
  destruct (0 <? t); [|reflexivity].
  destruct (c =? 0); reflexivity.
Qed.

Lemma coalesce_finish_fields L st1 start stop ts :
  bytes_ok st1 -> apart L -> placed L -> In start L ->
  stop = 0 \/ In stop L -> stop <> start ->
  let st' := coalesce_finish st1 start stop ts in
  bytes_ok st' /\
  (forall a, In a L ->
     is_free st' a = is_free st1 a /\ is_added st' a = is_added st1 a /\
     next_free st' a = next_free st1 a) /\
  (forall a, In a L -> a <> start ->
     size st' a = size st1 a /\ next st' a = next st1 a) /\
  (forall a, In a L -> a <> stop -> prev st' a = prev st1 a) /\
  size st' start = wrap (size st1 start + ts) /\
  next st' start = stop /\
  (stop <> 0 -> prev st' stop = start) /\
  block_freq st' = block_freq st1 /\ head st' = head st1 /\
  tail st' = (if stop =? 0 then start else tail st1) /\
  brk st' = brk st1 /\ brk_lo st' = brk_lo st1 /\ brk_hi st' = brk_hi st1 /\
  sbrk_log st' = sbrk_log st1 /\
  current_free_size st' = current_free_size st1.
Proof.
  intros Hb Hap Hpl HsL Hstop Hne st'. subst st'. unfold coalesce_finish.
  assert (Hs0 : 0 < start /\ start + HDR <= WORD) by (apply Hpl; exact HsL).
  destruct (Z.eqb_spec stop 0) as [E|E]; cbn [negb].
  - subst stop.
    split; [|split; [|split; [|split; [|split; [|split; [|split]]]]]].
    + mem_simpl. intros x. repeat apply store64_bytes. apply Hb.
    + intros a Ha. pose proof (Hap a start Ha HsL). mem_simpl. auto.
    + intros a Ha Hn. pose proof (Hap a start Ha HsL). mem_simpl. auto.
    + intros a Ha Hn. pose proof (Hap a start Ha HsL). mem_simpl. auto.
    + mem_simpl. apply wrap_wrap.
    + mem_simpl. reflexivity.
    + intros N. contradiction.
    + mem_simpl. repeat split; reflexivity.
  - destruct Hstop as [?|HpL]; [contradiction|].
    assert (Hp0 : 0 < stop /\ stop + HDR <= WORD) by (apply Hpl; exact HpL).
    pose proof (Hap stop start HpL HsL) as Hss.
    split; [|split; [|split; [|split; [|split; [|split; [|split]]]]]].
    + mem_simpl. intros x. repeat apply store64_bytes. apply Hb.
    + intros a Ha. pose proof (Hap a start Ha HsL). pose proof (Hap a stop Ha HpL).
      mem_simpl. auto.
    + intros a Ha Hn. pose proof (Hap a start Ha HsL). pose proof (Hap a stop Ha HpL).
      mem_simpl. auto.
    + intros a Ha Hn. pose proof (Hap a start Ha HsL). pose proof (Hap a stop Ha HpL).
      mem_simpl. auto.
    + mem_simpl. apply wrap_wrap.
    + mem_simpl. apply wrap_small. unfold WORD, HDR in *. lia.
    + intros _. mem_simpl. apply wrap_small. unfold WORD, HDR in *. lia.
    + mem_simpl. repeat split; reflexivity.
Qed.

Lemma tiling_span_bound st pre run post :
  bytes_ok st -> tiling st (pre ++ run ++ post) -> run <> [] ->
  hd 0 run + span st run
  <= hd 0 (pre ++ run ++ post) + span st (pre ++ run ++ post).
Proof.
  intros Hb Ht Hr. rewrite !span_app.
  pose proof (span_nonneg st post Hb) as Hp.
  destruct run as [|s rest]; [contradiction|]. cbn [hd].
  destruct pre as [|h pre'].
  - cbn [app hd span]. lia.
  - cbn [app hd]. cbn [app] in Ht.
    rewrite (tiling_offset st pre' h s (rest ++ post) Ht). lia.
Qed.

Lemma stop_after_run st pre start rest post :
  tiling st (pre ++ (start :: rest) ++ post) -> post <> [] ->
  hd 0 post = start + span st (start :: rest).
Proof.
  intros Ht Hp. apply tiling_app_r in Ht.
  destruct post as [|p post']; [contradiction|]. cbn [hd].
  cbn [app] in Ht. exact (tiling_offset st rest start p post' Ht).
Qed.

Lemma span_frame st st' r :
  (forall a, In a r -> size st' a = size st a) -> span st' r = span st r.
Proof.
  induction r as [|c r IH]; intros H; [reflexivity|].
  cbn [span]. rewrite IH by (intros a Ha; apply H; right; exact Ha).
  rewrite (H c (or_introl eq_refl)). reflexivity.
Qed.

(** * Coalescing *)

Lemma HMMcoalesce_spec st L bk pre start rest post fuel :
  bytes_ok st -> chunk_list st L -> index_ok st L bk ->
  L = pre ++ (start :: rest) ++ post -> rest <> [] ->
  (forall c, In c (start :: rest) -> is_free st c = 1) ->
  post = [] \/ is_free st (hd 0 post) <> 1 ->
  (2 * length L < fuel)%nat ->
  exists st' bk',
    HMMcoalesce fuel start st = Some st' /\
    bytes_ok st' /\
    chunk_list st' (pre ++ start :: post) /\
    index_ok st' (pre ++ start :: post) bk' /\
    size st' start = sum_sizes st (start :: rest) + HDR * Z.of_nat (length rest) /\
    next st' start = hd 0 post /\
    (post <> [] -> prev st' (hd 0 post) = start /\ tail st' = tail st) /\
    (post = [] -> tail st' = start) /\
    (forall i a, 0 <= i < MULTIPLES_MAX ->
       In a (bk' i) <-> In a (bk i) /\ ~ In a (start :: rest)) /\
    (forall a, In a (pre ++ start :: post) -> is_free st' a = is_free st a) /\
    (forall a, In a L -> a <> hd 0 post -> prev st' a = prev st a) /\
    (forall a, In a (pre ++ post) ->
       size st' a = size st a /\ is_added st' a = is_added st a) /\
    (is_added st' start = 0 \/
     is_added st' start = is_added st start /\
     (MULTIPLES_MAX <= bucket_of st start \/
      ~ In start (bk (bucket_of st start)))) /\
    head st' = head st /\ brk st' = brk st /\ brk_lo st' = brk_lo st /\
    brk_hi st' = brk_hi st /\ sbrk_log st' = sbrk_log st.
Proof.
  intros Hb Hcl Hix HL Hrest Hfree Hstop Hfuel.
  pose proof (chunk_list_apart st L Hb Hcl) as Hap.
  pose proof (chunk_list_placed st L Hb Hcl) as Hpl.
  set (stop := hd 0 post).
  assert (HsL : In start L).
  { rewrite HL. apply in_or_app. right. left. reflexivity. }
  assert (HrL : incl rest L).
  { intros a Ha. rewrite HL. apply in_or_app. right. right.
    apply in_or_app. left. exact Ha. }
  assert (Hs0 : start <> 0) by (destruct (Hpl start HsL); lia).
  assert (Hseg : nseg st (start :: rest) stop).
  { apply (chunk_list_nseg st pre). rewrite <- HL. exact Hcl. }
  destruct Hseg as (Hnx & Hseg).
  assert (Hstop' : stop = 0 \/ In stop L /\ is_free st stop <> 1).
  { subst stop. destruct post as [|p post']; [left; reflexivity|right].
    destruct Hstop as [?|Hs]; [discriminate|]. split; [|exact Hs].
    rewrite HL. apply in_or_app. right. apply in_or_app. right. left. reflexivity. }
  destruct Hcl as (Ht & Hhd & Htl & Hends).
  assert (HLne : L <> []) by (intros E; rewrite E in HsL; contradiction).
  destruct (Hends HLne) as (Hpos & Hprev0 & Hnext0 & Hend).
  assert (Hlen : (length rest < length L)%nat).
  { rewrite HL, !length_app. cbn [length]. lia. }
  (* first iteration *)
  rewrite HMMcoalesce_unfold by exact Hs0.
  destruct fuel as [|f]; [lia|]. cbn [coalesce_loop].
  destruct (Z.eqb_spec start 0) as [?|_]; [contradiction|].
  rewrite (Hfree start (or_introl eq_refl)). cbn [Z.eqb Pos.eqb].
  destruct (HMMremove_spec st L bk start f Hb Hap Hpl Hix HsL ltac:(lia))
    as (st1 & Hrm & Hix1 & Hs1 & Hb1 & Hia1 & Hrm_in & Hrm_out).
  rewrite Hrm.
  destruct (index_step_fields L st st1 start Hap Hs1 HsL) as (_ & Hsz1 & _ & Hnx1).
  rewrite Hnx1, Hnx.
  (* the rest of the loop *)
  destruct (coalesce_loop_spec L start stop Hap Hpl Hs0 rest st1
              (bk_remove bk (bucket_of st start) start) 0 f)
    as (st2 & bk2 & Hloop & Hs2 & Hix2 & Hb2 & Hbk2 & Hia2); try assumption.
  { apply (nseg_step L st st1); assumption. }
  { intros c Hc. destruct (index_step_fields L st st1 c Hap Hs1 (HrL c Hc)) as (-> & _).
    apply Hfree. right. exact Hc. }
  { destruct Hstop' as [?|(A & B)]; [left; assumption|right]. split; [exact A|].
    destruct (index_step_fields L st st1 stop Hap Hs1 A) as (-> & _). exact B. }
  { unfold WORD. lia. }
  { lia. }
  rewrite Hloop. rewrite (span_step L st st1 rest Hap Hs1 HrL). cbn [Z.add].
  pose proof (index_step_trans L st st1 st2 Hs1 Hs2) as Hs12.
  pose proof Hs12 as (Hh12 & Ht12 & Hbrk12 & Hlo12 & Hhi12 & Hlog12 & _).
  (* the total is positive and does not wrap *)
  assert (Hbound : start + span st (start :: rest) <= WORD).
  { pose proof (tiling_span_bound st pre (start :: rest) post Hb) as Hsb.
    rewrite <- HL in Hsb. specialize (Hsb Ht ltac:(discriminate)).
    cbn [hd] in Hsb. lia. }
  assert (Hspan : HDR <= span st rest).
  { destruct rest as [|c rest']; [contradiction|]. cbn [span].
    pose proof (size_range st c Hb). pose proof (span_nonneg st rest' Hb). lia. }
  pose proof (size_range st start Hb) as Hszr.
  destruct (Hpl start HsL) as (Hspos & _).
  cbn [span] in Hbound.
  rewrite (wrap_small (span st rest)) by (unfold HDR, WORD in *; lia).
  replace (0 <? span st rest) with true
    by (symmetry; apply Z.ltb_lt; unfold HDR in *; lia).
  set (st' := coalesce_finish st2 start stop (span st rest)).
  assert (Hss : stop <> start).
  { subst stop. destruct post as [|p post']; cbn [hd]; [lia|].
    pose proof (stop_after_run st pre start rest (p :: post')) as Hsa.
    rewrite <- HL in Hsa. specialize (Hsa Ht ltac:(discriminate)).
    cbn [hd span] in Hsa. unfold HDR in *. lia. }
  assert (HstopL : stop = 0 \/ In stop L) by tauto.
  destruct (coalesce_finish_fields L st2 start stop (span st rest)
              Hb2 Hap Hpl HsL HstopL Hss)
    as (Hb' & Hf1 & Hf2 & Hf3 & Hfsz & Hfnx & Hfpv & Hfbf & Hfhd & Hftl
        & Hfbrk & Hflo & Hfhi & Hflog & Hfcfs).
  fold st' in Hb', Hf1, Hf2, Hf3, Hfsz, Hfnx, Hfpv, Hfbf, Hfhd, Hftl,
    Hfbrk, Hflo, Hfhi, Hflog, Hfcfs.
  exists st', bk2. split; [reflexivity|]. split; [exact Hb'|].
  (* fields of the surviving headers, from [st] to [st'] *)
  assert (Hfr : forall a, In a L -> is_free st' a = is_free st a).
  { intros a Ha. destruct (Hf1 a Ha) as (-> & _).
    apply (index_step_fields L st st2 a Hap Hs12 Ha). }
  assert (Hsn : forall a, In a L -> a <> start ->
                  size st' a = size st a /\ next st' a = next st a).
  { intros a Ha Hne. destruct (Hf2 a Ha Hne) as (-> & ->).
    destruct (index_step_fields L st st2 a Hap Hs12 Ha) as (_ & -> & _ & ->). tauto. }
  assert (Hpv : forall a, In a L -> a <> stop -> prev st' a = prev st a).
  { intros a Ha Hne. rewrite (Hf3 a Ha Hne).
    apply (index_step_fields L st st2 a Hap Hs12 Ha). }
  assert (Hszs : size st' start = size st start + span st rest).
  { rewrite Hfsz.
    destruct (index_step_fields L st st2 start Hap Hs12 HsL) as (_ & -> & _).
    apply wrap_small. unfold HDR, WORD in *. lia. }
  (* where the parts of the list lie *)
  rewrite HL in Ht.
  assert (Hpre : forall a, In a pre -> In a L /\ a + HDR <= start /\ ~ In a rest
                                     /\ a <> stop).
  { intros a Ha. split; [rewrite HL; apply in_or_app; left; exact Ha|].
    assert (a + HDR <= start) as H1
      by (apply (tiling_before st pre ((start :: rest) ++ post) a start Hb Ht Ha);
          left; reflexivity).
    split; [exact H1|]. split.
    - intros Hr.
      assert (a + HDR <= a); [|unfold HDR in *; lia].
      apply (tiling_before st pre ((start :: rest) ++ post) a a Hb Ht Ha).
      right. apply in_or_app. left. exact Hr.
    - assert (0 < a) by (apply Hpl; rewrite HL; apply in_or_app; left; exact Ha).
      subst stop. destruct post as [|p post']; cbn [hd]; [lia|].
      assert (a + HDR <= p); [|unfold HDR in *; lia].
      apply (tiling_before st pre ((start :: rest) ++ p :: post') a p Hb Ht Ha).
      apply in_or_app. right. left. reflexivity. }
  assert (Ht2 : tiling st ((start :: rest) ++ post))
    by (apply (tiling_app_r st pre); exact Ht).
  assert (Hpost : forall a, In a post -> In a L /\ start + HDR <= a /\ ~ In a rest).
  { intros a Ha.
    split; [rewrite HL; apply in_or_app; right; apply in_or_app; right; exact Ha|].
    split.
    - apply (tiling_before st (start :: rest) post start a Hb Ht2);
        [left; reflexivity|exact Ha].
    - intros Hr. assert (a + HDR <= a); [|unfold HDR in *; lia].
      apply (tiling_before st (start :: rest) post a a Hb Ht2);
        [right; exact Hr|exact Ha]. }
  assert (Hsr : ~ In start rest).
  { intros Hr. assert (start + HDR <= start); [|unfold HDR in *; lia].
    change (start :: rest) with ([start] ++ rest) in Ht2. rewrite <- app_assoc in Ht2.
    apply (tiling_before st [start] (rest ++ post) start start Hb Ht2);
      [left; reflexivity|apply in_or_app; left; exact Hr]. }
  assert (Hstop_post : post <> [] -> In stop post /\ stop <> 0 /\
                       forall a, In a (tl post) -> a <> stop).
  { intros Hp. subst stop. destruct post as [|p post']; [contradiction|].
    cbn [hd tl]. split; [left; reflexivity|]. split.
    - destruct (Hpost p (or_introl eq_refl)) as (_ & H1 & _). unfold HDR in *. lia.
    - intros a Ha. assert (p + HDR <= a); [|unfold HDR in *; lia].
      assert (tiling st ([p] ++ post')) as Ht3
        by (apply (tiling_app_r st (start :: rest)); exact Ht2).
      apply (tiling_before st [p] post' p a Hb Ht3); [left; reflexivity|exact Ha]. }
  (* the new chunk list *)
  assert (Hcl' : chunk_list st' (pre ++ start :: post)).
  { unfold chunk_list.
    assert (Htp : tiling st' pre).
    { apply (tiling_frame st); [| |apply (tiling_app_l st pre _ Ht)].
      - intros a Ha. destruct (Hpre a Ha) as (A & B & _).
        apply Hsn; [exact A|unfold HDR in *; lia].
      - intros a Ha. assert (In a pre) as Ha' by (destruct pre; [destruct Ha|right; exact Ha]).
        destruct (Hpre a Ha') as (A & _ & _ & B). apply Hpv; assumption. }
    assert (Htq : tiling st' post).
    { apply (tiling_frame st); [| |apply (tiling_app_r st _ _ Ht2)].
      - intros a Ha. destruct (Hpost a Ha) as (A & B & _).
        apply Hsn; [exact A|unfold HDR in *; lia].
      - intros a Ha.
        assert (In a post) as Ha' by (destruct post; [destruct Ha|right; exact Ha]).
        assert (post <> []) as Hp by (intros E; rewrite E in Ha'; destruct Ha').
        destruct (Hpost a Ha') as (A & _). destruct (Hstop_post Hp) as (_ & _ & C).
        apply Hpv; [exact A|apply C; exact Ha]. }
    assert (Htsq : tiling st' (start :: post)).
    { apply (tiling_join st' [start] post); [exact I|exact Htq|].
      intros _ Hp. cbn [last]. fold stop.
      destruct (Hstop_post Hp) as (_ & Hs0' & _).
      split; [exact Hfnx|]. split; [apply Hfpv; exact Hs0'|].
      rewrite Hszs. subst stop.
      rewrite (stop_after_run st pre start rest post Ht Hp). cbn [span]. lia. }
    split.
    { apply (tiling_join st' pre (start :: post)); [exact Htp|exact Htsq|].
      intros Hp _. cbn [hd].
      destruct (tiling_link st pre ((start :: rest) ++ post) Ht Hp ltac:(discriminate))
        as (A & B & C). cbn [hd app] in A, B, C.
      destruct (Hpre (last pre 0) (last_in pre 0 Hp)) as (D & E & _).
      destruct (Hsn (last pre 0) D ltac:(unfold HDR in *; lia)) as (-> & ->).
      rewrite (Hpv start HsL ltac:(auto)). tauto. }
    assert (Hhd' : hd 0 (pre ++ start :: post) = hd 0 L).
    { rewrite HL. destruct pre; reflexivity. }
    split; [rewrite Hhd', Hfhd, Hh12; exact Hhd|].
    split.
    { rewrite Hftl. destruct post as [|p post'].
      - cbn [hd] in *. subst stop. cbn. rewrite last_last. reflexivity.
      - destruct (Hstop_post ltac:(discriminate)) as (_ & Hs0' & _).
        destruct (Z.eqb_spec stop 0) as [?|_]; [contradiction|].
        rewrite Ht12, Htl, HL.
        change (pre ++ start :: p :: post') with (pre ++ [start] ++ p :: post').
        rewrite !last_app_nonempty by discriminate. reflexivity. }
    intros _. rewrite Hhd'.
    assert (HhL : In (hd 0 L) L) by (apply hd_in; exact HLne).
    split; [exact Hpos|]. split.
    { rewrite Hpv; [exact Hprev0|exact HhL|].
      rewrite HL. destruct pre as [|h pre']; cbn [app hd]; [auto|].
      apply (Hpre h). left. reflexivity. }
    split.
    { destruct post as [|p post'].
      - rewrite last_last. exact Hfnx.
      - change (pre ++ start :: p :: post') with (pre ++ [start] ++ p :: post').
        rewrite !last_app_nonempty by discriminate.
        destruct (Hpost (last (p :: post') 0) (last_in (p :: post') 0 ltac:(discriminate)))
          as (A & B & _).
        destruct (Hsn _ A ltac:(unfold HDR in *; lia)) as (_ & ->).
        rewrite HL in Hnext0.
        rewrite !last_app_nonempty in Hnext0 by discriminate. exact Hnext0. }
    assert (Hsp : span st L = span st pre + (size st start + HDR + span st rest)
                               + span st post)
      by (rewrite HL, !span_app; cbn [span]; lia).
    rewrite Hsp in Hend.
    rewrite span_app. cbn [span]. rewrite Hszs.
    rewrite (span_frame st st' pre), (span_frame st st' post).
    - lia.
    - intros a Ha. destruct (Hpost a Ha) as (A & B & _).
      apply Hsn; [exact A|unfold HDR in *; lia].
    - intros a Ha. destruct (Hpre a Ha) as (A & B & _).
      apply Hsn; [exact A|unfold HDR in *; lia]. }
  split; [exact Hcl'|].
  assert (Hmem2 : forall i a, 0 <= i < MULTIPLES_MAX ->
            In a (bk2 i) <-> In a (bk i) /\ ~ In a (start :: rest)).
  { intros i a Hi. rewrite (Hbk2 i a Hi).
    rewrite (bk_remove_in st L bk start i a Hix Hi). cbn [In].
    split; [intros ((A & B) & C)|intros (A & B)].
    - split; [exact A|]. intros [E|E]; [congruence|contradiction].
    - split; [split; [exact A|]|]; intros N; apply B; [left|right]; congruence. }
  assert (Hincl : forall a, In a (pre ++ post) ->
            In a L /\ a <> start /\ ~ In a rest /\ In a (pre ++ start :: post)).
  { intros a Ha. apply in_app_or in Ha. destruct Ha as [Ha|Ha].
    - destruct (Hpre a Ha) as (A & B & C & _).
      split; [exact A|]. split; [unfold HDR in *; lia|]. split; [exact C|].
      apply in_or_app. left. exact Ha.
    - destruct (Hpost a Ha) as (A & B & C).
      split; [exact A|]. split; [unfold HDR in *; lia|]. split; [exact C|].
      apply in_or_app. right. right. exact Ha. }
  assert (Hsurv : forall a, In a L -> ~ In a (start :: rest) -> In a (pre ++ post)).
  { intros a Ha Hn. rewrite HL in Ha. apply in_app_or in Ha.
    destruct Ha as [Ha|Ha]; [apply in_or_app; left; exact Ha|].
    apply in_app_or in Ha. destruct Ha as [Ha|Ha]; [contradiction|].
    apply in_or_app; right; exact Ha. }
  assert (Hadd : forall a, In a (pre ++ post) -> is_added st' a = is_added st a).
  { intros a Ha. destruct (Hincl a Ha) as (A & B & C & _).
    destruct (Hf1 a A) as (_ & -> & _).
    rewrite (Hia2 a A C). apply Hia1; assumption. }
  split.
  { (* the index over the new list *)
    intros i Hi. destruct (Hix2 i Hi) as (Hch & Hnd & Hm).
    split; [|split; [exact Hnd|]].
    - rewrite Hfbf. apply (fchain_frame st2); [|exact Hch].
      intros a Ha. destruct (Hm a Ha) as (A & _). apply (Hf1 a A).
    - intros a Ha. destruct (Hm a Ha) as (A & B & C).
      destruct (proj1 (Hmem2 i a Hi) Ha) as (D & E).
      destruct (Hincl a (Hsurv a A E)) as (_ & F & _ & G).
      split; [exact G|]. split.
      + unfold bucket_of. destruct (Hf2 a A F) as (-> & _). exact B.
      + destruct (Hf1 a A) as (_ & -> & _). exact C. }
  split.
  { rewrite Hszs. change (sum_sizes st (start :: rest))
      with (size st start + sum_sizes st rest).
    rewrite (span_sum st rest). lia. }
  split; [exact Hfnx|].
  split.
  { intros Hp. destruct (Hstop_post Hp) as (_ & Hs0' & _).
    split; [apply Hfpv; exact Hs0'|].
    rewrite Hftl. destruct (Z.eqb_spec stop 0) as [?|_]; [contradiction|].
    exact Ht12. }
  split.
  { intros Hp. rewrite Hftl. subst stop. rewrite Hp. reflexivity. }
  split; [exact Hmem2|].
  split.
  { intros a Ha. apply Hfr. apply in_app_or in Ha.
    destruct Ha as [Ha|[<-|Ha]]; [apply (Hpre a Ha)|exact HsL|apply (Hpost a Ha)]. }
  split; [exact Hpv|].
  split.
  { intros a Ha. destruct (Hincl a Ha) as (A & B & _).
    split; [apply (Hsn a A B)|apply Hadd; exact Ha]. }
  split.
  { destruct (Hf1 start HsL) as (_ & -> & _). rewrite (Hia2 start HsL Hsr).
    pose proof (bucket_of_nonneg st start).
    destruct (Z_lt_dec (bucket_of st start) MULTIPLES_MAX) as [Hlt|Hge].
    - destruct (in_dec Z.eq_dec start (bk (bucket_of st start))) as [Hin|Hnin].
      + left. apply Hrm_in; assumption.
      + right. rewrite Hrm_out by (left; exact Hnin). tauto.
    - right. rewrite Hrm_out by (right; lia). split; [reflexivity|left; lia]. }
  rewrite Hfhd, Hfbrk, Hflo, Hfhi, Hflog. tauto.
Qed.

(** * Freeing a chunk *)

Lemma chunk_list_step L st st' :
  apart L -> index_step L st st' -> chunk_list st L -> chunk_list st' L.
Proof.
  intros Hap Hs (Ht & Hh & Htl & He).
  pose proof Hs as (Hh' & Ht' & _).
  assert (Hf : forall a, In a L ->
            is_free st' a = is_free st a /\ size st' a = size st a /\
            prev st' a = prev st a /\ next st' a = next st a)
    by (intros a Ha; apply (index_step_fields L st st' a Hap Hs Ha)).
  split; [|split; [congruence|split; [congruence|]]].
  - apply (tiling_frame st); [| |exact Ht].
    + intros a Ha. destruct (Hf a Ha) as (_ & -> & _ & ->). tauto.
    + intros a Ha. apply Hf. destruct L; [destruct Ha|right; exact Ha].
  - intros Hne. destruct (He Hne) as (A & B & C & D).
    destruct (Hf _ (hd_in L 0 Hne)) as (_ & _ & -> & _).
    destruct (Hf _ (last_in L 0 Hne)) as (_ & _ & _ & ->).
    rewrite (span_step L st st' L Hap Hs (incl_refl L)). tauto.
Qed.

(** Marking a chunk free touches its [is_free] byte only. *)
Lemma set_is_free_spec st L bk c v :
  bytes_ok st -> chunk_list st L -> index_ok st L bk -> In c L ->
  let st1 := set_is_free st c v in
  bytes_ok st1 /\ chunk_list st1 L /\ index_ok st1 L bk /\
  is_free st1 c = v mod 256 /\
  (forall a, In a L -> a <> c -> is_free st1 a = is_free st a) /\
  (forall a, In a L ->
     is_added st1 a = is_added st a /\ size st1 a = size st a /\
     prev st1 a = prev st a /\ next st1 a = next st a /\
     next_free st1 a = next_free st a) /\
  current_free_size st1 = current_free_size st.
Proof.
  intros Hb Hcl Hix Hc st1.
  pose proof (chunk_list_apart st L Hb Hcl) as Hap.
  assert (Hf : forall a, In a L ->
     is_added st1 a = is_added st a /\ size st1 a = size st a /\
     prev st1 a = prev st a /\ next st1 a = next st a /\
     next_free st1 a = next_free st a).
  { intros a Ha. pose proof (Hap a c Ha Hc). subst st1. mem_simpl. tauto. }
  split; [subst st1; apply bytes_ok_store8; exact Hb|].
  split.
  { destruct Hcl as (Ht & Hh & Htl & He).
    split; [|split; [exact Hh|split; [exact Htl|]]].
    - apply (tiling_frame st); [| |exact Ht].
      + intros a Ha. destruct (Hf a Ha) as (_ & -> & _ & -> & _). tauto.
      + intros a Ha. apply Hf. destruct L; [destruct Ha|right; exact Ha].
    - intros Hne. destruct (He Hne) as (A & B & C & D).
      destruct (Hf _ (hd_in L 0 Hne)) as (_ & _ & -> & _).
      destruct (Hf _ (last_in L 0 Hne)) as (_ & _ & _ & -> & _).
      rewrite (span_frame st st1 L) by (intros a Ha; apply Hf; exact Ha). tauto. }
  split.
  { intros i Hi. destruct (Hix i Hi) as (Hch & Hnd & Hm).
    split; [|split; [exact Hnd|]].
    - apply (fchain_frame st); [|exact Hch].
      intros a Ha. apply Hf. apply (Hm a Ha).
    - intros a Ha. destruct (Hm a Ha) as (A & B & C).
      split; [exact A|]. unfold bucket_of.
      destruct (Hf a A) as (-> & -> & _). tauto. }
  split; [subst st1; mem_simpl; reflexivity|].
  split; [|split; [exact Hf|reflexivity]].
  intros a Ha Hne. pose proof (Hap a c Ha Hc). subst st1. mem_simpl. reflexivity.
Qed.

(** The free chunks at the front of a list. *)
Lemma free_prefix st : forall post,
  exists fr post2, post = fr ++ post2 /\
    (forall c, In c fr -> is_free st c = 1) /\
    (post2 = [] \/ is_free st (hd 0 post2) <> 1).
Proof.
  induction post as [|p post IH].
  - exists [], []. split; [reflexivity|]. split; [intros c []|left; reflexivity].
  - destruct (Z.eq_dec (is_free st p) 1) as [E|E].
    + destruct IH as (fr & post2 & -> & Hfr & Hp2).
      exists (p :: fr), post2. split; [reflexivity|]. split; [|exact Hp2].
      intros c [<-|Hc]; [exact E|apply Hfr; exact Hc].
    + exists [], (p :: post). split; [reflexivity|].
      split; [intros c []|right; exact E].
Qed.

(** Re-inserting the merged chunk [q] restores the agreement of flags and
    index, when every other chunk already agrees. *)
Lemma add_restores_heap_ok s L bk q :
  bytes_ok s -> chunk_list s L -> index_ok s L bk -> In q L ->
  is_free s q = 1 ->
  flags_ok s L bk ->
  (forall a, In a L -> a <> q -> is_free s a = 1 ->
             bucket_of s a < MULTIPLES_MAX -> In a (bk (bucket_of s a))) ->
  exists bk', heap_ok (HMMadd_free_block q s) L bk'.
Proof.
  intros Hb Hcl Hix Hq Hqf Hfl Hfi.
  pose proof (chunk_list_apart s L Hb Hcl) as Hap.
  pose proof (chunk_list_placed s L Hb Hcl) as Hpl.
  destruct (HMMadd_spec s L bk q Hb Hap Hpl Hix Hq) as (Hs & Hb' & Hadd & Hno).
  set (s' := HMMadd_free_block q s) in *.
  assert (Hbo : forall a, In a L -> bucket_of s' a = bucket_of s a)
    by (intros a Ha; apply (bucket_of_step L s s' a Hap Hs Ha)).
  assert (Hfr : forall a, In a L -> is_free s' a = is_free s a)
    by (intros a Ha; apply (index_step_fields L s s' a Hap Hs Ha)).
  pose proof (chunk_list_step L s s' Hap Hs Hcl) as Hcl'.
  destruct (Z_lt_dec (bucket_of s q) MULTIPLES_MAX) as [Hlt|Hge];
    [destruct (Z.eq_dec (is_added s q) 0) as [Hz|Hnz]|].
  - (* inserted *)
    destruct (Hadd Hlt Hz) as (Hix' & Hia & _ & Hothers).
    exists (bk_add bk (bucket_of s q) q).
    split; [exact Hb'|]. split; [exact Hcl'|]. split; [exact Hix'|]. split.
    + intros a Ha Hne. rewrite (Hbo a Ha). unfold bk_add.
      destruct (Z.eq_dec a q) as [->|Haq].
      * split; [exact Hlt|]. rewrite Z.eqb_refl. left. reflexivity.
      * rewrite (Hothers a Ha Haq) in Hne. destruct (Hfl a Ha Hne) as (A & B).
        split; [exact A|]. destruct (_ =? _); [right|]; exact B.
    + intros a Ha Hf Hr. rewrite (Hbo a Ha) in *. unfold bk_add.
      destruct (Z.eq_dec a q) as [->|Haq].
      * rewrite Z.eqb_refl. left. reflexivity.
      * rewrite (Hfr a Ha) in Hf. pose proof (Hfi a Ha Haq Hf Hr) as B.
        destruct (_ =? _); [right|]; exact B.
  - (* already flagged, hence already indexed *)
    rewrite (Hno (or_intror Hnz)) in *. exists bk.
    split; [exact Hb|]. split; [exact Hcl|]. split; [exact Hix|].
    split; [exact Hfl|].
    intros a Ha Hf Hr. destruct (Z.eq_dec a q) as [->|Haq].
    + apply (Hfl q Hq Hnz).
    + apply Hfi; assumption.
  - (* size class outside the index *)
    assert (Hge' : MULTIPLES_MAX <= bucket_of s q) by lia.
    rewrite (Hno (or_introl Hge')) in *. exists bk.
    split; [exact Hb|]. split; [exact Hcl|]. split; [exact Hix|].
    split; [exact Hfl|].
    intros a Ha Hf Hr. destruct (Z.eq_dec a q) as [->|Haq]; [lia|].
    apply Hfi; assumption.
Qed.

Lemma tiling_NoDup st : forall L, bytes_ok st -> tiling st L -> NoDup L.
Proof.
  induction L as [|a L IH]; intros Hb Ht; [constructor|].
  constructor.
  - intros Hin. assert (a + HDR <= a); [|unfold HDR in *; lia].
    apply (tiling_before st [a] L a a Hb Ht); [left; reflexivity|exact Hin].
  - apply IH; [exact Hb|]. apply (tiling_app_r st [a] L Ht).
Qed.

Lemma NoDup_outer_not_mid (l1 l2 l3 : list Z) a :
  NoDup (l1 ++ l2 ++ l3) -> In a (l1 ++ l3) -> ~ In a l2.
Proof.
  intros Hnd Ha H2. apply in_app_or in Ha. destruct Ha as [Ha|Ha].
  - destruct (in_split _ _ Ha) as (x & y & ->).
    rewrite <- app_assoc in Hnd. cbn in Hnd.
    apply NoDup_remove_2 in Hnd. apply Hnd.
    apply in_or_app. right. apply in_or_app. right. apply in_or_app. left. exact H2.
  - destruct (in_split _ _ H2) as (x & y & ->).
    rewrite <- !app_assoc in Hnd. cbn in Hnd.
    rewrite app_assoc in Hnd. apply NoDup_remove_2 in Hnd. apply Hnd.
    apply in_or_app. right. apply in_or_app. right. exact Ha.
Qed.

Lemma chunk_neighbours st pre c post :
  chunk_list st (pre ++ c :: post) ->
  prev st c = last pre 0 /\ next st c = hd 0 post.
Proof.
  intros (Ht & _ & _ & He).
  assert (Hne : pre ++ c :: post <> [])
    by (intros E; apply app_eq_nil in E; destruct E; discriminate).
  destruct (He Hne) as (_ & Hp & Hn & _). split.
  - destruct pre as [|h pre'] using rev_ind; [exact Hp|].
    rewrite last_last.
    destruct (tiling_link st (pre' ++ [h]) (c :: post) Ht)
      as (_ & A & _); [|discriminate|].
    + intros E. apply app_eq_nil in E. destruct E. discriminate.
    + cbn [hd] in A. rewrite last_last in A. exact A.
  - destruct post as [|p post'].
    + rewrite last_last in Hn. exact Hn.
    + change (pre ++ c :: p :: post') with (pre ++ [c] ++ p :: post') in Ht.
      rewrite app_assoc in Ht.
      destruct (tiling_link st (pre ++ [c]) (p :: post') Ht)
        as (A & _); [|discriminate|].
      * intros E. apply app_eq_nil in E. destruct E. discriminate.
      * rewrite last_last in A. exact A.
Qed.

(** Coalescing a run and re-inserting its first chunk, as both merging
    branches of [HMMfree] do. *)
Lemma merge_then_add st1 L bk pre start rest post fuel :
  bytes_ok st1 -> chunk_list st1 L -> index_ok st1 L bk -> flags_ok st1 L bk ->
  (forall a, In a L -> ~ In a (start :: rest) -> is_free st1 a = 1 ->
             bucket_of st1 a < MULTIPLES_MAX -> In a (bk (bucket_of st1 a))) ->
  L = pre ++ (start :: rest) ++ post -> rest <> [] ->
  (forall c, In c (start :: rest) -> is_free st1 c = 1) ->
  post = [] \/ is_free st1 (hd 0 post) <> 1 ->
  (2 * length L < fuel)%nat ->
  exists s,
    HMMcoalesce fuel start st1 = Some s /\
    (forall a, In a rest -> prev s a = prev st1 a) /\
    exists bk', heap_ok (HMMadd_free_block start s) (pre ++ start :: post) bk'.
Proof.
  intros Hb Hcl Hix Hfl Hfi HL Hrest Hfree Hstop Hfuel.
  pose proof (proj1 Hcl) as Ht.
  pose proof (tiling_NoDup st1 L Hb Ht) as Hnd. rewrite HL in Hnd.
  destruct (HMMcoalesce_spec st1 L bk pre start rest post fuel
              Hb Hcl Hix HL Hrest Hfree Hstop Hfuel)
    as (s & bk1 & Hco & Hbs & Hcls & Hixs & Hsz & Hnx & Hpv & Htl & Hmem
        & Hfr & Hprev & Hrestf & Hia & _).
  exists s. split; [exact Hco|].
  assert (HrL : forall a, In a rest -> In a L /\ a <> hd 0 post).
  { intros a Ha. split.
    - rewrite HL. apply in_or_app. right. apply in_or_app. left. right. exact Ha.
    - destruct post as [|p post']; cbn [hd].
      + assert (In a L) as HaL
          by (rewrite HL; apply in_or_app; right; apply in_or_app; left; right; exact Ha).
        destruct (chunk_list_placed st1 L Hb Hcl a HaL). lia.
      + intros ->. apply (NoDup_outer_not_mid pre (start :: rest) (p :: post') p Hnd).
        * apply in_or_app. right. left. reflexivity.
        * right. exact Ha. }
  split; [intros a Ha; destruct (HrL a Ha); apply Hprev; assumption|].
  assert (Hout : forall a, In a (pre ++ post) ->
            In a L /\ ~ In a (start :: rest)).
  { intros a Ha. split.
    - rewrite HL. apply in_app_or in Ha. apply in_or_app.
      destruct Ha as [Ha|Ha]; [left; exact Ha|right; apply in_or_app; right; exact Ha].
    - apply (NoDup_outer_not_mid pre (start :: rest) post a Hnd Ha). }
  assert (Hsplit : forall a, In a (pre ++ start :: post) ->
            a = start \/ In a (pre ++ post)).
  { intros a Ha. apply in_app_or in Ha.
    destruct Ha as [Ha|[Ha|Ha]]; [right; apply in_or_app; left; exact Ha
                                 |left; symmetry; exact Ha
                                 |right; apply in_or_app; right; exact Ha]. }
  assert (HsL : In start L)
    by (rewrite HL; apply in_or_app; right; left; reflexivity).
  assert (Hias : is_added s start = 0).
  { destruct Hia as [E|(E & N)]; [exact E|].
    destruct (Z.eq_dec (is_added st1 start) 0) as [Z0|NZ]; [congruence|].
    destruct (Hfl start HsL NZ) as (A & B). destruct N as [N|N]; [lia|contradiction]. }
  apply (add_restores_heap_ok s (pre ++ start :: post) bk1 start Hbs Hcls Hixs).
  - apply in_or_app. right. left. reflexivity.
  - rewrite Hfr by (apply in_or_app; right; left; reflexivity).
    apply Hfree. left. reflexivity.
  - intros a Ha Hne. destruct (Hsplit a Ha) as [->|Hpp]; [contradiction|].
    destruct (Hout a Hpp) as (HaL & Hnr).
    destruct (Hrestf a Hpp) as (Hsa & Haa).
    assert (Hbo : bucket_of s a = bucket_of st1 a) by (unfold bucket_of; rewrite Hsa; reflexivity).
    rewrite Haa in Hne. destruct (Hfl a HaL Hne) as (A & B).
    rewrite Hbo. split; [exact A|].
    apply (Hmem _ a (conj (bucket_of_nonneg st1 a) A)). tauto.
  - intros a Ha Hne Hf Hr. destruct (Hsplit a Ha) as [->|Hpp]; [contradiction|].
    destruct (Hout a Hpp) as (HaL & Hnr).
    destruct (Hrestf a Hpp) as (Hsa & Haa).
    assert (Hbo : bucket_of s a = bucket_of st1 a) by (unfold bucket_of; rewrite Hsa; reflexivity).
    rewrite Hbo in *. rewrite (Hfr a Ha) in Hf.
    apply (Hmem _ a (conj (bucket_of_nonneg st1 a) Hr)).
    split; [|exact Hnr]. apply Hfi; assumption.
Qed.

(** The merging part of [HMMfree] keeps a well-formed heap well-formed:
    afterwards every free chunk whose size class the index can hold is
    indexed. *)
Lemma free_merge_heap_ok st L bk c fuel :
  heap_ok st L bk -> In c L -> is_free st c = 0 ->
  (2 * length L < fuel)%nat ->
  exists st2 L' bk',
    free_merge fuel c (set_is_free st c 1) = Some st2 /\ heap_ok st2 L' bk'.
Proof.
  intros (Hb & Hcl & Hix & Hfl & Hfi) HcL Hcf Hfuel.
  destruct (set_is_free_spec st L bk c 1 Hb Hcl Hix HcL)
    as (Hb1 & Hcl1 & Hix1 & Hf1c & Hf1o & Hsame & _).
  set (st1 := set_is_free st c 1) in *.
  change (1 mod 256) with 1 in Hf1c.
  assert (Hbo1 : forall a, In a L -> bucket_of st1 a = bucket_of st a).
  { intros a Ha. unfold bucket_of. destruct (Hsame a Ha) as (_ & -> & _). reflexivity. }
  assert (Hfl1 : flags_ok st1 L bk).
  { intros a Ha Hne. rewrite (Hbo1 a Ha). destruct (Hsame a Ha) as (E & _).
    rewrite E in Hne. apply Hfl; assumption. }
  assert (Hfi1 : forall a, In a L -> a <> c -> is_free st1 a = 1 ->
            bucket_of st1 a < MULTIPLES_MAX -> In a (bk (bucket_of st1 a))).
  { intros a Ha Hne Hf Hr. rewrite (Hbo1 a Ha) in *.
    rewrite (Hf1o a Ha Hne) in Hf. apply Hfi; assumption. }
  destruct (in_split _ _ HcL) as (pre & post & HL).
  pose proof Hcl1 as Hcl1'. rewrite HL in Hcl1'.
  destruct (chunk_neighbours st1 pre c post Hcl1') as (Hpv & Hnx).
  destruct (chunk_list_placed st1 L Hb1 Hcl1 c HcL) as (Hc0 & _).
  unfold free_merge. rewrite Hpv, Hnx.
  destruct (negb (last pre 0 =? 0) && (is_free st1 (last pre 0) =? 1)) eqn:EA.
  - (* the predecessor is free *)
    apply andb_prop in EA. destruct EA as (EA1 & EA2).
    apply negb_true_iff, Z.eqb_neq in EA1. apply Z.eqb_eq in EA2.
    destruct pre as [|q pre' _] using rev_ind; [cbn in EA1; contradiction|].
    rewrite last_last in *.
    destruct (free_prefix st1 post) as (fr & post2 & Hpost & Hfr & Hp2).
    destruct (merge_then_add st1 L bk pre' q (c :: fr) post2 fuel)
      as (s & Hco & Hprev & bk' & Hok); try assumption.
    + intros a Ha Hn. apply Hfi1; [exact Ha|]. intros ->. apply Hn. right. left. reflexivity.
    + rewrite HL, Hpost, <- !app_assoc. reflexivity.
    + discriminate.
    + intros d [<-|[<-|Hd]]; [exact EA2|exact Hf1c|apply Hfr; exact Hd].
    + rewrite Hco. rewrite (Hprev c (or_introl eq_refl)), Hpv.
      exists (HMMadd_free_block q s), (pre' ++ q :: post2), bk'.
      split; [reflexivity|exact Hok].
  - destruct (negb (hd 0 post =? 0) && (is_free st1 (hd 0 post) =? 1)) eqn:EB.
    + (* the successor is free *)
      apply andb_prop in EB. destruct EB as (EB1 & EB2).
      apply negb_true_iff, Z.eqb_neq in EB1. apply Z.eqb_eq in EB2.
      destruct (free_prefix st1 post) as (fr & post2 & Hpost & Hfr & Hp2).
      assert (Hfrne : fr <> []).
      { intros ->. cbn in Hpost. subst post2.
        destruct Hp2 as [E|E]; [rewrite E in EB1; cbn in EB1; contradiction|contradiction]. }
      destruct (merge_then_add st1 L bk pre c fr post2 fuel)
        as (s & Hco & Hprev & bk' & Hok); try assumption.
      * intros a Ha Hn. apply Hfi1; [exact Ha|]. intros ->. apply Hn. left. reflexivity.
      * rewrite HL, Hpost. reflexivity.
      * intros d [<-|Hd]; [exact Hf1c|apply Hfr; exact Hd].
      * rewrite Hco.
        exists (HMMadd_free_block c s), (pre ++ c :: post2), bk'.
        split; [reflexivity|exact Hok].
    + (* no free neighbour *)
      destruct (add_restores_heap_ok st1 L bk c Hb1 Hcl1 Hix1 HcL Hf1c Hfl1 Hfi1)
        as (bk' & Hok).
      exists (HMMadd_free_block c st1), L, bk'. split; [reflexivity|exact Hok].
Qed.

(** [HMMfree] on the payload of an allocated chunk, when the accumulator
    stays below the shrink threshold. *)
Lemma HMMfree_no_shrink st L bk c fuel :
  heap_ok st L bk -> In c L -> is_free st c = 0 ->
  (2 * length L < fuel)%nat ->
  exists st2 L' bk',
    free_merge fuel c (set_is_free st c 1) = Some st2 /\ heap_ok st2 L' bk' /\
    (current_free_size st2 < ALLOCATED_BYTES ->
     HMMfree fuel (c + HDR) st = Some st2).
Proof.
  intros Hok HcL Hcf Hfuel.
  destruct (free_merge_heap_ok st L bk c fuel Hok HcL Hcf Hfuel)
    as (st2 & L' & bk' & Hm & Hok').
  exists st2, L', bk'. split; [exact Hm|]. split; [exact Hok'|].
  intros Hacc. unfold HMMfree.
  destruct Hok as (Hb & Hcl & _).
  destruct (chunk_list_placed st L Hb Hcl c HcL) as (Hc0 & Hc1).
  destruct (Z.eqb_spec (c + HDR) 0) as [E|_]; [unfold HDR in *; lia|].
  replace (c + HDR - HDR) with c by lia.
  rewrite (wrap_small c) by (unfold HDR, WORD in *; lia).
  rewrite Hcf. cbn [Z.eqb negb]. rewrite Hm. unfold shrink_check.
  destruct (Z.leb_spec ALLOCATED_BYTES (current_free_size st2)); [lia|reflexivity].
Qed.

(** * A failing allocation *)

Lemma remove_loop_mono block idx :
  forall f cur prv st s,
    remove_loop f block idx cur prv st = Some s ->
    forall f', (f <= f')%nat -> remove_loop f' block idx cur prv st = Some s.
Proof.
  induction f as [|f IH]; intros cur prv st s H f' Hle; [discriminate|].
  destruct f' as [|f']; [lia|]. cbn [remove_loop] in *.
  destruct (cur =? 0); [exact H|].
  destruct (cur =? block); [exact H|].
  apply (IH _ _ _ _ H). lia.
Qed.

Lemma HMMremove_mono f b st s :
  HMMremove_free_block f b st = Some s ->
  forall f', (f <= f')%nat -> HMMremove_free_block f' b st = Some s.
Proof.
  unfold HMMremove_free_block. intros H f' Hle.
  destruct (b =? 0); [exact H|].
  destruct (_ <? _); [|exact H].
  apply (remove_loop_mono _ _ f); assumption.
Qed.

(** Whatever the fuel, a removal that returned did what
    [HMMremove_spec] says. *)
Lemma HMMremove_partial st L bk b f st' :
  bytes_ok st -> apart L -> placed L -> index_ok st L bk -> In b L ->
  HMMremove_free_block f b st = Some st' ->
  index_ok st' L (bk_remove bk (bucket_of st b) b) /\
  index_step L st st' /\ bytes_ok st'.
Proof.
  intros Hb Hap Hpl Hix HbL Hrm.
  destruct (HMMremove_spec st L bk b (Nat.max f (S (length L))) Hb Hap Hpl Hix HbL
              ltac:(lia)) as (st'' & Hrm' & H1 & H2 & H3 & _).
  rewrite (HMMremove_mono f b st st' Hrm) in Hrm' by lia.
  injection Hrm' as <-. tauto.
Qed.

Lemma scan_loop_fail L sz :
  forall fuel cur st bk st1,
    scan_ok st L bk -> cur = 0 \/ In cur L ->
    scan_loop fuel cur sz st = Some (0, st1) ->
    index_step L st st1 /\ exists bk1, scan_ok st1 L bk1.
Proof.
  induction fuel as [|f IH]; intros cur st bk st1 Hok Hcur H; [discriminate|].
  cbn [scan_loop] in H.
  destruct (Z.eqb_spec cur 0) as [E|E].
  { injection H as <-. split; [apply index_step_refl|exists bk; exact Hok]. }
  destruct Hcur as [?|HcL]; [contradiction|].
  destruct ((is_free st cur =? 1) && (sz <=? size st cur)).
  { destruct (HMMremove_free_block f cur st) as [s1|]; [|discriminate].
    destruct (_ <? _); injection H as E1 _; contradiction. }
  destruct Hok as (Hb & Hap & Hpl & Hix & Htl & Hpc).
  set (s1 := if is_free st cur =? 1 then HMMadd_free_block cur st else st) in *.
  assert (Hs1 : index_step L st s1 /\ exists bk1, index_ok s1 L bk1 /\ bytes_ok s1).
  { subst s1. destruct (is_free st cur =? 1).
    - destruct (HMMadd_spec st L bk cur Hb Hap Hpl Hix HcL) as (A & B & C & D).
      split; [exact A|].
      destruct (Z_lt_dec (bucket_of st cur) MULTIPLES_MAX) as [Hlt|Hge];
        [destruct (Z.eq_dec (is_added st cur) 0) as [Hz|Hnz]|].
      + exists (bk_add bk (bucket_of st cur) cur). split; [apply (C Hlt Hz)|exact B].
      + rewrite (D (or_intror Hnz)). exists bk. tauto.
      + assert (Hge' : MULTIPLES_MAX <= bucket_of st cur) by lia.
        rewrite (D (or_introl Hge')). exists bk. tauto.
    - split; [apply index_step_refl|exists bk; tauto]. }
  destruct Hs1 as (Hst & bk1 & Hix1 & Hb1).
  assert (Hok1 : scan_ok s1 L bk1).
  { split; [exact Hb1|]. split; [exact Hap|]. split; [exact Hpl|].
    split; [exact Hix1|]. split.
    - destruct Hst as (_ & -> & _). exact Htl.
    - intros a Ha. destruct (index_step_fields L st s1 a Hap Hst Ha) as (_ & _ & -> & _).
      apply Hpc. exact Ha. }
  destruct (IH (prev s1 cur) s1 bk1 st1 Hok1) as (Hst' & bk2 & Hok2).
  - destruct (index_step_fields L st s1 cur Hap Hst HcL) as (_ & _ & -> & _).
    apply Hpc. exact HcL.
  - exact H.
  - split; [apply (index_step_trans L st s1 st1); assumption|].
    exists bk2. exact Hok2.
Qed.

Lemma append_new_chunk_unfold nc nbytes st :
  append_new_chunk nc nbytes st
  = HMMadd_free_block nc (link_new_chunk nc nbytes st).
Proof.
  unfold append_new_chunk, link_new_chunk. unfold_fields.
  destruct (negb (tail st =? 0)); autorewrite with state_proj;
    destruct (head st =? 0); autorewrite with state_proj; reflexivity.
Qed.

(** Linking a new chunk above every known header. *)
Lemma link_new_chunk_spec st L bk nc nbytes :
  scan_ok st L bk -> 0 < nc -> nc + HDR <= WORD ->
  (forall a, In a L -> a + HDR <= nc) ->
  let s := link_new_chunk nc nbytes st in
  scan_ok s (nc :: L) bk /\ tail s = nc /\ is_free s nc = 1 /\
  (forall a, In a L -> is_free s a = is_free st a) /\
  (forall x, (forall a, In a (nc :: L) -> x < a \/ a + HDR <= x) ->
             mem s x = mem st x) /\
  brk s = brk st /\ brk_lo s = brk_lo st /\ brk_hi s = brk_hi st.
Proof.
  intros (Hb & Hap & Hpl & Hix & Htl & Hpc) Hnc0 Hnc1 Habove s.
  assert (Htr : 0 <= tail st < WORD).
  { destruct Htl as [->|Ht]; [unfold WORD; lia|].
    destruct (Hpl _ Ht). unfold HDR in *. lia. }
  assert (Hmem : mem s = 
    let m1 := store64 (store64 (store64 (store8 (mem st) (nc + 1) 1) (nc + 8)
                (wrap (nbytes - HDR))) (nc + 16) (tail st)) (nc + 24) 0 in
    let m2 := if negb (tail st =? 0) then store64 m1 (tail st + 24) nc else m1 in
    store64 m2 (nc + 24) 0).
  { subst s. unfold link_new_chunk. unfold_fields.
    destruct (negb (tail st =? 0)); autorewrite with state_proj;
      destruct (head st =? 0); autorewrite with state_proj; reflexivity. }
  assert (Htail : tail s = nc).
  { subst s. unfold link_new_chunk. unfold_fields.
    destruct (negb (tail st =? 0)); autorewrite with state_proj;
      destruct (head st =? 0); autorewrite with state_proj; reflexivity. }
  assert (Hrest : block_freq s = block_freq st /\ brk s = brk st /\
                  brk_lo s = brk_lo st /\ brk_hi s = brk_hi st).
  { subst s. unfold link_new_chunk. unfold_fields.
    destruct (negb (tail st =? 0)); autorewrite with state_proj;
      destruct (head st =? 0); autorewrite with state_proj;
      repeat split; reflexivity. }
  destruct Hrest as (Hbf & Hbrk & Hlo & Hhi).
  cbv zeta in Hmem.
  assert (HtL : tail st <> 0 -> In (tail st) L) by (destruct Htl; tauto).
  (* fields of the old headers *)
  assert (Hold : forall a, In a L ->
            is_added s a = is_added st a /\ is_free s a = is_free st a /\
            size s a = size st a /\ prev s a = prev st a /\
            next_free s a = next_free st a).
  { intros a Ha. pose proof (Habove a Ha).
    unfold is_added, is_free, size, prev, next_free. rewrite Hmem.
    destruct (Z.eqb_spec (tail st) 0) as [E|E]; cbn [negb].
    - repeat mem_step. tauto.
    - pose proof (Hap a (tail st) Ha (HtL E)). repeat mem_step. tauto. }
  assert (Hnew : is_free s nc = 1 /\ prev s nc = tail st).
  { unfold is_free, prev. rewrite Hmem.
    destruct (Z.eqb_spec (tail st) 0) as [E|E]; cbn [negb].
    - repeat mem_step. rewrite E. split; reflexivity.
    - pose proof (Habove _ (HtL E)). repeat mem_step.
      split; [reflexivity|apply wrap_small; exact Htr]. }
  assert (Hbs : bytes_ok s).
  { intros x. rewrite Hmem. destruct (negb (tail st =? 0));
      repeat apply store64_bytes; apply store8_bytes; apply Hb. }
  split.
  { split; [exact Hbs|]. split.
    { intros a b [<-|Ha] [<-|Hb2]; [left; reflexivity| | |apply Hap; assumption].
      - right. right. apply Habove. exact Hb2.
      - right. left. apply Habove. exact Ha. }
    split.
    { intros a [<-|Ha]; [split; assumption|apply Hpl; exact Ha]. }
    split.
    { intros i Hi. destruct (Hix i Hi) as (Hch & Hnd & Hm).
      split; [|split; [exact Hnd|]].
      - rewrite Hbf. apply (fchain_frame st); [|exact Hch].
        intros a Ha. apply Hold. apply (Hm a Ha).
      - intros a Ha. destruct (Hm a Ha) as (A & B & C).
        split; [right; exact A|]. unfold bucket_of.
        destruct (Hold a A) as (-> & _ & -> & _). tauto. }
    split; [right; left; symmetry; exact Htail|].
    intros a [<-|Ha].
    - destruct Hnew as (_ & ->). destruct Htl as [E|E]; [left; exact E|right; right; exact E].
    - destruct (Hold a Ha) as (_ & _ & _ & -> & _).
      destruct (Hpc a Ha) as [E|E]; [left; exact E|right; right; exact E]. }
  split; [exact Htail|]. split; [apply Hnew|].
  split; [intros a Ha; apply (Hold a Ha)|].
  split; [|tauto].
  intros x Hx. rewrite Hmem. pose proof (Hx nc (or_introl eq_refl)) as Hxn.
  destruct (Z.eqb_spec (tail st) 0) as [E|E]; cbn [negb].
  - rewrite !store64_other, store8_other by (unfold HDR in *; lia). reflexivity.
  - pose proof (Hx _ (or_intror (HtL E))).
    rewrite !store64_other, store8_other by (unfold HDR in *; lia). reflexivity.
Qed.

Lemma scan_ok_ext st st' L bk :
  mem st' = mem st -> block_freq st' = block_freq st -> tail st' = tail st ->
  scan_ok st L bk -> scan_ok st' L bk.
Proof.
  intros Hm Hf Ht (Hb & Hap & Hpl & Hix & Htl & Hpc).
  split; [intros x; rewrite Hm; apply Hb|]. split; [exact Hap|].
  split; [exact Hpl|]. split.
  { intros i Hi. destruct (Hix i Hi) as (Hch & Hnd & Hmb).
    split; [|split; [exact Hnd|]].
    - rewrite Hf. apply (fchain_frame st); [|exact Hch].
      intros a _. unfold next_free. rewrite Hm. reflexivity.
    - intros a Ha. destruct (Hmb a Ha) as (A & B & C).
      unfold bucket_of, size, is_added in *. rewrite Hm. tauto. }
  split; [rewrite Ht; exact Htl|].
  intros a Ha. unfold prev. rewrite Hm. apply Hpc. exact Ha.
Qed.

Lemma sbrk_facts n st r st2 :
  sbrk n st = (r, st2) ->
  mem st2 = mem st /\ block_freq st2 = block_freq st /\ head st2 = head st /\
  tail st2 = tail st /\ brk_lo st2 = brk_lo st /\ brk_hi st2 = brk_hi st /\
  sbrk_log st2 = n :: sbrk_log st /\
  (forall nfs, r = Some nfs ->
     nfs = brk st /\ brk_lo st <= brk st2 <= brk_hi st) /\
  (r = None -> brk st2 = brk st).
Proof.
  unfold sbrk. intros H.
  destruct ((brk_lo st <=? brk st + to_signed n) && (brk st + to_signed n <=? brk_hi st)) eqn:E;
    injection H as <- <-; cbn; repeat split; try discriminate.
  - injection H as <-. reflexivity.
  - apply andb_prop in E. destruct E as (E & _). apply Z.leb_le in E. exact E.
  - apply andb_prop in E. destruct E as (_ & E). apply Z.leb_le in E. exact E.
Qed.

(** Growing a free tail chunk in place (lines 283-284). *)
Lemma grow_tail_spec st L bk t v :
  scan_ok st L bk -> In t L -> tail st = t ->
  (forall i, 0 <= i < MULTIPLES_MAX -> ~ In t (bk i)) ->
  let s4 := set_size st (tail st) v in
  let s := set_next s4 (tail s4) 0 in
  scan_ok s L bk /\ tail s = t /\
  (forall a, In a L -> is_free s a = is_free st a) /\
  (forall x, (forall a, In a L -> x < a \/ a + HDR <= x) -> mem s x = mem st x) /\
  brk s = brk st /\ brk_lo s = brk_lo st /\ brk_hi s = brk_hi st.
Proof.
  intros (Hb & Hap & Hpl & Hix & Htl & Hpc) HtL Ht Hnot s4 s.
  subst s s4. rewrite Ht.
  assert (Hf : forall a, In a L ->
            is_free (set_next (set_size st t v) (tail (set_size st t v)) 0) a = is_free st a /\
            prev (set_next (set_size st t v) (tail (set_size st t v)) 0) a = prev st a /\
            is_added (set_next (set_size st t v) (tail (set_size st t v)) 0) a = is_added st a /\
            next_free (set_next (set_size st t v) (tail (set_size st t v)) 0) a = next_free st a /\
            (a <> t -> size (set_next (set_size st t v) (tail (set_size st t v)) 0) a = size st a)).
  { intros a Ha. pose proof (Hap a t Ha HtL). unfold_fields. rewrite Ht.
    repeat mem_step. repeat split; try reflexivity. intros Hne. repeat mem_step. reflexivity. }
  split.
  { split.
    { intros x. unfold_fields. repeat apply store64_bytes. apply Hb. }
    split; [exact Hap|]. split; [exact Hpl|]. split.
    { intros i Hi. destruct (Hix i Hi) as (Hch & Hnd & Hm).
      split; [|split; [exact Hnd|]].
      - apply (fchain_frame st); [|exact Hch].
        intros a Ha. apply Hf. apply (Hm a Ha).
      - intros a Ha. destruct (Hm a Ha) as (A & B & C).
        assert (a <> t) by (intros ->; apply (Hnot i Hi); exact Ha).
        destruct (Hf a A) as (_ & _ & E1 & _ & E2).
        rewrite E1. unfold bucket_of. rewrite (E2 H). tauto. }
    split.
    { right. unfold_fields. rewrite Ht. exact HtL. }
    intros a Ha. destruct (Hf a Ha) as (_ & -> & _). apply Hpc. exact Ha. }
  split; [unfold_fields; exact Ht|].
  split; [intros a Ha; apply (Hf a Ha)|].
  split; [|unfold_fields; tauto].
  intros x Hx. pose proof (Hx t HtL). unfold_fields. rewrite Ht.
  rewrite !store64_other by (unfold HDR in *; lia). reflexivity.
Qed.

Lemma scan_ok_step st st' L bk bk' :
  scan_ok st L bk -> index_step L st st' -> index_ok st' L bk' ->
  bytes_ok st' -> scan_ok st' L bk'.
Proof.
  intros (Hb & Hap & Hpl & Hix & Htl & Hpc) Hs Hix' Hb'.
  split; [exact Hb'|]. split; [exact Hap|]. split; [exact Hpl|].
  split; [exact Hix'|]. split.
  - destruct Hs as (_ & -> & _). exact Htl.
  - intros a Ha. destruct (index_step_fields L st st' a Hap Hs Ha) as (_ & _ & -> & _).
    apply Hpc. exact Ha.
Qed.

(** A request that [HMMget_free_chunk] fails leaves every allocated chunk
    as it was: header flag and payload bytes. *)
Lemma get_free_chunk_fail c lo hi sz :
  forall fuel st L bk st',
    scan_ok st L bk -> guarded st L c lo hi -> env_ok st ->
    below_brk st L hi \/ (tail st <> 0 /\ is_free st (tail st) = 1) ->
    HMMget_free_chunk fuel sz st = Some (0, st') ->
    is_free st' c = 0 /\ forall x, lo <= x < hi -> mem st' x = mem st x.
Proof.
  induction fuel as [|f IH]; intros st L bk st' Hok Hg Henv Hcase H; [discriminate|].
  cbn [HMMget_free_chunk] in H.
  (* the exact-size bucket is empty *)
  assert (Hfast : HMMget_free_block sz st = (0, st) \/
                  exists r s, HMMget_free_block sz st = (r, s) /\ r <> 0).
  { unfold HMMget_free_block.
    destruct (_ <? _); [|left; reflexivity].
    destruct (Z.eqb_spec (block_freq st (wrap (sz / ALIGNMENT - 1))) 0) as [E|E];
      cbn [negb]; [left; reflexivity|right].
    eexists. eexists. split; [reflexivity|exact E]. }
  destruct Hfast as [Hfast|(r & s & Hfast & Hr)].
  2:{ rewrite Hfast in H. destruct (Z.eqb_spec r 0) as [?|_]; [contradiction|].
      cbn [negb] in H. injection H as E _. contradiction. }
  rewrite Hfast in H. cbn [Z.eqb negb] in H.
  (* the scan finds nothing *)
  destruct (scan_loop f (tail st) sz st) as [[found s1]|] eqn:Hscan; [|discriminate].
  destruct (Z.eqb_spec found 0) as [->|Hnz]; cbn [negb] in H.
  2:{ injection H as E _. contradiction. }
  pose proof Hok as (Hb & Hap & Hpl & Hix & Htl & Hpc).
  destruct (scan_loop_fail L sz f (tail st) st bk s1 Hok Htl Hscan)
    as (Hst1 & bk1 & Hok1).
  destruct Hg as (HcL & Hcf & Hreg).
  assert (Hout : forall x, lo <= x < hi -> forall a, In a L -> x < a \/ a + HDR <= x).
  { intros x Hx a Ha. destruct (Hreg a Ha); lia. }
  assert (Hc1 : is_free s1 c = 0).
  { destruct (index_step_fields L st s1 c Hap Hst1 HcL) as (-> & _). exact Hcf. }
  assert (Hm1 : forall x, lo <= x < hi -> mem s1 x = mem st x).
  { intros x Hx. apply (index_step_outside L st s1 x Hst1 (Hout x Hx)). }
  pose proof Hst1 as (_ & Ht1 & Hbrk1 & Hlo1 & Hhi1 & _).
  destruct (sbrk (num_allocated_bytes sz) s1) as [[nfs|] s2] eqn:Hsbrk.
  2:{ (* the break cannot move *)
      injection H as <-.
      destruct (sbrk_facts _ _ _ _ Hsbrk) as (Hm2 & _).
      unfold is_free in *. rewrite Hm2. split; [exact Hc1|].
      intros x Hx. apply Hm1. exact Hx. }
  destruct (sbrk_facts _ _ _ _ Hsbrk)
    as (Hm2 & Hbf2 & _ & Ht2 & Hlo2 & Hhi2 & _ & Hsome & _).
  destruct (Hsome nfs eq_refl) as (Hnfs & Hbrk2).
  pose proof (scan_ok_ext s1 s2 L bk1 Hm2 Hbf2 Ht2 Hok1) as Hok2.
  assert (Hfr2 : forall a, is_free s2 a = is_free st a \/ ~ In a L).
  { intros a. destruct (in_dec Z.eq_dec a L) as [Ha|Ha]; [left|right; exact Ha].
    unfold is_free. rewrite Hm2.
    apply (index_step_fields L st s1 a Hap Hst1 Ha). }
  assert (Henv2 : env_ok s2).
  { destruct Henv as (A & B & C). unfold env_ok. rewrite Hlo2, Hhi2, Hlo1, Hhi1. lia. }
  destruct (HMMremove_free_block f (tail s2) s2) as [s3|] eqn:Hrm; [|discriminate].
  rewrite Ht2, Ht1 in Hrm.
  assert (Hrem : exists bk3, scan_ok s3 L bk3 /\ index_step L s2 s3 /\
            (tail st <> 0 -> forall i, 0 <= i < MULTIPLES_MAX -> ~ In (tail st) (bk3 i))).
  { destruct Htl as [E|HtL].
    - rewrite E in Hrm. cbn in Hrm. injection Hrm as <-.
      exists bk1. split; [exact Hok2|]. split; [apply index_step_refl|].
      intros N. contradiction.
    - destruct Hok2 as (Hb2 & _ & _ & Hix2 & _).
      destruct (HMMremove_partial s2 L bk1 (tail st) f s3 Hb2 Hap Hpl Hix2 HtL Hrm)
        as (Hix3 & Hst3 & Hb3).
      exists (bk_remove bk1 (bucket_of s2 (tail st)) (tail st)).
      split; [|split; [exact Hst3|]].
      + apply (scan_ok_step s2 s3 L bk1); try assumption.
        apply (scan_ok_ext s1 s2 L bk1 Hm2 Hbf2 Ht2 Hok1).
      + intros _ i Hi Hin.
        apply (bk_remove_in s2 L bk1 (tail st) i (tail st) Hix2 Hi) in Hin.
        destruct Hin as (_ & N). apply N. reflexivity. }
  destruct Hrem as (bk3 & Hok3 & Hst3 & Hnot3).
  pose proof Hst3 as (_ & Ht3 & Hbrk3 & Hlo3 & Hhi3 & _).
  assert (Htail3 : tail s3 = tail st) by congruence.
  assert (Hfr3 : forall a, In a L -> is_free s3 a = is_free st a).
  { intros a Ha. destruct (index_step_fields L s2 s3 a Hap Hst3 Ha) as (-> & _).
    destruct (Hfr2 a) as [E|E]; [exact E|contradiction]. }
  assert (Hm3 : forall x, lo <= x < hi -> mem s3 x = mem st x).
  { intros x Hx. rewrite (index_step_outside L s2 s3 x Hst3 (Hout x Hx)).
    rewrite Hm2. apply Hm1. exact Hx. }
  assert (Henv3 : env_ok s3).
  { destruct Henv2 as (A & B & C). unfold env_ok. rewrite Hlo3, Hhi3, Hbrk3. tauto. }
  destruct (negb (tail s3 =? 0) && (is_free s3 (tail s3) =? 1)) eqn:Ebr.
  - (* the tail chunk is free: it grows in place *)
    apply andb_prop in Ebr. destruct Ebr as (E1 & E2).
    apply negb_true_iff, Z.eqb_neq in E1. apply Z.eqb_eq in E2.
    assert (HtL : In (tail s3) L)
      by (rewrite Htail3 in *; destruct Htl; [contradiction|assumption]).
    assert (Hnot : forall i, 0 <= i < MULTIPLES_MAX -> ~ In (tail s3) (bk3 i))
      by (rewrite Htail3 in *; apply Hnot3; exact E1).
    pose proof (grow_tail_spec s3 L bk3 (tail s3)
                  (wrap (size s3 (tail s3) + num_allocated_bytes sz))
                  Hok3 HtL eq_refl Hnot) as G.
    cbv zeta in G.
    match type of H with HMMget_free_chunk f sz ?s = _ => set (s5 := s) in * end.
    assert (G' : scan_ok s5 L bk3 /\ tail s5 = tail s3 /\
              (forall a, In a L -> is_free s5 a = is_free s3 a) /\
              (forall x, (forall a, In a L -> x < a \/ a + HDR <= x) ->
                         mem s5 x = mem s3 x) /\
              brk s5 = brk s3 /\ brk_lo s5 = brk_lo s3 /\ brk_hi s5 = brk_hi s3)
      by exact G.
    clear G. destruct G' as (Hok5 & Ht5 & Hfr5 & Hm5 & Hbrk5 & Hlo5 & Hhi5).
    clearbody s5.
    destruct (IH s5 L bk3 st' Hok5) as (A & B); try assumption.
    + split; [exact HcL|]. split; [|exact Hreg].
      rewrite (Hfr5 c HcL). rewrite (Hfr3 c HcL). exact Hcf.
    + destruct Henv3 as (A & B & C). unfold env_ok. rewrite Hlo5, Hhi5, Hbrk5. tauto.
    + right. rewrite Ht5. split; [exact E1|].
      rewrite (Hfr5 _ HtL). exact E2.
    + split; [exact A|]. intros x Hx. rewrite (B x Hx).
      rewrite (Hm5 x (Hout x Hx)). apply Hm3. exact Hx.
  - (* a new chunk is appended at the old break *)
    assert (Hbelow : below_brk st L hi).
    { destruct Hcase as [?|(N1 & N2)]; [assumption|].
      assert (HtL : In (tail st) L) by (destruct Htl; [contradiction|assumption]).
      rewrite <- (Hfr3 _ HtL) in N2. rewrite Htail3, N2 in Ebr.
      destruct (Z.eqb_spec (tail st) 0); [contradiction|discriminate]. }
    destruct Hbelow as (Hbl & Hhib).
    assert (Hnfs' : nfs = brk st) by congruence.
    destruct Henv as (Ev1 & Ev2 & Ev3).
    rewrite append_new_chunk_unfold in H.
    destruct (link_new_chunk_spec s3 L bk3 nfs (num_allocated_bytes sz) Hok3)
      as (Hok6 & Ht6 & Hf6 & Hfr6 & Hm6 & Hbrk6 & Hlo6 & Hhi6).
    { lia. } { lia. } { intros a Ha. rewrite Hnfs'. apply Hbl. exact Ha. }
    set (s6 := link_new_chunk nfs (num_allocated_bytes sz) s3) in *.
    destruct Hok6 as (Hb6 & Hap6 & Hpl6 & Hix6 & Htl6 & Hpc6).
    destruct (HMMadd_spec s6 (nfs :: L) bk3 nfs Hb6 Hap6 Hpl6 Hix6 (or_introl eq_refl))
      as (Hst7 & Hb7 & Hadd7 & Hno7).
    set (s7 := HMMadd_free_block nfs s6) in *.
    assert (Hix7 : exists bk7, index_ok s7 (nfs :: L) bk7).
    { destruct (Z_lt_dec (bucket_of s6 nfs) MULTIPLES_MAX) as [Hlt|Hge];
        [destruct (Z.eq_dec (is_added s6 nfs) 0) as [Hz|Hnz]|].
      - eexists. apply (Hadd7 Hlt Hz).
      - rewrite (Hno7 (or_intror Hnz)). exists bk3. exact Hix6.
      - assert (Hge' : MULTIPLES_MAX <= bucket_of s6 nfs) by lia.
        rewrite (Hno7 (or_introl Hge')). exists bk3. exact Hix6. }
    destruct Hix7 as (bk7 & Hix7).
    assert (Hok7 : scan_ok s7 (nfs :: L) bk7).
    { apply (scan_ok_step s6 s7 (nfs :: L) bk3); try assumption.
      exact (conj Hb6 (conj Hap6 (conj Hpl6 (conj Hix6 (conj Htl6 Hpc6))))). }
    pose proof Hst7 as (_ & Ht7 & Hbrk7 & Hlo7 & Hhi7 & _).
    assert (Hfr7 : forall a, In a (nfs :: L) -> is_free s7 a = is_free s6 a)
      by (intros a Ha; apply (index_step_fields (nfs :: L) s6 s7 a Hap6 Hst7 Ha)).
    assert (Hout' : forall x, lo <= x < hi ->
              forall a, In a (nfs :: L) -> x < a \/ a + HDR <= x).
    { intros x Hx a [<-|Ha]; [lia|apply (Hout x Hx a Ha)]. }
    destruct (IH s7 (nfs :: L) bk7 st' Hok7) as (A & B); try assumption.
    + split; [right; exact HcL|]. split.
      * rewrite (Hfr7 c (or_intror HcL)), (Hfr6 c HcL), (Hfr3 c HcL). exact Hcf.
      * intros a [<-|Ha]; [right; lia|apply Hreg; exact Ha].
    + destruct Henv3 as (A & B & C). unfold env_ok.
      rewrite Hlo7, Hhi7, Hbrk7, Hlo6, Hhi6, Hbrk6. tauto.
    + right. rewrite Ht7, Ht6. split; [lia|].
      rewrite (Hfr7 nfs (or_introl eq_refl)). exact Hf6.
    + split; [exact A|]. intros x Hx. rewrite (B x Hx).
      rewrite (index_step_outside (nfs :: L) s6 s7 x Hst7 (Hout' x Hx)).
      rewrite (Hm6 x (Hout' x Hx)). apply Hm3. exact Hx.
Qed.

(** * Size normalisation *)

Lemma align_up_div x : align_up x = 8 * (wrap (x + 7) / 8).
Proof.
  unfold align_up, ALIGNMENT. change (8 - 1) with 7.
  pose proof (wrap_range (x + 7)) as Hr. set (a := wrap (x + 7)) in *.
  change (wrap (Z.lnot 7)) with (Z.land (Z.lnot 7) (Z.ones 64)).
  rewrite (Z.land_comm (Z.lnot 7)), Z.land_assoc.
  rewrite (Z.land_ones a 64) by lia.
  change (2 ^ 64) with WORD. rewrite (Z.mod_small a WORD) by exact Hr.
  change 7 with (Z.ones 3). rewrite <- Z.ldiff_land, Z.ldiff_ones_r by lia.
  rewrite Z.shiftr_div_pow2, Z.shiftl_mul_pow2 by lia.
  change (2 ^ 3) with 8. lia.
Qed.

Lemma align_up_idem x : align_up (align_up x) = align_up x.
Proof.
  rewrite !align_up_div.
  pose proof (wrap_range (x + 7)) as Hr. set (a := wrap (x + 7)) in *.
  unfold WORD in Hr.
  assert (H : wrap (8 * (a / 8) + 7) = 8 * (a / 8) + 7).
  { apply wrap_small. unfold WORD.
    pose proof (Z.div_mod a 8 ltac:(lia)). pose proof (Z.mod_pos_bound a 8 ltac:(lia)).
    assert (a / 8 < 2305843009213693952) by (apply Z.div_lt_upper_bound; lia).
    lia. }
  rewrite H.
  replace (8 * (a / 8) + 7) with (7 + (a / 8) * 8) by lia.
  rewrite Z.div_add by lia. change (7 / 8) with 0. lia.
Qed.

(** * Resizing when the new allocation fails *)

Lemma chunk_end_bound st L a :
  bytes_ok st -> tiling st L -> In a L ->
  a + HDR + size st a <= hd 0 L + span st L.
Proof.
  intros Hb Ht Ha. destruct (in_split _ _ Ha) as (pre & post & ->).
  pose proof (tiling_span_bound st pre [a] post Hb Ht ltac:(discriminate)) as H.
  cbn [hd span app] in H. cbn [app]. lia.
Qed.

Lemma chunk_list_scan_ok st L bk :
  bytes_ok st -> chunk_list st L -> index_ok st L bk -> scan_ok st L bk.
Proof.
  intros Hb Hcl Hix.
  split; [exact Hb|]. split; [apply (chunk_list_apart st L Hb Hcl)|].
  split; [apply (chunk_list_placed st L Hb Hcl)|]. split; [exact Hix|].
  split.
  - destruct Hcl as (_ & _ & -> & _). destruct L as [|h L']; [left; reflexivity|].
    right. apply last_in. discriminate.
  - intros a Ha. destruct (in_split _ _ Ha) as (pre & post & ->).
    destruct (chunk_neighbours st pre a post Hcl) as (-> & _).
    destruct pre as [|q pre' _] using rev_ind; [left; reflexivity|].
    right. rewrite last_last. apply in_or_app. left. apply in_or_app. right.
    left. reflexivity.
Qed.

Lemma chunk_list_guarded st L c :
  bytes_ok st -> chunk_list st L -> In c L -> is_free st c = 0 ->
  guarded st L c (c + HDR) (c + HDR + size st c).
Proof.
  intros Hb Hcl Hc Hf. split; [exact Hc|]. split; [exact Hf|].
  intros a Ha. destruct Hcl as (Ht & _).
  destruct (in_two_split a c L Ha Hc) as [->|[(r1 & r2 & r3 & E)|(r1 & r2 & r3 & E)]].
  - left. lia.
  - left. pose proof (tiling_apart st L Hb Ht _ _ _ _ _ E). unfold HDR in *. lia.
  - right. rewrite E in Ht. apply tiling_app_r in Ht.
    rewrite (tiling_offset st r2 c a r3 Ht). cbn [span].
    pose proof (span_nonneg st r2 Hb). lia.
Qed.

Lemma chunk_list_below st L c :
  bytes_ok st -> chunk_list st L -> In c L ->
  hd 0 L + span st L <= brk st ->
  below_brk st L (c + HDR + size st c).
Proof.
  intros Hb Hcl Hc Hbrk. destruct Hcl as (Ht & _). split.
  - intros a Ha. pose proof (chunk_end_bound st L a Hb Ht Ha).
    pose proof (size_range st a Hb). lia.
  - pose proof (chunk_end_bound st L c Hb Ht Hc). lia.
Qed.

Lemma HMMmalloc_null fuel n st st1 :
  HMMget_free_chunk fuel (align_up (if n =? 0 then ALIGNMENT else n)) st
  = Some (0, st1) ->
  HMMmalloc fuel n st = Some (0, st1).
Proof. unfold HMMmalloc. intros ->. reflexivity. Qed.

Lemma realloc_fail_keeps_block fuel st L bk c m st1 :
  bytes_ok st -> chunk_list st L -> index_ok st L bk -> env_ok st ->
  hd 0 L + span st L <= brk st ->
  In c L -> is_free st c = 0 ->
  0 < m -> align_up m <> 0 -> align_up m <> size st c ->
  HMMget_free_chunk fuel (align_up m) st = Some (0, st1) ->
  HMMrealloc fuel (c + HDR) m st = Some (0, st1) /\
  is_free st1 c = 0 /\
  forall i, 0 <= i < size st c ->
    load8 (mem st1) (c + HDR + i) = load8 (mem st) (c + HDR + i).
Proof.
  intros Hb Hcl Hix Henv Hbrk Hc Hf Hm Hnz Hne Hfail.
  destruct (chunk_list_placed st L Hb Hcl c Hc) as (Hc0 & Hc1).
  split.
  - unfold HMMrealloc.
    destruct (Z.eqb_spec (c + HDR) 0) as [E|_]; [unfold HDR in *; lia|].
    destruct (Z.eqb_spec (align_up m) 0) as [E|_]; [contradiction|].
    replace (c + HDR - HDR) with c by lia.
    rewrite (wrap_small c) by (unfold HDR, WORD in *; lia).
    destruct (Z.eqb_spec (align_up m) (size st c)) as [E|_]; [contradiction|].
    rewrite (HMMmalloc_null fuel (align_up m) st st1); [reflexivity|].
    destruct (Z.eqb_spec (align_up m) 0) as [E|_]; [contradiction|].
    rewrite align_up_idem. exact Hfail.
  - destruct (get_free_chunk_fail c (c + HDR) (c + HDR + size st c) (align_up m)
                fuel st L bk st1) as (A & B); try assumption.
    + apply chunk_list_scan_ok; assumption.
    + apply chunk_list_guarded; assumption.
    + left. apply chunk_list_below; assumption.
    + split; [exact A|]. intros i Hi. unfold load8. apply B. lia.
Qed.

(** * Requests to the break primitive *)

Lemma remove_loop_log block idx :
  forall f cur prv st s,
    remove_loop f block idx cur prv st = Some s -> sbrk_log s = sbrk_log st.
Proof.
  induction f as [|f IH]; intros cur prv st s H; [discriminate|].
  cbn [remove_loop] in H.
  destruct (cur =? 0); [injection H as <-; reflexivity|].
  destruct (cur =? block); [|apply (IH _ _ _ _ H)].
  destruct (negb (prv =? 0)); injection H as <-; unfold_fields; reflexivity.
Qed.

Lemma HMMremove_log f b st s :
  HMMremove_free_block f b st = Some s -> sbrk_log s = sbrk_log st.
Proof.
  unfold HMMremove_free_block. intros H.
  destruct (b =? 0); [injection H as <-; reflexivity|].
  destruct (_ <? _); [|injection H as <-; reflexivity].
  apply (remove_loop_log _ _ _ _ _ _ _ H).
Qed.

Lemma HMMadd_log b st : sbrk_log (HMMadd_free_block b st) = sbrk_log st.
Proof.
  unfold HMMadd_free_block, HMMis_block_found.
  destruct (b =? 0); [reflexivity|].
  destruct (_ <? _); [|reflexivity].
  destruct (negb _); [reflexivity|].
  destruct (_ =? 0); unfold_fields; reflexivity.
Qed.

Lemma HMMget_free_block_log sz st :
  sbrk_log (snd (HMMget_free_block sz st)) = sbrk_log st.
Proof.
  unfold HMMget_free_block.
  destruct (_ <? _); [|reflexivity].
  destruct (negb _); [|reflexivity].
  cbn [snd]. unfold_fields. reflexivity.
Qed.

Lemma split_chunk_log cur sz st : sbrk_log (split_chunk cur sz st) = sbrk_log st.
Proof.
  unfold split_chunk. cbv zeta.
  unfold set_size at 1. rewrite sbrk_log_with_mem, HMMadd_log.
  unfold set_size at 1. rewrite sbrk_log_with_mem.
  match goal with |- sbrk_log (if ?c then _ else _) = _ => destruct c end.
  - unfold set_next at 1. rewrite sbrk_log_with_mem, sbrk_log_with_tail.
    unfold set_next at 1. rewrite sbrk_log_with_mem.
    match goal with |- sbrk_log (if ?c then _ else _) = _ => destruct c end;
      unfold_fields; reflexivity.
  - unfold set_next at 1. rewrite sbrk_log_with_mem.
    match goal with |- sbrk_log (if ?c then _ else _) = _ => destruct c end;
      unfold_fields; reflexivity.
Qed.

Lemma scan_loop_log sz :
  forall f cur st r s,
    scan_loop f cur sz st = Some (r, s) -> sbrk_log s = sbrk_log st.
Proof.
  induction f as [|f IH]; intros cur st r s H; [discriminate|].
  cbn [scan_loop] in H.
  destruct (cur =? 0); [injection H as _ <-; reflexivity|].
  destruct (_ && _).
  - destruct (HMMremove_free_block f cur st) as [s1|] eqn:E; [|discriminate].
    apply HMMremove_log in E.
    destruct (_ <? _); injection H as _ <-; [rewrite split_chunk_log|]; exact E.
  - apply IH in H. rewrite H.
    destruct (_ =? 1); [apply HMMadd_log|reflexivity].
Qed.

Lemma append_new_chunk_log nc n st :
  sbrk_log (append_new_chunk nc n st) = sbrk_log st.
Proof.
  rewrite append_new_chunk_unfold, HMMadd_log.
  unfold link_new_chunk. unfold_fields.
  destruct (negb (tail st =? 0)); autorewrite with state_proj;
    destruct (head st =? 0); autorewrite with state_proj; reflexivity.
Qed.

(** Every request a call of [HMMget_free_chunk] sends to [sbrk] is
    [num_allocated_bytes] of the call's size. *)
Lemma get_free_chunk_log sz :
  forall f st r s,
    HMMget_free_chunk f sz st = Some (r, s) ->
    exists k, sbrk_log s = repeat (num_allocated_bytes sz) k ++ sbrk_log st.
Proof.
  induction f as [|f IH]; intros st r s H; [discriminate|].
  cbn [HMMget_free_chunk] in H.
  pose proof (HMMget_free_block_log sz st) as H0.
  destruct (HMMget_free_block sz st) as [g s0]. cbn [snd] in H0.
  destruct (negb (g =? 0)).
  { injection H as _ <-. exists O. exact H0. }
  destruct (scan_loop f (tail s0) sz s0) as [[found s1]|] eqn:Hscan; [|discriminate].
  apply scan_loop_log in Hscan.
  destruct (negb (found =? 0)).
  { injection H as _ <-. exists O. cbn. congruence. }
  destruct (sbrk (num_allocated_bytes sz) s1) as [[nfs|] s2] eqn:Hsbrk.
  2:{ injection H as _ <-. exists 1%nat. cbn.
      destruct (sbrk_facts _ _ _ _ Hsbrk) as (_ & _ & _ & _ & _ & _ & -> & _).
      congruence. }
  destruct (sbrk_facts _ _ _ _ Hsbrk) as (_ & _ & _ & _ & _ & _ & Hlog2 & _).
  destruct (HMMremove_free_block f (tail s2) s2) as [s3|] eqn:Hrm; [|discriminate].
  apply HMMremove_log in Hrm.
  assert (Hpush : forall k l,
            repeat (num_allocated_bytes sz) k ++ num_allocated_bytes sz :: l
            = repeat (num_allocated_bytes sz) (S k) ++ l).
  { intros k l. change (num_allocated_bytes sz :: l) with ([num_allocated_bytes sz] ++ l).
    rewrite app_assoc, <- repeat_cons. reflexivity. }
  destruct (_ && _); apply IH in H; destruct H as (k & Hk); exists (S k);
    rewrite Hk; [unfold_fields|rewrite append_new_chunk_log];
    rewrite Hrm, Hlog2, Hpush; congruence.
Qed.

(** * Taking a chunk out of the list: the split *)

Lemma tiling_after st c post :
  bytes_ok st -> tiling st (c :: post) ->
  forall b, In b post -> c + HDR + size st c <= b.
Proof.
  intros Hb Ht b Hin. destruct post as [|b0 post']; [contradiction|].
  destruct Ht as (_ & _ & E & Ht).
  destruct Hin as [<-|Hin]; [lia|].
  pose proof (tiling_before st [b0] post' b0 b Hb Ht (or_introl eq_refl) Hin).
  unfold HDR in *. lia.
Qed.

Lemma split_chunk_unfold c sz st :
  split_chunk c sz st
  = set_size (HMMadd_free_block (wrap (c + HDR + sz)) (split_link c sz st)) c sz.
Proof. reflexivity. Qed.

Lemma in_insert (x c s : Z) pre post :
  In x (pre ++ c :: s :: post) <-> In x (pre ++ c :: post) \/ x = s.
Proof.
  rewrite !in_app_iff. cbn [In]. intuition congruence.
Qed.

(** Where the remainder's header lands: inside the payload of [c]. *)
Lemma split_address st pre c post sz :
  bytes_ok st -> chunk_list st (pre ++ c :: post) ->
  0 <= sz -> HDR + sz < size st c ->
  let s := c + HDR + sz in
  wrap s = s /\ apart (pre ++ c :: s :: post) /\
  placed (pre ++ c :: s :: post) /\ ~ In s (pre ++ c :: post) /\
  (forall a, In a pre -> a + HDR <= c) /\
  (forall b, In b post -> s + HDR <= b) /\
  0 < c /\ c + HDR + size st c <= WORD.
Proof.
  intros Hb Hcl Hsz0 Hfit s.
  pose proof (chunk_list_apart st _ Hb Hcl) as Hap.
  pose proof (chunk_list_placed st _ Hb Hcl) as Hpl.
  assert (HcL : In c (pre ++ c :: post))
    by (apply in_app_iff; right; left; reflexivity).
  destruct Hcl as (Hti & Hhd & Htl & Hends).
  assert (Hne : pre ++ c :: post <> []) by (destruct pre; discriminate).
  destruct (Hends Hne) as (Hh0 & _ & _ & Hsp).
  destruct (tiling_in_range st _ c Hb Hti Hne Hh0 Hsp HcL) as (_ & Hce).
  destruct (Hpl c HcL) as (Hc0 & _).
  assert (Hpre : forall a, In a pre -> a + HDR <= c).
  { intros a Ha. apply (tiling_before st pre (c :: post) a c Hb Hti Ha).
    left. reflexivity. }
  assert (Hpost : forall b, In b post -> s + HDR <= b).
  { intros b Hin.
    pose proof (tiling_after st c post Hb (tiling_app_r st pre _ Hti) b Hin).
    subst s. unfold HDR in *. lia. }
  assert (Hsr : 0 < s /\ s + HDR <= WORD /\ c + HDR <= s)
    by (subst s; unfold HDR in *; lia).
  split; [apply wrap_small; unfold HDR, WORD in *; lia|].
  split.
  { intros a b Ha Hb2. apply in_app_iff in Ha. apply in_app_iff in Hb2.
    cbn [In] in Ha, Hb2.
    assert (Hin1 : forall x, In x pre -> In x (pre ++ c :: post))
      by (intros x Hx; apply in_app_iff; left; exact Hx).
    assert (Hin2 : forall x, In x post -> In x (pre ++ c :: post))
      by (intros x Hx; apply in_app_iff; right; right; exact Hx).
    destruct Ha as [Ha|[Ha|[Ha|Ha]]], Hb2 as [Hb2|[Hb2|[Hb2|Hb2]]];
      try (pose proof (Hpre _ Ha)); try (pose proof (Hpre _ Hb2));
      try (pose proof (Hpost _ Ha)); try (pose proof (Hpost _ Hb2));
      first [ apply Hap; [apply Hin1|apply Hin1]; assumption
            | apply Hap; [apply Hin2|apply Hin2]; assumption
            | subst; unfold HDR in *; lia ]. }
  split.
  { intros a Ha. apply in_insert in Ha. destruct Ha as [Ha| ->].
    - apply Hpl. exact Ha.
    - split; [apply Hsr|apply Hsr]. }
  split.
  { intros Hin. apply in_app_iff in Hin. cbn [In] in Hin.
    destruct Hin as [Hin|[Hin|Hin]].
    - pose proof (Hpre _ Hin). unfold HDR in *. lia.
    - unfold HDR in *. lia.
    - pose proof (Hpost _ Hin). unfold HDR in *. lia. }
  split; [exact Hpre|]. split; [exact Hpost|]. split; [exact Hc0|exact Hce].
Qed.

Lemma last_snoc (pre : list Z) c d : last (pre ++ [c]) d = c.
Proof. apply last_last. Qed.

(** The fields after the split's own writes. *)
Lemma split_link_spec st pre c post sz :
  bytes_ok st -> chunk_list st (pre ++ c :: post) ->
  0 <= sz -> HDR + sz < size st c ->
  let s := c + HDR + sz in
  let s7 := split_link c sz st in
  bytes_ok s7 /\
  (forall a, In a (pre ++ c :: post) ->
     is_added s7 a = is_added st a /\ is_free s7 a = is_free st a /\
     size s7 a = size st a /\ next_free s7 a = next_free st a /\
     (a <> c -> next s7 a = next st a) /\
     (a <> hd 0 post -> prev s7 a = prev st a)) /\
  next s7 c = s /\ prev s7 s = c /\ next s7 s = hd 0 post /\
  is_free s7 s = 1 /\ size s7 s = size st c - sz - HDR /\
  is_added s7 s = is_added st s /\
  (post <> [] -> prev s7 (hd 0 post) = s) /\
  tail s7 = match post with [] => s | _ => tail st end /\
  head s7 = head st /\ block_freq s7 = block_freq st /\
  current_free_size s7 = current_free_size st /\
  brk s7 = brk st /\ brk_lo s7 = brk_lo st /\ brk_hi s7 = brk_hi st /\
  sbrk_log s7 = sbrk_log st /\
  (forall x, (forall a, In a (pre ++ c :: s :: post) -> x < a \/ a + HDR <= x) ->
             mem s7 x = mem st x).
Proof.
  intros Hb Hcl Hsz0 Hfit s s7.
  destruct (split_address st pre c post sz Hb Hcl Hsz0 Hfit)
    as (Hw & Hap' & Hpl' & Hnin & Hpre & Hpost & Hc0 & HcW).
  pose proof (size_range st c Hb) as Hsr.
  destruct (chunk_neighbours st pre c post Hcl) as (_ & Hnx).
  pose proof (chunk_list_apart st _ Hb Hcl) as Hap.
  destruct Hcl as (Hti & Hhd & Htl & Hends).
  assert (Hsz7 : wrap (size st c - sz - HDR) = size st c - sz - HDR)
    by (apply wrap_small; unfold HDR, WORD in *; lia).
  assert (Hs : s = c + HDR + sz) by reflexivity.
  fold s in Hw, Hap', Hpl', Hnin, Hpost. clearbody s.
  assert (HcL : In c (pre ++ c :: post))
    by (apply in_app_iff; right; left; reflexivity).
  destruct post as [|b post'].
  - cbn [hd] in Hnx.
    assert (Htc : tail st = c) by (rewrite Htl; apply last_snoc).
    assert (Hmem : mem s7 = store64 (store64 (store64 (store8 (store64
              (store64 (mem st) (s + 16) c) (s + 24) 0) (s + 1) 1)
              (c + 24) s) (s + 24) 0) (s + 8) (size st c - sz - HDR)
            /\ tail s7 = s /\ head s7 = head st /\
            block_freq s7 = block_freq st /\
            current_free_size s7 = current_free_size st /\
            brk s7 = brk st /\ brk_lo s7 = brk_lo st /\
            brk_hi s7 = brk_hi st /\ sbrk_log s7 = sbrk_log st).
    { subst s7. unfold split_link. rewrite <- Hs, Hw, Hnx.
      change (negb (0 =? 0)) with false. cbv zeta iota.
      unfold_fields. rewrite Htc, Z.eqb_refl. autorewrite with state_proj.
      repeat mem_step. rewrite Hsz7. repeat split; reflexivity. }
    destruct Hmem as (Hmem & Ht7 & Hrest). clearbody s7.
    assert (HsL : forall a, In a (pre ++ [c]) -> a = c \/ a + HDR <= c).
    { intros a Ha. apply in_app_iff in Ha.
      destruct Ha as [Ha|[<-|[]]];
        [right; apply Hpre; exact Ha|left; reflexivity]. }
    split.
    { intros x. rewrite Hmem. repeat apply store64_bytes. apply store8_bytes.
      repeat apply store64_bytes. apply Hb. }
    split.
    { intros a Ha. cbn [hd].
      unfold is_added, is_free, size, next_free, next, prev. rewrite Hmem.
      destruct (HsL a Ha) as [->|Hlt].
      - repeat mem_step. repeat split; try reflexivity. intros N. contradiction.
      - repeat mem_step. repeat split; reflexivity. }
    unfold is_added, is_free, size, next_free, next, prev. rewrite Hmem.
    repeat mem_step. cbn [hd].
    split; [exact Hw|]. split; [apply wrap_small; unfold HDR, WORD in *; lia|].
    split; [reflexivity|]. split; [reflexivity|].
    split; [exact Hsz7|]. split; [reflexivity|].
    split; [intros N; contradiction|]. split; [exact Ht7|].
    rewrite <- Hmem.
    repeat (split; [apply Hrest|]).
    intros x Hx. rewrite Hmem.
    assert (Hxc : x < c \/ c + HDR <= x)
      by (apply Hx; apply in_app_iff; right; left; reflexivity).
    assert (Hxs : x < s \/ s + HDR <= x)
      by (apply Hx; apply in_app_iff; right; right; left; reflexivity).
    rewrite !store64_other by (unfold HDR in *; lia).
    rewrite store8_other by (unfold HDR in *; lia).
    rewrite !store64_other by (unfold HDR in *; lia). reflexivity.
  - cbn [hd] in Hnx |- *.
    assert (HbL : In b (pre ++ c :: s :: b :: post'))
      by (apply in_app_iff; right; right; right; left; reflexivity).
    destruct (Hpl' b HbL) as (Hb0 & HbW).
    pose proof (Hpost b (or_introl eq_refl)) as Hsb.
    assert (Htc : c <> tail st).
    { rewrite Htl. rewrite last_app_nonempty by discriminate.
      change (last (c :: b :: post') 0) with (last (b :: post') 0).
      pose proof (Hpost _ (last_in (b :: post') 0 ltac:(discriminate))).
      unfold HDR in *. lia. }
    assert (Hmem : mem s7 = store64 (store64 (store64 (store8 (store64
              (store64 (mem st) (s + 16) c) (s + 24) b) (s + 1) 1)
              (b + 16) s) (c + 24) s) (s + 8) (size st c - sz - HDR)
            /\ tail s7 = tail st /\ head s7 = head st /\
            block_freq s7 = block_freq st /\
            current_free_size s7 = current_free_size st /\
            brk s7 = brk st /\ brk_lo s7 = brk_lo st /\
            brk_hi s7 = brk_hi st /\ sbrk_log s7 = sbrk_log st).
    { subst s7. unfold split_link. rewrite <- Hs, Hw, Hnx.
      replace (negb (b =? 0)) with true
        by (destruct (Z.eqb_spec b 0); [lia|reflexivity]).
      cbv zeta iota. unfold_fields.
      replace (c =? tail st) with false
        by (destruct (Z.eqb_spec c (tail st)); [contradiction|reflexivity]).
      autorewrite with state_proj.
      repeat mem_step. rewrite Hsz7. repeat split; reflexivity. }
    destruct Hmem as (Hmem & Ht7 & Hrest). clearbody s7.
    assert (HsL : forall a, In a (pre ++ c :: b :: post') ->
              a = c \/ a + HDR <= c \/ a = b \/
              (s + HDR <= a /\ (a + HDR <= b \/ b + HDR <= a))).
    { intros a Ha. apply in_app_iff in Ha.
      destruct Ha as [Ha|[<-|[<-|Ha]]];
        [right; left; apply Hpre; exact Ha|left; reflexivity
        |right; right; left; reflexivity|].
      assert (HaL : In a (pre ++ c :: s :: b :: post'))
        by (apply in_app_iff; right; right; right; right; exact Ha).
      pose proof (Hpost a (or_intror Ha)).
      destruct (Hap' a b HaL HbL) as [E|E]; [right; right; left; exact E|].
      right. right. right. split; assumption. }
    split.
    { intros x. rewrite Hmem. repeat apply store64_bytes. apply store8_bytes.
      repeat apply store64_bytes. apply Hb. }
    split.
    { intros a Ha.
      unfold is_added, is_free, size, next_free, next, prev. rewrite Hmem.
      destruct (HsL a Ha) as [->|[Hlt|[->|(Hlt & Hlt2)]]].
      - repeat mem_step. repeat split; try reflexivity. intros N. contradiction.
      - repeat mem_step. repeat split; reflexivity.
      - repeat mem_step. repeat split; try reflexivity. intros N. contradiction.
      - repeat mem_step. repeat split; reflexivity. }
    unfold is_added, is_free, size, next_free, next, prev. rewrite Hmem.
    repeat mem_step.
    split; [exact Hw|]. split; [apply wrap_small; unfold HDR, WORD in *; lia|].
    split; [apply wrap_small; unfold HDR, WORD in *; lia|].
    split; [reflexivity|].
    split; [exact Hsz7|]. split; [reflexivity|].
    split; [intros _; exact Hw|]. split; [exact Ht7|].
    rewrite <- Hmem.
    repeat (split; [apply Hrest|]).
    intros x Hx. rewrite Hmem.
    assert (Hxc : x < c \/ c + HDR <= x)
      by (apply Hx; apply in_app_iff; right; left; reflexivity).
    assert (Hxs : x < s \/ s + HDR <= x)
      by (apply Hx; apply in_app_iff; right; right; left; reflexivity).
    assert (Hxb : x < b \/ b + HDR <= x) by (apply Hx; exact HbL).
    rewrite !store64_other by (unfold HDR in *; lia).
    rewrite store8_other by (unfold HDR in *; lia).
    rewrite !store64_other by (unfold HDR in *; lia). reflexivity.
Qed.

Lemma index_ok_frame st st' L L' bk :
  index_ok st L bk -> incl L L' ->
  (forall i, 0 <= i < MULTIPLES_MAX -> block_freq st' i = block_freq st i) ->
  (forall i a, 0 <= i < MULTIPLES_MAX -> In a (bk i) ->
     next_free st' a = next_free st a /\ is_added st' a = is_added st a /\
     size st' a = size st a) ->
  index_ok st' L' bk.
Proof.
  intros Hix Hinc Hbf Hf i Hi. destruct (Hix i Hi) as (Hch & Hnd & Hm).
  split; [|split; [exact Hnd|]].
  - rewrite (Hbf i Hi). apply (fchain_frame st); [|exact Hch].
    intros a Ha. apply (Hf i a Hi Ha).
  - intros a Ha. destruct (Hm a Ha) as (A & B & C).
    destruct (Hf i a Hi Ha) as (_ & E1 & E2).
    split; [apply Hinc; exact A|]. unfold bucket_of in *.
    rewrite E2, E1. split; assumption.
Qed.

Lemma set_size_fields L st c v :
  bytes_ok st -> apart L -> In c L ->
  let st' := set_size st c v in
  bytes_ok st' /\ size st' c = wrap v /\
  (forall a, In a L ->
     is_added st' a = is_added st a /\ is_free st' a = is_free st a /\
     prev st' a = prev st a /\ next st' a = next st a /\
     next_free st' a = next_free st a /\
     (a <> c -> size st' a = size st a)) /\
  block_freq st' = block_freq st /\ head st' = head st /\
  tail st' = tail st /\ current_free_size st' = current_free_size st /\
  brk st' = brk st /\ brk_lo st' = brk_lo st /\ brk_hi st' = brk_hi st /\
  sbrk_log st' = sbrk_log st /\
  (forall x, x < c \/ c + HDR <= x -> mem st' x = mem st x).
Proof.
  intros Hb Hap HcL st'. subst st'.
  split; [apply bytes_ok_store64; exact Hb|].
  split; [mem_simpl; reflexivity|].
  split.
  { intros a Ha. destruct (Hap a c Ha HcL) as [->|Hd].
    - mem_simpl. repeat split; try reflexivity. intros N. contradiction.
    - mem_simpl. repeat split; reflexivity. }
  unfold_fields. repeat (split; [reflexivity|]).
  intros x Hx. apply store64_other. unfold HDR in *. lia.
Qed.

Lemma in_tl (a : Z) l : In a (tl l) -> In a l.
Proof. destruct l; [intros []|intros H; right; exact H]. Qed.

Lemma tiling_insert st st' pre c s post :
  tiling st (pre ++ c :: post) ->
  (forall a, In a (pre ++ post) ->
     size st' a = size st a /\ next st' a = next st a) ->
  (forall a, In a (pre ++ c :: tl post) -> prev st' a = prev st a) ->
  next st' c = s -> prev st' s = c -> s = c + HDR + size st' c ->
  next st' s = hd 0 post ->
  (post <> [] ->
   prev st' (hd 0 post) = s /\ hd 0 post = s + HDR + size st' s) ->
  tiling st' (pre ++ c :: s :: post).
Proof.
  intros Ht Hsn Hp Hcs Hsc Hs Hsp Hpost.
  apply tiling_join.
  - apply (tiling_frame st);
      [| |apply (tiling_app_l st pre (c :: post)); exact Ht].
    + intros a Ha. apply Hsn. apply in_app_iff. left. exact Ha.
    + intros a Ha. apply Hp. apply in_app_iff. left. apply in_tl. exact Ha.
  - cbn [tiling].
    split; [exact Hcs|]. split; [exact Hsc|]. split; [exact Hs|].
    destruct post as [|b post']; [exact I|].
    destruct (Hpost ltac:(discriminate)) as (E1 & E2). cbn [hd] in *.
    split; [exact Hsp|]. split; [exact E1|]. split; [exact E2|].
    apply (tiling_frame st).
    + intros a Ha. apply Hsn. apply in_app_iff. right. exact Ha.
    + intros a Ha. apply Hp. apply in_app_iff. right. right. exact Ha.
    + apply (tiling_app_r st (pre ++ [c]) (b :: post')).
      rewrite <- app_assoc. exact Ht.
  - intros Hne _.
    destruct (tiling_link st pre (c :: post) Ht Hne ltac:(discriminate))
      as (A & B & C).
    cbn [hd] in *.
    pose proof (last_in pre 0 Hne) as Hl.
    destruct (Hsn (last pre 0)) as (E1 & E2);
      [apply in_app_iff; left; exact Hl|].
    rewrite E1, E2, (Hp c) by (apply in_app_iff; right; left; reflexivity).
    split; [exact A|]. split; [exact B|exact C].
Qed.

(** The split as a whole: the remainder [s] enters the chunk list between
    [c] and its successor, and is indexed when its [is_added] byte was
    clear and its size class is in range. *)
Lemma split_chunk_spec st pre c post sz bk :
  bytes_ok st -> chunk_list st (pre ++ c :: post) ->
  index_ok st (pre ++ c :: post) bk ->
  (forall i, 0 <= i < MULTIPLES_MAX -> ~ In c (bk i)) ->
  0 <= sz -> HDR + sz < size st c ->
  let s := c + HDR + sz in
  let L := pre ++ c :: post in
  let L' := pre ++ c :: s :: post in
  let st' := split_chunk c sz st in
  exists bk',
    bytes_ok st' /\ chunk_list st' L' /\ index_ok st' L' bk' /\
    size st' c = sz /\ size st' s = size st c - sz - HDR /\
    is_free st' s = 1 /\ span st' L' = span st L /\
    (forall a, In a L -> is_free st' a = is_free st a) /\
    (forall a, In a L -> a <> c -> size st' a = size st a) /\
    (forall i, 0 <= i < MULTIPLES_MAX -> ~ In c (bk' i)) /\
    head st' = head st /\ brk st' = brk st /\ brk_lo st' = brk_lo st /\
    brk_hi st' = brk_hi st /\ sbrk_log st' = sbrk_log st /\
    (forall x, (forall a, In a L' -> x < a \/ a + HDR <= x) ->
               mem st' x = mem st x) /\
    (heap_ok_but st L bk c -> is_added st s = 0 ->
     heap_ok_but st' L' bk' c) /\
    (index_free st bk -> index_free st' bk').
Proof.
  intros Hb Hcl Hix Hnc Hsz0 Hfit s L L' st'.
  destruct (split_address st pre c post sz Hb Hcl Hsz0 Hfit)
    as (Hw & Hap' & Hpl' & Hnin & Hpre & Hpost & Hc0 & HcW).
  destruct (split_link_spec st pre c post sz Hb Hcl Hsz0 Hfit)
    as (Hb7 & Hold7 & Hn7c & Hp7s & Hn7s & Hf7s & Hs7s & Ha7s & Hp7b & Ht7 &
        Hh7 & Hbf7 & Hcfs7 & Hbrk7 & Hlo7 & Hhi7 & Hlog7 & Hfr7).
  pose proof (size_range st c Hb) as Hsr.
  fold s in Hw, Hap', Hpl', Hnin, Hpost, Hn7c, Hp7s, Hn7s, Hf7s, Hs7s, Ha7s,
    Hp7b, Ht7, Hfr7.
  fold L in Hnin, Hold7, Hcl, Hix. fold L' in Hap', Hpl', Hfr7.
  assert (Hst' : st' = set_size (HMMadd_free_block s (split_link c sz st)) c sz).
  { subst st'. rewrite split_chunk_unfold. fold s. rewrite Hw. reflexivity. }
  set (s7 := split_link c sz st) in *.
  assert (Hs : s = c + HDR + sz) by reflexivity. clearbody s.
  assert (HcL : In c L) by (apply in_app_iff; right; left; reflexivity).
  assert (Hinc : incl L L').
  { intros a Ha. apply in_insert. left. exact Ha. }
  assert (HsL' : In s L') by (apply in_insert; right; reflexivity).
  assert (Hcs : c <> s) by (intros ->; contradiction).
  assert (Hix7 : index_ok s7 L' bk).
  { apply (index_ok_frame st s7 L L' bk Hix Hinc).
    - intros i _. rewrite Hbf7. reflexivity.
    - intros i a Hi Ha. destruct (Hix i Hi) as (_ & _ & Hm).
      destruct (Hm a Ha) as (A & _).
      destruct (Hold7 a A) as (E1 & E2 & E3 & E4 & _). tauto. }
  pose proof (HMMadd_spec s7 L' bk s Hb7 Hap' Hpl' Hix7 HsL') as Hadd.
  cbv zeta in Hadd.
  set (st8 := HMMadd_free_block s s7) in *.
  destruct Hadd as (Hstep & Hb8 & HaddA & HaddB).
  assert (Hix8 : exists bk8,
    index_ok st8 L' bk8 /\
    (forall i, 0 <= i < MULTIPLES_MAX -> ~ In c (bk8 i)) /\
    (forall i a, 0 <= i < MULTIPLES_MAX -> In a (bk i) -> In a (bk8 i)) /\
    (forall i a, 0 <= i < MULTIPLES_MAX -> In a (bk8 i) ->
       In a (bk i) \/ a = s) /\
    (forall a, In a L' -> a <> s -> is_added st8 a = is_added s7 a) /\
    (is_added s7 s = 0 ->
     (bucket_of s7 s < MULTIPLES_MAX ->
      In s (bk8 (bucket_of s7 s)) /\ is_added st8 s = 1) /\
     (MULTIPLES_MAX <= bucket_of s7 s -> is_added st8 s = 0))).
  { destruct (Z.ltb_spec (bucket_of s7 s) MULTIPLES_MAX) as [Hlt|Hge];
      [destruct (Z.eq_dec (is_added s7 s) 0) as [Hz|Hnz]|].
    - destruct (HaddA Hlt Hz) as (I8 & A1 & _ & Aoth).
      exists (bk_add bk (bucket_of s7 s) s).
      split; [exact I8|]. split.
      { intros i Hi Hin. unfold bk_add in Hin.
        destruct (i =? bucket_of s7 s).
        - destruct Hin as [E|Hin]; [congruence|exact (Hnc i Hi Hin)].
        - exact (Hnc i Hi Hin). }
      split.
      { intros i a Hi Hin. unfold bk_add.
        destruct (i =? bucket_of s7 s); [right|]; exact Hin. }
      split.
      { intros i a Hi Hin. unfold bk_add in Hin.
        destruct (i =? bucket_of s7 s); [|left; exact Hin].
        destruct Hin as [E|Hin]; [right; symmetry; exact E|left; exact Hin]. }
      split; [exact Aoth|].
      intros _. split; [|lia]. intros _. split; [|exact A1].
      unfold bk_add. rewrite Z.eqb_refl. left. reflexivity.
    - rewrite (HaddB (or_intror Hnz)). exists bk.
      split; [exact Hix7|]. split; [exact Hnc|].
      split; [intros i a _ H; exact H|].
      split; [intros i a _ H; left; exact H|]. split; [reflexivity|].
      intros Hz. contradiction.
    - rewrite (HaddB (or_introl Hge)). exists bk.
      split; [exact Hix7|]. split; [exact Hnc|].
      split; [intros i a _ H; exact H|].
      split; [intros i a _ H; left; exact H|]. split; [reflexivity|].
      intros Hz. split; [lia|]. intros _. exact Hz. }
  destruct Hix8 as (bk8 & Hix8 & Hnc8 & Hmono & Hprov8 & Hadd8 & Hs8).
  assert (HcL' : In c L') by (apply Hinc; exact HcL).
  destruct (set_size_fields L' st8 c sz Hb8 Hap' HcL')
    as (Hb9 & Hsz9 & Hold9 & Hbf9 & Hh9 & Ht9 & Hcfs9 & Hbrk9 & Hlo9 & Hhi9 &
        Hlog9 & Hfr9).
  rewrite <- Hst' in Hb9, Hsz9, Hold9, Hbf9, Hh9, Ht9, Hcfs9, Hbrk9, Hlo9,
    Hhi9, Hlog9, Hfr9.
  destruct Hstep as (Hh8 & Ht8 & Hbrk8 & Hlo8 & Hhi8 & Hlog8 & Hmem8).
  assert (Hstep : index_step L' s7 st8)
    by (repeat split; assumption).
  assert (HF : forall a, In a L' ->
            is_free st' a = is_free s7 a /\ prev st' a = prev s7 a /\
            next st' a = next s7 a /\
            (a <> c -> size st' a = size s7 a) /\
            (a <> s -> is_added st' a = is_added s7 a)).
  { intros a Ha.
    destruct (index_step_fields L' s7 st8 a Hap' Hstep Ha) as (F1 & F2 & F3 & F4).
    destruct (Hold9 a Ha) as (G1 & G2 & G3 & G4 & G5 & G6).
    split; [congruence|]. split; [congruence|]. split; [congruence|].
    split; [intros N; rewrite (G6 N); exact F2|].
    intros N. rewrite G1. apply Hadd8; assumption. }
  assert (Hszc : size st' c = sz)
    by (rewrite Hsz9; apply wrap_small; unfold HDR in *; lia).
  assert (Hhp : forall a, In a post -> a <> c /\ a <> s /\ In a L).
  { intros a Ha. pose proof (Hpost a Ha).
    split; [unfold HDR in *; lia|]. split; [unfold HDR in *; lia|].
    apply in_app_iff. right. right. exact Ha. }
  assert (Hpp : forall a, In a pre -> a <> c /\ a <> s /\ In a L).
  { intros a Ha. pose proof (Hpre a Ha).
    split; [unfold HDR in *; lia|]. split; [unfold HDR in *; lia|].
    apply in_app_iff. left. exact Ha. }
  assert (Hhd0 : forall a, In a (pre ++ [c]) -> a <> hd 0 post).
  { intros a Ha. destruct post as [|b post'].
    - cbn [hd]. assert (0 < a); [|lia].
      apply in_app_iff in Ha. destruct Ha as [Ha|[<-|[]]]; [|exact Hc0].
      apply (Hpl' a). apply Hinc. apply (Hpp a Ha).
    - cbn [hd]. pose proof (Hpost b (or_introl eq_refl)).
      apply in_app_iff in Ha. destruct Ha as [Ha|[<-|[]]].
      + pose proof (Hpre a Ha). unfold HDR in *. lia.
      + unfold HDR in *. lia. }
  assert (HG : forall a, In a L -> a <> c ->
            size st' a = size st a /\ next st' a = next st a /\
            is_added st' a = is_added st a /\
            (a <> hd 0 post -> prev st' a = prev st a)).
  { intros a Ha Hn. assert (a <> s) by (intros ->; contradiction).
    destruct (HF a (Hinc a Ha)) as (_ & F2 & F3 & F4 & F5).
    destruct (Hold7 a Ha) as (E1 & _ & E3 & _ & E5 & E6).
    split; [rewrite (F4 Hn); exact E3|].
    split; [rewrite F3; exact (E5 Hn)|].
    split; [rewrite (F5 H); exact E1|].
    intros N. rewrite F2. exact (E6 N). }
  assert (Hfree : forall a, In a L -> is_free st' a = is_free st a).
  { intros a Ha. destruct (HF a (Hinc a Ha)) as (F1 & _).
    destruct (Hold7 a Ha) as (_ & E2 & _). congruence. }
  assert (Hc' : next st' c = s /\ prev st' c = prev st c /\
                is_added st' c = is_added st c).
  { destruct (HF c HcL') as (_ & F2 & F3 & _ & F5).
    destruct (Hold7 c HcL) as (E1 & _ & _ & _ & _ & E6).
    split; [congruence|]. split.
    - rewrite F2. apply E6. apply Hhd0. apply in_app_iff. right. left.
      reflexivity.
    - rewrite (F5 Hcs). exact E1. }
  assert (Hs' : prev st' s = c /\ next st' s = hd 0 post /\
                size st' s = size st c - sz - HDR /\ is_free st' s = 1).
  { destruct (HF s HsL') as (F1 & F2 & F3 & F4 & _).
    split; [congruence|]. split; [congruence|].
    split; [rewrite F4 by congruence; exact Hs7s|congruence]. }
  destruct Hcl as (Hti & Hhd & Htl & Hends).
  assert (HLne : L <> []) by (subst L; destruct pre; discriminate).
  destruct (Hends HLne) as (E1 & E2 & E3 & E4).
  assert (Hhd' : hd 0 L' = hd 0 L) by (subst L L'; destruct pre; reflexivity).
  assert (Hspan : span st' L' = span st L).
  { subst L L'. rewrite !span_app. cbn [span].
    rewrite (span_frame st st' pre), (span_frame st st' post).
    - destruct Hs' as (_ & _ & -> & _). rewrite Hszc. lia.
    - intros a Ha. destruct (Hhp a Ha) as (N1 & _ & N3). apply (HG a N3 N1).
    - intros a Ha. destruct (Hpp a Ha) as (N1 & _ & N3). apply (HG a N3 N1). }
  assert (Hpostlink : post <> [] -> hd 0 post = c + HDR + size st c).
  { intros Hne.
    destruct (tiling_link st (pre ++ [c]) post) as (_ & _ & C);
      [rewrite <- app_assoc; exact Hti|destruct pre; discriminate|exact Hne|].
    rewrite last_snoc in C. exact C. }
  assert (Hcl' : chunk_list st' L').
  { split; [|split; [|split]].
    - apply (tiling_insert st st' pre c s post Hti).
      + intros a Ha. apply in_app_iff in Ha.
        destruct Ha as [Ha|Ha];
          [destruct (Hpp a Ha) as (N1 & _ & N3)
          |destruct (Hhp a Ha) as (N1 & _ & N3)];
          destruct (HG a N3 N1) as (G1 & G2 & _); split; assumption.
      + intros a Ha. apply in_app_iff in Ha. destruct Ha as [Ha|[<-|Ha]].
        * destruct (Hpp a Ha) as (N1 & _ & N3).
          apply (HG a N3 N1). apply Hhd0. apply in_app_iff. left. exact Ha.
        * apply Hc'.
        * destruct post as [|b post']; [destruct Ha|]. cbn [tl hd] in *.
          destruct (Hhp a (or_intror Ha)) as (N1 & _ & N3).
          apply (HG a N3 N1).
          assert (Htb : tiling st (b :: post')).
          { apply (tiling_app_r st (pre ++ [c])). rewrite <- app_assoc.
            exact Hti. }
          pose proof (tiling_before st [b] post' b a Hb Htb
                        (or_introl eq_refl) Ha).
          unfold HDR in *. lia.
      + apply Hc'.
      + apply Hs'.
      + rewrite Hszc. exact Hs.
      + apply Hs'.
      + intros Hne. split.
        * destruct (HF (hd 0 post)) as (_ & F2 & _).
          { apply Hinc. apply (Hhp _ (hd_in post 0 Hne)). }
          rewrite F2. apply Hp7b. exact Hne.
        * destruct Hs' as (_ & _ & -> & _). rewrite (Hpostlink Hne). lia.
    - rewrite Hhd', Hh9, Hh8, Hh7. exact Hhd.
    - rewrite Ht9, Ht8, Ht7. subst L L'. destruct post as [|b post'].
      + rewrite last_app_nonempty by discriminate. reflexivity.
      + rewrite Htl. rewrite !last_app_nonempty by discriminate. reflexivity.
    - intros _. rewrite Hhd', Hspan.
      split; [exact E1|]. split; [|split; [|exact E4]].
      + assert (HhL : In (hd 0 L) L) by (apply hd_in; exact HLne).
        destruct (Z.eq_dec (hd 0 L) c) as [E|N].
        * rewrite E in *. destruct Hc' as (_ & -> & _). exact E2.
        * destruct (HG _ HhL N) as (_ & _ & _ & G4). rewrite G4; [exact E2|].
          apply Hhd0. subst L. destruct pre as [|a0 pre'].
          -- left. reflexivity.
          -- left. reflexivity.
      + subst L L'. destruct post as [|b post'].
        * rewrite last_app_nonempty by discriminate.
          change (last [c; s] 0) with s. apply Hs'.
        * rewrite last_app_nonempty by discriminate.
          change (last (c :: s :: b :: post') 0) with (last (b :: post') 0).
          rewrite last_app_nonempty in E3 by discriminate.
          change (last (c :: b :: post') 0) with (last (b :: post') 0) in E3.
          destruct (Hhp _ (last_in (b :: post') 0 ltac:(discriminate)))
            as (N1 & _ & N3).
          destruct (HG _ N3 N1) as (_ & -> & _). exact E3. }
  assert (Hix9 : index_ok st' L' bk8).
  { apply (index_ok_frame st8 st' L' L' bk8 Hix8 (incl_refl _)).
    - intros i _. rewrite Hbf9. reflexivity.
    - intros i a Hi Ha. destruct (Hix8 i Hi) as (_ & _ & Hm).
      destruct (Hm a Ha) as (A & _).
      assert (a <> c) by (intros ->; exact (Hnc8 i Hi Ha)).
      destruct (Hold9 a A) as (G1 & _ & _ & _ & G5 & G6).
      split; [exact G5|]. split; [exact G1|exact (G6 H)]. }
  exists bk8.
  split; [exact Hb9|]. split; [exact Hcl'|]. split; [exact Hix9|].
  split; [exact Hszc|]. split; [apply Hs'|]. split; [apply Hs'|].
  split; [exact Hspan|]. split; [exact Hfree|].
  split; [intros a Ha N; apply (HG a Ha N)|].
  split; [exact Hnc8|].
  split; [congruence|]. split; [congruence|]. split; [congruence|].
  split; [congruence|]. split; [congruence|].
  split.
  { intros x Hx. rewrite (Hfr9 x (Hx c HcL')).
    rewrite (index_step_outside L' s7 st8 x Hstep Hx). apply Hfr7. exact Hx. }
  split.
  2:{ intros HF0 i a Hi Hin. destruct (Hprov8 i a Hi Hin) as [Hin0| ->].
      - destruct (Hix i Hi) as (_ & _ & Hm). destruct (Hm a Hin0) as (HaL & _).
        rewrite (Hfree a HaL). apply (HF0 i a Hi Hin0).
      - apply Hs'. }
  intros (_ & _ & _ & Hfl & Hfb) Hclean.
  assert (Hbs : bucket_of st' s = bucket_of s7 s).
  { destruct (HF s HsL') as (_ & _ & _ & F4 & _). unfold bucket_of.
    rewrite F4 by congruence. reflexivity. }
  assert (Has : is_added st' s = is_added st8 s) by (apply (Hold9 s HsL')).
  assert (Hz7 : is_added s7 s = 0) by congruence.
  destruct (Hs8 Hz7) as (S1 & S2).
  split; [exact Hb9|]. split; [exact Hcl'|]. split; [exact Hix9|]. split.
  - intros a Ha Hadd. apply in_insert in Ha. destruct Ha as [Ha| ->].
    + destruct (Z.eq_dec a c) as [->|N].
      * exfalso. destruct Hc' as (_ & _ & E). rewrite E in Hadd.
        destruct (Hfl c HcL Hadd) as (R & I).
        apply (Hnc (bucket_of st c)); [|exact I].
        split; [apply bucket_of_nonneg|exact R].
      * destruct (HG a Ha N) as (G1 & _ & G3 & _). rewrite G3 in Hadd.
        destruct (Hfl a Ha Hadd) as (R & I).
        assert (Hba : bucket_of st' a = bucket_of st a)
          by (unfold bucket_of; rewrite G1; reflexivity).
        rewrite Hba. split; [exact R|]. apply Hmono; [|exact I].
        split; [apply bucket_of_nonneg|exact R].
    + rewrite Hbs.
      destruct (Z.ltb_spec (bucket_of s7 s) MULTIPLES_MAX) as [Hlt|Hge].
      * split; [exact Hlt|]. apply (S1 Hlt).
      * exfalso. rewrite Has, (S2 Hge) in Hadd. apply Hadd. reflexivity.
  - intros a Ha Hn Hfr Hrange. apply in_insert in Ha. destruct Ha as [Ha| ->].
    + destruct (HG a Ha Hn) as (G1 & _).
      assert (Hba : bucket_of st' a = bucket_of st a)
        by (unfold bucket_of; rewrite G1; reflexivity).
      rewrite Hba in *. rewrite (Hfree a Ha) in Hfr.
      apply Hmono; [split; [apply bucket_of_nonneg|exact Hrange]|].
      apply Hfb; assumption.
    + rewrite Hbs in *. apply (S1 Hrange).
Qed.

(** Removing the chunk found by the scan from the index and splitting it
    when it is larger than needed. *)
Lemma take_chunk_spec st pre c post sz bk fuel :
  bytes_ok st -> chunk_list st (pre ++ c :: post) ->
  index_ok st (pre ++ c :: post) bk ->
  0 <= sz <= size st c -> (length (pre ++ c :: post) < fuel)%nat ->
  let L := pre ++ c :: post in
  exists st1 L' bk',
    HMMremove_free_block fuel c st = Some st1 /\
    let st' := take_chunk c sz st1 in
    bytes_ok st' /\ chunk_list st' L' /\ index_ok st' L' bk' /\
    In c L' /\ sz <= size st' c <= sz + HDR /\
    hd 0 L' = hd 0 L /\ span st' L' = span st L /\
    (forall a, In a L -> In a L' /\ is_free st' a = is_free st a) /\
    (forall a, In a L -> a <> c -> size st' a = size st a) /\
    (forall a, In a L' -> In a L \/ a = c + HDR + sz) /\
    (forall i, 0 <= i < MULTIPLES_MAX -> ~ In c (bk' i)) /\
    head st' = head st /\ brk st' = brk st /\ brk_lo st' = brk_lo st /\
    brk_hi st' = brk_hi st /\ sbrk_log st' = sbrk_log st /\
    (forall x, (forall a, In a L' -> x < a \/ a + HDR <= x) ->
               mem st' x = mem st x) /\
    (heap_ok_but st L bk c ->
     (forall a, In a L' -> ~ In a L -> is_added st a = 0) ->
     heap_ok_but st' L' bk' c) /\
    (index_free st bk -> index_free st' bk').
Proof.
  intros Hb Hcl Hix Hsz Hfuel L. fold L in Hcl, Hix, Hfuel.
  pose proof (chunk_list_apart st _ Hb Hcl) as Hap.
  pose proof (chunk_list_placed st _ Hb Hcl) as Hpl.
  assert (HcL : In c L) by (apply in_app_iff; right; left; reflexivity).
  destruct (HMMremove_spec st L bk c fuel Hb Hap Hpl Hix HcL Hfuel)
    as (st1 & Hrm & Hix1 & Hstep & Hb1 & Hadd1 & HinA & HoutB).
  set (bk1 := bk_remove bk (bucket_of st c) c) in *.
  pose proof (chunk_list_step L st st1 Hap Hstep Hcl) as Hcl1.
  assert (Hf1 : forall a, In a L ->
            is_free st1 a = is_free st a /\ size st1 a = size st a).
  { intros a Ha. destruct (index_step_fields L st st1 a Hap Hstep Ha)
      as (F1 & F2 & _). split; assumption. }
  assert (Hnc1 : forall i, 0 <= i < MULTIPLES_MAX -> ~ In c (bk1 i)).
  { intros i Hi Hin. apply (bk_remove_in st L bk c i c Hix Hi) in Hin.
    destruct Hin as (_ & N). apply N. reflexivity. }
  assert (Hspan1 : span st1 L = span st L) by
    (apply (span_step L st st1 L Hap Hstep); apply incl_refl).
  assert (HB1 : heap_ok_but st L bk c -> heap_ok_but st1 L bk1 c).
  { intros (_ & _ & _ & Hfl & Hfb).
    assert (Hbk : forall a, In a L -> bucket_of st1 a = bucket_of st a)
      by (intros a Ha; apply (bucket_of_step L st st1 a Hap Hstep Ha)).
    split; [exact Hb1|]. split; [exact Hcl1|]. split; [exact Hix1|]. split.
    - intros a Ha Hadd. destruct (Z.eq_dec a c) as [->|N].
      + exfalso.
        destruct (Z.ltb_spec (bucket_of st c) MULTIPLES_MAX) as [Hlt|Hge].
        * destruct (in_dec Z.eq_dec c (bk (bucket_of st c))) as [Hin|Hnin].
          -- destruct (HinA Hin Hlt) as (Z0 & _). congruence.
          -- rewrite (HoutB (or_introl Hnin)) in Hadd.
             destruct (Hfl c HcL Hadd) as (_ & I). contradiction.
        * rewrite (HoutB (or_intror Hge)) in Hadd.
          destruct (Hfl c HcL Hadd) as (R & _). lia.
      + rewrite (Hadd1 a Ha N) in Hadd. destruct (Hfl a Ha Hadd) as (R & I).
        rewrite (Hbk a Ha). split; [exact R|].
        apply (bk_remove_in st L bk c (bucket_of st a) a Hix).
        * split; [apply bucket_of_nonneg|exact R].
        * split; assumption.
    - intros a Ha N Hfr Hr. rewrite (Hbk a Ha) in *.
      destruct (Hf1 a Ha) as (F1 & _). rewrite F1 in Hfr.
      apply (bk_remove_in st L bk c (bucket_of st a) a Hix).
      + split; [apply bucket_of_nonneg|exact Hr].
      + split; [apply Hfb; assumption|exact N]. }
  assert (HF1 : index_free st bk -> index_free st1 bk1).
  { intros HF0 i a Hi Hin.
    apply (bk_remove_in st L bk c i a Hix Hi) in Hin. destruct Hin as (Hin & _).
    destruct (Hix i Hi) as (_ & _ & Hm). destruct (Hm a Hin) as (HaL & _).
    destruct (Hf1 a HaL) as (-> & _). apply (HF0 i a Hi Hin). }
  destruct (Hf1 c HcL) as (_ & Hsc1).
  destruct Hstep as (Hh1 & Ht1 & Hbrk1 & Hlo1 & Hhi1 & Hlog1 & Hmem1).
  assert (Hstep : index_step L st st1) by (repeat split; assumption).
  assert (HcW : 0 < c /\ c + HDR + size st c <= WORD).
  { destruct Hcl as (Hti & _ & _ & Hends).
    assert (Hne : L <> []) by (subst L; destruct pre; discriminate).
    destruct (Hends Hne) as (Hh0 & _ & _ & Hsp).
    destruct (tiling_in_range st _ c Hb Hti Hne Hh0 Hsp HcL) as (_ & Hce).
    split; [apply (Hpl c HcL)|exact Hce]. }
  assert (Hwr : wrap (HDR + sz) = HDR + sz)
    by (apply wrap_small; unfold HDR, WORD in *; lia).
  exists st1. unfold take_chunk. rewrite Hwr.
  destruct (Z.ltb_spec (HDR + sz) (size st1 c)) as [Hbig|Hsmall].
  - destruct (split_chunk_spec st1 pre c post sz bk1 Hb1 Hcl1 Hix1 Hnc1
                ltac:(lia) Hbig)
      as (bk' & Hb' & Hcl' & Hix' & Hszc & _ & _ & Hspan' & Hfree' & Hsz' &
          Hnc' & Hh' & Hbrk' & Hlo' & Hhi' & Hlog' & Hfr' & HB' & HF').
    exists (pre ++ c :: (c + HDR + sz) :: post), bk'.
    split; [exact Hrm|]. cbv zeta.
    split; [exact Hb'|]. split; [exact Hcl'|]. split; [exact Hix'|].
    split; [apply in_insert; left; exact HcL|].
    split; [unfold HDR in *; lia|].
    split; [subst L; destruct pre; reflexivity|].
    split; [rewrite Hspan'; exact Hspan1|].
    split.
    { intros a Ha. split; [apply in_insert; left; exact Ha|].
      rewrite (Hfree' a Ha). apply (Hf1 a Ha). }
    split; [intros a Ha N; rewrite (Hsz' a Ha N); apply (Hf1 a Ha)|].
    split; [intros a Ha; apply in_insert in Ha; exact Ha|].
    split; [exact Hnc'|].
    split; [congruence|]. split; [congruence|]. split; [congruence|].
    split; [congruence|]. split; [congruence|].
    split.
    { intros x Hx. rewrite (Hfr' x Hx).
      apply (index_step_outside L st st1 x Hstep).
      intros a Ha. apply Hx. apply in_insert. left. exact Ha. }
    split; [|intros HF0; apply HF', HF1, HF0].
    intros HB Hclean. apply HB'; [apply HB1; exact HB|].
    destruct (split_address st1 pre c post sz Hb1 Hcl1 ltac:(lia) Hbig)
      as (_ & _ & _ & Hnin & Hpre & Hpost & _).
    assert (Hs0 : is_added st (c + HDR + sz) = 0).
    { apply Hclean; [apply in_insert; right; reflexivity|exact Hnin]. }
    unfold is_added in *. unfold load8 in *.
    rewrite (index_step_outside L st st1 (c + HDR + sz) Hstep); [exact Hs0|].
    intros a Ha. subst L. apply in_app_iff in Ha.
    destruct Ha as [Ha|[<-|Ha]].
    + pose proof (Hpre a Ha). unfold HDR in *. lia.
    + unfold HDR in *. lia.
    + pose proof (Hpost a Ha). unfold HDR in *. lia.
  - exists L, bk1.
    split; [exact Hrm|]. cbv zeta.
    split; [exact Hb1|]. split; [exact Hcl1|]. split; [exact Hix1|].
    split; [exact HcL|]. split; [lia|].
    split; [reflexivity|]. split; [exact Hspan1|].
    split; [intros a Ha; split; [exact Ha|apply (Hf1 a Ha)]|].
    split; [intros a Ha _; apply (Hf1 a Ha)|].
    split; [intros a Ha; left; exact Ha|].
    split; [exact Hnc1|].
    split; [exact Hh1|]. split; [exact Hbrk1|]. split; [exact Hlo1|].
    split; [exact Hhi1|]. split; [exact Hlog1|].
    split; [intros x Hx; apply (index_step_outside L st st1 x Hstep Hx)|].
    split; [intros HB _; apply HB1; exact HB|exact HF1].
Qed.

(** * Finding a chunk: the fast path and the scan *)

Lemma take_chunk_taken st pre c post sz bk fuel :
  bytes_ok st -> chunk_list st (pre ++ c :: post) ->
  index_ok st (pre ++ c :: post) bk ->
  0 <= sz <= size st c -> is_free st c = 1 ->
  (length (pre ++ c :: post) < fuel)%nat ->
  exists st1 L' bk',
    HMMremove_free_block fuel c st = Some st1 /\
    taken st (pre ++ c :: post) bk sz c (take_chunk c sz st1) L' bk'.
Proof.
  intros Hb Hcl Hix Hsz Hcf Hfuel.
  destruct (take_chunk_spec st pre c post sz bk fuel Hb Hcl Hix Hsz Hfuel)
    as (st1 & L' & bk' & Hrm & H).
  exists st1, L', bk'. split; [exact Hrm|].
  cbv zeta in H. unfold taken.
  repeat lazymatch type of H with
    | _ /\ _ => let A := fresh in destruct H as (A & H); split; [exact A|]
    end.
  intros HF0. split; [apply H, HF0|exact Hcf].
Qed.

Lemma taken_after_step st st0 L bk bk0 sz c st' L' bk' :
  bytes_ok st -> chunk_list st L -> index_step L st st0 -> 0 <= sz ->
  (heap_ok_but st L bk c -> heap_ok_but st0 L bk0 c) ->
  (index_free st bk -> index_free st0 bk0) ->
  taken st0 L bk0 sz c st' L' bk' -> taken st L bk sz c st' L' bk'.
Proof.
  intros Hb Hcl Hstep Hsz0 HB HFs
    (Hb' & Hcl' & Hix' & HcL' & Hsz & Hhd & Hspan & Hfree & Hsame & Hnew &
     Hnc & Hh & Hbrk & Hlo & Hhi & Hlog & Hfr & HB' & HF').
  pose proof (chunk_list_apart st _ Hb Hcl) as Hap.
  pose proof (chunk_list_apart st' _ Hb' Hcl') as Hap'.
  destruct Hstep as (Hh1 & Ht1 & Hbrk1 & Hlo1 & Hhi1 & Hlog1 & Hmem1).
  assert (Hstep : index_step L st st0) by (repeat split; assumption).
  assert (Hout : forall x, (forall a, In a L' -> x < a \/ a + HDR <= x) ->
            mem st0 x = mem st x).
  { intros x Hx. apply (index_step_outside L st st0 x Hstep).
    intros a Ha. apply Hx. apply (Hfree a Ha). }
  split; [exact Hb'|]. split; [exact Hcl'|]. split; [exact Hix'|].
  split; [exact HcL'|]. split; [exact Hsz|]. split; [exact Hhd|].
  split.
  { rewrite Hspan. apply (span_step L st st0 L Hap Hstep). apply incl_refl. }
  split.
  { intros a Ha. destruct (Hfree a Ha) as (A & B). split; [exact A|].
    rewrite B. apply (index_step_fields L st st0 a Hap Hstep Ha). }
  split.
  { intros a Ha N. rewrite (Hsame a Ha N).
    apply (index_step_fields L st st0 a Hap Hstep Ha). }
  split; [exact Hnew|]. split; [exact Hnc|].
  split; [congruence|]. split; [congruence|]. split; [congruence|].
  split; [congruence|]. split; [congruence|].
  split; [intros x Hx; rewrite (Hfr x Hx); apply Hout; exact Hx|].
  split.
  2:{ intros HF0. destruct (HF' (HFs HF0)) as (A & B). split; [exact A|].
      assert (HcL : In c L).
      { destruct (Hnew c HcL') as [H|H]; [exact H|unfold HDR in H; lia]. }
      rewrite <- B. symmetry.
      apply (index_step_fields L st st0 c Hap Hstep HcL). }
  intros H Hclean. apply HB'; [apply HB; exact H|].
  intros a Ha Hn. rewrite <- (Hclean a Ha Hn). unfold is_added, load8.
  apply (index_step_outside L st st0 a Hstep).
  intros b Hb2. destruct (Hap' a b Ha (proj1 (Hfree b Hb2))) as [->|D].
  - contradiction.
  - unfold HDR in *. lia.
Qed.

Lemma scan_found_unfold f c sz st st1 :
  c <> 0 -> is_free st c = 1 -> sz <= size st c ->
  HMMremove_free_block f c st = Some st1 ->
  scan_loop (S f) c sz st = Some (c, take_chunk c sz st1).
Proof.
  intros Hc Hf Hs Hrm. cbn [scan_loop].
  destruct (Z.eqb_spec c 0); [contradiction|].
  rewrite Hf. change (1 =? 1) with true.
  replace (sz <=? size st c) with true by (symmetry; apply Z.leb_le; exact Hs).
  cbn [andb]. rewrite Hrm. unfold take_chunk.
  destruct (wrap (HDR + sz) <? size st1 c); reflexivity.
Qed.

Lemma scan_skip_unfold f c sz st :
  c <> 0 -> ~ (is_free st c = 1 /\ sz <= size st c) ->
  scan_loop (S f) c sz st
  = let st1 := if is_free st c =? 1 then HMMadd_free_block c st else st in
    scan_loop f (prev st1 c) sz st1.
Proof.
  intros Hc Hn. cbn [scan_loop].
  destruct (Z.eqb_spec c 0); [contradiction|].
  destruct (Z.eqb_spec (is_free st c) 1) as [E|E];
    destruct (Z.leb_spec sz (size st c)); cbn [andb]; try reflexivity.
  exfalso. apply Hn. split; assumption.
Qed.

(** One chunk passed over by the scan: it is re-inserted when free. *)
Lemma scan_skip_step st L bk a :
  bytes_ok st -> chunk_list st L -> index_ok st L bk -> In a L ->
  let st1 := if is_free st a =? 1 then HMMadd_free_block a st else st in
  exists bk1,
    index_step L st st1 /\ index_ok st1 L bk1 /\ bytes_ok st1 /\
    (flags_ok st L bk ->
     (is_free st a = 1 -> bucket_of st a < MULTIPLES_MAX ->
      In a (bk (bucket_of st a))) ->
     st1 = st /\ bk1 = bk) /\
    (index_free st bk -> index_free st1 bk1).
Proof.
  intros Hb Hcl Hix Ha st1.
  pose proof (chunk_list_apart st _ Hb Hcl) as Hap.
  pose proof (chunk_list_placed st _ Hb Hcl) as Hpl.
  subst st1. destruct (Z.eqb_spec (is_free st a) 1) as [Hf|Hnf].
  - destruct (HMMadd_spec st L bk a Hb Hap Hpl Hix Ha)
      as (Hstep & Hb1 & HA & HB).
    destruct (Z.ltb_spec (bucket_of st a) MULTIPLES_MAX) as [Hlt|Hge];
      [destruct (Z.eq_dec (is_added st a) 0) as [Hz|Hnz]|].
    + destruct (HA Hlt Hz) as (I1 & _).
      exists (bk_add bk (bucket_of st a) a).
      split; [exact Hstep|]. split; [exact I1|]. split; [exact Hb1|].
      split.
      2:{ intros HF0 i b Hi Hin. unfold bk_add in Hin.
          assert (Hcase : b = a \/ In b (bk i)).
          { destruct (i =? bucket_of st a); [|right; exact Hin].
            destruct Hin as [E|Hin]; [left; symmetry; exact E|right; exact Hin]. }
          destruct Hcase as [->|Hin0].
          - destruct (index_step_fields L st _ a Hap Hstep Ha) as (-> & _).
            exact Hf.
          - destruct (Hix i Hi) as (_ & _ & Hm).
            destruct (Hm b Hin0) as (HbL & _).
            destruct (index_step_fields L st _ b Hap Hstep HbL) as (-> & _).
            apply (HF0 i b Hi Hin0). }
      intros Hfl Hin. exfalso.
      destruct (Hix (bucket_of st a)) as (_ & _ & Hm);
        [split; [apply bucket_of_nonneg|exact Hlt]|].
      destruct (Hm a (Hin Hf Hlt)) as (_ & _ & E). lia.
    + rewrite (HB (or_intror Hnz)). exists bk.
      split; [apply index_step_refl|]. split; [exact Hix|].
      split; [exact Hb|].
      split; [intros _ _; split; reflexivity|intros HF0; exact HF0].
    + rewrite (HB (or_introl Hge)). exists bk.
      split; [apply index_step_refl|]. split; [exact Hix|].
      split; [exact Hb|].
      split; [intros _ _; split; reflexivity|intros HF0; exact HF0].
  - exists bk. split; [apply index_step_refl|]. split; [exact Hix|].
    split; [exact Hb|].
    split; [intros _ _; split; reflexivity|intros HF0; exact HF0].
Qed.

Lemma heap_ok_is_but st L bk c : heap_ok st L bk -> heap_ok_but st L bk c.
Proof.
  intros (Hb & Hcl & Hix & Hfl & Hfi).
  split; [exact Hb|]. split; [exact Hcl|]. split; [exact Hix|].
  split; [exact Hfl|]. intros a Ha _. apply Hfi. exact Ha.
Qed.

(** The tail-first scan: it takes the first fitting free chunk it meets,
    or reaches the front of the list. *)
Lemma scan_loop_spec sz L :
  0 <= sz ->
  forall front back st bk fuel,
    L = front ++ back ->
    bytes_ok st -> chunk_list st L -> index_ok st L bk ->
    (length front + length L + 1 < fuel)%nat ->
    (exists c st' L' bk',
       scan_loop fuel (last front 0) sz st = Some (c, st') /\ c <> 0 /\
       In c front /\ taken st L bk sz c st' L' bk') \/
    (exists st0 bk0,
       scan_loop fuel (last front 0) sz st = Some (0, st0) /\
       index_step L st st0 /\ index_ok st0 L bk0 /\ bytes_ok st0 /\
       (heap_ok st L bk -> st0 = st /\ bk0 = bk) /\
       (index_free st bk -> index_free st0 bk0)).
Proof.
  intros Hsz0 front. induction front as [|a front' IH] using rev_ind;
    intros back st bk fuel HL Hb Hcl Hix Hfuel.
  - right. exists st, bk. destruct fuel as [|f]; [cbn in Hfuel; lia|].
    cbn [last scan_loop]. change (0 =? 0) with true. cbv iota.
    split; [reflexivity|]. split; [apply index_step_refl|].
    split; [exact Hix|]. split; [exact Hb|].
    split; [intros _; split; reflexivity|intros HF0; exact HF0].
  - rewrite last_snoc. rewrite <- app_assoc in HL. cbn [app] in HL.
    pose proof (chunk_list_apart st _ Hb Hcl) as Hap.
    pose proof (chunk_list_placed st _ Hb Hcl) as Hpl.
    assert (HaL : In a L)
      by (rewrite HL; apply in_app_iff; right; left; reflexivity).
    assert (Ha0 : a <> 0) by (destruct (Hpl a HaL); lia).
    destruct fuel as [|f]; [lia|].
    rewrite length_app in Hfuel. cbn [length] in Hfuel.
    assert (Hcase : (is_free st a = 1 /\ sz <= size st a) \/
                    ~ (is_free st a = 1 /\ sz <= size st a)) by lia.
    destruct Hcase as [(Hf & Hfit)|Hskip].
    + left. subst L.
      destruct (take_chunk_taken st front' a back sz bk f Hb Hcl Hix
                  ltac:(lia) Hf ltac:(lia)) as (st1 & L' & bk' & Hrm & Ht).
      exists a, (take_chunk a sz st1), L', bk'.
      split; [apply scan_found_unfold; assumption|]. split; [exact Ha0|].
      split; [apply in_app_iff; right; left; reflexivity|exact Ht].
    + rewrite (scan_skip_unfold f a sz st Ha0 Hskip). cbv zeta.
      destruct (scan_skip_step st L bk a Hb Hcl Hix HaL)
        as (bk1 & Hstep & Hix1 & Hb1 & Hnoop & HFs).
      set (st1 := if is_free st a =? 1 then HMMadd_free_block a st else st)
        in *.
      pose proof (chunk_list_step L st st1 Hap Hstep Hcl) as Hcl1.
      assert (Hpv : prev st1 a = last front' 0).
      { destruct (index_step_fields L st st1 a Hap Hstep HaL)
          as (_ & _ & -> & _).
        rewrite HL in Hcl. apply (chunk_neighbours st front' a back Hcl). }
      rewrite Hpv.
      assert (Hnd : ~ In a front').
      { pose proof (tiling_NoDup st L Hb (proj1 Hcl)) as Hnd.
        rewrite HL in Hnd. apply NoDup_mid in Hnd. apply Hnd. }
      destruct (IH (a :: back) st1 bk1 f HL Hb1 Hcl1 Hix1 ltac:(lia))
        as [(c & st' & L' & bk' & Hsc & Hc0 & Hcin & Ht)
           |(st0 & bk0 & Hsc & Hstep0 & Hix0 & Hb0 & Hh0 & HF0')].
      * left. exists c, st', L', bk'.
        split; [exact Hsc|]. split; [exact Hc0|].
        split; [apply in_app_iff; left; exact Hcin|].
        apply (taken_after_step st st1 L bk bk1 sz c st' L' bk' Hb Hcl Hstep
                 Hsz0); [|exact HFs|exact Ht].
        intros HB. pose proof HB as (_ & _ & _ & Hfl & Hfb).
        assert (Hac : a <> c) by (intros ->; contradiction).
        destruct (Hnoop Hfl (fun F R => Hfb a HaL Hac F R)) as (E1 & E2).
        rewrite E1, E2. exact HB.
      * right. exists st0, bk0.
        split; [exact Hsc|].
        split; [apply (index_step_trans L st st1 st0); assumption|].
        split; [exact Hix0|]. split; [exact Hb0|].
        split; [|intros HF0; apply HF0', HFs, HF0].
        intros H. pose proof H as (_ & _ & _ & Hfl & Hfi).
        destruct (Hnoop Hfl (fun F R => Hfi a HaL F R)) as (E1 & E2).
        assert (H1 : heap_ok st1 L bk1) by (rewrite E1, E2; exact H).
        destruct (Hh0 H1) as (E3 & E4). split; congruence.
Qed.

Lemma class_fits sz s :
  0 <= sz < WORD -> sz mod 8 = 0 -> 0 <= s < WORD ->
  wrap (sz / ALIGNMENT - 1) < MULTIPLES_MAX ->
  wrap (s / ALIGNMENT - 1) = wrap (sz / ALIGNMENT - 1) -> sz <= s < sz + 8.
Proof.
  unfold wrap, ALIGNMENT, MULTIPLES_MAX, ALLOCATED_BYTES, WORD.
  intros Hsz Hm Hs Hlt E.
  assert (Hq : 0 <= sz / 8 < 2 ^ 61) by
    (split; [apply Z.div_pos; lia|apply Z.div_lt_upper_bound; lia]).
  assert (Hq2 : 0 <= s / 8 < 2 ^ 61) by
    (split; [apply Z.div_pos; lia|apply Z.div_lt_upper_bound; lia]).
  pose proof (Z.div_mod sz 8 ltac:(lia)) as D1.
  pose proof (Z.div_mod s 8 ltac:(lia)) as D2.
  pose proof (Z.mod_pos_bound s 8 ltac:(lia)) as B2.
  destruct (Z.eq_dec (sz / 8) 0) as [Z0|N0].
  - rewrite Z0 in Hlt. change ((0 - 1) mod 2 ^ 64) with (2 ^ 64 - 1) in Hlt.
    change (8 * 1024 * 1024 / ALIGNMENT) with 1048576 in Hlt. lia.
  - rewrite (Z.mod_small (sz / 8 - 1)) in E by lia.
    destruct (Z.eq_dec (s / 8) 0) as [Z1|N1].
    + rewrite Z1 in E. change ((0 - 1) mod 2 ^ 64) with (2 ^ 64 - 1) in E. lia.
    + rewrite (Z.mod_small (s / 8 - 1)) in E by lia. lia.
Qed.

Lemma fchain_null st l : fchain st 0 l -> l = [].
Proof. destruct l as [|a l]; [reflexivity|]. intros (E & N & _). congruence. Qed.

Lemma fchain_nonnull st p l : p <> 0 -> fchain st p l ->
  exists l2, l = p :: l2.
Proof.
  intros Hp H. destruct l as [|a l]; [cbn in H; contradiction|].
  destruct H as (-> & _). exists l. reflexivity.
Qed.

Lemma get_free_block_found st sz :
  wrap (sz / ALIGNMENT - 1) < MULTIPLES_MAX ->
  block_freq st (wrap (sz / ALIGNMENT - 1)) <> 0 ->
  HMMget_free_block sz st
  = (block_freq st (wrap (sz / ALIGNMENT - 1)),
     remove_found st (block_freq st (wrap (sz / ALIGNMENT - 1)))
       (wrap (sz / ALIGNMENT - 1)) 0).
Proof.
  intros Hlt Hnz. unfold HMMget_free_block, remove_found.
  destruct (Z.ltb_spec (wrap (sz / ALIGNMENT - 1)) MULTIPLES_MAX); [|lia].
  destruct (Z.eqb_spec (block_freq st (wrap (sz / ALIGNMENT - 1))) 0);
    [contradiction|].
  cbn [negb]. change (0 =? 0) with true. cbn [negb]. cbv zeta. f_equal.
  unfold set_freq, set_is_added, with_freq, with_mem, with_cfs, size,
    next_free.
  cbn [mem block_freq head tail current_free_size brk brk_lo brk_hi sbrk_log].
  rewrite !load64_store8_other by lia. reflexivity.
Qed.

Lemma get_free_block_missed st sz :
  MULTIPLES_MAX <= wrap (sz / ALIGNMENT - 1) \/
  block_freq st (wrap (sz / ALIGNMENT - 1)) = 0 ->
  HMMget_free_block sz st = (0, st).
Proof.
  intros H. unfold HMMget_free_block.
  destruct (Z.ltb_spec (wrap (sz / ALIGNMENT - 1)) MULTIPLES_MAX);
    [|reflexivity].
  destruct H as [H|H]; [lia|]. rewrite H. reflexivity.
Qed.

(** A chunk that left the index: the flags still agree with the index. *)
Lemma unindex_heap_ok_but st st1 L bk c :
  bytes_ok st -> chunk_list st L -> index_ok st L bk -> In c L ->
  index_step L st st1 -> bytes_ok st1 ->
  index_ok st1 L (bk_remove bk (bucket_of st c) c) ->
  (forall a, In a L -> a <> c -> is_added st1 a = is_added st a) ->
  is_added st1 c = 0 ->
  heap_ok_but st L bk c ->
  heap_ok_but st1 L (bk_remove bk (bucket_of st c) c) c.
Proof.
  intros Hb Hcl Hix HcL Hstep Hb1 Hix1 Hadd1 Hz (_ & _ & _ & Hfl & Hfb).
  pose proof (chunk_list_apart st _ Hb Hcl) as Hap.
  assert (Hbk : forall a, In a L -> bucket_of st1 a = bucket_of st a)
    by (intros a Ha; apply (bucket_of_step L st st1 a Hap Hstep Ha)).
  split; [exact Hb1|].
  split; [apply (chunk_list_step L st st1 Hap Hstep Hcl)|].
  split; [exact Hix1|]. split.
  - intros a Ha Hadd. destruct (Z.eq_dec a c) as [->|N]; [contradiction|].
    rewrite (Hadd1 a Ha N) in Hadd. destruct (Hfl a Ha Hadd) as (R & I).
    rewrite (Hbk a Ha). split; [exact R|].
    apply (bk_remove_in st L bk c (bucket_of st a) a Hix).
    + split; [apply bucket_of_nonneg|exact R].
    + split; assumption.
  - intros a Ha N Hfr Hr. rewrite (Hbk a Ha) in *.
    destruct (index_step_fields L st st1 a Hap Hstep Ha) as (F1 & _).
    rewrite F1 in Hfr.
    apply (bk_remove_in st L bk c (bucket_of st a) a Hix).
    + split; [apply bucket_of_nonneg|exact Hr].
    + split; [apply Hfb; assumption|exact N].
Qed.

(** The fast path: the head of the bucket of the request's size class. *)
Lemma get_free_block_spec st L bk sz :
  bytes_ok st -> chunk_list st L -> index_ok st L bk ->
  0 <= sz < WORD -> sz mod 8 = 0 ->
  let idx := wrap (sz / ALIGNMENT - 1) in
  (HMMget_free_block sz st = (0, st) /\
   (MULTIPLES_MAX <= idx \/ bk idx = [])) \/
  (exists r st0 bk0,
     HMMget_free_block sz st = (r, st0) /\ r <> 0 /\
     taken st L bk sz r st0 L bk0).
Proof.
  intros Hb Hcl Hix Hsz Hm idx.
  pose proof (chunk_list_apart st _ Hb Hcl) as Hap.
  pose proof (chunk_list_placed st _ Hb Hcl) as Hpl.
  destruct (Z.ltb_spec idx MULTIPLES_MAX) as [Hlt|Hge];
    [|left; split; [apply get_free_block_missed; left; exact Hge
                   |left; exact Hge]].
  assert (Hi : 0 <= idx < MULTIPLES_MAX)
    by (split; [apply wrap_range|exact Hlt]).
  destruct (Hix idx Hi) as (Hch & Hnd & Hmem).
  destruct (Z.eq_dec (block_freq st idx) 0) as [Hz|Hnz].
  - left. split; [apply get_free_block_missed; right; exact Hz|].
    right. rewrite Hz in Hch. apply (fchain_null st _ Hch).
  - right. destruct (fchain_nonnull st _ _ Hnz Hch) as (l2 & Hbk).
    set (r := block_freq st idx) in *.
    destruct (Hmem r) as (HrL & Hbr & Har); [rewrite Hbk; left; reflexivity|].
    pose proof (remove_found_spec st L bk r [] l2 Hb Hap Hpl Hix) as Hrf.
    rewrite Hbr in Hrf. specialize (Hrf Hi Hbk). cbv zeta in Hrf.
    cbn [last] in Hrf.
    set (st0 := remove_found st r idx 0) in *.
    destruct Hrf as (Hix0 & Hstep & Hb0 & Hz0 & Hoth & Hcfs).
    exists r, st0, (bk_remove bk idx r).
    split; [apply get_free_block_found; assumption|]. split; [exact Hnz|].
    pose proof (chunk_list_step L st st0 Hap Hstep Hcl) as Hcl0.
    destruct (index_step_fields L st st0 r Hap Hstep HrL) as (_ & Fs & _).
    split; [exact Hb0|]. split; [exact Hcl0|]. split; [exact Hix0|].
    split; [exact HrL|]. split.
    { rewrite Fs.
      pose proof (class_fits sz (size st r) Hsz Hm (size_range st r Hb)
                    Hlt Hbr). unfold HDR. lia. }
    split; [reflexivity|].
    split; [apply (span_step L st st0 L Hap Hstep); apply incl_refl|].
    split.
    { intros a Ha. split; [exact Ha|].
      apply (index_step_fields L st st0 a Hap Hstep Ha). }
    split; [intros a Ha _; apply (index_step_fields L st st0 a Hap Hstep Ha)|].
    split; [intros a Ha; left; exact Ha|].
    split.
    { intros i Hi2 Hin. rewrite <- Hbr in Hin.
      apply (bk_remove_in st L bk r i r Hix Hi2) in Hin.
      destruct Hin as (_ & N). apply N. reflexivity. }
    destruct Hstep as (Hh1 & Ht1 & Hbrk1 & Hlo1 & Hhi1 & Hlog1 & Hmem1).
    assert (Hstep : index_step L st st0) by (repeat split; assumption).
    split; [exact Hh1|]. split; [exact Hbrk1|]. split; [exact Hlo1|].
    split; [exact Hhi1|]. split; [exact Hlog1|].
    split; [intros x Hx; apply (index_step_outside L st st0 x Hstep Hx)|].
    split.
    2:{ intros HF0. split; [|apply (HF0 idx r Hi); rewrite Hbk; left; reflexivity].
        intros i a Hi2 Hin. rewrite <- Hbr in Hin.
        apply (bk_remove_in st L bk r i a Hix Hi2) in Hin.
        destruct Hin as (Hin & _).
        destruct (Hix i Hi2) as (_ & _ & Hm2). destruct (Hm2 a Hin) as (HaL & _).
        destruct (index_step_fields L st st0 a Hap Hstep HaL) as (-> & _).
        apply (HF0 i a Hi2 Hin). }
    intros HB _. rewrite <- Hbr.
    apply (unindex_heap_ok_but st st0 L bk r Hb Hcl Hix HrL Hstep Hb0);
      [rewrite Hbr; exact Hix0|exact Hoth|exact Hz0|exact HB].
Qed.

Lemma missed_when_empty st L bk sz :
  index_ok st L bk ->
  MULTIPLES_MAX <= wrap (sz / ALIGNMENT - 1) \/
  bk (wrap (sz / ALIGNMENT - 1)) = [] ->
  HMMget_free_block sz st = (0, st).
Proof.
  intros Hix [H|H]; apply get_free_block_missed; [left; exact H|].
  destruct (Z.ltb_spec (wrap (sz / ALIGNMENT - 1)) MULTIPLES_MAX) as [Hlt|Hge];
    [right|left; exact Hge].
  destruct (Hix (wrap (sz / ALIGNMENT - 1))) as (Hch & _);
    [split; [apply wrap_range|exact Hlt]|].
  rewrite H in Hch. exact Hch.
Qed.

Lemma nonempty_snoc (l : list Z) : l <> [] -> exists pre t, l = pre ++ [t].
Proof.
  intros H. destruct (exists_last H) as (pre & t & E). exists pre, t. exact E.
Qed.

(** When the tail chunk is free and large enough, [HMMget_free_chunk]
    returns without asking for memory. *)
Lemma get_free_chunk_tail_fits st L bk sz f :
  bytes_ok st -> chunk_list st L -> index_ok st L bk ->
  0 <= sz < WORD -> sz mod 8 = 0 ->
  tail st <> 0 -> is_free st (tail st) = 1 -> sz <= size st (tail st) ->
  (length L + 1 < f)%nat ->
  exists r st' L' bk',
    HMMget_free_chunk (S f) sz st = Some (r, st') /\ r <> 0 /\
    taken st L bk sz r st' L' bk' /\
    (MULTIPLES_MAX <= wrap (sz / ALIGNMENT - 1) \/
     bk (wrap (sz / ALIGNMENT - 1)) = [] -> r = tail st).
Proof.
  intros Hb Hcl Hix Hsz Hm Ht0 Htf Hts Hfuel.
  cbn [HMMget_free_chunk].
  destruct (get_free_block_spec st L bk sz Hb Hcl Hix Hsz Hm)
    as [(Hmiss & _)|(r & st0 & bk0 & Hget & Hr0 & Htk)].
  - rewrite Hmiss. change (negb (0 =? 0)) with false. cbv iota.
    assert (HL : L <> []).
    { intros ->. destruct Hcl as (_ & _ & Htl & _). cbn in Htl. contradiction. }
    destruct (nonempty_snoc L HL) as (pre & t & E).
    assert (Ht : tail st = t).
    { destruct Hcl as (_ & _ & Htl & _). rewrite Htl, E. apply last_snoc. }
    rewrite Ht in *. destruct f as [|f']; [lia|].
    subst L.
    destruct (take_chunk_taken st pre t [] sz bk f' Hb Hcl Hix
                ltac:(lia) Htf ltac:(lia)) as (st1 & L' & bk' & Hrm & Htk).
    rewrite (scan_found_unfold f' t sz st st1 Ht0 Htf Hts Hrm).
    change (negb (t =? 0)) with (negb (t =? 0)).
    destruct (Z.eqb_spec t 0); [contradiction|]. cbn [negb].
    exists t, (take_chunk t sz st1), L', bk'.
    split; [reflexivity|]. split; [exact Ht0|]. split; [exact Htk|].
    intros _. reflexivity.
  - rewrite Hget. destruct (Z.eqb_spec r 0); [contradiction|]. cbn [negb].
    exists r, st0, L, bk0.
    split; [reflexivity|]. split; [exact Hr0|]. split; [exact Htk|].
    intros He. rewrite (missed_when_empty st L bk sz Hix He) in Hget.
    injection Hget as E _. congruence.
Qed.

(** * Growing the arena *)

Lemma sbrk_grow n st nfs st2 :
  0 <= n < 2 ^ 63 -> sbrk n st = (Some nfs, st2) ->
  nfs = brk st /\ brk st2 = brk st + n /\
  brk_lo st <= brk st + n <= brk_hi st.
Proof.
  unfold sbrk, to_signed. intros Hn H.
  destruct (Z.ltb_spec n (2 ^ 63)); [|lia].
  destruct ((brk_lo st <=? brk st + n) && (brk st + n <=? brk_hi st)) eqn:E;
    [|discriminate].
  injection H as <- <-. cbn.
  apply andb_prop in E. destruct E as (E1 & E2).
  apply Z.leb_le in E1. apply Z.leb_le in E2. lia.
Qed.

Lemma sbrk_refused n st st2 :
  0 <= n < 2 ^ 63 -> sbrk n st = (None, st2) ->
  brk_lo st <= brk st -> brk_hi st < brk st + n.
Proof.
  unfold sbrk, to_signed. intros Hn H Hlo.
  destruct (Z.ltb_spec n (2 ^ 63)); [|lia].
  destruct ((brk_lo st <=? brk st + n) && (brk st + n <=? brk_hi st)) eqn:E;
    [discriminate|].
  apply andb_false_iff in E. destruct E as [E|E].
  - apply Z.leb_gt in E. lia.
  - apply Z.leb_gt in E. lia.
Qed.

Lemma same_heap_fields st st' a :
  same_heap st st' ->
  is_added st' a = is_added st a /\ is_free st' a = is_free st a /\
  size st' a = size st a /\ prev st' a = prev st a /\
  next st' a = next st a /\ next_free st' a = next_free st a /\
  bucket_of st' a = bucket_of st a.
Proof.
  intros (Hm & _).
  unfold bucket_of, is_added, is_free, size, prev, next, next_free.
  rewrite Hm. repeat split; reflexivity.
Qed.

Lemma same_heap_bytes st st' : same_heap st st' -> bytes_ok st -> bytes_ok st'.
Proof. intros (Hm & _) Hb x. rewrite Hm. apply Hb. Qed.

Lemma same_heap_span st st' r : same_heap st st' -> span st' r = span st r.
Proof.
  intros H. apply span_frame. intros a _. apply (same_heap_fields st st' a H).
Qed.

Lemma same_heap_chunk_list st st' L :
  same_heap st st' -> chunk_list st L -> chunk_list st' L.
Proof.
  intros H (Hti & Hhd & Htl & Hends). pose proof H as (_ & _ & Hh & Ht).
  split; [|split; [congruence|split; [congruence|]]].
  - apply (tiling_frame st); [| |exact Hti].
    + intros a _. split; apply (same_heap_fields st st' a H).
    + intros a _. apply (same_heap_fields st st' a H).
  - intros Hne. destruct (Hends Hne) as (E1 & E2 & E3 & E4).
    rewrite (same_heap_span st st' L H).
    destruct (same_heap_fields st st' (hd 0 L) H) as (_ & _ & _ & -> & _).
    destruct (same_heap_fields st st' (last L 0) H)
      as (_ & _ & _ & _ & -> & _).
    repeat split; assumption.
Qed.

Lemma same_heap_index st st' L bk :
  same_heap st st' -> index_ok st L bk -> index_ok st' L bk.
Proof.
  intros H Hix. pose proof H as (_ & Hbf & _).
  apply (index_ok_frame st st' L L bk Hix (incl_refl _)).
  - intros i _. rewrite Hbf. reflexivity.
  - intros i a _ _. destruct (same_heap_fields st st' a H) as (A & _ & B & _ & _ & C & _).
    split; [exact C|]. split; [exact A|exact B].
Qed.

Lemma same_heap_but st st' L bk c :
  same_heap st st' -> heap_ok_but st L bk c -> heap_ok_but st' L bk c.
Proof.
  intros H (Hb & Hcl & Hix & Hfl & Hfb).
  split; [apply (same_heap_bytes st st' H Hb)|].
  split; [apply (same_heap_chunk_list st st' L H Hcl)|].
  split; [apply (same_heap_index st st' L bk H Hix)|]. split.
  - intros a Ha Hadd.
    destruct (same_heap_fields st st' a H) as (A & _ & _ & _ & _ & _ & B).
    rewrite A in Hadd. rewrite B. apply Hfl; assumption.
  - intros a Ha N Hfr Hr.
    destruct (same_heap_fields st st' a H) as (_ & A & _ & _ & _ & _ & B).
    rewrite A in Hfr. rewrite B in *. apply Hfb; assumption.
Qed.

Lemma same_heap_ok st st' L bk :
  same_heap st st' -> heap_ok st L bk -> heap_ok st' L bk.
Proof.
  intros H (Hb & Hcl & Hix & Hfl & Hfi).
  split; [apply (same_heap_bytes st st' H Hb)|].
  split; [apply (same_heap_chunk_list st st' L H Hcl)|].
  split; [apply (same_heap_index st st' L bk H Hix)|]. split.
  - intros a Ha Hadd.
    destruct (same_heap_fields st st' a H) as (A & _ & _ & _ & _ & _ & B).
    rewrite A in Hadd. rewrite B. apply Hfl; assumption.
  - intros a Ha Hfr Hr.
    destruct (same_heap_fields st st' a H) as (_ & A & _ & _ & _ & _ & B).
    rewrite A in Hfr. rewrite B in *. apply Hfi; assumption.
Qed.

Lemma sbrk_same_heap n st r st2 : sbrk n st = (r, st2) -> same_heap st st2.
Proof.
  intros H. destruct (sbrk_facts n st r st2 H) as (A & B & C & D & _).
  repeat split; assumption.
Qed.

Lemma set_next_fields L st c v :
  bytes_ok st -> apart L -> In c L ->
  let st' := set_next st c v in
  bytes_ok st' /\ next st' c = wrap v /\
  (forall a, In a L ->
     is_added st' a = is_added st a /\ is_free st' a = is_free st a /\
     prev st' a = prev st a /\ size st' a = size st a /\
     next_free st' a = next_free st a /\
     (a <> c -> next st' a = next st a)) /\
  block_freq st' = block_freq st /\ head st' = head st /\
  tail st' = tail st /\ current_free_size st' = current_free_size st /\
  brk st' = brk st /\ brk_lo st' = brk_lo st /\ brk_hi st' = brk_hi st /\
  sbrk_log st' = sbrk_log st /\
  (forall x, x < c \/ c + HDR <= x -> mem st' x = mem st x).
Proof.
  intros Hb Hap HcL st'. subst st'.
  split; [apply bytes_ok_store64; exact Hb|].
  split; [mem_simpl; reflexivity|].
  split.
  { intros a Ha. destruct (Hap a c Ha HcL) as [->|Hd].
    - mem_simpl. repeat split; try reflexivity. intros N. contradiction.
    - mem_simpl. repeat split; reflexivity. }
  unfold_fields. repeat (split; [reflexivity|]).
  intros x Hx. apply store64_other. unfold HDR in *. lia.
Qed.

Lemma tiling_last_end st L :
  tiling st L -> L <> [] ->
  last L 0 + HDR + size st (last L 0) = hd 0 L + span st L.
Proof.
  intros Ht Hne. destruct (nonempty_snoc L Hne) as (pre & t & ->).
  rewrite last_snoc, span_app. cbn [span].
  destruct pre as [|a pre']; [cbn; lia|].
  cbn [hd app].
  pose proof (tiling_offset st pre' a t [] Ht) as E. lia.
Qed.

(** Growing the free tail chunk in place (lines 283-284). *)
Lemma grow_tail_arena st pre t bk n :
  bytes_ok st -> chunk_list st (pre ++ [t]) -> index_ok st (pre ++ [t]) bk ->
  (forall i, 0 <= i < MULTIPLES_MAX -> ~ In t (bk i)) ->
  0 <= n -> hd 0 (pre ++ [t]) + span st (pre ++ [t]) + n <= WORD ->
  let L := pre ++ [t] in
  let s4 := set_size st (tail st) (wrap (size st (tail st) + n)) in
  let s := set_next s4 (tail s4) 0 in
  bytes_ok s /\ chunk_list s L /\ index_ok s L bk /\
  tail s = t /\ size s t = size st t + n /\ span s L = span st L + n /\
  (forall a, In a L -> is_free s a = is_free st a) /\
  (forall a, In a L -> a <> t -> size s a = size st a) /\
  head s = head st /\ brk s = brk st /\ brk_lo s = brk_lo st /\
  brk_hi s = brk_hi st /\ sbrk_log s = sbrk_log st /\
  (forall x, x < t \/ t + HDR <= x -> mem s x = mem st x) /\
  (heap_ok_but st L bk t -> heap_ok_but s L bk t).
Proof.
  intros Hb Hcl Hix Hnt Hn Hbound L s4 s. fold L in Hcl, Hix, Hbound.
  pose proof (chunk_list_apart st _ Hb Hcl) as Hap.
  pose proof (chunk_list_placed st _ Hb Hcl) as Hpl.
  assert (HtL : In t L) by (apply in_app_iff; right; left; reflexivity).
  assert (Htail : tail st = t).
  { destruct Hcl as (_ & _ & Htl & _). rewrite Htl. apply last_snoc. }
  pose proof (chunk_end_bound st L t Hb (proj1 Hcl) HtL) as Hend.
  pose proof (size_range st t Hb) as Hsr.
  destruct (Hpl t HtL) as (Ht0 & _).
  assert (Hwr : wrap (size st t + n) = size st t + n)
    by (apply wrap_small; unfold HDR, WORD in *; lia).
  assert (Hs4 : s4 = set_size st t (size st t + n))
    by (subst s4; rewrite Htail, Hwr; reflexivity).
  destruct (set_size_fields L st t (size st t + n) Hb Hap HtL)
    as (Hb4 & Hsz4 & Hold4 & Hbf4 & Hh4 & Ht4 & Hcfs4 & Hbrk4 & Hlo4 & Hhi4 &
        Hlog4 & Hfr4).
  rewrite <- Hs4 in Hb4, Hsz4, Hold4, Hbf4, Hh4, Ht4, Hcfs4, Hbrk4, Hlo4, Hhi4,
    Hlog4, Hfr4.
  assert (Hs : s = set_next s4 t 0) by (subst s; rewrite Ht4, Htail; reflexivity).
  clearbody s4.
  destruct (set_next_fields L s4 t 0 Hb4 Hap HtL)
    as (Hb5 & Hnx5 & Hold5 & Hbf5 & Hh5 & Ht5 & Hcfs5 & Hbrk5 & Hlo5 & Hhi5 &
        Hlog5 & Hfr5).
  rewrite <- Hs in Hb5, Hnx5, Hold5, Hbf5, Hh5, Ht5, Hcfs5, Hbrk5, Hlo5, Hhi5,
    Hlog5, Hfr5.
  clearbody s.
  assert (HF : forall a, In a L ->
            is_added s a = is_added st a /\ is_free s a = is_free st a /\
            prev s a = prev st a /\ next_free s a = next_free st a /\
            (a <> t -> size s a = size st a /\ next s a = next st a)).
  { intros a Ha. destruct (Hold4 a Ha) as (A1 & A2 & A3 & A4 & A5 & A6).
    destruct (Hold5 a Ha) as (B1 & B2 & B3 & B4 & B5 & B6).
    split; [congruence|]. split; [congruence|]. split; [congruence|].
    split; [congruence|]. intros N. split.
    - rewrite B4. apply A6. exact N.
    - rewrite (B6 N). exact A4. }
  assert (Hszt : size s t = size st t + n).
  { destruct (Hold5 t HtL) as (_ & _ & _ & -> & _). rewrite Hsz4. exact Hwr. }
  assert (Hpre : forall a, In a pre -> a <> t /\ In a L).
  { intros a Ha. split; [|apply in_app_iff; left; exact Ha].
    pose proof (tiling_before st pre [t] a t Hb (proj1 Hcl) Ha
                  (or_introl eq_refl)). unfold HDR in *. lia. }
  assert (Hspan : span s L = span st L + n).
  { subst L. rewrite !span_app. cbn [span]. rewrite Hszt.
    rewrite (span_frame st s pre); [lia|].
    intros a Ha. destruct (Hpre a Ha) as (N & I). apply (HF a I). exact N. }
  destruct Hcl as (Hti & Hhd & Htl & Hends).
  assert (HLne : L <> []) by (subst L; destruct pre; discriminate).
  destruct (Hends HLne) as (E1 & E2 & E3 & E4).
  assert (Hcl' : chunk_list s L).
  { split; [|split; [congruence|split; [congruence|]]].
    - subst L. apply tiling_join.
      + apply (tiling_frame st); [| |apply (tiling_app_l st pre [t] Hti)].
        * intros a Ha. destruct (Hpre a Ha) as (N & I). apply (HF a I). exact N.
        * intros a Ha. destruct (Hpre a (in_tl a pre Ha)) as (N & I).
          apply (HF a I).
      + exact I.
      + intros Hne _.
        destruct (tiling_link st pre [t] Hti Hne ltac:(discriminate))
          as (A & B & C).
        cbn [hd] in *.
        destruct (Hpre _ (last_in pre 0 Hne)) as (N & I).
        destruct (HF _ I) as (_ & _ & _ & _ & G). destruct (G N) as (-> & ->).
        destruct (HF t HtL) as (_ & _ & -> & _).
        split; [exact A|]. split; [exact B|exact C].
    - intros _. split; [exact E1|]. split; [|split].
      + destruct (HF _ (hd_in L 0 HLne)) as (_ & _ & -> & _). exact E2.
      + subst L. rewrite last_snoc. rewrite Hnx5. reflexivity.
      + rewrite Hspan. lia. }
  assert (Hix' : index_ok s L bk).
  { apply (index_ok_frame st s L L bk Hix (incl_refl _)).
    - intros i _. rewrite Hbf5, Hbf4. reflexivity.
    - intros i a Hi Ha. destruct (Hix i Hi) as (_ & _ & Hm).
      destruct (Hm a Ha) as (A & _).
      assert (N : a <> t) by (intros ->; exact (Hnt i Hi Ha)).
      destruct (HF a A) as (F1 & _ & _ & F4 & F5). destruct (F5 N) as (F6 & _).
      split; [exact F4|]. split; [exact F1|exact F6]. }
  split; [exact Hb5|]. split; [exact Hcl'|]. split; [exact Hix'|].
  split; [congruence|]. split; [exact Hszt|]. split; [exact Hspan|].
  split; [intros a Ha; apply (HF a Ha)|].
  split; [intros a Ha N; apply (HF a Ha); exact N|].
  split; [congruence|]. split; [congruence|]. split; [congruence|].
  split; [congruence|]. split; [congruence|].
  split; [intros x Hx; rewrite (Hfr5 x Hx); apply Hfr4; exact Hx|].
  intros (_ & _ & _ & Hfl & Hfb).
  split; [exact Hb5|]. split; [exact Hcl'|]. split; [exact Hix'|]. split.
  - intros a Ha Hadd. destruct (HF a Ha) as (F1 & _ & _ & _ & F5).
    rewrite F1 in Hadd. destruct (Hfl a Ha Hadd) as (R & I).
    assert (N : a <> t).
    { intros ->. apply (Hnt (bucket_of st t)); [|exact I].
      split; [apply bucket_of_nonneg|exact R]. }
    destruct (F5 N) as (F6 & _).
    assert (Hbk : bucket_of s a = bucket_of st a)
      by (unfold bucket_of; rewrite F6; reflexivity).
    rewrite Hbk. split; assumption.
  - intros a Ha N Hfr Hr. destruct (HF a Ha) as (_ & F2 & _ & _ & F5).
    destruct (F5 N) as (F6 & _).
    assert (Hbk : bucket_of s a = bucket_of st a)
      by (unfold bucket_of; rewrite F6; reflexivity).
    rewrite Hbk in *. rewrite F2 in Hfr. apply Hfb; assumption.
Qed.

(** Indexing a chunk that is in no bucket. *)
Lemma add_cases st L bk b :
  bytes_ok st -> chunk_list st L -> index_ok st L bk -> In b L ->
  let st' := HMMadd_free_block b st in
  exists bk',
    index_step L st st' /\ bytes_ok st' /\ chunk_list st' L /\
    index_ok st' L bk' /\
    (forall i a, 0 <= i < MULTIPLES_MAX -> In a (bk i) -> In a (bk' i)) /\
    (forall i a, 0 <= i < MULTIPLES_MAX -> In a (bk' i) ->
       In a (bk i) \/ (a = b /\ i = bucket_of st b)) /\
    (heap_ok_but st L bk b -> is_added st b = 0 -> heap_ok st' L bk').
Proof.
  intros Hb Hcl Hix HbL st'.
  pose proof (chunk_list_apart st _ Hb Hcl) as Hap.
  pose proof (chunk_list_placed st _ Hb Hcl) as Hpl.
  destruct (HMMadd_spec st L bk b Hb Hap Hpl Hix HbL)
    as (Hstep & Hb1 & HA & HB).
  fold st' in Hstep, Hb1, HA, HB.
  pose proof (chunk_list_step L st st' Hap Hstep Hcl) as Hcl1.
  assert (Hbk : forall a, In a L -> bucket_of st' a = bucket_of st a)
    by (intros a Ha; apply (bucket_of_step L st st' a Hap Hstep Ha)).
  assert (Hfr : forall a, In a L -> is_free st' a = is_free st a)
    by (intros a Ha; apply (index_step_fields L st st' a Hap Hstep Ha)).
  destruct (Z.ltb_spec (bucket_of st b) MULTIPLES_MAX) as [Hlt|Hge];
    [destruct (Z.eq_dec (is_added st b) 0) as [Hz|Hnz]|].
  - destruct (HA Hlt Hz) as (I1 & A1 & _ & Aoth).
    exists (bk_add bk (bucket_of st b) b).
    split; [exact Hstep|]. split; [exact Hb1|]. split; [exact Hcl1|].
    split; [exact I1|]. split.
    { intros i a Hi Hin. unfold bk_add.
      destruct (i =? bucket_of st b); [right|]; exact Hin. }
    split.
    { intros i a Hi Hin. unfold bk_add in Hin.
      destruct (Z.eqb_spec i (bucket_of st b)) as [E|E]; [|left; exact Hin].
      destruct Hin as [<-|Hin]; [right; split; [reflexivity|exact E]
                                |left; exact Hin]. }
    intros (_ & _ & _ & Hfl & Hfb) _.
    split; [exact Hb1|]. split; [exact Hcl1|]. split; [exact I1|]. split.
    + intros a Ha Hadd. rewrite (Hbk a Ha).
      destruct (Z.eq_dec a b) as [->|N].
      * split; [exact Hlt|]. unfold bk_add. rewrite Z.eqb_refl. left.
        reflexivity.
      * rewrite (Aoth a Ha N) in Hadd. destruct (Hfl a Ha Hadd) as (R & I).
        split; [exact R|]. unfold bk_add.
        destruct (bucket_of st a =? bucket_of st b); [right|]; exact I.
    + intros a Ha Hf Hr. rewrite (Hbk a Ha) in *. rewrite (Hfr a Ha) in Hf.
      destruct (Z.eq_dec a b) as [->|N].
      * unfold bk_add. rewrite Z.eqb_refl. left. reflexivity.
      * unfold bk_add.
        destruct (bucket_of st a =? bucket_of st b); [right|];
          apply Hfb; assumption.
  - assert (E : st' = st) by (apply HB; right; exact Hnz).
    exists bk. rewrite E.
    split; [apply index_step_refl|]. split; [exact Hb|]. split; [exact Hcl|].
    split; [exact Hix|]. split; [intros i a _ H; exact H|].
    split; [intros i a _ H; left; exact H|].
    intros _ Hz. contradiction.
  - assert (E : st' = st) by (apply HB; left; exact Hge).
    exists bk. rewrite E.
    split; [apply index_step_refl|]. split; [exact Hb|]. split; [exact Hcl|].
    split; [exact Hix|]. split; [intros i a _ H; exact H|].
    split; [intros i a _ H; left; exact H|].
    intros (_ & _ & _ & Hfl & Hfb) Hz.
    split; [exact Hb|]. split; [exact Hcl|]. split; [exact Hix|].
    split; [exact Hfl|].
    intros a Ha Hf Hr. destruct (Z.eq_dec a b) as [->|N]; [lia|].
    apply Hfb; assumption.
Qed.

(** The fields after [link_new_chunk]. *)
Lemma link_new_chunk_fields st L nc nbytes :
  bytes_ok st -> apart L -> placed L -> tail st = 0 \/ In (tail st) L ->
  0 < nc -> nc + HDR <= WORD -> (forall a, In a L -> a + HDR <= nc) ->
  0 <= nbytes - HDR < WORD ->
  let s := link_new_chunk nc nbytes st in
  bytes_ok s /\
  (forall a, In a L ->
     is_added s a = is_added st a /\ is_free s a = is_free st a /\
     size s a = size st a /\ prev s a = prev st a /\
     next_free s a = next_free st a /\
     (a <> tail st -> next s a = next st a)) /\
  is_free s nc = 1 /\ size s nc = nbytes - HDR /\ prev s nc = tail st /\
  next s nc = 0 /\ is_added s nc = is_added st nc /\
  (tail st <> 0 -> next s (tail st) = nc) /\
  tail s = nc /\ head s = (if head st =? 0 then nc else head st) /\
  block_freq s = block_freq st /\ brk s = brk st /\ brk_lo s = brk_lo st /\
  brk_hi s = brk_hi st /\ sbrk_log s = sbrk_log st /\
  (forall x, (forall a, In a (nc :: L) -> x < a \/ a + HDR <= x) ->
             mem s x = mem st x).
Proof.
  intros Hb Hap Hpl Htl Hnc0 Hnc1 Habove Hnb s.
  assert (Htr : 0 <= tail st < WORD).
  { destruct Htl as [->|Ht]; [unfold WORD; lia|].
    destruct (Hpl _ Ht). unfold HDR in *. lia. }
  assert (Hmem : mem s =
    let m1 := store64 (store64 (store64 (store8 (mem st) (nc + 1) 1) (nc + 8)
                (wrap (nbytes - HDR))) (nc + 16) (tail st)) (nc + 24) 0 in
    let m2 := if negb (tail st =? 0) then store64 m1 (tail st + 24) nc else m1 in
    store64 m2 (nc + 24) 0).
  { subst s. unfold link_new_chunk. unfold_fields.
    destruct (negb (tail st =? 0)); autorewrite with state_proj;
      destruct (head st =? 0); autorewrite with state_proj; reflexivity. }
  assert (Htail : tail s = nc).
  { subst s. unfold link_new_chunk. unfold_fields.
    destruct (negb (tail st =? 0)); autorewrite with state_proj;
      destruct (head st =? 0); autorewrite with state_proj; reflexivity. }
  assert (Hrest : head s = (if head st =? 0 then nc else head st) /\
                  block_freq s = block_freq st /\ brk s = brk st /\
                  brk_lo s = brk_lo st /\ brk_hi s = brk_hi st /\
                  sbrk_log s = sbrk_log st).
  { subst s. unfold link_new_chunk. unfold_fields.
    destruct (negb (tail st =? 0)); autorewrite with state_proj;
      destruct (head st =? 0); autorewrite with state_proj;
      repeat split; reflexivity. }
  cbv zeta in Hmem. clearbody s.
  assert (HtL : tail st <> 0 -> In (tail st) L) by (destruct Htl; tauto).
  rewrite (wrap_small (nbytes - HDR) Hnb) in Hmem.
  split.
  { intros x. rewrite Hmem. destruct (negb (tail st =? 0));
      repeat apply store64_bytes; apply store8_bytes; apply Hb. }
  split.
  { intros a Ha. pose proof (Habove a Ha).
    unfold is_added, is_free, size, prev, next, next_free. rewrite Hmem.
    destruct (Z.eqb_spec (tail st) 0) as [E|E]; cbn [negb].
    - repeat mem_step. repeat split; reflexivity.
    - destruct (Hap a (tail st) Ha (HtL E)) as [->|D].
      + repeat mem_step. repeat split; try reflexivity. intros N.
        contradiction.
      + repeat mem_step. repeat split; reflexivity. }
  unfold is_added, is_free, size, prev, next, next_free. rewrite Hmem.
  destruct (Z.eqb_spec (tail st) 0) as [E|E]; cbn [negb].
  - repeat mem_step.
    split; [reflexivity|]. split; [apply wrap_small; exact Hnb|].
    split; [rewrite E; reflexivity|]. split; [reflexivity|].
    split; [reflexivity|]. split; [intros N; contradiction|].
    split; [exact Htail|].
    repeat (split; [apply Hrest|]).
    intros x Hx. pose proof (Hx nc (or_introl eq_refl)) as Hxn.
    rewrite !store64_other, store8_other by (unfold HDR in *; lia).
    reflexivity.
  - pose proof (Habove _ (HtL E)) as Hab. repeat mem_step.
    split; [reflexivity|]. split; [apply wrap_small; exact Hnb|].
    split; [apply wrap_small; exact Htr|]. split; [reflexivity|].
    split; [reflexivity|].
    split; [intros _; apply wrap_small; unfold HDR, WORD in *; lia|].
    split; [exact Htail|].
    repeat (split; [apply Hrest|]).
    intros x Hx. pose proof (Hx nc (or_introl eq_refl)) as Hxn.
    pose proof (Hx _ (or_intror (HtL E))).
    rewrite !store64_other, store8_other by (unfold HDR in *; lia).
    reflexivity.
Qed.
(** A new chunk on the range just obtained from the break (lines 289-300). *)
Lemma new_chunk_arena st L bk nc nbytes :
  bytes_ok st -> chunk_list st L -> index_ok st L bk ->
  0 < nc -> (L <> [] -> hd 0 L + span st L = nc) ->
  HDR <= nbytes -> nc + nbytes <= WORD ->
  let L' := L ++ [nc] in
  let s := append_new_chunk nc nbytes st in
  exists bk',
    bytes_ok s /\ chunk_list s L' /\ index_ok s L' bk' /\
    tail s = nc /\ is_free s nc = 1 /\ size s nc = nbytes - HDR /\
    hd 0 L' + span s L' = nc + nbytes /\
    (forall a, In a L -> is_free s a = is_free st a) /\
    (forall a, In a L -> size s a = size st a) /\
    (forall i a, 0 <= i < MULTIPLES_MAX -> In a (bk' i) ->
       In a (bk i) \/ (a = nc /\ i = bucket_of s nc)) /\
    brk s = brk st /\ brk_lo s = brk_lo st /\ brk_hi s = brk_hi st /\
    sbrk_log s = sbrk_log st /\
    (forall x, (forall a, In a L' -> x < a \/ a + HDR <= x) ->
               mem s x = mem st x) /\
    (heap_ok st L bk -> is_added st nc = 0 -> heap_ok s L' bk').
Proof.
  intros Hb Hcl Hix Hnc0 Htop Hnb Hfit L' s.
  pose proof (chunk_list_apart st _ Hb Hcl) as Hap.
  pose proof (chunk_list_placed st _ Hb Hcl) as Hpl.
  assert (Habove : forall a, In a L -> a + HDR <= nc).
  { intros a Ha. assert (Hne : L <> []) by (intros ->; destruct Ha).
    pose proof (chunk_end_bound st L a Hb (proj1 Hcl) Ha).
    pose proof (size_range st a Hb). rewrite (Htop Hne) in H. lia. }
  assert (Htl : tail st = 0 \/ In (tail st) L).
  { destruct Hcl as (_ & _ & -> & _). destruct L as [|a0 L0];
      [left; reflexivity|right; apply last_in; discriminate]. }
  assert (Hnc1 : nc + HDR <= WORD) by lia.
  assert (Hnbr : 0 <= nbytes - HDR < WORD) by (unfold HDR, WORD in *; lia).
  destruct (link_new_chunk_fields st L nc nbytes Hb Hap Hpl Htl Hnc0 Hnc1
              Habove Hnbr)
    as (Hb7 & Hold7 & Hf7 & Hs7 & Hp7 & Hn7 & Ha7 & Hnt7 & Ht7 & Hh7 & Hbf7 &
        Hbrk7 & Hlo7 & Hhi7 & Hlog7 & Hfr7).
  assert (Hs : s = HMMadd_free_block nc (link_new_chunk nc nbytes st))
    by apply append_new_chunk_unfold.
  set (s7 := link_new_chunk nc nbytes st) in *. clearbody s7.
  assert (Hinc : incl L L') by (intros a Ha; apply in_app_iff; left; exact Ha).
  assert (HncL' : In nc L') by (apply in_app_iff; right; left; reflexivity).
  assert (HinL' : forall a, In a L' -> In a L \/ a = nc).
  { intros a Ha. apply in_app_iff in Ha.
    destruct Ha as [Ha|[<-|[]]]; [left; exact Ha|right; reflexivity]. }
  assert (HncL : ~ In nc L).
  { intros Hin. pose proof (Habove nc Hin). unfold HDR in *. lia. }
  destruct Hcl as (Hti & Hhd & Htail & Hends).
  assert (Hcl7 : chunk_list s7 L').
  { split; [|split; [|split]].
    - apply tiling_join.
      + destruct L as [|a0 L0]; [exact I|].
        destruct (nonempty_snoc (a0 :: L0) ltac:(discriminate))
          as (pre & t & E).
        rewrite E in *.
        assert (Htt : tail st = t) by (rewrite Htail; apply last_snoc).
        apply tiling_join.
        * apply (tiling_frame st); [| |apply (tiling_app_l st pre [t] Hti)].
          -- intros a Ha.
             assert (HaL : In a (pre ++ [t]))
               by (apply in_app_iff; left; exact Ha).
             destruct (Hold7 a HaL) as (_ & _ & F3 & _ & _ & F6).
             split; [exact F3|]. apply F6. rewrite Htt.
             pose proof (tiling_before st pre [t] a t Hb Hti Ha
                           (or_introl eq_refl)). unfold HDR in *. lia.
          -- intros a Ha. apply in_tl in Ha.
             assert (HaL : In a (pre ++ [t]))
               by (apply in_app_iff; left; exact Ha).
             apply (Hold7 a HaL).
        * exact I.
        * intros Hne _.
          destruct (tiling_link st pre [t] Hti Hne ltac:(discriminate))
            as (A & B & C).
          cbn [hd] in *.
          assert (HlL : In (last pre 0) (pre ++ [t]))
            by (apply in_app_iff; left; apply last_in; exact Hne).
          assert (HtL : In t (pre ++ [t]))
            by (apply in_app_iff; right; left; reflexivity).
          destruct (Hold7 _ HlL) as (_ & _ & F3 & _ & _ & F6).
          destruct (Hold7 _ HtL) as (_ & _ & _ & F4 & _).
          rewrite F3, F4, F6; [split; [exact A|split; [exact B|exact C]]|].
          rewrite Htt.
          pose proof (tiling_before st pre [t] _ t Hb Hti
                        (last_in pre 0 Hne) (or_introl eq_refl)).
          unfold HDR in *. lia.
      + exact I.
      + intros Hne _. cbn [hd].
        assert (Htt : tail st = last L 0) by exact Htail.
        pose proof (last_in L 0 Hne) as HlL.
        assert (Ht0 : tail st <> 0)
          by (rewrite Htt; destruct (Hpl _ HlL); lia).
        rewrite <- Htt. split; [apply Hnt7; exact Ht0|]. split; [exact Hp7|].
        rewrite Htt. destruct (Hold7 _ HlL) as (_ & _ & -> & _).
        rewrite (tiling_last_end st L Hti Hne). symmetry. apply Htop.
        exact Hne.
    - rewrite Hh7. subst L'. destruct L as [|a0 L0].
      + cbn in Hhd. rewrite Hhd. reflexivity.
      + cbn [hd app] in *. rewrite Hhd.
        destruct (Z.eqb_spec a0 0) as [E|E]; [|reflexivity].
        destruct (Hpl a0 (or_introl eq_refl)). lia.
    - rewrite Ht7. subst L'. symmetry. apply last_snoc.
    - intros _. subst L'. rewrite last_snoc, span_app. cbn [span].
      rewrite Hs7, (span_frame st s7 L) by (intros a Ha; apply (Hold7 a Ha)).
      destruct L as [|a0 L0].
      + cbn [hd app span]. split; [exact Hnc0|]. split; [|split; [exact Hn7|lia]].
        rewrite Hp7, Htail. reflexivity.
      + assert (Hne : a0 :: L0 <> []) by discriminate.
        destruct (Hends Hne) as (E1 & E2 & E3 & E4).
        cbn [hd app] in *. split; [exact E1|]. split; [|split; [exact Hn7|]].
        * destruct (Hold7 a0 (or_introl eq_refl)) as (_ & _ & _ & -> & _).
          exact E2.
        * pose proof (Htop Hne). cbn [hd] in H. lia. }
  assert (Hix7 : index_ok s7 L' bk).
  { apply (index_ok_frame st s7 L L' bk Hix Hinc).
    - intros i _. rewrite Hbf7. reflexivity.
    - intros i a Hi Ha. destruct (Hix i Hi) as (_ & _ & Hm).
      destruct (Hm a Ha) as (A & _).
      destruct (Hold7 a A) as (F1 & _ & F3 & _ & F5 & _). tauto. }
  destruct (add_cases s7 L' bk nc Hb7 Hcl7 Hix7 HncL')
    as (bk' & Hstep & Hb8 & Hcl8 & Hix8 & Hmono & Hsrc & HB8).
  rewrite <- Hs in Hstep, Hb8, Hcl8, Hix8, HB8. clearbody s.
  pose proof (chunk_list_apart s7 _ Hb7 Hcl7) as Hap'.
  assert (HF : forall a, In a L' ->
            is_free s a = is_free s7 a /\ size s a = size s7 a)
    by (intros a Ha; destruct (index_step_fields L' s7 s a Hap' Hstep Ha)
          as (F1 & F2 & _); split; assumption).
  destruct Hstep as (Hh8 & Ht8 & Hbrk8 & Hlo8 & Hhi8 & Hlog8 & Hmem8).
  assert (Hstep : index_step L' s7 s) by (repeat split; assumption).
  exists bk'.
  split; [exact Hb8|]. split; [exact Hcl8|]. split; [exact Hix8|].
  split; [congruence|].
  split; [destruct (HF nc HncL') as (-> & _); exact Hf7|].
  split; [destruct (HF nc HncL') as (_ & ->); exact Hs7|].
  split.
  { rewrite (span_step L' s7 s L' Hap' Hstep (incl_refl _)).
    subst L'. rewrite span_app. cbn [span]. rewrite Hs7.
    rewrite (span_frame st s7 L) by (intros a Ha; apply (Hold7 a Ha)).
    destruct L as [|a0 L0]; [cbn; lia|].
    pose proof (Htop ltac:(discriminate)). cbn [hd app] in *. lia. }
  split.
  { intros a Ha. destruct (HF a (Hinc a Ha)) as (-> & _). apply (Hold7 a Ha). }
  split.
  { intros a Ha. destruct (HF a (Hinc a Ha)) as (_ & ->). apply (Hold7 a Ha). }
  split.
  { intros i a Hi Ha. destruct (Hsrc i a Hi Ha) as [H|(H1 & H2)];
      [left; exact H|right]. split; [exact H1|].
    rewrite H2. symmetry. apply (bucket_of_step L' s7 s nc Hap' Hstep HncL'). }
  split; [congruence|]. split; [congruence|]. split; [congruence|].
  split; [congruence|].
  split.
  { intros x Hx. rewrite (index_step_outside L' s7 s x Hstep Hx).
    apply Hfr7. intros a [<-|Ha]; apply Hx; [exact HncL'|apply Hinc; exact Ha]. }
  intros (_ & _ & _ & Hfl & Hfi) Hz.
  apply HB8; [|rewrite Ha7; exact Hz].
  split; [exact Hb7|]. split; [exact Hcl7|]. split; [exact Hix7|]. split.
  - intros a Ha Hadd. destruct (HinL' a Ha) as [HaL| ->].
    + destruct (Hold7 a HaL) as (F1 & _ & F3 & _).
      rewrite F1 in Hadd.
      assert (Hbk : bucket_of s7 a = bucket_of st a)
        by (unfold bucket_of; rewrite F3; reflexivity).
      rewrite Hbk. apply Hfl; assumption.
    + exfalso. apply Hadd. rewrite Ha7. exact Hz.
  - intros a Ha N Hfr Hr. destruct (HinL' a Ha) as [HaL| ->]; [|contradiction].
    destruct (Hold7 a HaL) as (_ & F2 & F3 & _).
    assert (Hbk : bucket_of s7 a = bucket_of st a)
      by (unfold bucket_of; rewrite F3; reflexivity).
    rewrite Hbk in Hr |- *. rewrite F2 in Hfr.
    apply Hfi; assumption.
Qed.

(** * [HMMget_free_chunk] as a whole *)

Lemma num_bounds sz :
  0 < sz -> sz + HDR + ALLOCATED_BYTES < 2 ^ 63 ->
  sz + HDR < num_allocated_bytes sz /\
  num_allocated_bytes sz <= sz + HDR + ALLOCATED_BYTES /\
  num_allocated_bytes sz mod 8 = 0.
Proof.
  intros Hsz Hbig. unfold num_allocated_bytes, wrap, WORD.
  unfold HDR, ALLOCATED_BYTES in *.
  change (8 * 1024 * 1024) with 8388608 in *.
  rewrite (Z.mod_small (sz + 40 + 8388608)) by lia.
  pose proof (Z.div_mod (sz + 40 + 8388608) 8388608 ltac:(lia)) as D.
  pose proof (Z.mod_pos_bound (sz + 40 + 8388608) 8388608 ltac:(lia)) as B.
  set (q := (sz + 40 + 8388608) / 8388608) in *.
  rewrite (Z.mod_small (q * 8388608)) by lia.
  split; [lia|]. split; [lia|].
  replace (q * 8388608) with (q * 1048576 * 8) by lia.
  apply Z_mod_mult.
Qed.

Lemma class_differs sz n :
  0 < sz -> sz mod 8 = 0 -> sz + HDR < n -> n mod 8 = 0 -> n < 2 ^ 63 ->
  wrap ((n - HDR) / ALIGNMENT - 1) <> wrap (sz / ALIGNMENT - 1).
Proof.
  unfold wrap, WORD, HDR, ALIGNMENT. intros Hsz Hm Hn Hnm Hbig.
  pose proof (Z.div_mod sz 8 ltac:(lia)) as D1.
  pose proof (Z.div_mod n 8 ltac:(lia)) as D2.
  assert (E : (n - 40) / 8 = n / 8 - 5).
  { replace (n - 40) with (n + (-5) * 8) by lia.
    rewrite Z.div_add by lia. lia. }
  rewrite E.
  rewrite !Z.mod_small by lia. lia.
Qed.

Lemma remove_empty (t : Z) bk j i :
  bk i = [] -> bk_remove bk j t i = [].
Proof.
  intros H. unfold bk_remove. destruct (i =? j); rewrite H; reflexivity.
Qed.

(** Line 280: the tail chunk leaves the index before the arena grows. *)
Lemma remove_tail_step st L bk f :
  bytes_ok st -> chunk_list st L -> index_ok st L bk -> (length L < f)%nat ->
  exists st3 bk3,
    HMMremove_free_block f (tail st) st = Some st3 /\
    index_step L st st3 /\ index_ok st3 L bk3 /\ bytes_ok st3 /\
    (forall i, 0 <= i < MULTIPLES_MAX -> ~ In (tail st) (bk3 i)) /\
    (forall i, bk i = [] -> bk3 i = []) /\
    (heap_ok st L bk -> heap_ok_but st3 L bk3 (tail st)) /\
    (index_free st bk -> index_free st3 bk3).
Proof.
  intros Hb Hcl Hix Hfuel.
  pose proof (chunk_list_apart st _ Hb Hcl) as Hap.
  pose proof (chunk_list_placed st _ Hb Hcl) as Hpl.
  destruct L as [|a0 L0].
  - assert (Ht : tail st = 0) by (destruct Hcl as (_ & _ & -> & _); reflexivity).
    rewrite Ht. exists st, bk.
    split; [reflexivity|]. split; [apply index_step_refl|].
    split; [exact Hix|]. split; [exact Hb|].
    split.
    { intros i Hi Hin. destruct (Hix i Hi) as (_ & _ & Hm).
      destruct (Hm 0 Hin) as ([] & _). }
    split; [intros i H; exact H|].
    split; [intros H; apply heap_ok_is_but; exact H|intros HF0; exact HF0].
  - set (L := a0 :: L0) in *.
    assert (HtL : In (tail st) L).
    { destruct Hcl as (_ & _ & -> & _). apply last_in. discriminate. }
    set (t := tail st) in *.
    destruct (HMMremove_spec st L bk t f Hb Hap Hpl Hix HtL Hfuel)
      as (st1 & Hrm & Hix1 & Hstep & Hb1 & Hadd1 & HinA & HoutB).
    exists st1, (bk_remove bk (bucket_of st t) t).
    split; [exact Hrm|]. split; [exact Hstep|]. split; [exact Hix1|].
    split; [exact Hb1|]. split.
    { intros i Hi Hin. apply (bk_remove_in st L bk t i t Hix Hi) in Hin.
      destruct Hin as (_ & N). apply N. reflexivity. }
    split; [intros i H; apply remove_empty; exact H|].
    split.
    2:{ intros HF0 i a Hi Hin.
        apply (bk_remove_in st L bk t i a Hix Hi) in Hin.
        destruct Hin as (Hin & _).
        destruct (Hix i Hi) as (_ & _ & Hm). destruct (Hm a Hin) as (HaL & _).
        destruct (index_step_fields L st st1 a Hap Hstep HaL) as (-> & _).
        apply (HF0 i a Hi Hin). }
    intros H. pose proof H as (_ & _ & _ & Hfl & _).
    apply (unindex_heap_ok_but st st1 L bk t Hb Hcl Hix HtL Hstep Hb1 Hix1
             Hadd1); [|apply heap_ok_is_but; exact H].
    destruct (Z.ltb_spec (bucket_of st t) MULTIPLES_MAX) as [Hlt|Hge].
    + destruct (in_dec Z.eq_dec t (bk (bucket_of st t))) as [Hin|Hnin].
      * apply (HinA Hin Hlt).
      * rewrite (HoutB (or_introl Hnin)).
        destruct (Z.eq_dec (is_added st t) 0) as [E|N]; [exact E|].
        destruct (Hfl t HtL N) as (_ & I). contradiction.
    + rewrite (HoutB (or_intror Hge)).
      destruct (Z.eq_dec (is_added st t) 0) as [E|N]; [exact E|].
      destruct (Hfl t HtL N) as (R & _). lia.
Qed.

Lemma no_members_nil (l : list Z) : (forall a, ~ In a l) -> l = [].
Proof.
  destruct l as [|a l]; [reflexivity|]. intros H. exfalso.
  apply (H a). left. reflexivity.
Qed.

Lemma new_bucket_empty (bk3 bk5 : Z -> list Z) sz num s nc :
  (forall i a, 0 <= i < MULTIPLES_MAX -> In a (bk5 i) ->
     In a (bk3 i) \/ (a = nc /\ i = bucket_of s nc)) ->
  size s nc = num - HDR ->
  0 < sz -> sz mod 8 = 0 -> sz + HDR < num -> num mod 8 = 0 -> num < 2 ^ 63 ->
  bk3 (wrap (sz / ALIGNMENT - 1)) = [] ->
  MULTIPLES_MAX <= wrap (sz / ALIGNMENT - 1) \/
  bk5 (wrap (sz / ALIGNMENT - 1)) = [].
Proof.
  intros Hsrc Hs Hsz Hm Hn1 Hn3 Hn4 E.
  destruct (Z.ltb_spec (wrap (sz / ALIGNMENT - 1)) MULTIPLES_MAX)
    as [Hlt|Hge]; [right|left; exact Hge].
  apply no_members_nil. intros a Hin.
  destruct (Hsrc _ a (conj (proj1 (wrap_range _)) Hlt) Hin)
    as [Hin3|(_ & Hbk)].
  - rewrite E in Hin3. destruct Hin3.
  - unfold bucket_of in Hbk. rewrite Hs in Hbk. symmetry in Hbk.
    exact (class_differs sz num Hsz Hm Hn1 Hn3 Hn4 Hbk).
Qed.

(** Lines 270-300: the break moved; the arena gets a free tail chunk that
    fits the request. *)
Lemma grow_step st L bk sz num f nfs st2 :
  arena_ok st L bk -> 0 < sz -> sz mod 8 = 0 ->
  sz + HDR < num -> num < 2 ^ 63 -> num mod 8 = 0 ->
  (length L < f)%nat ->
  sbrk num st = (Some nfs, st2) ->
  exists st3 L5 bk5,
    HMMremove_free_block f (tail st2) st2 = Some st3 /\
    grown_by st L bk sz num
      (if negb (tail st3 =? 0) && (is_free st3 (tail st3) =? 1)
       then (let st4 := set_size st3 (tail st3)
                          (wrap (size st3 (tail st3) + num)) in
             set_next st4 (tail st4) 0)
       else append_new_chunk nfs num st3) L5 bk5.
Proof.
  intros (Hb & Hcl & Hix & Henv & Htop) Hsz Hm Hn1 Hn4 Hn3 Hfuel Hsbrk.
  destruct Henv as (Hlo0 & Hbrk & HhiW).
  destruct (sbrk_grow num st nfs st2 ltac:(unfold HDR in *; lia) Hsbrk)
    as (Hnfs & Hbrk2 & Hin2).
  destruct (sbrk_facts num st _ st2 Hsbrk)
    as (_ & _ & _ & Ht2 & Hlo2 & Hhi2 & Hlog2 & _).
  pose proof (sbrk_same_heap num st _ st2 Hsbrk) as Hsame.
  pose proof (same_heap_bytes st st2 Hsame Hb) as Hb2.
  pose proof (same_heap_chunk_list st st2 L Hsame Hcl) as Hcl2.
  pose proof (same_heap_index st st2 L bk Hsame Hix) as Hix2.
  pose proof (chunk_list_apart st2 _ Hb2 Hcl2) as Hap.
  pose proof (chunk_list_placed st2 _ Hb2 Hcl2) as Hpl.
  destruct (remove_tail_step st2 L bk f Hb2 Hcl2 Hix2 Hfuel)
    as (st3 & bk3 & Hrm & Hstep & Hix3 & Hb3 & Hnt3 & Hemp3 & HB3 & HFr3).
  pose proof (chunk_list_step L st2 st3 Hap Hstep Hcl2) as Hcl3.
  assert (HF3 : forall a, In a L ->
            is_free st3 a = is_free st a /\ size st3 a = size st a).
  { intros a Ha.
    destruct (index_step_fields L st2 st3 a Hap Hstep Ha) as (F1 & F2 & _).
    destruct (same_heap_fields st st2 a Hsame) as (_ & G1 & G2 & _).
    split; congruence. }
  assert (Hspan3 : span st3 L = span st L).
  { rewrite (span_step L st2 st3 L Hap Hstep (incl_refl _)).
    apply same_heap_span. exact Hsame. }
  assert (Hmem3 : forall x, (forall a, In a L -> x < a \/ a + HDR <= x) ->
            mem st3 x = mem st x).
  { intros x Hx. rewrite (index_step_outside L st2 st3 x Hstep Hx).
    destruct Hsame as (-> & _). reflexivity. }
  destruct Hstep as (Hh3 & Ht3 & Hbrk3 & Hlo3 & Hhi3 & Hlog3 & Hmm3).
  assert (Hstep : index_step L st2 st3) by (repeat split; assumption).
  assert (Htail3 : tail st3 = tail st) by congruence.
  assert (HFr3' : index_free st bk -> index_free st3 bk3).
  { intros HF0. apply HFr3. intros i a Hi Hin.
    destruct (same_heap_fields st st2 a Hsame) as (_ & -> & _).
    apply (HF0 i a Hi Hin). }
  assert (Hhd : hd 0 L = head st) by (symmetry; apply Hcl).
  exists st3.
  destruct (negb (tail st3 =? 0) && (is_free st3 (tail st3) =? 1)) eqn:Hc.
  - apply andb_prop in Hc. destruct Hc as (Hc1 & Hc2).
    apply negb_true_iff in Hc1. apply Z.eqb_neq in Hc1.
    apply Z.eqb_eq in Hc2.
    assert (HLne : L <> []).
    { intros ->. destruct Hcl3 as (_ & _ & E & _). cbn in E. contradiction. }
    destruct (nonempty_snoc L HLne) as (pre & t & EL).
    assert (Ht : tail st3 = t).
    { destruct Hcl3 as (_ & _ & -> & _). rewrite EL. apply last_snoc. }
    pose proof (Htop HLne) as Htop'.
    rewrite EL in Hcl3, Hix3.
    assert (Hnt : forall i, 0 <= i < MULTIPLES_MAX -> ~ In t (bk3 i)).
    { intros i Hi. rewrite <- Ht, Ht3. apply Hnt3. exact Hi. }
    assert (Hbound : hd 0 (pre ++ [t]) + span st3 (pre ++ [t]) + num <= WORD).
    { rewrite <- EL, Hspan3, Htop'. unfold HDR in *. lia. }
    destruct (grow_tail_arena st3 pre t bk3 num Hb3 Hcl3 Hix3 Hnt
                ltac:(unfold HDR in *; lia) Hbound)
      as (Hb5 & Hcl5 & Hix5 & Ht5 & Hs5 & Hsp5 & Hfr5 & Hsz5 & Hh5 & Hbrk5 &
          Hlo5 & Hhi5 & Hlog5 & Hmem5 & HB5).
    cbv zeta in *.
    set (st5 := set_next (set_size st3 (tail st3)
                            (wrap (size st3 (tail st3) + num)))
                  (tail (set_size st3 (tail st3)
                           (wrap (size st3 (tail st3) + num)))) 0) in *.
    clearbody st5. rewrite <- EL in *.
    assert (HtL : In t L) by (rewrite EL; apply in_app_iff; right; left;
                              reflexivity).
    exists L, bk3. split; [exact Hrm|].
    split; [exact Hb5|]. split; [exact Hcl5|]. split; [exact Hix5|].
    split; [rewrite Ht5, <- Ht; exact Hc1|].
    split; [rewrite Ht5, (Hfr5 t HtL), <- Ht; exact Hc2|].
    split.
    { rewrite Ht5, Hs5. pose proof (size_range st3 t Hb3). unfold HDR in *.
      lia. }
    split; [rewrite Hsp5, Hspan3; lia|].
    split; [rewrite Hbrk5, Hbrk3; exact Hbrk2|].
    split; [rewrite Hlo5, Hlo3; exact Hlo2|].
    split; [rewrite Hhi5, Hhi3; exact Hhi2|].
    split; [rewrite Hlog5, Hlog3; exact Hlog2|].
    split; [exact Hin2|]. split; [apply Nat.le_succ_diag_r|].
    split.
    { intros a Ha. split; [exact Ha|]. rewrite (Hfr5 a Ha).
      apply (HF3 a Ha). }
    split.
    { intros a Ha Hnf. rewrite (Hsz5 a Ha); [apply (HF3 a Ha)|].
      intros ->. apply Hnf. rewrite <- (proj1 (HF3 t HtL)), <- Ht.
      exact Hc2. }
    split; [intros a Ha; left; exact Ha|].
    split.
    { intros x Hx. rewrite (Hmem5 x (Hx t HtL)). apply Hmem3. exact Hx. }
    split.
    2:{ intros HF0 i a Hi Hin. destruct (Hix3 i Hi) as (_ & _ & Hmb).
        destruct (Hmb a Hin) as (HaL & _). rewrite (Hfr5 a HaL).
        apply (HFr3' HF0 i a Hi Hin). }
    intros H _. split.
    + rewrite Ht5. apply HB5. rewrite <- Ht, Ht3. apply HB3.
      apply (same_heap_ok st st2 L bk Hsame H).
    + intros [E|E]; [left; exact E|right; apply Hemp3; exact E].
  - assert (Hnotfree : forall a, In a L -> a = tail st3 -> is_free st3 a <> 1).
    { intros a Ha -> Hf. rewrite Hf in Hc. change (1 =? 1) with true in Hc.
      rewrite andb_true_r in Hc. apply negb_false_iff in Hc.
      apply Z.eqb_eq in Hc. rewrite Hc in Ha. destruct (Hpl 0 Ha). lia. }
    assert (Htop3 : L <> [] -> hd 0 L + span st3 L = nfs).
    { intros Hne. rewrite Hspan3, Hnfs. apply Htop. exact Hne. }
    destruct (new_chunk_arena st3 L bk3 nfs num Hb3 Hcl3 Hix3
                ltac:(lia) Htop3 ltac:(unfold HDR in *; lia)
                ltac:(unfold HDR in *; lia))
      as (bk5 & Hb5 & Hcl5 & Hix5 & Ht5 & Hf5 & Hs5 & Hsp5 & Hfr5 & Hsz5 &
          Hsrc5 & Hbrk5 & Hlo5 & Hhi5 & Hlog5 & Hmem5 & HB5).
    cbv zeta in *.
    set (st5 := append_new_chunk nfs num st3) in *. clearbody st5.
    exists (L ++ [nfs]), bk5. split; [exact Hrm|].
    split; [exact Hb5|]. split; [exact Hcl5|]. split; [exact Hix5|].
    split; [rewrite Ht5; lia|]. split; [rewrite Ht5; exact Hf5|].
    split; [rewrite Ht5, Hs5; unfold HDR in *; lia|].
    split; [rewrite Hsp5; lia|].
    split; [rewrite Hbrk5, Hbrk3; exact Hbrk2|].
    split; [rewrite Hlo5, Hlo3; exact Hlo2|].
    split; [rewrite Hhi5, Hhi3; exact Hhi2|].
    split; [rewrite Hlog5, Hlog3; exact Hlog2|].
    split; [exact Hin2|].
    split; [rewrite length_app, Nat.add_comm; apply Nat.le_refl|].
    split.
    { intros a Ha. split; [apply in_app_iff; left; exact Ha|].
      rewrite (Hfr5 a Ha). apply (HF3 a Ha). }
    split; [intros a Ha _; rewrite (Hsz5 a Ha); apply (HF3 a Ha)|].
    split.
    { intros a Ha. apply in_app_iff in Ha.
      destruct Ha as [Ha|[<-|[]]]; [left; exact Ha|right; exact Hnfs]. }
    split.
    { intros x Hx. rewrite (Hmem5 x Hx). apply Hmem3.
      intros a Ha. apply Hx. apply in_app_iff. left. exact Ha. }
    split.
    2:{ intros HF0 i a Hi Hin. destruct (Hsrc5 i a Hi Hin) as [Hin3|(-> & _)].
        - destruct (Hix3 i Hi) as (_ & _ & Hmb).
          destruct (Hmb a Hin3) as (HaL & _). rewrite (Hfr5 a HaL).
          apply (HFr3' HF0 i a Hi Hin3).
        - exact Hf5. }
    intros H Hclean.
    assert (HnL : ~ In nfs L).
    { intros Hin. pose proof (chunk_end_bound st L nfs Hb (proj1 Hcl) Hin).
      pose proof (size_range st nfs Hb).
      assert (Hne : L <> []) by (intros ->; destruct Hin).
      rewrite (Htop Hne) in H0. unfold HDR in *. lia. }
    assert (Hz : is_added st3 nfs = 0).
    { rewrite <- (Hclean nfs);
        [|apply in_app_iff; right; left; reflexivity|exact HnL].
      unfold is_added, load8. apply Hmem3.
      intros a Ha. pose proof (chunk_end_bound st L a Hb (proj1 Hcl) Ha).
      pose proof (size_range st a Hb).
      assert (Hne : L <> []) by (intros ->; destruct Ha).
      rewrite (Htop Hne) in H0. unfold HDR in *. lia. }
    assert (H3 : heap_ok st3 L bk3).
    { destruct (HB3 (same_heap_ok st st2 L bk Hsame H))
        as (A1 & A2 & A3 & A4 & A5).
      split; [exact A1|]. split; [exact A2|]. split; [exact A3|].
      split; [exact A4|].
      intros a Ha Hfa Hr. apply A5; try assumption.
      intros E. rewrite <- Ht3 in E. apply (Hnotfree a Ha E Hfa). }
    split.
    + rewrite Ht5. apply heap_ok_is_but. apply HB5; assumption.
    + intros [E|E]; [left; exact E|].
      apply (new_bucket_empty bk3 bk5 sz num st5 nfs Hsrc5 Hs5 Hsz Hm Hn1 Hn3
               Hn4).
      apply Hemp3. exact E.
Qed.

Lemma get_free_chunk_unfold f sz st :
  HMMget_free_chunk (S f) sz st =
  let '(get_free, st0) := HMMget_free_block sz st in
  if negb (get_free =? 0) then Some (get_free, st0)
  else
    match scan_loop f (tail st0) sz st0 with
    | None => None
    | Some (found, st1) =>
      if negb (found =? 0) then Some (found, st1)
      else
        match sbrk (num_allocated_bytes sz) st1 with
        | (None, st2) => Some (0, st2)
        | (Some nfs, st2) =>
          match HMMremove_free_block f (tail st2) st2 with
          | None => None
          | Some st3 =>
            HMMget_free_chunk f sz
              (if negb (tail st3 =? 0) && (is_free st3 (tail st3) =? 1)
               then (let st4 := set_size st3 (tail st3)
                                  (wrap (size st3 (tail st3)
                                         + num_allocated_bytes sz)) in
                     set_next st4 (tail st4) 0)
               else append_new_chunk nfs (num_allocated_bytes sz) st3)
          end
        end
    end.
Proof.
  cbn [HMMget_free_chunk].
  destruct (HMMget_free_block sz st) as (g & st0).
  destruct (negb (g =? 0)); [reflexivity|].
  destruct (scan_loop f (tail st0) sz st0) as [(found & st1)|]; [|reflexivity].
  destruct (negb (found =? 0)); [reflexivity|].
  destruct (sbrk (num_allocated_bytes sz) st1) as ([nfs|] & st2);
    [|reflexivity].
  destruct (HMMremove_free_block f (tail st2) st2) as [st3|]; [|reflexivity].
  destruct (negb (tail st3 =? 0) && (is_free st3 (tail st3) =? 1));
    reflexivity.
Qed.

Lemma taken_in_old st L bk sz c st' L' bk' :
  0 <= sz -> taken st L bk sz c st' L' bk' -> In c L.
Proof.
  intros Hsz (_ & _ & _ & HcL' & _ & _ & _ & _ & _ & Hnew & _).
  destruct (Hnew c HcL') as [H|H]; [exact H|]. unfold HDR in *. lia.
Qed.

Lemma taken_granted st L bk sz c st' L' bk' :
  arena_ok st L bk -> 0 <= sz ->
  taken st L bk sz c st' L' bk' -> granted st L bk sz c st' L' bk'.
Proof.
  intros (Hb & Hcl & Hix & Henv & Htop) Hsz Ht.
  pose proof (taken_in_old st L bk sz c st' L' bk' Hsz Ht) as HcL.
  destruct Ht as (Hb' & Hcl' & Hix' & HcL' & Hfit & Hhd & Hspan & Hfree &
                  Hsame & Hnew & Hnc & Hh & Hbrk & Hlo & Hhi & Hlog & Hfr & HB &
                  HF).
  assert (HLne : L <> []) by (intros ->; destruct HcL).
  split.
  { split; [exact Hb'|]. split; [exact Hcl'|]. split; [exact Hix'|].
    split.
    - unfold env_ok in *. rewrite Hbrk, Hlo, Hhi. exact Henv.
    - intros _. rewrite Hhd, Hspan, Hbrk. apply Htop. exact HLne. }
  split; [exact HcL'|]. split; [exact Hfit|]. split; [exact Hfree|].
  split; [intros a Ha N _; apply (Hsame a Ha N)|].
  split.
  { intros a Ha. destruct (Hnew a Ha) as [H|H];
      [left; exact H|right; left; exact H]. }
  split; [exact Hnc|]. split; [exact Hlo|]. split; [exact Hhi|].
  split; [left; split; assumption|]. split; [exact Hfr|].
  split.
  - intros H Hclean. apply HB; [apply heap_ok_is_but; exact H|exact Hclean].
  - intros HF0. destruct (HF HF0) as (A & B). split; [exact A|intros _; exact B].
Qed.

(** The scan left the arena as it found it, up to the index. *)
Lemma grown_after_scan st st0 L bk bk0 sz num st5 L5 bk5 :
  bytes_ok st -> chunk_list st L -> index_step L st st0 ->
  (heap_ok st L bk -> st0 = st /\ bk0 = bk) ->
  (index_free st bk -> index_free st0 bk0) ->
  grown_by st0 L bk0 sz num st5 L5 bk5 -> grown_by st L bk sz num st5 L5 bk5.
Proof.
  intros Hb Hcl Hstep Hnoop HFs
    (Hb5 & Hcl5 & Hix5 & Ht0 & Htf & Hts & Htop5 & Hbrk5 & Hlo5 & Hhi5 &
     Hlog5 & Hbnd & Hlen & Hfree & Hsame & Hnew & Hfr & HB & HF).
  pose proof (chunk_list_apart st _ Hb Hcl) as Hap.
  destruct Hstep as (Hh1 & Ht1 & Hbrk1 & Hlo1 & Hhi1 & Hlog1 & Hmem1).
  assert (Hstep : index_step L st st0) by (repeat split; assumption).
  rewrite Hbrk1 in Htop5, Hbrk5, Hbnd, Hnew. rewrite Hlo1 in Hlo5, Hbnd.
  rewrite Hhi1 in Hhi5, Hbnd. rewrite Hlog1 in Hlog5.
  split; [exact Hb5|]. split; [exact Hcl5|]. split; [exact Hix5|].
  split; [exact Ht0|]. split; [exact Htf|]. split; [exact Hts|].
  split; [exact Htop5|]. split; [exact Hbrk5|]. split; [exact Hlo5|].
  split; [exact Hhi5|]. split; [exact Hlog5|]. split; [exact Hbnd|].
  split; [exact Hlen|].
  split.
  { intros a Ha. destruct (Hfree a Ha) as (A & B). split; [exact A|].
    rewrite B. apply (index_step_fields L st st0 a Hap Hstep Ha). }
  split.
  { intros a Ha Hnf.
    destruct (index_step_fields L st st0 a Hap Hstep Ha) as (F1 & F2 & _).
    rewrite <- F2. apply Hsame; [exact Ha|]. rewrite F1. exact Hnf. }
  split; [exact Hnew|].
  split.
  { intros x Hx. rewrite (Hfr x Hx).
    apply (index_step_outside L st st0 x Hstep).
    intros a Ha. apply Hx. apply (Hfree a Ha). }
  split; [|intros HF0; apply HF, HFs, HF0].
  intros H Hclean. destruct (Hnoop H) as (E1 & E2). subst st0 bk0.
  apply HB; assumption.
Qed.

(** The request is served from the grown arena. *)
Lemma grown_taken_granted st L bk sz st5 L5 bk5 r st' L' bk' :
  arena_ok st L bk -> 0 <= sz ->
  MULTIPLES_MAX <= wrap (sz / ALIGNMENT - 1) \/
  bk (wrap (sz / ALIGNMENT - 1)) = [] ->
  grown_by st L bk sz (num_allocated_bytes sz) st5 L5 bk5 ->
  taken st5 L5 bk5 sz r st' L' bk' ->
  (MULTIPLES_MAX <= wrap (sz / ALIGNMENT - 1) \/
   bk5 (wrap (sz / ALIGNMENT - 1)) = [] -> r = tail st5) ->
  granted st L bk sz r st' L' bk'.
Proof.
  intros (Hb & Hcl & Hix & Henv & Htop) Hsz Hempty
    (Hb5 & Hcl5 & Hix5 & Ht0 & Htf & Hts & Htop5 & Hbrk5 & Hlo5 & Hhi5 &
     Hlog5 & Hbnd & Hlen & Hfree5 & Hsame5 & Hnew5 & Hfr5 & HB5 & HF5)
    (Hb' & Hcl' & Hix' & HrL' & Hfit & Hhd & Hspan & Hfree & Hsame & Hnew &
     Hnc & Hh & Hbrk & Hlo & Hhi & Hlog & Hfr & HB & HF) Hr.
  pose proof (chunk_list_apart st' _ Hb' Hcl') as Hap'.
  split.
  { split; [exact Hb'|]. split; [exact Hcl'|]. split; [exact Hix'|].
    destruct Henv as (E1 & E2 & E3).
    split.
    - unfold env_ok. rewrite Hbrk, Hlo, Hhi, Hbrk5, Hlo5, Hhi5.
      split; [exact E1|]. split; [exact Hbnd|exact E3].
    - intros _. rewrite Hhd, Hspan, Hbrk, Hbrk5. exact Htop5. }
  split; [exact HrL'|]. split; [exact Hfit|].
  split.
  { intros a Ha. destruct (Hfree5 a Ha) as (A & B).
    destruct (Hfree a A) as (C & D). split; [exact C|]. rewrite D. exact B. }
  split.
  { intros a Ha N Hnf. rewrite (Hsame a (proj1 (Hfree5 a Ha)) N).
    apply Hsame5; assumption. }
  split.
  { intros a Ha. destruct (Hnew a Ha) as [H|H]; [|right; left; exact H].
    destruct (Hnew5 a H) as [H2|H2]; [left; exact H2|right; right; exact H2]. }
  split; [exact Hnc|].
  split; [rewrite Hlo; exact Hlo5|]. split; [rewrite Hhi; exact Hhi5|].
  split; [right; split; [rewrite Hlog; exact Hlog5|rewrite Hbrk; exact Hbrk5]|].
  split.
  { intros x Hx. rewrite (Hfr x Hx). apply Hfr5.
    intros a Ha. apply Hx. apply (Hfree a Ha). }
  split.
  2:{ intros HF0. destruct (HF (HF5 HF0)) as (A & B). split; [exact A|].
      intros HrL. destruct (Hfree5 r HrL) as (_ & <-). exact B. }
  intros H Hclean.
  assert (Hclean5 : forall a, In a L5 -> ~ In a L -> is_added st a = 0).
  { intros a Ha Hn. apply Hclean; [apply (Hfree a Ha)|exact Hn]. }
  destruct (HB5 H Hclean5) as (HB5' & Hemp).
  rewrite <- (Hr (Hemp Hempty)) in HB5'.
  apply HB; [exact HB5'|].
  intros a Ha Hn.
  assert (HnL : ~ In a L) by (intros Hin; apply Hn; apply (Hfree5 a Hin)).
  rewrite <- (Hclean a Ha HnL). unfold is_added, load8. apply Hfr5.
  intros b Hb2. destruct (Hap' a b Ha (proj1 (Hfree b Hb2))) as [->|D].
  - contradiction.
  - unfold HDR in *. lia.
Qed.

Lemma arena_after_scan st st0 L bk bk0 :
  arena_ok st L bk -> index_step L st st0 -> index_ok st0 L bk0 ->
  bytes_ok st0 -> arena_ok st0 L bk0.
Proof.
  intros (Hb & Hcl & Hix & Henv & Htop) Hstep Hix0 Hb0.
  pose proof (chunk_list_apart st _ Hb Hcl) as Hap.
  split; [exact Hb0|].
  split; [apply (chunk_list_step L st st0 Hap Hstep Hcl)|].
  split; [exact Hix0|].
  pose proof (span_step L st st0 L Hap Hstep (incl_refl _)) as Hsp.
  destruct Hstep as (Hh1 & Ht1 & Hbrk1 & Hlo1 & Hhi1 & Hlog1 & Hmem1).
  split.
  - unfold env_ok in *. rewrite Hbrk1, Hlo1, Hhi1. exact Henv.
  - intros Hne. rewrite Hsp, Hbrk1. apply Htop. exact Hne.
Qed.

(** [HMMget_free_chunk] on a well-formed arena, for a request that does not
    overflow the arithmetic of the grow step: it returns, after at most one
    call of the break primitive, either a chunk that fits or, when the
    break cannot move, null. *)
Lemma get_free_chunk_spec st L bk sz fuel :
  arena_ok st L bk -> 0 < sz -> sz mod 8 = 0 ->
  sz + HDR + ALLOCATED_BYTES < 2 ^ 63 ->
  (2 * length L + 6 < fuel)%nat ->
  (exists r st' L' bk',
     HMMget_free_chunk fuel sz st = Some (r, st') /\ r <> 0 /\
     granted st L bk sz r st' L' bk') \/
  (exists st' bk',
     HMMget_free_chunk fuel sz st = Some (0, st') /\
     refused st L bk sz st' bk').
Proof.
  intros Har Hsz Hm Hbig Hfuel.
  pose proof Har as (Hb & Hcl & Hix & Henv & Htop).
  destruct (num_bounds sz Hsz Hbig) as (Hn1 & Hn2 & Hn3).
  assert (Hn4 : num_allocated_bytes sz < 2 ^ 63) by lia.
  assert (Hszr : 0 <= sz < WORD) by (unfold WORD, HDR, ALLOCATED_BYTES in *; lia).
  destruct fuel as [|f]; [lia|].
  rewrite get_free_chunk_unfold.
  destruct (get_free_block_spec st L bk sz Hb Hcl Hix Hszr Hm)
    as [(Hmiss & Hempty)|(r & st0 & bk0 & Hget & Hr0 & Htk)].
  2:{ left. rewrite Hget. destruct (Z.eqb_spec r 0); [contradiction|].
      cbn [negb]. exists r, st0, L, bk0.
      split; [reflexivity|]. split; [exact Hr0|].
      apply taken_granted; [exact Har|lia|exact Htk]. }
  rewrite Hmiss. change (negb (0 =? 0)) with false. cbv iota.
  assert (Htl : tail st = last L 0) by apply Hcl.
  rewrite Htl.
  destruct (scan_loop_spec sz L ltac:(lia) L [] st bk f
              ltac:(symmetry; apply app_nil_r) Hb Hcl Hix ltac:(lia))
    as [(c & st' & L' & bk' & Hsc & Hc0 & _ & Htk)
       |(st0 & bk0 & Hsc & Hstep & Hix0 & Hb0 & Hnoop & HFs)].
  { left. rewrite Hsc. destruct (Z.eqb_spec c 0); [contradiction|].
    cbn [negb]. exists c, st', L', bk'.
    split; [reflexivity|]. split; [exact Hc0|].
    apply taken_granted; [exact Har|lia|exact Htk]. }
  rewrite Hsc. change (negb (0 =? 0)) with false. cbv iota.
  pose proof (arena_after_scan st st0 L bk bk0 Har Hstep Hix0 Hb0) as Har0.
  pose proof (chunk_list_apart st _ Hb Hcl) as Hap.
  destruct (sbrk (num_allocated_bytes sz) st0) as ([nfs|] & st2) eqn:Hsbrk.
  - left.
    destruct (grow_step st0 L bk0 sz (num_allocated_bytes sz) f nfs st2
                Har0 Hsz Hm Hn1 Hn4 Hn3 ltac:(lia) Hsbrk)
      as (st3 & L5 & bk5 & Hrm & Hgr0).
    rewrite Hrm.
    pose proof (grown_after_scan st st0 L bk bk0 sz _ _ L5 bk5 Hb Hcl Hstep
                  Hnoop HFs Hgr0) as Hgr.
    clear Hgr0.
    set (st5 := if negb (tail st3 =? 0) && (is_free st3 (tail st3) =? 1)
                then _ else _) in *.
    clearbody st5.
    pose proof Hgr as (Hb5 & Hcl5 & Hix5 & Ht0 & Htf & Hts & _ & _ & _ & _ &
                       _ & _ & Hlen & _).
    destruct f as [|f']; [lia|].
    destruct (get_free_chunk_tail_fits st5 L5 bk5 sz f' Hb5 Hcl5 Hix5 Hszr Hm
                Ht0 Htf Hts ltac:(lia))
      as (r & st' & L' & bk' & Hres & Hr0 & Htk & Hr).
    exists r, st', L', bk'.
    split; [exact Hres|]. split; [exact Hr0|].
    apply (grown_taken_granted st L bk sz st5 L5 bk5 r st' L' bk' Har
             ltac:(lia) Hempty Hgr Htk Hr).
  - right. exists st2, bk0. split; [reflexivity|].
    pose proof Har0 as (_ & Hcl0 & _ & Henv0 & Htop0).
    pose proof (sbrk_same_heap _ st0 _ st2 Hsbrk) as Hsame.
    destruct (sbrk_facts _ st0 _ st2 Hsbrk)
      as (Hm2 & _ & _ & _ & Hlo2 & Hhi2 & Hlog2 & _ & Hbrk2).
    specialize (Hbrk2 eq_refl).
    assert (Hreq : brk_hi st0 < brk st0 + num_allocated_bytes sz).
    { assert (Hnr : 0 <= num_allocated_bytes sz < 2 ^ 63)
        by (unfold HDR in *; lia).
      apply (sbrk_refused _ st0 st2 Hnr Hsbrk). apply Henv0. }
    pose proof (span_step L st st0 L Hap Hstep (incl_refl _)) as Hsp.
    assert (Hfr0 : forall a, In a L ->
              is_free st0 a = is_free st a /\ size st0 a = size st a).
    { intros a Ha.
      destruct (index_step_fields L st st0 a Hap Hstep Ha) as (F1 & F2 & _).
      split; assumption. }
    assert (Hout : forall x, (forall a, In a L -> x < a \/ a + HDR <= x) ->
              mem st0 x = mem st x)
      by (intros x Hx; apply (index_step_outside L st st0 x Hstep Hx)).
    destruct Hstep as (Hh1 & Ht1 & Hbrk1 & Hlo1 & Hhi1 & Hlog1 & Hmem1).
    split.
    { split; [apply (same_heap_bytes st0 st2 Hsame Hb0)|].
      split; [apply (same_heap_chunk_list st0 st2 L Hsame Hcl0)|].
      split; [apply (same_heap_index st0 st2 L bk0 Hsame Hix0)|].
      split.
      - unfold env_ok in *. rewrite Hbrk2, Hlo2, Hhi2. exact Henv0.
      - intros Hne. rewrite (same_heap_span st0 st2 L Hsame), Hbrk2.
        apply Htop0. exact Hne. }
    split; [rewrite <- Hhi1, <- Hbrk1; exact Hreq|].
    split; [rewrite Hlog2, Hlog1; reflexivity|].
    split; [rewrite Hbrk2; exact Hbrk1|].
    split; [rewrite Hlo2; exact Hlo1|]. split; [rewrite Hhi2; exact Hhi1|].
    split.
    { intros a Ha.
      destruct (same_heap_fields st0 st2 a Hsame) as (_ & -> & -> & _).
      apply Hfr0. exact Ha. }
    split; [intros x Hx; rewrite Hm2; apply Hout; exact Hx|].
    split.
    2:{ intros HF0 i a Hi Hin.
        destruct (same_heap_fields st0 st2 a Hsame) as (_ & -> & _).
        apply (HFs HF0 i a Hi Hin). }
    intros H. destruct (Hnoop H) as (E1 & E2). subst st0 bk0.
    apply (same_heap_ok st st2 L bk Hsame H).
Qed.

(** * [HMMmalloc] *)

Lemma align_up_bounds x :
  0 <= x -> x + 7 < WORD ->
  x <= align_up x < x + 8 /\ align_up x mod 8 = 0.
Proof.
  intros H0 H1. rewrite align_up_div, (wrap_small (x + 7)) by lia.
  pose proof (Z.div_mod (x + 7) 8 ltac:(lia)) as D.
  pose proof (Z.mod_pos_bound (x + 7) 8 ltac:(lia)) as B.
  split; [lia|]. rewrite Z.mul_comm. apply Z_mod_mult.
Qed.

Lemma request_size_bounds n :
  0 <= n -> n + 8 <= WORD ->
  0 < request_size n /\ n <= request_size n < n + 9 /\
  request_size n mod 8 = 0.
Proof.
  intros H0 H1. unfold request_size, ALIGNMENT.
  destruct (Z.eqb_spec n 0) as [->|N].
  - vm_compute. repeat split; try reflexivity; discriminate.
  - destruct (align_up_bounds n H0 ltac:(lia)) as (A & B). lia.
Qed.

Lemma HMMmalloc_unfold fuel n st :
  HMMmalloc fuel n st =
  match HMMget_free_chunk fuel (request_size n) st with
  | None => None
  | Some (c, st1) =>
    if c =? 0 then Some (0, st1) else Some (wrap (c + HDR), set_is_free st1 c 0)
  end.
Proof. reflexivity. Qed.

(** Marking the granted chunk allocated (line 400). *)
Lemma granted_handed_out st L bk sz c st' L' bk' :
  granted st L bk sz c st' L' bk' ->
  handed_out st L bk sz c (set_is_free st' c 0) L' bk'.
Proof.
  intros ((Hb' & Hcl' & Hix' & Henv' & Htop') & HcL' & Hfit & Hfree & Hsame &
          Hnew & Hnc & Hlo & Hhi & Hlog & Hfr & HB & HF).
  destruct (set_is_free_spec st' L' bk' c 0 Hb' Hcl' Hix' HcL')
    as (Hb1 & Hcl1 & Hix1 & Hf1 & Hoth1 & Hfld1 & Hcfs1).
  set (st1 := set_is_free st' c 0) in *.
  assert (Hsp : span st1 L' = span st' L')
    by (apply span_frame; intros a Ha; apply (Hfld1 a Ha)).
  assert (Hbrk : brk st1 = brk st' /\ brk_lo st1 = brk_lo st' /\
                 brk_hi st1 = brk_hi st' /\ sbrk_log st1 = sbrk_log st' /\
                 forall x, x <> c + 1 -> mem st1 x = mem st' x).
  { subst st1. unfold set_is_free. autorewrite with state_proj.
    repeat split; try reflexivity. intros x Hx. apply store8_other. exact Hx. }
  destruct Hbrk as (Hbrk1 & Hlo1 & Hhi1 & Hlog1 & Hmem1).
  clearbody st1.
  split.
  { split; [exact Hb1|]. split; [exact Hcl1|]. split; [exact Hix1|]. split.
    - unfold env_ok in *. rewrite Hbrk1, Hlo1, Hhi1. exact Henv'.
    - intros Hne. rewrite Hsp, Hbrk1. apply Htop'. exact Hne. }
  split; [exact HcL'|]. split; [rewrite Hf1; reflexivity|].
  split; [destruct (Hfld1 c HcL') as (_ & -> & _); exact Hfit|].
  split.
  { intros a Ha. destruct (Hfree a Ha) as (A & B). split; [exact A|].
    intros N. rewrite (Hoth1 a A N). exact B. }
  split.
  { intros a Ha N Hnf. destruct (Hfld1 a (proj1 (Hfree a Ha))) as (_ & -> & _).
    apply Hsame; assumption. }
  split; [exact Hnew|].
  split; [rewrite Hlo1; exact Hlo|]. split; [rewrite Hhi1; exact Hhi|].
  split; [rewrite Hlog1, Hbrk1; exact Hlog|].
  split.
  { intros x Hx. rewrite Hmem1; [apply Hfr; exact Hx|].
    destruct (Hx c HcL'); unfold HDR in *; lia. }
  split.
  2:{ intros HF0. destruct (HF HF0) as (A & B). split; [|exact B].
      intros i a Hi Hin. destruct (Hix' i Hi) as (_ & _ & Hmb).
      destruct (Hmb a Hin) as (HaL' & _).
      assert (N : a <> c) by (intros ->; exact (Hnc i Hi Hin)).
      rewrite (Hoth1 a HaL' N). apply (A i a Hi Hin). }
  intros H Hclean. destruct (HB H Hclean) as (_ & _ & _ & Hfl & Hfb).
  assert (Hbk : forall a, In a L' -> bucket_of st1 a = bucket_of st' a).
  { intros a Ha. unfold bucket_of.
    destruct (Hfld1 a Ha) as (_ & -> & _). reflexivity. }
  split; [exact Hb1|]. split; [exact Hcl1|]. split; [exact Hix1|]. split.
  - intros a Ha Hadd. destruct (Hfld1 a Ha) as (E & _). rewrite E in Hadd.
    rewrite (Hbk a Ha). apply Hfl; assumption.
  - intros a Ha Hfa Hr. rewrite (Hbk a Ha) in *.
    destruct (Z.eq_dec a c) as [->|N].
    + rewrite Hf1 in Hfa. discriminate.
    + rewrite (Hoth1 a Ha N) in Hfa. apply Hfb; assumption.
Qed.

(** [HMMmalloc] on a well-formed arena, for a request below
    [2^63 - 8 MiB - 48]. *)
Lemma malloc_spec st L bk n fuel :
  arena_ok st L bk -> 0 <= n -> n + HDR + ALLOCATED_BYTES + 8 < 2 ^ 63 ->
  (2 * length L + 6 < fuel)%nat ->
  (exists c st' L' bk',
     HMMmalloc fuel n st = Some (c + HDR, st') /\ c <> 0 /\
     handed_out st L bk (request_size n) c st' L' bk') \/
  (exists st' bk',
     HMMmalloc fuel n st = Some (0, st') /\
     refused st L bk (request_size n) st' bk').
Proof.
  intros Har Hn Hbig Hfuel.
  assert (Hn8 : n + 8 <= WORD)
    by (clear - Hn Hbig; unfold WORD, HDR, ALLOCATED_BYTES in *; lia).
  destruct (request_size_bounds n Hn Hn8) as (Hs0 & Hs1 & Hs2).
  assert (Hreq : request_size n + HDR + ALLOCATED_BYTES < 2 ^ 63)
    by (clear - Hs1 Hbig; unfold HDR, ALLOCATED_BYTES in *; lia).
  rewrite HMMmalloc_unfold.
  destruct (get_free_chunk_spec st L bk (request_size n) fuel Har Hs0 Hs2
              Hreq Hfuel)
    as [(r & st' & L' & bk' & Hres & Hr0 & Hgr)|(st' & bk' & Hres & Hrf)].
  - left. rewrite Hres. destruct (Z.eqb_spec r 0); [contradiction|].
    exists r, (set_is_free st' r 0), L', bk'.
    pose proof Hgr as ((Hb' & Hcl' & _) & HrL' & Hfit & _).
    destruct (chunk_list_placed st' L' Hb' Hcl' r HrL') as (P0 & P1).
    pose proof (chunk_end_bound st' L' r Hb' (proj1 Hcl') HrL') as P2.
    assert (P3 : hd 0 L' + span st' L' <= WORD).
    { apply Hcl'. intros E. rewrite E in HrL'. destruct HrL'. }
    rewrite (wrap_small (r + HDR)) by (unfold HDR, WORD in *; lia).
    split; [reflexivity|]. split; [exact Hr0|].
    apply granted_handed_out. exact Hgr.
  - right. rewrite Hres. exists st', bk'. split; [reflexivity|exact Hrf].
Qed.

(** Alignment is kept: the payload handed out starts on an 8-byte
    boundary. *)
Lemma handed_out_aligned st L bk n c st' L' bk' :
  0 <= n -> n + 8 <= WORD -> aligned st L ->
  handed_out st L bk (request_size n) c st' L' bk' ->
  (c + HDR) mod 8 = 0 /\ aligned st' L'.
Proof.
  intros Hn Hn8 (Hbrk & HL)
    (_ & HcL' & _ & _ & _ & _ & Hnew & _ & _ & Hlog & _).
  destruct (request_size_bounds n Hn Hn8) as (Hs0 & _ & Hs2).
  assert (Hc : c mod 8 = 0).
  { destruct (Hnew c HcL') as [H|[H|H]].
    - apply HL. exact H.
    - unfold HDR in *. lia.
    - rewrite H. exact Hbrk. }
  assert (Hadd : forall x y, x mod 8 = 0 -> y mod 8 = 0 -> (x + y) mod 8 = 0).
  { intros x y Hx Hy. rewrite Z.add_mod, Hx, Hy by lia. reflexivity. }
  split; [apply Hadd; [exact Hc|reflexivity]|]. split.
  - destruct Hlog as [(_ & ->)|(_ & ->)]; [exact Hbrk|].
    apply Hadd; [exact Hbrk|].
    unfold num_allocated_bytes.
    pose proof (wrap_range (request_size n + HDR + ALLOCATED_BYTES)) as Hr.
    set (a := wrap (request_size n + HDR + ALLOCATED_BYTES)) in *.
    unfold ALLOCATED_BYTES in *. change (8 * 1024 * 1024) with 8388608 in *.
    pose proof (Z.div_mod a 8388608 ltac:(lia)) as D.
    pose proof (Z.mod_pos_bound a 8388608 ltac:(lia)) as B.
    assert (0 <= a / 8388608) by (apply Z.div_pos; unfold WORD in *; lia).
    rewrite wrap_small by (unfold WORD in *; lia).
    replace (a / 8388608 * 8388608) with (a / 8388608 * 1048576 * 8) by lia.
    apply Z_mod_mult.
  - intros a Ha. destruct (Hnew a Ha) as [H|[H|H]].
    + apply HL. exact H.
    + rewrite H. apply Hadd; [apply Hadd; [exact Hc|reflexivity]|exact Hs2].
    + rewrite H. exact Hbrk.
Qed.

(** The payload of every other allocated chunk survives the call. *)
Lemma handed_out_keeps_payloads st L bk sz c st' L' bk' a i :
  handed_out st L bk sz c st' L' bk' ->
  In a L -> a <> c -> is_free st a = 0 -> 0 <= i < size st a ->
  is_free st' a = 0 /\ size st' a = size st a /\
  load8 (mem st') (a + HDR + i) = load8 (mem st) (a + HDR + i).
Proof.
  intros ((Hb' & Hcl' & _) & _ & _ & _ & Hfree & Hsame & _ & _ & _ & _ & Hfr & _)
    Ha Hac Hfa Hi.
  destruct (Hfree a Ha) as (HaL' & Hf). specialize (Hf Hac).
  assert (Hsz : size st' a = size st a)
    by (apply Hsame; [exact Ha|exact Hac|rewrite Hfa; discriminate]).
  rewrite Hfa in Hf.
  split; [exact Hf|]. split; [exact Hsz|].
  destruct (chunk_list_guarded st' L' a Hb' Hcl' HaL' Hf) as (_ & _ & Hg).
  unfold load8. apply Hfr. intros b Hb2.
  destruct (Hg b Hb2); unfold HDR in *; lia.
Qed.

(** * [HMMtraverse] *)

Lemma traverse_loop_spec st :
  forall L cnt fuel,
    tiling st L -> (forall a, In a L -> a <> 0) ->
    (L <> [] -> next st (last L 0) = 0) -> (length L < fuel)%nat ->
    traverse_loop fuel (hd 0 L) cnt st = Some (report st cnt L).
Proof.
  induction L as [|a L IH]; intros cnt fuel Ht Hnz Hlast Hfuel.
  - destruct fuel as [|f]; [cbn in Hfuel; lia|]. reflexivity.
  - destruct fuel as [|f]; [cbn in Hfuel; lia|].
    cbn [hd traverse_loop report].
    destruct (Z.eqb_spec a 0) as [E|_];
      [exfalso; apply (Hnz a); [left; reflexivity|exact E]|].
    assert (Hnx : next st a = hd 0 L).
    { destruct L as [|b L']; [apply (Hlast ltac:(discriminate))|].
      apply Ht. }
    rewrite Hnx, (IH (wrap (cnt + 1)) f); [reflexivity| | | |].
    + destruct L as [|b L']; [exact I|apply Ht].
    + intros x Hx. apply Hnz. right. exact Hx.
    + intros Hne. destruct L as [|b L']; [contradiction|].
      apply (Hlast ltac:(discriminate)).
    + cbn [length] in Hfuel. lia.
Qed.

Lemma report_addresses st : forall L cnt,
  map (fun r => snd (fst (fst r))) (report st cnt L) = L.
Proof.
  induction L as [|a L IH]; intros cnt; [reflexivity|].
  cbn [report map fst snd]. rewrite IH. reflexivity.
Qed.

(** * The driver *)

Lemma rem_range r :
  0 <= r -> 1 <= Z.rem r MAX_ALLOCS + 1 <= MAX_ALLOCS.
Proof.
  intros Hr. unfold MAX_ALLOCS.
  pose proof (Z.rem_bound_pos r 10000 Hr ltac:(lia)). lia.
Qed.

Lemma draw_ranges r1 r2 r3 r4 r5 :
  0 <= r1 -> 0 <= r2 -> 0 <= r3 -> 0 <= r4 -> 0 <= r5 ->
  let p := draw r1 r2 r3 r4 r5 in
  1 <= numAllocs p <= MAX_ALLOCS /\ 1 <= blockSize p <= MAX_ALLOCS /\
  1 <= freeStep p <= MAX_ALLOCS /\ 1 <= freeMin p <= MAX_ALLOCS /\
  1 <= freeMax p <= numAllocs p.
Proof.
  intros H1 H2 H3 H4 H5. cbn.
  pose proof (rem_range r1 H1). pose proof (rem_range r2 H2).
  pose proof (rem_range r3 H3). pose proof (rem_range r4 H4).
  pose proof (rem_range r5 H5).
  unfold min. destruct (Z.ltb_spec (Z.rem r1 MAX_ALLOCS + 1)
                          (Z.rem r5 MAX_ALLOCS + 1)); lia.
Qed.

Lemma free_indices_spec fmax fstep :
  0 < fstep ->
  forall steps j,
    0 <= j -> (Z.to_nat (fmax - j) < steps)%nat ->
    exists l, free_indices steps j fmax fstep = Some l /\
              forall i, In i l -> j <= i < fmax.
Proof.
  intros Hs. induction steps as [|s IH]; intros j Hj Hfuel; [lia|].
  cbn [free_indices]. destruct (Z.ltb_spec j fmax) as [Hlt|Hge].
  - destruct (IH (j + fstep) ltac:(lia) ltac:(lia)) as (l & -> & Hl).
    exists (j :: l). split; [reflexivity|].
    intros i [<-|Hi]; [lia|]. specialize (Hl i Hi). lia.
  - exists []. split; [reflexivity|]. intros i [].
Qed.

Lemma alloc_loop_length fuel bsize :
  forall count st ptr st',
    alloc_loop fuel count bsize st = Some (ptr, st') -> length ptr = count.
Proof.
  induction count as [|k IH]; intros st ptr st' H; cbn [alloc_loop] in H.
  - injection H as <- _. reflexivity.
  - destruct (malloc fuel bsize st) as [(p & st1)|]; [|discriminate].
    destruct (alloc_loop fuel k bsize st1) as [(ps & st2)|] eqn:E;
      [|discriminate].
    injection H as <- _. cbn [length]. rewrite (IH st1 ps st2 E). reflexivity.
Qed.

(** * [HMMcalloc] *)

Lemma header_fields_frame st st' a :
  (forall x, a <= x < a + HDR -> mem st' x = mem st x) ->
  is_added st' a = is_added st a /\ is_free st' a = is_free st a /\
  size st' a = size st a /\ prev st' a = prev st a /\
  next st' a = next st a /\ next_free st' a = next_free st a /\
  bucket_of st' a = bucket_of st a.
Proof.
  intros H.
  assert (Hsz : size st' a = size st a).
  { unfold size, load64. rewrite !H by (unfold HDR; lia). reflexivity. }
  unfold bucket_of. rewrite Hsz.
  unfold is_added, is_free, prev, next, next_free, load8, load64.
  rewrite !H by (unfold HDR; lia). repeat split; reflexivity.
Qed.

Lemma payload_write_arena st st' L bk :
  arena_ok st L bk -> bytes_ok st' ->
  (forall a x, In a L -> a <= x < a + HDR -> mem st' x = mem st x) ->
  block_freq st' = block_freq st -> head st' = head st -> tail st' = tail st ->
  brk st' = brk st -> brk_lo st' = brk_lo st -> brk_hi st' = brk_hi st ->
  arena_ok st' L bk /\ (heap_ok st L bk -> heap_ok st' L bk) /\
  (index_free st bk -> index_free st' bk).
Proof.
  intros (Hb & Hcl & Hix & Henv & Htop) Hb' Hfr Hbf Hhd Htl Hbrk Hlo Hhi.
  assert (F : forall a, In a L ->
    is_added st' a = is_added st a /\ is_free st' a = is_free st a /\
    size st' a = size st a /\ prev st' a = prev st a /\
    next st' a = next st a /\ next_free st' a = next_free st a /\
    bucket_of st' a = bucket_of st a).
  { intros a Ha. apply header_fields_frame. intros x Hx. apply (Hfr a x Ha Hx). }
  assert (Hsp : span st' L = span st L).
  { apply span_frame. intros a Ha. apply (F a Ha). }
  assert (Hcl' : chunk_list st' L).
  { destruct Hcl as (Hti & Hh & Ht & Hends).
    split; [|split; [congruence|split; [congruence|]]].
    - apply (tiling_frame st); [| |exact Hti].
      + intros a Ha. split; apply (F a Ha).
      + intros a Ha. apply (F a). destruct L; [contradiction|right; exact Ha].
    - intros Hne. destruct (Hends Hne) as (A & B & C & D).
      assert (In (hd 0 L) L) by (apply hd_in; exact Hne).
      assert (In (last L 0) L) by (apply last_in; exact Hne).
      destruct (F _ H) as (_ & _ & _ & -> & _).
      destruct (F _ H0) as (_ & _ & _ & _ & -> & _).
      rewrite Hsp. repeat split; assumption. }
  assert (Hix' : index_ok st' L bk).
  { apply (index_ok_frame st st' L L bk Hix (incl_refl _)).
    - intros i _. rewrite Hbf. reflexivity.
    - intros i a Hi Ha. destruct (Hix i Hi) as (_ & _ & Hm).
      destruct (Hm a Ha) as (HaL & _).
      destruct (F a HaL) as (A & _ & B & _ & _ & C & _). auto. }
  split.
  - split; [exact Hb'|]. split; [exact Hcl'|]. split; [exact Hix'|]. split.
    + unfold env_ok. rewrite Hbrk, Hlo, Hhi. exact Henv.
    + intros Hne. rewrite Hsp, Hbrk. apply Htop. exact Hne.
  - split.
    + intros (_ & _ & _ & Hfl & Hfi).
      split; [exact Hb'|]. split; [exact Hcl'|]. split; [exact Hix'|]. split.
      * intros a Ha Hadd. destruct (F a Ha) as (A & _ & _ & _ & _ & _ & B).
        rewrite B. apply Hfl; [exact Ha|]. rewrite <- A. exact Hadd.
      * intros a Ha Hf Hlt. destruct (F a Ha) as (_ & A & _ & _ & _ & _ & B).
        rewrite B in *. apply Hfi; [exact Ha| |exact Hlt]. rewrite <- A.
        exact Hf.
    + intros HF0 i a Hi Hin. destruct (Hix i Hi) as (_ & _ & Hm).
      destruct (Hm a Hin) as (HaL & _).
      destruct (F a HaL) as (_ & -> & _). apply (HF0 i a Hi Hin).
Qed.

Lemma zero_payload_spec st L bk c :
  arena_ok st L bk -> In c L -> is_free st c = 0 ->
  let st' := zero_payload st (c + HDR) in
  arena_ok st' L bk /\ (heap_ok st L bk -> heap_ok st' L bk) /\
  size st' c = size st c /\ is_free st' c = 0 /\
  (forall i, 0 <= i < size st c -> load8 (mem st') (c + HDR + i) = 0) /\
  (forall x, ~ (c + HDR <= x < c + HDR + size st c) -> mem st' x = mem st x) /\
  sbrk_log st' = sbrk_log st /\
  (index_free st bk -> index_free st' bk).
Proof.
  intros Ha HcL Hf st'. pose proof Ha as (Hb & Hcl & _).
  destruct (chunk_list_placed st L Hb Hcl c HcL) as (Hc0 & Hc1).
  assert (Hw : wrap (c + HDR - HDR) = c)
    by (replace (c + HDR - HDR) with c by lia; apply wrap_small;
        unfold HDR in *; lia).
  assert (Hmem : mem st' = memset0 (mem st) (c + HDR) (size st c)).
  { unfold st', zero_payload. rewrite Hw. apply mem_with_mem. }
  destruct (chunk_list_guarded st L c Hb Hcl HcL Hf) as (_ & _ & Hg).
  assert (Hout : forall x, ~ (c + HDR <= x < c + HDR + size st c) ->
                           mem st' x = mem st x).
  { intros x Hx. rewrite Hmem. unfold memset0.
    destruct (Z.leb_spec (c + HDR) x); destruct (Z.ltb_spec x (c + HDR + size st c));
      cbn [andb]; try reflexivity. exfalso. apply Hx. lia. }
  assert (Hhdr : forall a x, In a L -> a <= x < a + HDR -> mem st' x = mem st x).
  { intros a x HaL Hx. apply Hout. destruct (Hg a HaL); lia. }
  assert (Hb' : bytes_ok st').
  { intros x. rewrite Hmem. unfold memset0.
    destruct ((c + HDR <=? x) && (x <? c + HDR + size st c)); [lia|apply Hb]. }
  destruct (payload_write_arena st st' L bk Ha Hb' Hhdr) as (A & B & C);
    try (unfold st', zero_payload; reflexivity).
  destruct (header_fields_frame st st' c (fun x Hx => Hhdr c x HcL Hx))
    as (_ & F1 & F2 & _).
  split; [exact A|]. split; [exact B|]. split; [exact F2|].
  split; [rewrite F1; exact Hf|].
  split; [|split; [exact Hout|split; [reflexivity|exact C]]].
  intros i Hi. unfold load8. rewrite Hmem. unfold memset0.
  destruct (Z.leb_spec (c + HDR) (c + HDR + i)); [|lia].
  destruct (Z.ltb_spec (c + HDR + i) (c + HDR + size st c)); [reflexivity|lia].
Qed.

Lemma calloc_size_bounds nmemb sz :
  0 <= nmemb -> 0 <= sz -> nmemb * sz + 8 < WORD ->
  0 < calloc_size nmemb sz /\ nmemb * sz <= calloc_size nmemb sz < nmemb * sz + 9 /\
  calloc_size nmemb sz mod 8 = 0 /\
  request_size (calloc_size nmemb sz) = calloc_size nmemb sz.
Proof.
  intros Hn Hs Hb. unfold calloc_size.
  assert (0 <= nmemb * sz) by (apply Z.mul_nonneg_nonneg; assumption).
  rewrite (Z.mul_comm sz nmemb), (wrap_small (nmemb * sz)) by lia.
  destruct (align_up_bounds (nmemb * sz) H ltac:(lia)) as (A & B).
  cbv zeta.
  destruct (Z.eqb_spec (align_up (nmemb * sz)) 0) as [E|N].
  - unfold ALIGNMENT. split; [lia|]. split; [lia|]. split; reflexivity.
  - split; [lia|]. split; [lia|]. split; [exact B|].
    unfold request_size.
    destruct (Z.eqb_spec (align_up (nmemb * sz)) 0); [contradiction|].
    apply align_up_idem.
Qed.

Lemma calloc_spec st L bk nmemb sz fuel :
  arena_ok st L bk -> 0 <= nmemb -> 0 <= sz ->
  nmemb * sz + HDR + ALLOCATED_BYTES + 17 < 2 ^ 63 ->
  (2 * length L + 6 < fuel)%nat ->
  (exists c st1 st' L' bk',
     HMMmalloc fuel (calloc_size nmemb sz) st = Some (c + HDR, st1) /\
     HMMcalloc fuel nmemb sz st = Some (c + HDR, st') /\ c <> 0 /\
     handed_out st L bk (calloc_size nmemb sz) c st1 L' bk' /\
     arena_ok st' L' bk' /\ (heap_ok st1 L' bk' -> heap_ok st' L' bk') /\
     (index_free st1 bk' -> index_free st' bk') /\
     is_free st' c = 0 /\ nmemb * sz <= size st' c /\
     (forall i, 0 <= i < size st' c -> load8 (mem st') (c + HDR + i) = 0) /\
     (forall x, ~ (c + HDR <= x < c + HDR + size st' c) ->
                mem st' x = mem st1 x)) \/
  (exists st' bk',
     HMMcalloc fuel nmemb sz st = Some (0, st') /\
     refused st L bk (calloc_size nmemb sz) st' bk').
Proof.
  intros Ha Hn Hs Hb Hfuel.
  assert (Hprod : 0 <= nmemb * sz) by (apply Z.mul_nonneg_nonneg; assumption).
  assert (HW : nmemb * sz + 8 < WORD) by (unfold WORD, HDR, ALLOCATED_BYTES in *; lia).
  destruct (calloc_size_bounds nmemb sz Hn Hs HW) as (C0 & C1 & C2 & C3).
  assert (Hguard : negb (sz =? 0) && (ULONG_MAX / sz <? nmemb) = false).
  { destruct (Z.eqb_spec sz 0) as [|Hnz]; [reflexivity|]. cbn [negb andb].
    apply Z.ltb_ge. apply Z.div_le_lower_bound; [lia|].
    unfold ULONG_MAX, WORD in *. lia. }
  assert (Hun : HMMcalloc fuel nmemb sz st =
    match HMMmalloc fuel (calloc_size nmemb sz) st with
    | None => None
    | Some (p, st1) =>
      if p =? 0 then Some (0, st1) else Some (p, zero_payload st1 p)
    end).
  { unfold HMMcalloc. rewrite Hguard. reflexivity. }
  destruct (malloc_spec st L bk (calloc_size nmemb sz) fuel Ha ltac:(lia)
              ltac:(unfold HDR, ALLOCATED_BYTES in *; lia) Hfuel)
    as [(c & st1 & L' & bk' & Hm & Hc & Hho)|(st1 & bk' & Hm & Hr)];
    rewrite C3 in *.
  - left. pose proof Hho as (Ha1 & HcL' & Hf1 & Hfit & _).
    pose proof Ha1 as (Hb1 & Hcl1 & _).
    destruct (chunk_list_placed st1 L' Hb1 Hcl1 c HcL') as (Hc0 & Hc1).
    destruct (zero_payload_spec st1 L' bk' c Ha1 HcL' Hf1)
      as (Z1 & Z2 & Z3 & Z4 & Z5 & Z6 & _ & Z8).
    exists c, st1, (zero_payload st1 (c + HDR)), L', bk'.
    split; [exact Hm|]. split.
    { rewrite Hun, Hm. destruct (Z.eqb_spec (c + HDR) 0) as [E|_];
        [unfold HDR in *; lia|reflexivity]. }
    split; [exact Hc|]. split; [exact Hho|]. split; [exact Z1|].
    split; [exact Z2|]. split; [exact Z8|]. split; [exact Z4|]. rewrite Z3.
    split; [lia|]. split; [exact Z5|exact Z6].
  - right. exists st1, bk'. split; [|exact Hr]. rewrite Hun, Hm. reflexivity.
Qed.

(** * [HMMfree]: the merging part on an arena *)

Lemma coalesce_finish_mem st1 start stop ts x :
  x < start \/ start + HDR <= x ->
  stop = 0 \/ x < stop \/ stop + HDR <= x ->
  mem (coalesce_finish st1 start stop ts) x = mem st1 x.
Proof.
  intros Hs Hp. unfold coalesce_finish.
  destruct (Z.eqb_spec stop 0) as [E|E]; cbn [negb];
    unfold set_size, set_next, set_prev; cbv zeta;
    autorewrite with state_proj;
    rewrite !store64_other by (unfold HDR in *; lia); reflexivity.
Qed.

Lemma HMMcoalesce_frame st L bk pre start rest post fuel st' :
  bytes_ok st -> chunk_list st L -> index_ok st L bk ->
  L = pre ++ (start :: rest) ++ post -> rest <> [] ->
  (forall c, In c (start :: rest) -> is_free st c = 1) ->
  post = [] \/ is_free st (hd 0 post) <> 1 ->
  (2 * length L < fuel)%nat ->
  HMMcoalesce fuel start st = Some st' ->
  forall x, (forall a, In a L -> x < a \/ a + HDR <= x) -> mem st' x = mem st x.
Proof.
  intros Hb Hcl Hix HL Hrest Hfree Hstop Hfuel Hco x Hx.
  pose proof (chunk_list_apart st L Hb Hcl) as Hap.
  pose proof (chunk_list_placed st L Hb Hcl) as Hpl.
  set (stop := hd 0 post).
  assert (HsL : In start L).
  { rewrite HL. apply in_or_app. right. left. reflexivity. }
  assert (HrL : incl rest L).
  { intros a Ha. rewrite HL. apply in_or_app. right. right.
    apply in_or_app. left. exact Ha. }
  assert (Hs0 : start <> 0) by (destruct (Hpl start HsL); lia).
  assert (Hseg : nseg st (start :: rest) stop).
  { apply (chunk_list_nseg st pre). rewrite <- HL. exact Hcl. }
  destruct Hseg as (Hnx & Hseg).
  assert (Hstop' : stop = 0 \/ In stop L /\ is_free st stop <> 1).
  { subst stop. destruct post as [|p post']; [left; reflexivity|right].
    destruct Hstop as [?|Hs]; [discriminate|]. split; [|exact Hs].
    rewrite HL. apply in_or_app. right. apply in_or_app. right. left. reflexivity. }
  assert (Hlen : (length rest < length L)%nat).
  { rewrite HL, !length_app. cbn [length]. lia. }
  rewrite HMMcoalesce_unfold in Hco by exact Hs0.
  destruct fuel as [|f]; [lia|]. cbn [coalesce_loop] in Hco.
  destruct (Z.eqb_spec start 0) as [?|_]; [contradiction|].
  rewrite (Hfree start (or_introl eq_refl)) in Hco. cbn [Z.eqb Pos.eqb] in Hco.
  destruct (HMMremove_spec st L bk start f Hb Hap Hpl Hix HsL ltac:(lia))
    as (st1 & Hrm & Hix1 & Hs1 & Hb1 & _).
  rewrite Hrm in Hco.
  destruct (index_step_fields L st st1 start Hap Hs1 HsL) as (_ & _ & _ & Hnx1).
  rewrite Hnx1, Hnx in Hco.
  destruct (coalesce_loop_spec L start stop Hap Hpl Hs0 rest st1
              (bk_remove bk (bucket_of st start) start) 0 f)
    as (st2 & bk2 & Hloop & Hs2 & _); try assumption.
  { apply (nseg_step L st st1); assumption. }
  { intros c Hc. destruct (index_step_fields L st st1 c Hap Hs1 (HrL c Hc)) as (-> & _).
    apply Hfree. right. exact Hc. }
  { destruct Hstop' as [?|(A & B)]; [left; assumption|right]. split; [exact A|].
    destruct (index_step_fields L st st1 stop Hap Hs1 A) as (-> & _). exact B. }
  { unfold WORD. lia. }
  { lia. }
  rewrite Hloop in Hco.
  pose proof (index_step_trans L st st1 st2 Hs1 Hs2) as Hs12.
  assert (H2 : mem st2 x = mem st x)
    by (apply (index_step_outside L st st2 x Hs12 Hx)).
  destruct (0 <? wrap (0 + span st1 rest)); injection Hco as <-; [|exact H2].
  rewrite coalesce_finish_mem; [exact H2|apply (Hx start HsL)|].
  destruct Hstop' as [E|(A & _)]; [left; exact E|right; apply (Hx stop A)].
Qed.

Lemma arena_span_merge st s pre start rest post :
  (forall a, In a (pre ++ post) -> size s a = size st a) ->
  size s start = sum_sizes st (start :: rest) + HDR * Z.of_nat (length rest) ->
  hd 0 (pre ++ start :: post) = hd 0 (pre ++ (start :: rest) ++ post) /\
  span s (pre ++ start :: post) = span st (pre ++ (start :: rest) ++ post).
Proof.
  intros Hsz Hst. split; [destruct pre; reflexivity|].
  rewrite !span_app. cbn [span].
  rewrite (span_frame st s pre)
    by (intros a Ha; apply Hsz; apply in_or_app; left; exact Ha).
  rewrite (span_frame st s post)
    by (intros a Ha; apply Hsz; apply in_or_app; right; exact Ha).
  rewrite Hst. rewrite (span_sum st rest). cbn [sum_sizes]. lia.
Qed.

(** Coalescing a run and re-inserting its first chunk, on an arena. *)
Lemma merge_then_add_arena st1 L bk pre start rest post fuel :
  arena_ok st1 L bk ->
  L = pre ++ (start :: rest) ++ post -> rest <> [] ->
  (forall c, In c (start :: rest) -> is_free st1 c = 1) ->
  post = [] \/ is_free st1 (hd 0 post) <> 1 ->
  (2 * length L < fuel)%nat ->
  exists s bk',
    HMMcoalesce fuel start st1 = Some s /\
    (forall a, In a rest -> prev s a = prev st1 a) /\
    arena_ok (HMMadd_free_block start s) (pre ++ start :: post) bk' /\
    is_free (HMMadd_free_block start s) start = 1 /\
    (forall a, In a (pre ++ post) ->
       In a L /\ ~ In a (start :: rest) /\
       is_free (HMMadd_free_block start s) a = is_free st1 a /\
       size (HMMadd_free_block start s) a = size st1 a) /\
    (forall x, (forall a, In a L -> x < a \/ a + HDR <= x) ->
               mem (HMMadd_free_block start s) x = mem st1 x) /\
    brk (HMMadd_free_block start s) = brk st1 /\
    brk_lo (HMMadd_free_block start s) = brk_lo st1 /\
    brk_hi (HMMadd_free_block start s) = brk_hi st1 /\
    sbrk_log (HMMadd_free_block start s) = sbrk_log st1 /\
    (index_free st1 bk -> index_free (HMMadd_free_block start s) bk').
Proof.
  intros (Hb & Hcl & Hix & Henv & Htop) HL Hrest Hfree Hstop Hfuel.
  pose proof (proj1 Hcl) as Ht.
  pose proof (tiling_NoDup st1 L Hb Ht) as Hnd. rewrite HL in Hnd.
  destruct (HMMcoalesce_spec st1 L bk pre start rest post fuel
              Hb Hcl Hix HL Hrest Hfree Hstop Hfuel)
    as (s & bk1 & Hco & Hbs & Hcls & Hixs & Hsz & Hnx & Hpv & Htl & Hmem
        & Hfr & Hprev & Hrestf & Hia & Hhd & Hbrk & Hlo & Hhi & Hlog).
  pose proof (HMMcoalesce_frame st1 L bk pre start rest post fuel s
                Hb Hcl Hix HL Hrest Hfree Hstop Hfuel Hco) as Hframe.
  exists s.
  assert (HrL : forall a, In a rest -> In a L /\ a <> hd 0 post).
  { intros a Ha. split.
    - rewrite HL. apply in_or_app. right. apply in_or_app. left. right. exact Ha.
    - destruct post as [|p post']; cbn [hd].
      + assert (In a L) as HaL
          by (rewrite HL; apply in_or_app; right; apply in_or_app; left; right; exact Ha).
        destruct (chunk_list_placed st1 L Hb Hcl a HaL). lia.
      + intros ->. apply (NoDup_outer_not_mid pre (start :: rest) (p :: post') p Hnd).
        * apply in_or_app. right. left. reflexivity.
        * right. exact Ha. }
  assert (Hout : forall a, In a (pre ++ post) ->
            In a L /\ ~ In a (start :: rest)).
  { intros a Ha. split.
    - rewrite HL. apply in_app_or in Ha. apply in_or_app.
      destruct Ha as [Ha|Ha]; [left; exact Ha|right; apply in_or_app; right; exact Ha].
    - apply (NoDup_outer_not_mid pre (start :: rest) post a Hnd Ha). }
  assert (Hsub : forall a, In a (pre ++ start :: post) -> In a L).
  { intros a Ha. rewrite HL. apply in_app_or in Ha. apply in_or_app.
    destruct Ha as [Ha|[Ha|Ha]]; [left; exact Ha| |].
    - right. left. exact Ha.
    - right. apply in_or_app. right. exact Ha. }
  assert (HsL' : In start (pre ++ start :: post))
    by (apply in_or_app; right; left; reflexivity).
  assert (Hpp : forall a, In a (pre ++ post) -> In a (pre ++ start :: post)).
  { intros a Ha. apply in_app_or in Ha. apply in_or_app.
    destruct Ha as [Ha|Ha]; [left; exact Ha|right; right; exact Ha]. }
  destruct (arena_span_merge st1 s pre start rest post
              (fun a Ha => proj1 (Hrestf a Ha)) Hsz) as (Hhd' & Hspan').
  pose proof (chunk_list_apart s _ Hbs Hcls) as Hap'.
  destruct (add_cases s (pre ++ start :: post) bk1 start Hbs Hcls Hixs HsL')
    as (bk' & Hstep & Hb' & Hcl' & Hix' & _ & Hsrc & _).
  set (s' := HMMadd_free_block start s) in *.
  pose proof Hstep as (_ & _ & Sbrk & Slo & Shi & Slog & _).
  exists bk'. split; [exact Hco|].
  split; [intros a Ha; destruct (HrL a Ha); apply Hprev; assumption|].
  split.
  { split; [exact Hb'|]. split; [exact Hcl'|]. split; [exact Hix'|]. split.
    - unfold env_ok. rewrite Sbrk, Slo, Shi, Hbrk, Hlo, Hhi. exact Henv.
    - intros _. rewrite (span_step _ s s' _ Hap' Hstep (incl_refl _)).
      rewrite Hhd', Hspan', Sbrk, Hbrk, <- HL. apply Htop.
      rewrite HL. intros E. apply app_eq_nil in E. destruct E as (_ & E).
      discriminate. }
  split.
  { destruct (index_step_fields _ s s' start Hap' Hstep HsL') as (-> & _).
    rewrite (Hfr start HsL'). apply Hfree. left. reflexivity. }
  split.
  { intros a Ha. destruct (Hout a Ha) as (A & B).
    split; [exact A|]. split; [exact B|].
    destruct (index_step_fields _ s s' a Hap' Hstep (Hpp a Ha)) as (-> & -> & _).
    split; [apply Hfr; apply Hpp; exact Ha|apply Hrestf; exact Ha]. }
  split.
  { intros x Hx. rewrite <- (Hframe x Hx).
    apply (index_step_outside _ s s' x Hstep).
    intros a Ha. apply Hx. apply Hsub. exact Ha. }
  rewrite Sbrk, Slo, Shi, Slog.
  split; [exact Hbrk|]. split; [exact Hlo|]. split; [exact Hhi|].
  split; [exact Hlog|].
  intros HF0 i a Hi Hin.
  destruct (index_step_fields _ s s' start Hap' Hstep HsL') as (Fs & _).
  destruct (Hsrc i a Hi Hin) as [Hin1|(-> & _)].
  - apply (Hmem i a Hi) in Hin1. destruct Hin1 as (Hin0 & Hnr).
    destruct (Hix i Hi) as (_ & _ & Hmb). destruct (Hmb a Hin0) as (HaL & _).
    assert (Hpp0 : In a (pre ++ post)).
    { rewrite HL in HaL. apply in_app_or in HaL. apply in_or_app.
      destruct HaL as [H|H]; [left; exact H|].
      apply in_app_or in H. destruct H as [H|H]; [contradiction|right; exact H]. }
    destruct (index_step_fields _ s s' a Hap' Hstep (Hpp a Hpp0)) as (-> & _).
    rewrite (Hfr a (Hpp a Hpp0)). apply (HF0 i a Hi Hin0).
  - rewrite Fs, (Hfr start HsL'). apply Hfree. left. reflexivity.
Qed.

Lemma set_is_free_arena st L bk c v :
  arena_ok st L bk -> In c L ->
  let st1 := set_is_free st c v in
  arena_ok st1 L bk /\
  (forall x, (forall a, In a L -> x < a \/ a + HDR <= x) ->
             mem st1 x = mem st x).
Proof.
  intros (Hb & Hcl & Hix & Henv & Htop) HcL st1.
  destruct (set_is_free_spec st L bk c v Hb Hcl Hix HcL)
    as (Hb1 & Hcl1 & Hix1 & _ & _ & Hsame & _).
  fold st1 in Hb1, Hcl1, Hix1, Hsame.
  split.
  - split; [exact Hb1|]. split; [exact Hcl1|]. split; [exact Hix1|].
    split; [exact Henv|]. intros Hne.
    rewrite (span_frame st st1 L) by (intros a Ha; apply (Hsame a Ha)).
    apply Htop. exact Hne.
  - intros x Hx. unfold st1, set_is_free. rewrite mem_with_mem.
    apply store8_other. specialize (Hx c HcL). unfold HDR in *. lia.
Qed.

Lemma free_merge_run st L bk c pre start rest post fuel :
  arena_ok st L bk -> In c L -> is_free st c = 0 ->
  L = pre ++ (start :: rest) ++ post -> rest <> [] -> In c (start :: rest) ->
  (forall d, In d (start :: rest) -> is_free (set_is_free st c 1) d = 1) ->
  post = [] \/ is_free (set_is_free st c 1) (hd 0 post) <> 1 ->
  (2 * length L < fuel)%nat ->
  exists s bk',
    HMMcoalesce fuel start (set_is_free st c 1) = Some s /\
    (forall a, In a rest -> prev s a = prev (set_is_free st c 1) a) /\
    arena_ok (HMMadd_free_block start s) (pre ++ start :: post) bk' /\
    kept st L c (HMMadd_free_block start s) (pre ++ start :: post) /\
    brk (HMMadd_free_block start s) = brk st /\
    sbrk_log (HMMadd_free_block start s) = sbrk_log st /\
    (length (pre ++ start :: post) <= length L)%nat /\
    (index_free st bk -> index_free (HMMadd_free_block start s) bk').
Proof.
  intros Ha HcL Hcf HL Hrest Hcrun Hfree Hstop Hfuel.
  pose proof Ha as (Hb & Hcl & Hix & _).
  destruct (set_is_free_spec st L bk c 1 Hb Hcl Hix HcL)
    as (_ & _ & _ & _ & Hf1o & Hsame & _).
  destruct (set_is_free_arena st L bk c 1 Ha HcL) as (Ha1 & Hfr1).
  set (st1 := set_is_free st c 1) in *.
  destruct (merge_then_add_arena st1 L bk pre start rest post fuel
              Ha1 HL Hrest Hfree Hstop Hfuel)
    as (s & bk' & Hco & Hprev & Ha' & Hfs & Hpp & Hframe & Hbrk & Hlo & Hhi & Hlog
        & HF1).
  set (s' := HMMadd_free_block start s) in *.
  exists s, bk'. fold s'. split; [exact Hco|]. split; [exact Hprev|].
  split; [exact Ha'|].
  assert (HsL : In start L)
    by (rewrite HL; apply in_or_app; right; left; reflexivity).
  assert (Hsplit : forall a, In a (pre ++ start :: post) ->
            a = start \/ In a (pre ++ post)).
  { intros a Hin. apply in_app_or in Hin.
    destruct Hin as [Hin|[Hin|Hin]]; [right; apply in_or_app; left; exact Hin
                                 |left; symmetry; exact Hin
                                 |right; apply in_or_app; right; exact Hin]. }
  split; [|split; [exact Hbrk|split; [exact Hlog|]]].
  - split; [|split; [|split; [|split; [|split; [exact Hlo|exact Hhi]]]]].
    + intros a Hin. destruct (Hsplit a Hin) as [->|Hin2];
        [exact HsL|apply (Hpp a Hin2)].
    + intros a Hin Hz. destruct (Hsplit a Hin) as [->|Hin2];
        [change (is_free s' start = 0) in Hz; rewrite Hfs in Hz; discriminate|].
      destruct (Hpp a Hin2) as (HaL & Hnr & Hf & _).
      assert (a <> c) by (intros ->; contradiction).
      split; [assumption|]. rewrite <- (Hf1o a HaL H), <- Hf. exact Hz.
    + intros a HaL Hne Hz.
      assert (Hz1 : is_free st1 a = 0) by (rewrite (Hf1o a HaL Hne); exact Hz).
      assert (Hnr : ~ In a (start :: rest)).
      { intros Hin. rewrite (Hfree a Hin) in Hz1. discriminate. }
      assert (Hin2 : In a (pre ++ post)).
      { rewrite HL in HaL. apply in_app_or in HaL. apply in_or_app.
        destruct HaL as [H|H]; [left; exact H|].
        apply in_app_or in H. destruct H as [H|H]; [contradiction|right; exact H]. }
      destruct (Hpp a Hin2) as (_ & _ & Hf & Hs).
      split.
      { apply in_app_or in Hin2. apply in_or_app.
        destruct Hin2 as [H|H]; [left; exact H|right; right; exact H]. }
      split; [rewrite Hf; exact Hz1|].
      rewrite Hs. apply (Hsame a HaL).
    + intros x Hx. rewrite (Hframe x Hx). apply (Hfr1 x Hx).
  - split; [rewrite HL, !length_app; cbn [length]; lia|].
    intros HF0. apply HF1. intros i a Hi Hin.
    destruct (Z.eq_dec a c) as [->|N].
    + apply Hfree. exact Hcrun.
    + destruct (Hix i Hi) as (_ & _ & Hmb). destruct (Hmb a Hin) as (HaL & _).
      rewrite (Hf1o a HaL N). apply (HF0 i a Hi Hin).
Qed.

(** The merging part of [HMMfree] on an arena. *)
Lemma free_merge_arena st L bk c fuel :
  arena_ok st L bk -> In c L -> is_free st c = 0 ->
  (2 * length L < fuel)%nat ->
  exists st2 L2 bk2,
    free_merge fuel c (set_is_free st c 1) = Some st2 /\
    arena_ok st2 L2 bk2 /\ kept st L c st2 L2 /\
    brk st2 = brk st /\ sbrk_log st2 = sbrk_log st /\
    (length L2 <= length L)%nat /\
    (index_free st bk -> index_free st2 bk2).
Proof.
  intros Ha HcL Hcf Hfuel.
  pose proof Ha as (Hb & Hcl & Hix & _).
  destruct (set_is_free_spec st L bk c 1 Hb Hcl Hix HcL)
    as (Hb1 & Hcl1 & Hix1 & Hf1c & Hf1o & Hsame & _).
  destruct (set_is_free_arena st L bk c 1 Ha HcL) as (Ha1 & Hfr1).
  pose proof (free_merge_run st L bk c) as Hrun.
  set (st1 := set_is_free st c 1) in *.
  change (1 mod 256) with 1 in Hf1c.
  destruct (in_split _ _ HcL) as (pre & post & HL).
  pose proof Hcl1 as Hcl1'. rewrite HL in Hcl1'.
  destruct (chunk_neighbours st1 pre c post Hcl1') as (Hpv & Hnx).
  unfold free_merge. rewrite Hpv, Hnx.
  destruct (negb (last pre 0 =? 0) && (is_free st1 (last pre 0) =? 1)) eqn:EA.
  - apply andb_prop in EA. destruct EA as (EA1 & EA2).
    apply negb_true_iff, Z.eqb_neq in EA1. apply Z.eqb_eq in EA2.
    destruct pre as [|q pre' _] using rev_ind; [cbn in EA1; contradiction|].
    rewrite last_last in *.
    destruct (free_prefix st1 post) as (fr & post2 & Hpost & Hfr & Hp2).
    destruct (Hrun pre' q (c :: fr) post2 fuel Ha HcL Hcf)
      as (s & bk' & Hco & Hprev & Ha' & Hk & Hbrk & Hlog & Hlen & HF');
      try assumption.
    + rewrite HL, Hpost, <- !app_assoc. reflexivity.
    + discriminate.
    + right. left. reflexivity.
    + intros d [<-|[<-|Hd]]; [exact EA2|exact Hf1c|apply Hfr; exact Hd].
    + rewrite Hco. rewrite (Hprev c (or_introl eq_refl)), Hpv.
      exists (HMMadd_free_block q s), (pre' ++ q :: post2), bk'.
      split; [reflexivity|]. split; [exact Ha'|]. split; [exact Hk|].
      split; [exact Hbrk|]. split; [exact Hlog|]. split; [exact Hlen|exact HF'].
  - destruct (negb (hd 0 post =? 0) && (is_free st1 (hd 0 post) =? 1)) eqn:EB.
    + apply andb_prop in EB. destruct EB as (EB1 & EB2).
      apply negb_true_iff, Z.eqb_neq in EB1. apply Z.eqb_eq in EB2.
      destruct (free_prefix st1 post) as (fr & post2 & Hpost & Hfr & Hp2).
      assert (Hfrne : fr <> []).
      { intros ->. cbn in Hpost. subst post2.
        destruct Hp2 as [E|E]; [rewrite E in EB1; cbn in EB1; contradiction|contradiction]. }
      destruct (Hrun pre c fr post2 fuel Ha HcL Hcf)
        as (s & bk' & Hco & Hprev & Ha' & Hk & Hbrk & Hlog & Hlen & HF');
        try assumption.
      * rewrite HL, Hpost. reflexivity.
      * left. reflexivity.
      * intros d [<-|Hd]; [exact Hf1c|apply Hfr; exact Hd].
      * rewrite Hco.
        exists (HMMadd_free_block c s), (pre ++ c :: post2), bk'.
        split; [reflexivity|]. split; [exact Ha'|]. split; [exact Hk|].
      split; [exact Hbrk|]. split; [exact Hlog|]. split; [exact Hlen|exact HF'].
    + destruct Ha1 as (_ & _ & _ & Henv1 & Htop1).
      pose proof (chunk_list_apart st1 L Hb1 Hcl1) as Hap.
      destruct (add_cases st1 L bk c Hb1 Hcl1 Hix1 HcL)
        as (bk' & Hstep & Hb' & Hcl' & Hix' & _ & Hsrc & _).
      set (s' := HMMadd_free_block c st1) in *.
      pose proof Hstep as (_ & _ & Sbrk & Slo & Shi & Slog & _).
      exists s', L, bk'. split; [reflexivity|].
      split.
      { split; [exact Hb'|]. split; [exact Hcl'|]. split; [exact Hix'|]. split.
        - unfold env_ok. rewrite Sbrk, Slo, Shi. exact Henv1.
        - intros Hne. rewrite (span_step L st1 s' L Hap Hstep (incl_refl _)), Sbrk.
          apply Htop1. exact Hne. }
      split.
      { split; [intros a H; exact H|].
        split.
        { intros a HaL Hz.
          destruct (index_step_fields L st1 s' a Hap Hstep HaL) as (Hf & _).
          rewrite Hf in Hz.
          assert (a <> c) by (intros ->; rewrite Hf1c in Hz; discriminate).
          split; [assumption|]. rewrite <- (Hf1o a HaL H). exact Hz. }
        split.
        { intros a HaL Hne Hz.
          destruct (index_step_fields L st1 s' a Hap Hstep HaL) as (Hf & Hs & _).
          split; [exact HaL|]. rewrite Hf, Hs, (Hf1o a HaL Hne).
          split; [exact Hz|apply (Hsame a HaL)]. }
        split.
        { intros x Hx. rewrite (index_step_outside L st1 s' x Hstep Hx).
          apply (Hfr1 x Hx). }
        split; [exact Slo|exact Shi]. }
      split; [exact Sbrk|]. split; [exact Slog|]. split; [lia|].
      intros HF0 i a Hi Hin.
      assert (HaL : In a L).
      { destruct (Hix' i Hi) as (_ & _ & Hmb). apply (Hmb a Hin). }
      destruct (index_step_fields L st1 s' a Hap Hstep HaL) as (-> & _).
      destruct (Hsrc i a Hi Hin) as [Hin0|(-> & _)]; [|exact Hf1c].
      destruct (Z.eq_dec a c) as [->|N]; [exact Hf1c|].
      rewrite (Hf1o a HaL N). apply (HF0 i a Hi Hin0).
Qed.

(** * [HMMfree]: the shrink check *)

(** The backward walk: from the last chunk of [keep ++ run] it unindexes
    the free chunks [run] and stops at the last chunk of [keep]. *)
Lemma shrink_loop_spec L keep :
  apart L -> placed L ->
  forall run done st bk ts fuel,
    bytes_ok st -> chunk_list st L -> index_ok st L bk ->
    L = keep ++ run ++ done ->
    (forall c, In c run -> is_free st c = 1) ->
    keep = [] \/ is_free st (last keep 0) <> 1 ->
    0 <= ts < WORD -> (length L + length run < fuel)%nat ->
    exists st' bk',
      shrink_loop fuel (last (keep ++ run) 0) ts st
      = Some (last keep 0, wrap (ts + span st run), st') /\
      index_step L st st' /\ index_ok st' L bk' /\ bytes_ok st' /\
      (forall i a, 0 <= i < MULTIPLES_MAX ->
                   In a (bk' i) <-> In a (bk i) /\ ~ In a run).
Proof.
  intros Hap Hpl. induction run as [|t run IH] using rev_ind;
    intros done st bk ts fuel Hb Hcl Hix HL Hfree Hkeep Hts Hfuel.
  - rewrite app_nil_r. cbn [span].
    destruct fuel as [|f]; [lia|]. cbn [shrink_loop].
    replace (wrap (ts + 0)) with ts
      by (rewrite Z.add_0_r; symmetry; apply wrap_small; exact Hts).
    exists st, bk.
    assert (Hrest : index_step L st st /\ index_ok st L bk /\ bytes_ok st /\
                    (forall i a, 0 <= i < MULTIPLES_MAX ->
                                 In a (bk i) <-> In a (bk i) /\ ~ In a [])).
    { split; [apply index_step_refl|]. split; [exact Hix|]. split; [exact Hb|].
      intros i a _; cbn; tauto. }
    split; [|exact Hrest].
    destruct Hkeep as [->|Hk]; [reflexivity|].
    destruct (Z.eqb_spec (last keep 0) 0) as [E|_]; [rewrite E; reflexivity|].
    destruct (Z.eqb_spec (is_free st (last keep 0)) 1);
      [contradiction|reflexivity].
  - rewrite app_assoc, last_last.
    assert (HL2 : L = (keep ++ run) ++ t :: done)
      by (rewrite HL, <- !app_assoc; reflexivity).
    assert (HtL : In t L).
    { rewrite HL2. apply in_or_app. right. left. reflexivity. }
    assert (HrL : incl run L).
    { intros a Ha. rewrite HL2. apply in_or_app. left.
      apply in_or_app. right. exact Ha. }
    destruct fuel as [|f]; [lia|]. cbn [shrink_loop].
    destruct (Z.eqb_spec t 0) as [E|_]; [destruct (Hpl t HtL); lia|].
    rewrite (Hfree t) by (apply in_or_app; right; left; reflexivity).
    cbn [Z.eqb Pos.eqb].
    rewrite length_app in Hfuel. cbn [length] in Hfuel.
    destruct (HMMremove_spec st L bk t f Hb Hap Hpl Hix HtL ltac:(lia))
      as (st1 & Hrm & Hix1 & Hs1 & Hb1 & _).
    rewrite Hrm.
    destruct (index_step_fields L st st1 t Hap Hs1 HtL) as (_ & _ & Hpv & _).
    pose proof Hcl as Hcl'. rewrite HL2 in Hcl'.
    destruct (chunk_neighbours st (keep ++ run) t done Hcl') as (Hpt & _).
    rewrite Hpv, Hpt.
    destruct (IH (t :: done) st1 (bk_remove bk (bucket_of st t) t)
                 (wrap (ts + size st t + HDR)) f)
      as (st' & bk' & Hloop & Hs' & Hix' & Hb' & Hsub); try assumption.
    + apply (chunk_list_step L st st1 Hap Hs1 Hcl).
    + rewrite HL, <- !app_assoc. reflexivity.
    + intros d Hd.
      destruct (index_step_fields L st st1 d Hap Hs1 (HrL d Hd)) as (-> & _).
      apply Hfree. apply in_or_app. left. exact Hd.
    + destruct Hkeep as [E|Hk]; [left; exact E|].
      destruct (list_eq_dec Z.eq_dec keep []) as [E|Hkne]; [left; exact E|right].
      destruct (index_step_fields L st st1 (last keep 0) Hap Hs1) as (-> & _);
        [|exact Hk].
      rewrite HL. apply in_or_app. left. apply last_in. exact Hkne.
    + apply wrap_range.
    + lia.
    + exists st', bk'. rewrite Hloop.
      rewrite (span_step L st st1 run Hap Hs1 HrL).
      split.
      { replace (wrap (ts + span st (run ++ [t])))
          with (wrap (wrap (ts + size st t + HDR) + span st run)); [reflexivity|].
        rewrite wrap_add_l, span_app. cbn [span]. f_equal. lia. }
      split; [apply (index_step_trans L st st1 st'); assumption|].
      split; [exact Hix'|]. split; [exact Hb'|].
      intros i a Hi. rewrite (Hsub i a Hi).
      rewrite (bk_remove_in st L bk t i a Hix Hi). rewrite in_app_iff. cbn [In].
      split; [intros ((A & B) & C)|intros (A & B)].
      * split; [exact A|]. intros [E|[E|[]]]; [contradiction|congruence].
      * split; [split; [exact A|]|]; intros N; apply B;
          [right; left; congruence|left; exact N].
Qed.

(** The free chunks at the end of a list. *)
Lemma free_suffix st : forall L,
  exists keep run, L = keep ++ run /\
    (forall c, In c run -> is_free st c = 1) /\
    (keep = [] \/ is_free st (last keep 0) <> 1).
Proof.
  induction L as [|x L IH] using rev_ind.
  - exists [], []. split; [reflexivity|]. split; [intros c []|left; reflexivity].
  - destruct (Z.eq_dec (is_free st x) 1) as [E|E].
    + destruct IH as (keep & run & -> & Hr & Hk).
      exists keep, (run ++ [x]). split; [rewrite app_assoc; reflexivity|].
      split; [|exact Hk]. intros c Hc. apply in_app_or in Hc.
      destruct Hc as [Hc|[<-|[]]]; [apply Hr; exact Hc|exact E].
    + exists (L ++ [x]), []. split; [rewrite app_nil_r; reflexivity|].
      split; [intros c []|right; rewrite last_last; exact E].
Qed.


Lemma wrap_neg t : 0 < t < WORD -> wrap (- t) = WORD - t.
Proof.
  intros H. unfold wrap.
  replace (- t) with (WORD - t + (-1) * WORD) by lia.
  rewrite Z_mod_plus_full. apply Z.mod_small. lia.
Qed.

(** [sbrk] with the two's complement of [t] lowers the break by [t]. *)
Lemma sbrk_shrink t st :
  0 < t < 2 ^ 63 -> brk_lo st <= brk st - t -> brk st <= brk_hi st ->
  let s := snd (sbrk (wrap (- t)) st) in
  same_heap st s /\ brk s = brk st - t /\ brk_lo s = brk_lo st /\
  brk_hi s = brk_hi st /\ sbrk_log s = wrap (- t) :: sbrk_log st.
Proof.
  intros Ht Hlo Hhi.
  assert (Hw : wrap (- t) = WORD - t) by (apply wrap_neg; unfold WORD; lia).
  assert (Hs : to_signed (wrap (- t)) = - t).
  { rewrite Hw. unfold to_signed.
    destruct (Z.ltb_spec (WORD - t) (2 ^ 63)) as [N|_]; [unfold WORD in N; lia|lia]. }
  generalize dependent (wrap (- t)). intros n _ Hs.
  unfold sbrk. rewrite Hs.
  replace (brk st + - t) with (brk st - t) by lia.
  destruct (Z.leb_spec (brk_lo st) (brk st - t)) as [_|N]; [|lia].
  destruct (Z.leb_spec (brk st - t) (brk_hi st)) as [_|N]; [|lia].
  cbn [andb snd]. unfold same_heap. cbn [mem block_freq head tail brk brk_lo brk_hi sbrk_log].
  repeat split; reflexivity.
Qed.

Lemma with_tail_fields st t a :
  is_added (with_tail st t) a = is_added st a /\
  is_free (with_tail st t) a = is_free st a /\
  size (with_tail st t) a = size st a /\ prev (with_tail st t) a = prev st a /\
  next (with_tail st t) a = next st a /\
  next_free (with_tail st t) a = next_free st a.
Proof. repeat split; reflexivity. Qed.

(** The chunk list cut after [keep] (lines 364-375), before the break is
    lowered. *)
Lemma shrink_cut_list st3 keep run bk3 :
  bytes_ok st3 -> chunk_list st3 (keep ++ run) ->
  index_ok st3 (keep ++ run) bk3 ->
  (forall i a, 0 <= i < MULTIPLES_MAX -> In a (bk3 i) -> ~ In a run) ->
  let st4 := if last keep 0 =? 0 then with_head (with_tail st3 0) 0
             else (let s := with_tail st3 (last keep 0) in
                   set_next s (tail s) 0) in
  bytes_ok st4 /\ chunk_list st4 keep /\ index_ok st4 keep bk3 /\
  (forall a, In a keep ->
     is_free st4 a = is_free st3 a /\ size st4 a = size st3 a) /\
  (forall x, (forall a, In a (keep ++ run) -> x < a \/ a + HDR <= x) ->
             mem st4 x = mem st3 x) /\
  brk st4 = brk st3 /\ brk_lo st4 = brk_lo st3 /\ brk_hi st4 = brk_hi st3 /\
  sbrk_log st4 = sbrk_log st3.
Proof.
  intros Hb Hcl Hix Hnr.
  pose proof (chunk_list_apart st3 _ Hb Hcl) as Hap.
  pose proof (chunk_list_placed st3 _ Hb Hcl) as Hpl.
  assert (Hmemb : forall i a, 0 <= i < MULTIPLES_MAX -> In a (bk3 i) -> In a keep).
  { intros i a Hi Ha. destruct (Hix i Hi) as (_ & _ & Hm).
    destruct (Hm a Ha) as (HaL & _). apply in_app_or in HaL.
    destruct HaL as [H|H]; [exact H|]. exfalso. apply (Hnr i a Hi Ha H). }
  destruct (list_eq_dec Z.eq_dec keep []) as [Ek|Hkne].
  - subst keep. cbn [last Z.eqb app] in *. cbv zeta.
    split; [exact Hb|]. split.
    { split; [exact I|]. split; [reflexivity|]. split; [reflexivity|].
      intros N. contradiction. }
    split.
    { intros i Hi. destruct (Hix i Hi) as (Hch & Hnd & Hm).
      split; [apply (fchain_frame st3); [intros a _; reflexivity|exact Hch]|].
      split; [exact Hnd|].
      intros a Ha. exfalso. apply (Hmemb i a Hi Ha). }
    split; [intros a []|]. split; [reflexivity|]. repeat split; reflexivity.
  - destruct (nonempty_snoc keep Hkne) as (keep' & k & Ek). subst keep.
    rewrite last_snoc in *.
    assert (HkL : In k ((keep' ++ [k]) ++ run)).
    { apply in_or_app. left. apply in_or_app. right. left. reflexivity. }
    destruct (Hpl k HkL) as (Hk0 & _).
    destruct (Z.eqb_spec k 0) as [E|_]; [lia|]. cbv zeta.
    change (tail (with_tail st3 k)) with k.
    set (s := with_tail st3 k).
    assert (Hbs : bytes_ok s) by exact Hb.
    destruct (set_next_fields _ s k 0 Hbs Hap HkL)
      as (Hb4 & Hnx4 & Hold & Hbf4 & Hh4 & Ht4 & _ & Hbrk4 & Hlo4 & Hhi4 & Hlog4 & Hfr4).
    set (st4 := set_next s k 0) in *.
    change (wrap 0) with 0 in Hnx4.
    assert (F : forall a, In a ((keep' ++ [k]) ++ run) ->
      is_added st4 a = is_added st3 a /\ is_free st4 a = is_free st3 a /\
      prev st4 a = prev st3 a /\ size st4 a = size st3 a /\
      next_free st4 a = next_free st3 a /\ (a <> k -> next st4 a = next st3 a)).
    { intros a Ha. exact (Hold a Ha). }
    assert (Hinc : forall a, In a (keep' ++ [k]) -> In a ((keep' ++ [k]) ++ run))
      by (intros a Ha; apply in_or_app; left; exact Ha).
    destruct Hcl as (Hti & Hhd & Htl & Hends).
    assert (Hne : (keep' ++ [k]) ++ run <> [])
      by (intros E; rewrite E in HkL; contradiction).
    destruct (Hends Hne) as (Hpos & Hp0 & _ & Hend).
    pose proof (tiling_app_l st3 _ _ Hti) as Htk.
    pose proof (tiling_NoDup st3 _ Hb Htk) as Hnd.
    assert (Hnk : forall a, In a keep' -> a <> k).
    { intros a Ha ->. apply NoDup_remove_2 in Hnd. apply Hnd.
      rewrite app_nil_r. exact Ha. }
    assert (Hsp : span st4 (keep' ++ [k]) = span st3 (keep' ++ [k])).
    { apply span_frame. intros a Ha. apply (F a (Hinc a Ha)). }
    split; [exact Hb4|]. split.
    { split.
      { apply tiling_join; [| exact I|].
        - apply (tiling_frame st3); [| |apply (tiling_app_l st3 _ _ Htk)].
          + intros a Ha.
            destruct (F a (Hinc a (in_or_app _ _ _ (or_introl Ha))))
              as (_ & _ & _ & A & _ & B). split; [exact A|apply B, Hnk, Ha].
          + intros a Ha.
            assert (In a keep') by (destruct keep'; [contradiction|right; exact Ha]).
            apply (F a (Hinc a (in_or_app _ _ _ (or_introl H)))).
        - intros H1 _. cbn [hd].
          destruct (tiling_link st3 keep' [k] Htk H1 ltac:(discriminate))
            as (A & B & C). cbn [hd] in A, B, C.
          assert (Hl : In (last keep' 0) keep') by (apply last_in; exact H1).
          destruct (F _ (Hinc _ (in_or_app _ _ _ (or_introl Hl))))
            as (_ & _ & _ & S1 & _ & S2).
          destruct (F k HkL) as (_ & _ & S3 & _).
          rewrite S1, (S2 (Hnk _ Hl)), S3. auto. }
      split.
      { rewrite Hh4. change (head s) with (head st3). rewrite Hhd.
        apply hd_app_nonempty. exact Hkne. }
      split; [rewrite Ht4, last_snoc; reflexivity|].
      intros _. rewrite last_snoc.
      rewrite (hd_app_nonempty _ run 0 Hkne) in Hpos, Hp0, Hend.
      split; [exact Hpos|]. split.
      { destruct (F (hd 0 (keep' ++ [k])) (Hinc _ (hd_in _ 0 Hkne)))
          as (_ & _ & -> & _). exact Hp0. }
      split; [exact Hnx4|].
      rewrite Hsp. rewrite span_app in Hend.
      pose proof (span_nonneg st3 run Hb). lia. }
    split.
    { intros i Hi. destruct (Hix i Hi) as (Hch & Hnd3 & Hm).
      split; [|split; [exact Hnd3|]].
      - rewrite Hbf4. change (block_freq s i) with (block_freq st3 i).
        apply (fchain_frame st3); [|exact Hch].
        intros a Ha. destruct (Hm a Ha) as (HaL & _). apply (F a HaL).
      - intros a Ha. destruct (Hm a Ha) as (HaL & Hbo & Hia).
        split; [apply (Hmemb i a Hi Ha)|].
        destruct (F a HaL) as (A & _ & _ & B & _).
        unfold bucket_of in *. rewrite A, B. auto. }
    split.
    { intros a Ha. destruct (F a (Hinc a Ha)) as (_ & A & _ & B & _). auto. }
    split.
    { intros x Hx. rewrite Hfr4 by (apply Hx; exact HkL). reflexivity. }
    rewrite Hbrk4, Hlo4, Hhi4, Hlog4. repeat split; reflexivity.
Qed.

(** The shrink check on an arena whose chunks lie in the break window. *)
Lemma shrink_check_spec st2 L2 bk2 fuel :
  arena_ok st2 L2 bk2 -> based st2 L2 -> brk_hi st2 < 2 ^ 63 ->
  (2 * length L2 < fuel)%nat ->
  exists st' L' bk',
    shrink_check fuel st2 = Some st' /\ arena_ok st' L' bk' /\
    (forall a, In a L' -> In a L2) /\
    (forall a, In a L2 -> is_free st2 a <> 1 -> In a L') /\
    (forall a, In a L' ->
       is_free st' a = is_free st2 a /\ size st' a = size st2 a) /\
    (forall x, (forall a, In a L2 -> x < a \/ a + HDR <= x) ->
               mem st' x = mem st2 x) /\
    brk_lo st' = brk_lo st2 /\ brk_hi st' = brk_hi st2 /\
    (sbrk_log st' = sbrk_log st2 /\ brk st' = brk st2 \/
     exists t, ALLOCATED_BYTES <= t /\
       sbrk_log st' = wrap (- t) :: sbrk_log st2 /\ brk st' = brk st2 - t /\
       In (brk st') L2) /\
    (index_free st2 bk2 -> index_free st' bk').
Proof.
  intros Ha Hbase Hhi63 Hfuel.
  pose proof Ha as (Hb & Hcl & Hix & Henv & Htop).
  unfold shrink_check.
  destruct (Z.leb_spec ALLOCATED_BYTES (current_free_size st2)) as [_|_].
  2:{ exists st2, L2, bk2. split; [reflexivity|]. split; [exact Ha|].
      split; [auto|]. split; [auto|]. split; [auto|]. split; [auto|].
      split; [reflexivity|]. split; [reflexivity|].
      split; [left; auto|auto]. }
  pose proof (chunk_list_apart st2 _ Hb Hcl) as Hap.
  pose proof (chunk_list_placed st2 _ Hb Hcl) as Hpl.
  destruct (free_suffix st2 L2) as (keep & run & HL & Hrun & Hkeep).
  assert (Htl : tail st2 = last (keep ++ run) 0).
  { destruct Hcl as (_ & _ & -> & _). rewrite HL. reflexivity. }
  assert (Hlen : (length run <= length L2)%nat).
  { rewrite HL, length_app. lia. }
  destruct (shrink_loop_spec L2 keep Hap Hpl run [] st2 bk2 0 fuel Hb Hcl Hix)
    as (st3 & bk3 & Hloop & Hs3 & Hix3 & Hb3 & Hbk3); try assumption.
  { rewrite app_nil_r. exact HL. }
  { unfold WORD. lia. }
  { lia. }
  rewrite Htl, Hloop. cbn [Z.add].
  pose proof (chunk_list_step L2 st2 st3 Hap Hs3 Hcl) as Hcl3.
  pose proof Hs3 as (_ & _ & Sbrk & Slo & Shi & Slog & _).
  assert (Hf3 : forall a, In a L2 ->
            is_free st3 a = is_free st2 a /\ size st3 a = size st2 a).
  { intros a HaL. destruct (index_step_fields L2 st2 st3 a Hap Hs3 HaL)
      as (A & B & _). auto. }
  assert (Hsp3 : span st3 L2 = span st2 L2)
    by (apply (span_step L2 st2 st3 L2 Hap Hs3 (incl_refl _))).
  assert (Hspr : 0 <= span st2 run <= span st2 L2).
  { rewrite HL, span_app. pose proof (span_nonneg st2 keep Hb).
    pose proof (span_nonneg st2 run Hb). lia. }
  assert (HspW : span st2 L2 < WORD).
  { destruct (list_eq_dec Z.eq_dec L2 []) as [->|Hne]; [cbn; unfold WORD; lia|].
    destruct Hcl as (_ & _ & _ & He). destruct (He Hne) as (P & _ & _ & Q). lia. }
  rewrite (wrap_small (span st2 run)) by lia.
  assert (Harena3 : arena_ok st3 L2 bk3).
  { split; [exact Hb3|]. split; [exact Hcl3|]. split; [exact Hix3|]. split.
    - unfold env_ok. rewrite Sbrk, Slo, Shi. exact Henv.
    - intros Hne. rewrite Hsp3, Sbrk. apply Htop. exact Hne. }
  destruct (Z.leb_spec ALLOCATED_BYTES (span st2 run)) as [Hbig|_].
  2:{ exists st3, L2, bk3. split; [reflexivity|]. split; [exact Harena3|].
      split; [auto|]. split; [auto|]. split; [exact Hf3|]. split.
      { intros x Hx. apply (index_step_outside L2 st2 st3 x Hs3 Hx). }
      split; [exact Slo|]. split; [exact Shi|]. split; [left; auto|].
      intros HF0 i a Hi Hin. apply (Hbk3 i a Hi) in Hin.
      destruct Hin as (Hin & _).
      destruct (Hix i Hi) as (_ & _ & Hmb). destruct (Hmb a Hin) as (HaL & _).
      destruct (Hf3 a HaL) as (-> & _). apply (HF0 i a Hi Hin). }
  (* the free run at the end is given back *)
  assert (Hne : L2 <> []).
  { intros E. rewrite E in Hspr. cbn in Hspr. unfold ALLOCATED_BYTES in Hbig. lia. }
  rewrite HL in Hcl3, Hix3.
  destruct (shrink_cut_list st3 keep run bk3 Hb3 Hcl3 Hix3)
    as (Hb4 & Hcl4 & Hix4 & Hf4 & Hfr4 & Hbrk4 & Hlo4 & Hhi4 & Hlog4).
  { intros i a Hi Hin. apply (Hbk3 i a Hi). exact Hin. }
  set (st4 := if last keep 0 =? 0 then with_head (with_tail st3 0) 0
              else (let s := with_tail st3 (last keep 0) in
                    set_next s (tail s) 0)) in *.
  specialize (Htop Hne).
  assert (Hhd : brk_lo st2 <= hd 0 L2) by (apply Hbase, hd_in, Hne).
  destruct Henv as (Hlo0 & Hwin & HhiW).
  assert (Hkeep_sp : span st2 L2 = span st2 keep + span st2 run)
    by (rewrite HL at 1; apply span_app).
  pose proof (span_nonneg st2 keep Hb) as Hknn.
  destruct (sbrk_shrink (span st2 run) st4)
    as (Hsame & Hbrk' & Hlo' & Hhi' & Hlog').
  { unfold ALLOCATED_BYTES in Hbig. lia. }
  { rewrite Hlo4, Hbrk4, Slo, Sbrk. lia. }
  { rewrite Hbrk4, Hhi4, Sbrk, Shi. lia. }
  set (st' := snd (sbrk (wrap (- span st2 run)) st4)) in *.
  assert (Hink : forall a, In a keep -> In a L2)
    by (intros a Hin; rewrite HL; apply in_or_app; left; exact Hin).
  exists st', keep, bk3. split; [reflexivity|].
  split.
  { split; [apply (same_heap_bytes st4 st' Hsame Hb4)|].
    split; [apply (same_heap_chunk_list st4 st' keep Hsame Hcl4)|].
    split; [apply (same_heap_index st4 st' keep bk3 Hsame Hix4)|].
    split.
    - unfold env_ok. rewrite Hbrk', Hlo', Hhi', Hbrk4, Hlo4, Hhi4, Sbrk, Slo, Shi.
      lia.
    - intros Hkne. rewrite (same_heap_span st4 st' keep Hsame).
      rewrite (span_frame st3 st4 keep)
        by (intros a Hin; apply (Hf4 a Hin)).
      rewrite (span_frame st2 st3 keep)
        by (intros a Hin; apply (Hf3 a (Hink a Hin))).
      rewrite Hbrk', Hbrk4, Sbrk.
      replace (hd 0 keep) with (hd 0 L2)
        by (rewrite HL; apply hd_app_nonempty; exact Hkne).
      lia. }
  split; [exact Hink|].
  split.
  { intros a HaL Hnf. rewrite HL in HaL. apply in_app_or in HaL.
    destruct HaL as [H|H]; [exact H|]. exfalso. apply Hnf, Hrun, H. }
  split.
  { intros a Hin.
    destruct (same_heap_fields st4 st' a Hsame) as (_ & -> & -> & _).
    destruct (Hf4 a Hin) as (-> & ->). apply Hf3, Hink, Hin. }
  split.
  { intros x Hx. destruct Hsame as (-> & _).
    rewrite Hfr4 by (rewrite <- HL; exact Hx).
    apply (index_step_outside L2 st2 st3 x Hs3 Hx). }
  split; [rewrite Hlo', Hlo4; exact Slo|].
  split; [rewrite Hhi', Hhi4; exact Shi|].
  split.
  { right. exists (span st2 run). split; [exact Hbig|].
    split; [rewrite Hlog', Hlog4, Slog; reflexivity|].
    split; [rewrite Hbrk', Hbrk4, Sbrk; reflexivity|].
    rewrite Hbrk', Hbrk4, Sbrk.
    assert (Hrne : run <> []).
    { intros E. rewrite E in Hbig. cbn in Hbig. unfold ALLOCATED_BYTES in Hbig.
      lia. }
    replace (brk st2 - span st2 run) with (hd 0 run).
    - rewrite HL. apply in_or_app. right. apply hd_in. exact Hrne.
    - destruct run as [|r0 run0]; [contradiction|]. cbn [hd].
      destruct keep as [|k0 keep0].
      + cbn [app] in HL. rewrite HL in Htop. cbn [hd] in Htop. lia.
      + pose proof (proj1 Hcl) as Hti. rewrite HL in Hti. cbn [app] in Hti.
        pose proof (tiling_offset st2 keep0 k0 r0 run0 Hti) as Hoff.
        rewrite Hkeep_sp in Htop. rewrite HL in Htop. cbn [hd app] in Htop.
        lia. }
  intros HF0 i a Hi Hin.
  destruct (Hix4 i Hi) as (_ & _ & Hmb). destruct (Hmb a Hin) as (Hak & _).
  destruct (same_heap_fields st4 st' a Hsame) as (_ & -> & _).
  destruct (Hf4 a Hak) as (-> & _). destruct (Hf3 a (Hink a Hak)) as (-> & _).
  apply (Hbk3 i a Hi) in Hin. apply (HF0 i a Hi), Hin.
Qed.

Lemma kept_based st L c st' L' :
  based st L -> kept st L c st' L' -> based st' L'.
Proof.
  intros Hbase (Hsub & _ & _ & _ & Hlo & _) a Ha.
  rewrite Hlo. apply Hbase, Hsub, Ha.
Qed.

(** [HMMfree] on the payload of an allocated chunk of an arena. *)
Lemma HMMfree_spec st L bk c fuel :
  arena_ok st L bk -> based st L -> brk_hi st < 2 ^ 63 ->
  In c L -> is_free st c = 0 -> (2 * length L < fuel)%nat ->
  exists st' L' bk',
    HMMfree fuel (c + HDR) st = Some st' /\ freed st L bk c st' L' bk'.
Proof.
  intros Ha Hbase Hhi HcL Hcf Hfuel.
  destruct (free_merge_arena st L bk c fuel Ha HcL Hcf Hfuel)
    as (st2 & L2 & bk2 & Hm & Ha2 & Hk2 & Hbrk2 & Hlog2 & Hlen2 & HF2).
  pose proof (kept_based st L c st2 L2 Hbase Hk2) as Hbase2.
  pose proof Hk2 as (K1 & K2 & K3 & K4 & K5 & K6).
  destruct (shrink_check_spec st2 L2 bk2 fuel Ha2 Hbase2 ltac:(rewrite K6; exact Hhi)
              ltac:(lia))
    as (st' & L' & bk' & Hsc & Ha' & S1 & S2 & S3 & S4 & S5 & S6 & S7 & S8).
  exists st', L', bk'. split.
  { unfold HMMfree. pose proof Ha as (Hb & Hcl & _).
    destruct (chunk_list_placed st L Hb Hcl c HcL) as (Hc0 & Hc1).
    destruct (Z.eqb_spec (c + HDR) 0) as [E|_]; [unfold HDR in *; lia|].
    replace (c + HDR - HDR) with c by lia.
    rewrite (wrap_small c) by (unfold HDR, WORD in *; lia).
    rewrite Hcf. cbn [Z.eqb negb]. rewrite Hm. exact Hsc. }
  split; [exact Ha'|]. split.
  - split; [intros a Hin; apply K1, S1, Hin|].
    split.
    { intros a Hin Hz. destruct (S3 a Hin) as (Hf & _). rewrite Hf in Hz.
      apply (K2 a (S1 a Hin) Hz). }
    split.
    { intros a HaL Hne Hz. destruct (K3 a HaL Hne Hz) as (A & B & C).
      assert (Hin : In a L') by (apply (S2 a A); rewrite B; discriminate).
      destruct (S3 a Hin) as (-> & ->). auto. }
    split.
    { intros x Hx. rewrite S4 by (intros a Hin; apply Hx, K1, Hin).
      apply (K4 x Hx). }
    split; [rewrite S5; exact K5|rewrite S6; exact K6].
  - split; [|intros HF0; apply S8, HF2, HF0].
    rewrite <- Hlog2, <- Hbrk2.
    destruct S7 as [S7|(t & T1 & T2 & T3 & T4)]; [left; exact S7|right].
    exists t. split; [exact T1|]. split; [exact T2|]. split; [exact T3|].
    apply K1. exact T4.
Qed.

(** * The claims *)

Lemma num_allocated_bytes_floor sz :
  num_allocated_bytes sz = floor_grow_bytes sz /\
  (ALLOCATED_BYTES | num_allocated_bytes sz).
Proof.
  unfold num_allocated_bytes, floor_grow_bytes.
  pose proof (wrap_range (sz + HDR + ALLOCATED_BYTES)) as Hr.
  set (a := wrap (sz + HDR + ALLOCATED_BYTES)) in *.
  assert (H : wrap (a / ALLOCATED_BYTES * ALLOCATED_BYTES)
              = a / ALLOCATED_BYTES * ALLOCATED_BYTES).
  { apply wrap_small. unfold ALLOCATED_BYTES in *.
    pose proof (Z.div_mod a (8 * 1024 * 1024) ltac:(lia)).
    pose proof (Z.mod_pos_bound a (8 * 1024 * 1024) ltac:(lia)).
    assert (0 <= a / (8 * 1024 * 1024)) by (apply Z.div_pos; lia). lia. }
  rewrite H. split; [reflexivity|]. exists (a / ALLOCATED_BYTES). reflexivity.
Qed.

(** C5, as amended: whenever [HMMget_free_chunk] calls the break primitive
    for a normalised request [sz], the amount it asks for is
    [floor ((sz + header_size + ARENA_UNIT) mod 2^64 / ARENA_UNIT) * ARENA_UNIT]
    (the floor of C's unsigned division, not the ceiling), and that amount
    is a multiple of [ARENA_UNIT]. *)
Theorem grow_request_is_floor f sz st r s :
  HMMget_free_chunk f sz st = Some (r, s) ->
  (exists k, sbrk_log s = repeat (floor_grow_bytes sz) k ++ sbrk_log st) /\
  (ALLOCATED_BYTES | floor_grow_bytes sz).
Proof.
  intros H. destruct (num_allocated_bytes_floor sz) as (E & D).
  rewrite <- E. split; [|exact D].
  apply (get_free_chunk_log sz f st r s H).
Qed.

(** C8: when [nmemb * sz] does not fit an unsigned machine word,
    [HMMcalloc] returns null and the state is the one it was given. *)
Theorem calloc_overflow_rejected fuel nmemb sz st :
  0 <= nmemb < WORD -> 0 <= sz < WORD -> WORD <= nmemb * sz ->
  HMMcalloc fuel nmemb sz st = Some (0, st).
Proof.
  intros Hn Hs Ho. unfold HMMcalloc.
  destruct (Z.eqb_spec sz 0) as [->|Hnz]; [unfold WORD in *; lia|].
  cbn [negb andb].
  destruct (Z.ltb_spec (ULONG_MAX / sz) nmemb) as [_|Hge]; [reflexivity|].
  exfalso. assert (ULONG_MAX / sz < nmemb); [|lia].
  apply Z.div_lt_upper_bound; unfold ULONG_MAX, WORD in *; lia.
Qed.

Lemma calloc_overflow_rejected_witness :
  HMMcalloc 0 ULONG_MAX 2 heap0 = Some (0, heap0).
Proof.
  apply calloc_overflow_rejected; unfold ULONG_MAX, WORD; lia.
Defined.

(** C1, at the failing input [n = 2^64 - 1] on the empty heap: the
    rounding of [HMMmalloc] wraps to 0, the call succeeds, and the chunk
    behind the returned pointer is allocated with payload size 0. *)
Theorem malloc_huge_request_gets_empty_chunk :
  match HMMmalloc 8 (WORD - 1) heap0 with
  | Some (p, st) =>
    p = 4194344 /\ is_free st (p - HDR) = 0 /\ size st (p - HDR) = 0 /\
    size st (p - HDR) < WORD - 1
  | None => False
  end.
Proof. vm_compute. repeat split; reflexivity. Qed.

(** C3, at the failing input [malloc(8); free; malloc(16)] on the empty
    heap: the remainder split off by the last call keeps in its
    never-written [is_added] byte the low byte (0xA8) of the size field of
    an older header, so it is flagged but not indexed; the accumulator is 0
    while the flagged chunks hold 8388512 bytes. *)
Theorem accumulator_misses_flagged_chunk :
  match acc_scenario with
  | Some st =>
    current_free_size st = 0 /\ added_sum 8 (head st) st = 8388512 /\
    is_added st (tail st) = 168 /\ is_free st (tail st) = 1 /\
    bucket_of st (tail st) = 1048563 /\ block_freq st 1048563 = 0
  | None => False
  end.
Proof. vm_compute. repeat split; reflexivity. Qed.


(** C5 fails as stated: [malloc(16)] on the empty heap asks [sbrk] for
    8 MiB, the ceiling formula gives 16 MiB. *)
Lemma grow_request_is_not_ceiling :
  match HMMmalloc 8 16 heap0 with
  | Some (_, st) =>
    sbrk_log st = [8388608] /\ spec_grow_bytes (align_up 16) = 16777216
  | None => False
  end.
Proof. vm_compute. split; reflexivity. Qed.

(** C6, at the failing input: [p = malloc(64)] filled with 0xFF, then
    [realloc(p, 2^64 - 1)].  The size rounds to 0, the block is freed and a
    fresh 8-byte block is returned at the same address; byte 9 of the
    payload, 0xFF before, now holds the [is_free] flag of the next
    header. *)
Theorem realloc_huge_size_loses_bytes :
  match resize_scenario with
  | Some (p, s2, q, s3) =>
    q <> 0 /\ load8 (mem s2) (p + 9) = 255 /\ load8 (mem s3) (q + 9) = 1 /\
    size s3 (q - HDR) = 8
  | None => False
  end.
Proof. vm_compute. repeat split; try reflexivity. discriminate. Qed.

(** C7 fails as stated: after [malloc(40)] and [free] on the empty heap
    bucket 5 is empty (and so is bucket 4, the class of a 40-byte
    chunk). *)
Lemma bucket_five_is_empty :
  match cycle_scenario with
  | Some (_, st) => block_freq st 5 = 0 /\ block_freq st 4 = 0
  | None => False
  end.
Proof. vm_compute. split; reflexivity. Qed.

(** C7, as amended: starting from the empty heap, [malloc(40)] returns an
    8-aligned payload; freeing it coalesces the chunk with the free
    remainder, so that the one chunk left has payload size [8 MiB - 40],
    sits in bucket [(8388568 / 8) - 1 = 1048570], [head = tail] and
    [head.is_free = 1]. *)
Theorem single_cycle_coalesces :
  match cycle_scenario with
  | Some (p, st) =>
    p mod 8 = 0 /\ head st = tail st /\ is_free st (head st) = 1 /\
    size st (head st) = 8388568 /\ bucket_of st (head st) = 1048570 /\
    block_freq st 1048570 = head st /\ is_added st (head st) = 1 /\
    next_free st (head st) = 0
  | None => False
  end.
Proof. vm_compute. repeat split; reflexivity. Qed.

(** * A request that never returns *)

Lemma diverge_add s :
  diverge_inv s -> diverge_inv (HMMadd_free_block 4194360 s).
Proof.
  intros (Ht & Hf & Hsz & Hp & HfB & HpB & Hbrk & Hbf & Hnf).
  unfold HMMadd_free_block, HMMis_block_found.
  change (4194360 =? 0) with false. cbv iota.
  rewrite Hsz.
  change (wrap (8388512 / ALIGNMENT - 1)) with 1048563.
  change (1048563 <? MULTIPLES_MAX) with true. cbv iota.
  destruct (negb (is_added s 4194360 =? 0)).
  { unfold diverge_inv. tauto. }
  unfold diverge_inv.
  destruct (block_freq (set_is_added (with_cfs s (wrap (current_free_size s + 8388512))) 4194360 1) 1048563 =? 0) eqn:E;
    unfold_fields; rewrite ?Z.eqb_refl; repeat mem_step;
    (split; [exact Ht|]); (split; [exact Hf|]); (split; [exact Hsz|]);
    (split; [exact Hp|]); (split; [exact HfB|]); (split; [exact HpB|]);
    (split; [exact Hbrk|]); (split; [right; reflexivity|]).
  - left. reflexivity.
  - destruct Hbf as [->| ->]; [left|right]; reflexivity.
Qed.

Lemma diverge_remove s f :
  diverge_inv s ->
  HMMremove_free_block f 4194360 s = None \/
  exists s', HMMremove_free_block f 4194360 s = Some s' /\ diverge_inv s'.
Proof.
  intros Hinv. pose proof Hinv as (Ht & Hf & Hsz & Hp & HfB & HpB & Hbrk & Hbf & Hnf).
  unfold HMMremove_free_block.
  change (4194360 =? 0) with false. cbv iota.
  rewrite Hsz.
  change (wrap (8388512 / ALIGNMENT - 1)) with 1048563.
  change (1048563 <? MULTIPLES_MAX) with true. cbv iota.
  destruct f as [|f]; [left; reflexivity|right]. cbn [remove_loop].
  destruct Hbf as [E|E]; rewrite E.
  - change (0 =? 0) with true. cbv iota. exists s. split; [reflexivity|exact Hinv].
  - change (4194360 =? 0) with false. rewrite Z.eqb_refl.
    change (negb (0 =? 0)) with false. cbv iota.
    eexists. split; [reflexivity|].
    unfold diverge_inv. unfold_fields. rewrite ?Z.eqb_refl, ?E. repeat mem_step.
    split; [exact Ht|]. split; [exact Hf|]. split; [exact Hsz|].
    split; [exact Hp|]. split; [exact HfB|]. split; [exact HpB|].
    split; [exact Hbrk|]. split; [exact Hnf|exact Hnf].
Qed.

Lemma diverge_grow s :
  diverge_inv s ->
  diverge_inv
    (let s4 := set_size s (tail s) (wrap (size s (tail s) + 0)) in
     set_next s4 (tail s4) 0).
Proof.
  intros (Ht & Hf & Hsz & Hp & HfB & HpB & Hbrk & Hbf & Hnf).
  cbv zeta. unfold diverge_inv. unfold_fields. rewrite !Ht. repeat mem_step.
  unfold size in Hsz. rewrite Hsz.
  split; [reflexivity|]. split; [exact Hf|]. split; [reflexivity|].
  split; [exact Hp|]. split; [exact HfB|]. split; [exact HpB|].
  split; [exact Hbrk|]. split; [exact Hbf|exact Hnf].
Qed.

Lemma diverge_scan s f :
  diverge_inv s ->
  scan_loop f 4194360 wrapping_request s = None \/
  scan_loop f 4194360 wrapping_request s
  = Some (0, HMMadd_free_block 4194360 s).
Proof.
  intros Hinv. pose proof Hinv as (Ht & Hf & Hsz & Hp & HfB & HpB & _).
  pose proof (diverge_add s Hinv) as (_ & _ & _ & Hp1 & HfB1 & HpB1 & _).
  destruct f as [|f]; [left; reflexivity|]. cbn [scan_loop].
  change (4194360 =? 0) with false. cbv iota.
  rewrite Hf, Hsz.
  change ((1 =? 1) && (wrapping_request <=? 8388512)) with false. cbv iota.
  change (1 =? 1) with true. cbv iota. rewrite Hp1.
  destruct f as [|f]; [left; reflexivity|]. cbn [scan_loop].
  change (4194304 =? 0) with false. cbv iota.
  rewrite HfB1. change (0 =? 1) with false. cbn [andb]. cbv iota. rewrite HpB1.
  destruct f as [|f]; [left; reflexivity|right]. reflexivity.
Qed.

Lemma diverge_sbrk s :
  diverge_inv s ->
  exists s2, sbrk 0 s = (Some (brk s), s2) /\ diverge_inv s2.
Proof.
  intros (Ht & Hf & Hsz & Hp & HfB & HpB & Hbrk & Hbf & Hnf).
  unfold sbrk. change (to_signed 0) with 0. rewrite Z.add_0_r.
  replace ((brk_lo s <=? brk s) && (brk s <=? brk_hi s)) with true
    by (symmetry; apply andb_true_intro; split; apply Z.leb_le; lia).
  eexists. split; [reflexivity|].
  unfold diverge_inv, is_free, size, prev, next_free. cbn.
  tauto.
Qed.

(** From a heap as [diverge_inv] describes no amount of fuel lets the
    wrapping request return. *)
Lemma diverge_get_free_chunk :
  forall f s, diverge_inv s -> HMMget_free_chunk f wrapping_request s = None.
Proof.
  induction f as [|f IH]; intros s Hinv; [reflexivity|].
  cbn [HMMget_free_chunk].
  assert (Hfast : HMMget_free_block wrapping_request s = (0, s)) by reflexivity.
  rewrite Hfast. change (negb (0 =? 0)) with false. cbv iota.
  pose proof Hinv as (Ht & _). rewrite Ht.
  destruct (diverge_scan s f Hinv) as [->| ->]; [reflexivity|].
  change (negb (0 =? 0)) with false. cbv iota.
  change (num_allocated_bytes wrapping_request) with 0.
  destruct (diverge_sbrk _ (diverge_add s Hinv)) as (s2 & -> & Hinv2).
  pose proof Hinv2 as (Ht2 & _). rewrite Ht2.
  destruct (diverge_remove s2 f Hinv2) as [->|(s3 & -> & Hinv3)]; [reflexivity|].
  pose proof Hinv3 as (Ht3 & Hf3 & _).
  rewrite Ht3 at 1 2. rewrite Hf3.
  change (negb (4194360 =? 0) && (1 =? 1)) with true. cbv iota.
  apply IH. apply (diverge_grow s3 Hinv3).
Qed.

(** C10, at the failing input: after [malloc(16)] on the empty heap the
    tail chunk is free, and [malloc(2^64 - 8 MiB - 40)] then computes a grow
    amount of 0, "extends" the break by nothing, and recurses on an
    unchanged heap: whatever the fuel, the call does not return. *)
Theorem wrapping_request_never_returns :
  forall fuel,
    bind (HMMmalloc 8 16 heap0)
         (fun '(_, s1) => HMMmalloc fuel wrapping_request s1) = None.
Proof.
  intros fuel.
  destruct (HMMmalloc 8 16 heap0) as [[p s1]|] eqn:E; [|reflexivity].
  cbn [bind]. unfold HMMmalloc at 1.
  change (wrapping_request =? 0) with false. cbv iota.
  change (align_up wrapping_request) with wrapping_request.
  rewrite diverge_get_free_chunk; [reflexivity|].
  assert (H : match HMMmalloc 8 16 heap0 with
              | Some (_, s) =>
                  tail s = 4194360 /\ is_free s 4194360 = 1 /\
                  size s 4194360 = 8388512 /\ prev s 4194360 = 4194304 /\
                  is_free s 4194304 = 0 /\ prev s 4194304 = 0 /\
                  (brk_lo s <=? brk s) = true /\ (brk s <=? brk_hi s) = true /\
                  block_freq s 1048563 = 4194360 /\ next_free s 4194360 = 0
              | None => False
              end) by (vm_compute; repeat split; reflexivity).
  rewrite E in H.
  destruct H as (A1 & A2 & A3 & A4 & A5 & A6 & A7 & A8 & A9 & A10).
  apply Z.leb_le in A7, A8.
  unfold diverge_inv. repeat split; try assumption; [right|left]; assumption.
Qed.

Lemma fchain_fun st : forall l1 l2 p, fchain st p l1 -> fchain st p l2 -> l1 = l2.
Proof.
  induction l1 as [|a l1 IH]; intros l2 p H1 H2.
  - destruct l2 as [|b l2]; [reflexivity|].
    cbn in H1, H2. destruct H2 as (E & N & _). congruence.
  - destruct l2 as [|b l2].
    + cbn in H1, H2. destruct H1 as (E & N & _). congruence.
    + destruct H1 as (E1 & _ & H1). destruct H2 as (E2 & _ & H2).
      subst p. subst b. f_equal.
      apply (IH l2 _ H1 H2).
Qed.

(** C2: if [start] begins a run of [k >= 2] consecutive free chunks that
    ends at a non-free chunk or at the end of the list, [HMMcoalesce]
    returns; afterwards [start.size] is the sum of the [k] payload sizes
    plus [k - 1] header sizes, [start.next] is the chunk (or null) that
    ended the walk and that chunk's [prev] is [start], [tail] is [start]
    when the run reached the end of the list, and [start] is in no bucket
    of the freelist index. *)
Theorem coalesce_merges_free_run st L bk pre run post fuel :
  bytes_ok st -> chunk_list st L -> index_ok st L bk ->
  L = pre ++ run ++ post -> (2 <= length run)%nat ->
  (forall c, In c run -> is_free st c = 1) ->
  post = [] \/ is_free st (hd 0 post) <> 1 ->
  (2 * length L < fuel)%nat ->
  exists st',
    HMMcoalesce fuel (hd 0 run) st = Some st' /\
    size st' (hd 0 run)
    = sum_sizes st run + HDR * (Z.of_nat (length run) - 1) /\
    next st' (hd 0 run) = hd 0 post /\
    (post <> [] -> prev st' (hd 0 post) = hd 0 run) /\
    (post = [] -> tail st' = hd 0 run) /\
    (forall i l, 0 <= i < MULTIPLES_MAX ->
       fchain st' (block_freq st' i) l -> ~ In (hd 0 run) l).
Proof.
  intros Hb Hcl Hix HL Hlen Hfree Hstop Hfuel.
  destruct run as [|start rest]; [cbn in Hlen; lia|].
  assert (Hrest : rest <> []) by (intros ->; cbn in Hlen; lia).
  cbn [hd].
  destruct (HMMcoalesce_spec st L bk pre start rest post fuel
              Hb Hcl Hix HL Hrest Hfree Hstop Hfuel)
    as (st' & bk' & Hco & _ & _ & Hix' & Hsz & Hnx & Hpv & Htl & Hmem & _).
  exists st'. split; [exact Hco|]. split.
  { rewrite Hsz. cbn [length]. lia. }
  split; [exact Hnx|]. split; [intros Hp; apply (Hpv Hp)|].
  split; [exact Htl|].
  intros i l Hi Hch Hin.
  destruct (Hix' i Hi) as (Hch' & _).
  rewrite (fchain_fun st' _ _ _ Hch Hch') in Hin.
  apply (Hmem i start Hi) in Hin. destruct Hin as (_ & N).
  apply N. left. reflexivity.
Qed.

(** * A concrete well-formed heap *)

Ltac closed := vm_compute; repeat split; first [reflexivity | discriminate].

Lemma heap1_bytes : bytes_ok heap1.
Proof.
  intros x. unfold heap1, put_chunk. cbn [mem].
  repeat (apply store64_bytes || apply store8_bytes). intros y. lia.
Qed.

Lemma heap1_chunk_list : chunk_list heap1 chunks1.
Proof.
  unfold chunk_list, chunks1. cbn [tiling hd last].
  split; [closed|].
  split; [reflexivity|]. split; [reflexivity|].
  intros _. closed.
Qed.

Lemma heap1_index : index_ok heap1 chunks1 buckets1.
Proof.
  intros i Hi. unfold buckets1. cbn [block_freq heap1].
  destruct (Z.eqb_spec i 7) as [->|Hne].
  - split; [closed|].
    split; [constructor; [intros []|constructor]|].
    intros a [<-|[]].
    split; [right; left; reflexivity|closed].
  - split; [reflexivity|]. split; [constructor|intros a []].
Qed.

Lemma heap1_ok : heap_ok heap1 chunks1 buckets1.
Proof.
  split; [exact heap1_bytes|]. split; [exact heap1_chunk_list|].
  split; [exact heap1_index|]. split.
  - intros a [<-|[<-|[<-|[]]]] H; try (exfalso; apply H; reflexivity).
    split; [closed|left; reflexivity].
  - intros a [<-|[<-|[<-|[]]]] H; try discriminate H.
    intros _. left. reflexivity.
Qed.

Lemma heap1_env : env_ok heap1.
Proof. closed. Qed.

Lemma result_state (o : option (Z * state)) (d : state) (r : Z) :
  option_map fst o = Some r ->
  o = Some (r, match o with Some (_, s) => s | None => d end).
Proof. destruct o as [[a s]|]; cbn; intros H; [injection H as ->; reflexivity|discriminate]. Qed.

Lemma grow_request_is_floor_witness :
  (exists k, sbrk_log heap0_grown
             = repeat (floor_grow_bytes 16) k ++ sbrk_log heap0) /\
  (ALLOCATED_BYTES | floor_grow_bytes 16).
Proof.
  apply (grow_request_is_floor 8 16 heap0 4194304 heap0_grown).
  unfold heap0_grown. apply result_state. vm_compute. reflexivity.
Defined.

Lemma coalesce_merges_free_run_witness :
  exists st',
    HMMcoalesce 7 4194304 (set_is_free heap1 4194304 1) = Some st' /\
    size st' 4194304
    = sum_sizes (set_is_free heap1 4194304 1) [4194304; 4194408]
      + HDR * (Z.of_nat 2 - 1) /\
    next st' 4194304 = 4194512 /\
    ([4194512] <> [] -> prev st' 4194512 = 4194304) /\
    ([4194512] = [] -> tail st' = 4194304) /\
    (forall i l, 0 <= i < MULTIPLES_MAX ->
       fchain st' (block_freq st' i) l -> ~ In 4194304 l).
Proof.
  destruct (set_is_free_spec heap1 chunks1 buckets1 4194304 1
              heap1_bytes heap1_chunk_list heap1_index (or_introl eq_refl))
    as (Hb & Hcl & Hix & _).
  apply (coalesce_merges_free_run (set_is_free heap1 4194304 1) chunks1 buckets1
           [] [4194304; 4194408] [4194512] 7 Hb Hcl Hix).
  - reflexivity.
  - cbn. lia.
  - intros c [<-|[<-|[]]]; vm_compute; reflexivity.
  - right. vm_compute. discriminate.
  - cbn. lia.
Defined.



(** C9: in a well-formed heap whose chunks lie below the break, let [c] be
    an allocated chunk and [m > 0] a size whose rounding is neither 0 nor
    [c]'s payload size.  If the allocation inside [HMMrealloc] finds no
    chunk (it returns null), [HMMrealloc] returns null, and in the state it
    leaves [c] is still allocated and its payload bytes are unchanged. *)
Theorem realloc_failure_keeps_block fuel st L bk c m st1 :
  bytes_ok st -> chunk_list st L -> index_ok st L bk -> env_ok st ->
  hd 0 L + span st L <= brk st ->
  In c L -> is_free st c = 0 ->
  0 < m -> align_up m <> 0 -> align_up m <> size st c ->
  HMMget_free_chunk fuel (align_up m) st = Some (0, st1) ->
  HMMrealloc fuel (c + HDR) m st = Some (0, st1) /\
  is_free st1 c = 0 /\
  forall i, 0 <= i < size st c ->
    load8 (mem st1) (c + HDR + i) = load8 (mem st) (c + HDR + i).
Proof. apply realloc_fail_keeps_block. Qed.

Lemma realloc_failure_keeps_block_witness :
  HMMrealloc 8 (4194512 + HDR) 16777216 heap1 = Some (0, heap1_failed) /\
  is_free heap1_failed 4194512 = 0 /\
  forall i, 0 <= i < size heap1 4194512 ->
    load8 (mem heap1_failed) (4194512 + HDR + i)
    = load8 (mem heap1) (4194512 + HDR + i).
Proof.
  apply (realloc_failure_keeps_block 8 heap1 chunks1 buckets1 4194512 16777216
           heap1_failed heap1_bytes heap1_chunk_list heap1_index heap1_env).
  - vm_compute. discriminate.
  - right. right. left. reflexivity.
  - vm_compute. reflexivity.
  - lia.
  - vm_compute. discriminate.
  - vm_compute. discriminate.
  - unfold heap1_failed. change (align_up 16777216) with 16777216.
    apply result_state. vm_compute. reflexivity.
Defined.

(** * Derived facts *)

Lemma fchain_head st p l : fchain st p l -> p = hd 0 l.
Proof. destruct l as [|a l]; [intros H; exact H|intros (H & _); exact H]. Qed.

Lemma bk_add_remove bk i b j :
  ~ In b (bk i) -> bk_remove (bk_add bk i b) i b j = bk j.
Proof.
  intros Hn. unfold bk_remove, bk_add.
  destruct (Z.eqb_spec j i) as [->|_]; [|reflexivity].
  cbn [List.remove]. destruct (Z.eq_dec b b) as [_|N]; [|contradiction].
  apply notin_remove. exact Hn.
Qed.

(** Inserting a chunk and removing it again. *)
Lemma add_remove_round_trip st L bk b fuel :
  bytes_ok st -> chunk_list st L -> index_ok st L bk -> In b L ->
  bucket_of st b < MULTIPLES_MAX -> is_added st b = 0 ->
  0 <= current_free_size st < WORD -> (length L < fuel)%nat ->
  exists st',
    HMMremove_free_block fuel b (HMMadd_free_block b st) = Some st' /\
    bytes_ok st' /\ chunk_list st' L /\ index_ok st' L bk /\
    current_free_size st' = current_free_size st /\
    (forall i, 0 <= i < MULTIPLES_MAX -> block_freq st' i = block_freq st i) /\
    (forall a, In a L ->
       is_added st' a = is_added st a /\ is_free st' a = is_free st a /\
       size st' a = size st a /\ prev st' a = prev st a /\
       next st' a = next st a).
Proof.
  intros Hb Hcl Hix HbL Hlt Hz Hcfs Hfuel.
  pose proof (chunk_list_apart st L Hb Hcl) as Hap.
  pose proof (chunk_list_placed st L Hb Hcl) as Hpl.
  destruct (HMMadd_spec st L bk b Hb Hap Hpl Hix HbL) as (Hs1 & Hb1 & Hadd & _).
  destruct (Hadd Hlt Hz) as (Hix1 & Hia1 & Hcfs1 & Hoth1).
  set (st1 := HMMadd_free_block b st) in *.
  pose proof (bucket_of_step L st st1 b Hap Hs1 HbL) as Hbo.
  destruct (HMMremove_spec st1 L _ b fuel Hb1 Hap Hpl Hix1 HbL Hfuel)
    as (st' & Hrm & Hix' & Hs' & Hb' & Hoth' & Hin' & _).
  rewrite Hbo in Hix', Hin'.
  assert (Hnin : ~ In b (bk (bucket_of st b))).
  { intros Hin.
    destruct (Hix (bucket_of st b) (conj (bucket_of_nonneg st b) Hlt))
      as (_ & _ & Hm).
    destruct (Hm b Hin) as (_ & _ & E). congruence. }
  destruct Hin' as (Hia' & Hcfs'); [|exact Hlt|].
  { unfold bk_add. rewrite Z.eqb_refl. left. reflexivity. }
  pose proof (index_step_trans L st st1 st' Hs1 Hs') as Hs.
  assert (Hixf : index_ok st' L bk).
  { apply (index_ok_ext st' L
             (bk_remove (bk_add bk (bucket_of st b) b) (bucket_of st b) b) bk);
      [|exact Hix'].
    intros i _. symmetry. apply bk_add_remove. exact Hnin. }
  exists st'. split; [exact Hrm|]. split; [exact Hb'|].
  split; [apply (chunk_list_step L st st' Hap Hs Hcl)|].
  split; [exact Hixf|]. split.
  { rewrite Hcfs', Hcfs1.
    destruct (index_step_fields L st st1 b Hap Hs1 HbL) as (_ & -> & _).
    rewrite <- (wrap_small (current_free_size st)) at 2 by exact Hcfs.
    unfold wrap. rewrite Zminus_mod_idemp_l. f_equal. lia. }
  split.
  { intros i Hi. destruct (Hix i Hi) as (A & _). destruct (Hixf i Hi) as (B & _).
    rewrite (fchain_head _ _ _ A), (fchain_head _ _ _ B). reflexivity. }
  intros a Ha. split.
  - destruct (Z.eq_dec a b) as [->|Hne]; [congruence|].
    rewrite (Hoth' a Ha Hne). apply (Hoth1 a Ha Hne).
  - apply (index_step_fields L st st' a Hap Hs Ha).
Qed.

(** * The concrete heaps as arenas *)

Lemma heap1_arena : arena_ok heap1 chunks1 buckets1.
Proof.
  split; [exact heap1_bytes|]. split; [exact heap1_chunk_list|].
  split; [exact heap1_index|]. split; [exact heap1_env|].
  intros _. vm_compute. reflexivity.
Qed.

Lemma heap1_based : based heap1 chunks1.
Proof. intros a [<-|[<-|[<-|[]]]]; vm_compute; discriminate. Qed.

Lemma heap1_aligned : aligned heap1 chunks1.
Proof.
  split; [vm_compute; reflexivity|].
  intros a [<-|[<-|[<-|[]]]]; vm_compute; reflexivity.
Qed.

Lemma heap0_arena : arena_ok heap0 [] (fun _ => []).
Proof.
  split; [intros x; cbn; lia|]. split.
  { split; [exact I|]. split; [reflexivity|]. split; [reflexivity|].
    intros N. contradiction. }
  split.
  { intros i _. split; [reflexivity|]. split; [constructor|intros a []]. }
  split; [vm_compute; repeat split; discriminate|].
  intros N. contradiction.
Qed.

(** * [HMMmalloc], stated on its result *)

Lemma malloc_payloads st L bk n fuel a :
  arena_ok st L bk -> 0 <= n -> n + HDR + ALLOCATED_BYTES + 8 < 2 ^ 63 ->
  (2 * length L + 6 < fuel)%nat ->
  In a L -> is_free st a = 0 ->
  exists p st',
    HMMmalloc fuel n st = Some (p, st') /\
    (p <> a + HDR ->
     is_free st' a = 0 /\ size st' a = size st a /\
     forall i, 0 <= i < size st a ->
       load8 (mem st') (a + HDR + i) = load8 (mem st) (a + HDR + i)).
Proof.
  intros Ha Hn Hb Hfuel HaL Hfa.
  destruct (malloc_spec st L bk n fuel Ha Hn Hb Hfuel)
    as [(c & st' & L' & bk' & Hm & Hc & Hho)|(st' & bk' & Hm & Hr)].
  - exists (c + HDR), st'. split; [exact Hm|]. intros Hne.
    assert (Hac : a <> c) by (intros ->; apply Hne; reflexivity).
    pose proof Hho as (_ & _ & _ & _ & Hfree & Hsame & _).
    split; [|split].
    + destruct (Hfree a HaL) as (_ & Hf). rewrite (Hf Hac). exact Hfa.
    + apply Hsame; [exact HaL|exact Hac|rewrite Hfa; discriminate].
    + intros i Hi.
      apply (handed_out_keeps_payloads st L bk _ c st' L' bk' a i Hho HaL Hac Hfa Hi).
  - exists 0, st'. split; [exact Hm|]. intros _.
    destruct Hr as (_ & _ & _ & _ & _ & _ & Hf & Hfr & _).
    destruct (Hf a HaL) as (F1 & F2).
    split; [rewrite F1; exact Hfa|]. split; [exact F2|].
    intros i Hi. pose proof Ha as (Hbs & Hcl & _).
    destruct (chunk_list_guarded st L a Hbs Hcl HaL Hfa) as (_ & _ & Hg).
    unfold load8. apply Hfr. intros b Hb2.
    destruct (Hg b Hb2); unfold HDR in *; lia.
Qed.

(** * The operations on sound arenas *)

Lemma handed_out_length st L bk sz c st' L' bk' :
  handed_out st L bk sz c st' L' bk' -> (length L' <= length L + 2)%nat.
Proof.
  intros ((Hb' & Hcl' & _) & _ & _ & _ & _ & _ & Hnew & _).
  pose proof (tiling_NoDup st' L' Hb' (proj1 Hcl')) as Hnd.
  assert (Hinc : incl L' (brk st :: (c + HDR + sz) :: L)).
  { intros a Ha. destruct (Hnew a Ha) as [H|[H|H]].
    - right. right. exact H.
    - right. left. symmetry. exact H.
    - left. symmetry. exact H. }
  pose proof (NoDup_incl_length Hnd Hinc) as Hlen. cbn [length] in Hlen. lia.
Qed.

Lemma handed_out_based st L bk sz c st' L' bk' :
  0 <= sz -> env_ok st -> based st L ->
  handed_out st L bk sz c st' L' bk' -> based st' L'.
Proof.
  intros Hsz (_ & Hwin & _) Hbase
    (_ & HcL' & _ & _ & _ & _ & Hnew & Hlo & _) a Ha.
  rewrite Hlo.
  assert (Hc : brk_lo st <= c).
  { destruct (Hnew c HcL') as [H|[H|H]];
      [apply Hbase; exact H|unfold HDR in *; lia|lia]. }
  destruct (Hnew a Ha) as [H|[H|H]];
    [apply Hbase; exact H|unfold HDR in *; lia|lia].
Qed.

(** [HMMmalloc] on a sound arena. *)
Lemma malloc_sound st L bk n fuel :
  sound st L bk -> 0 <= n -> n + HDR + ALLOCATED_BYTES + 8 < 2 ^ 63 ->
  (2 * length L + 6 < fuel)%nat ->
  exists p st' L' bk',
    HMMmalloc fuel n st = Some (p, st') /\ sound st' L' bk' /\
    (length L' <= length L + 2)%nat /\
    (p = 0 \/
     exists c, p = c + HDR /\ In c L' /\ is_free st' c = 0 /\
       n <= size st' c /\ (c + HDR) mod 8 = 0 /\
       (In c L -> is_free st c = 1)) /\
    (forall a, In a L -> is_free st a = 0 ->
       a + HDR <> p /\ In a L' /\ is_free st' a = 0 /\ size st' a = size st a /\
       forall i, 0 <= i < size st a ->
         load8 (mem st') (a + HDR + i) = load8 (mem st) (a + HDR + i)).
Proof.
  intros (Ha & Hbase & Hif & Hal & Hhi) Hn Hbig Hfuel.
  assert (Hn8 : n + 8 <= WORD)
    by (clear - Hn Hbig; unfold WORD, HDR, ALLOCATED_BYTES in *; lia).
  destruct (request_size_bounds n Hn Hn8) as (Hs0 & Hs1 & Hs2).
  destruct (malloc_spec st L bk n fuel Ha Hn Hbig Hfuel)
    as [(c & st' & L' & bk' & Hm & Hc & Hho)|(st' & bk' & Hm & Hr)].
  - pose proof Hho as (Ha' & HcL' & Hcf' & Hfit & Hfree & Hsame & Hnew & Hlo' &
                       Hhi' & _ & _ & _ & HF).
    destruct (HF Hif) as (Hif' & Hwas).
    destruct (handed_out_aligned st L bk n c st' L' bk' Hn Hn8 Hal Hho)
      as (Hpal & Hal').
    exists (c + HDR), st', L', bk'. split; [exact Hm|].
    split.
    { split; [exact Ha'|].
      assert (Hs0' : 0 <= request_size n) by lia.
      split; [apply (handed_out_based st L bk (request_size n) c st' L' bk'
                       Hs0' (proj1 (proj2 (proj2 (proj2 Ha)))) Hbase Hho)|].
      split; [exact Hif'|]. split; [exact Hal'|]. rewrite Hhi'. exact Hhi. }
    split; [apply (handed_out_length st L bk _ c st' L' bk' Hho)|].
    split.
    { right. exists c. split; [reflexivity|]. split; [exact HcL'|].
      split; [exact Hcf'|]. split; [lia|]. split; [exact Hpal|exact Hwas]. }
    intros a HaL Hfa.
    assert (Hac : a <> c).
    { intros ->. rewrite (Hwas HaL) in Hfa. discriminate. }
    split; [lia|]. destruct (Hfree a HaL) as (HaL' & Hf).
    split; [exact HaL'|]. split; [rewrite (Hf Hac); exact Hfa|].
    split; [apply Hsame; [exact HaL|exact Hac|rewrite Hfa; discriminate]|].
    intros i Hi.
    apply (handed_out_keeps_payloads st L bk _ c st' L' bk' a i Hho HaL Hac
             Hfa Hi).
  - pose proof Hr as (Ha' & _ & _ & Hbrk' & Hlo' & Hhi' & Hf & Hfr & _ & HF).
    exists 0, st', L, bk'. split; [exact Hm|].
    split.
    { split; [exact Ha'|].
      split; [intros a HaL; rewrite Hlo'; apply Hbase; exact HaL|].
      split; [apply HF, Hif|].
      split; [split; [rewrite Hbrk'; exact (proj1 Hal)|exact (proj2 Hal)]|].
      rewrite Hhi'. exact Hhi. }
    split; [lia|]. split; [left; reflexivity|].
    intros a HaL Hfa. pose proof Ha as (Hbs & Hcl & _).
    destruct (chunk_list_placed st L Hbs Hcl a HaL) as (Ha0 & _).
    split; [unfold HDR; lia|]. split; [exact HaL|].
    destruct (Hf a HaL) as (F1 & F2).
    split; [rewrite F1; exact Hfa|]. split; [exact F2|].
    intros i Hi.
    destruct (chunk_list_guarded st L a Hbs Hcl HaL Hfa) as (_ & _ & Hg).
    unfold load8. apply Hfr. intros b Hb2.
    destruct (Hg b Hb2); unfold HDR in *; lia.
Qed.

(** [HMMfree] on a sound arena. *)
Lemma free_sound st L bk c fuel :
  sound st L bk -> In c L -> is_free st c = 0 -> (2 * length L < fuel)%nat ->
  exists st' L' bk',
    HMMfree fuel (c + HDR) st = Some st' /\ sound st' L' bk' /\
    (length L' <= length L)%nat /\
    (forall a, In a L' -> is_free st' a = 0 ->
       a <> c /\ In a L /\ is_free st a = 0) /\
    (forall a, In a L -> a <> c -> is_free st a = 0 ->
       In a L' /\ is_free st' a = 0 /\ size st' a = size st a /\
       forall i, 0 <= i < size st a ->
         load8 (mem st') (a + HDR + i) = load8 (mem st) (a + HDR + i)).
Proof.
  intros (Ha & Hbase & Hif & Hal & Hhi) HcL Hcf Hfuel.
  destruct (HMMfree_spec st L bk c fuel Ha Hbase Hhi HcL Hcf Hfuel)
    as (st' & L' & bk' & Hfr & Ha' & Hk & Hlog & HF).
  pose proof Hk as (K1 & K2 & K3 & K4 & K5 & K6).
  exists st', L', bk'. split; [exact Hfr|]. split.
  { split; [exact Ha'|].
    split; [apply (kept_based st L c st' L' Hbase Hk)|].
    split; [apply HF, Hif|]. split.
    - split; [|intros a Ha2; apply (proj2 Hal), K1, Ha2].
      destruct Hlog as [(_ & ->)|(t & _ & _ & _ & Hin)];
        [exact (proj1 Hal)|apply (proj2 Hal), Hin].
    - rewrite K6. exact Hhi. }
  split.
  { pose proof Ha' as (Hb' & Hcl' & _).
    apply (NoDup_incl_length (tiling_NoDup st' L' Hb' (proj1 Hcl'))).
    intros a Ha2. apply K1, Ha2. }
  split.
  { intros a Ha2 Hz. destruct (K2 a Ha2 Hz) as (A & B).
    split; [exact A|]. split; [apply K1, Ha2|exact B]. }
  intros a HaL Hne Hz. destruct (K3 a HaL Hne Hz) as (A & B & C).
  split; [exact A|]. split; [exact B|]. split; [exact C|].
  intros i Hi. pose proof Ha as (Hbs & Hcl & _).
  destruct (chunk_list_guarded st L a Hbs Hcl HaL Hz) as (_ & _ & Hg).
  unfold load8. apply K4. intros b Hb2.
  destruct (Hg b Hb2); unfold HDR in *; lia.
Qed.

(** The copy of [HMMrealloc] (line 459) writes into the payload of the new
    chunk only. *)
Lemma copy_sound st L bk src c2 asz :
  sound st L bk -> In c2 L -> is_free st c2 = 0 -> asz <= size st c2 ->
  let st2 := with_mem st (memcpy (mem st) (c2 + HDR) src asz) in
  sound st2 L bk /\
  (forall a, In a L ->
     is_free st2 a = is_free st a /\ size st2 a = size st a) /\
  (forall i, 0 <= i < asz ->
     load8 (mem st2) (c2 + HDR + i) = load8 (mem st) (src + i)) /\
  (forall x, ~ (c2 + HDR <= x < c2 + HDR + asz) -> mem st2 x = mem st x).
Proof.
  intros (Ha & Hbase & Hif & Hal & Hhi) Hc2 Hf2 Hasz st2.
  pose proof Ha as (Hb & Hcl & _).
  destruct (chunk_list_guarded st L c2 Hb Hcl Hc2 Hf2) as (_ & _ & Hg).
  assert (Hmem : mem st2 = memcpy (mem st) (c2 + HDR) src asz)
    by (unfold st2; apply mem_with_mem).
  assert (Hout : forall x, ~ (c2 + HDR <= x < c2 + HDR + asz) ->
                           mem st2 x = mem st x).
  { intros x Hx. rewrite Hmem. unfold memcpy.
    destruct (Z.leb_spec (c2 + HDR) x); destruct (Z.ltb_spec x (c2 + HDR + asz));
      cbn [andb]; try reflexivity. exfalso. apply Hx. lia. }
  assert (Hhdr : forall a x, In a L -> a <= x < a + HDR -> mem st2 x = mem st x).
  { intros a x HaL Hx. apply Hout. destruct (Hg a HaL); lia. }
  assert (Hb2 : bytes_ok st2).
  { intros x. rewrite Hmem. unfold memcpy.
    destruct ((c2 + HDR <=? x) && (x <? c2 + HDR + asz)); apply Hb. }
  destruct (payload_write_arena st st2 L bk Ha Hb2 Hhdr) as (A & _ & C);
    try (unfold st2; reflexivity).
  assert (F : forall a, In a L ->
            is_free st2 a = is_free st a /\ size st2 a = size st a).
  { intros a HaL.
    destruct (header_fields_frame st st2 a (fun x Hx => Hhdr a x HaL Hx))
      as (_ & F1 & F2 & _). split; assumption. }
  split.
  { split; [exact A|]. split; [exact Hbase|]. split; [apply C, Hif|].
    split; [exact Hal|exact Hhi]. }
  split; [exact F|]. split; [|exact Hout].
  intros i Hi. unfold load8. rewrite Hmem. unfold memcpy.
  destruct (Z.leb_spec (c2 + HDR) (c2 + HDR + i)); [|lia].
  destruct (Z.ltb_spec (c2 + HDR + i) (c2 + HDR + asz)); [|lia].
  cbn [andb]. f_equal. lia.
Qed.

(** Payloads of two different chunks do not overlap. *)
Lemma payloads_apart st L a b :
  bytes_ok st -> chunk_list st L -> In a L -> In b L -> a <> b ->
  is_free st a = 0 -> is_free st b = 0 ->
  forall i, 0 <= i < size st a ->
    ~ (b + HDR <= a + HDR + i < b + HDR + size st b).
Proof.
  intros Hb Hcl Ha Hb2 Hne Hfa Hfb i Hi.
  destruct (chunk_list_guarded st L a Hb Hcl Ha Hfa) as (_ & _ & Hga).
  destruct (chunk_list_guarded st L b Hb Hcl Hb2 Hfb) as (_ & _ & Hgb).
  pose proof (size_range st b Hb).
  destruct (Hga b Hb2); destruct (Hgb a Ha); unfold HDR in *; lia.
Qed.

(** [HMMrealloc] to a different size, on a sound arena. *)
Lemma realloc_sound st L bk c n fuel :
  sound st L bk -> In c L -> is_free st c = 0 ->
  0 < n -> n + HDR + ALLOCATED_BYTES + 16 < 2 ^ 63 ->
  align_up n <> size st c -> (2 * length L + 6 < fuel)%nat ->
  exists p st' L' bk',
    HMMrealloc fuel (c + HDR) n st = Some (p, st') /\ sound st' L' bk' /\
    (forall a, In a L -> a <> c -> is_free st a = 0 ->
       a + HDR <> p /\ In a L' /\ is_free st' a = 0 /\
       size st' a = size st a /\
       forall i, 0 <= i < size st a ->
         load8 (mem st') (a + HDR + i) = load8 (mem st) (a + HDR + i)) /\
    (p = 0 /\ In c L' /\ is_free st' c = 0 /\ size st' c = size st c /\
     (forall i, 0 <= i < size st c ->
        load8 (mem st') (c + HDR + i) = load8 (mem st) (c + HDR + i)) \/
     exists c2, p = c2 + HDR /\ c2 <> c /\ In c2 L' /\ is_free st' c2 = 0 /\
       n <= size st' c2 /\ (c2 + HDR) mod 8 = 0 /\
       (forall a, In a L' -> is_free st' a = 0 -> a <> c) /\
       (forall i, 0 <= i < size st c -> i < size st' c2 ->
          load8 (mem st') (c2 + HDR + i) = load8 (mem st) (c + HDR + i))).
Proof.
  intros Hs HcL Hcf Hn Hbig Hdiff Hfuel.
  pose proof Hs as (Ha & _). pose proof Ha as (Hb & Hcl & _).
  destruct (chunk_list_placed st L Hb Hcl c HcL) as (Hc0 & Hc1).
  destruct (align_up_bounds n ltac:(lia)
              ltac:(unfold WORD, HDR, ALLOCATED_BYTES in *; lia))
    as (Hsz1 & Hsz2).
  assert (Hwc : wrap (c + HDR - HDR) = c)
    by (replace (c + HDR - HDR) with c by lia; apply wrap_small;
        unfold HDR, WORD in *; lia).
  assert (Hun : HMMrealloc fuel (c + HDR) n st =
    match HMMmalloc fuel (align_up n) st with
    | None => None
    | Some (q, st1) =>
      if q =? 0 then Some (0, st1)
      else
        let asz := if size st1 c <? size st1 (wrap (q - HDR))
                   then size st1 c else size st1 (wrap (q - HDR)) in
        match HMMfree fuel (c + HDR)
                (with_mem st1 (memcpy (mem st1) q (c + HDR) asz)) with
        | None => None
        | Some st3 => Some (q, st3)
        end
    end).
  { unfold HMMrealloc. rewrite Hwc.
    destruct (Z.eqb_spec (c + HDR) 0) as [E|_]; [unfold HDR in *; lia|].
    destruct (Z.eqb_spec (align_up n) 0) as [E|_]; [lia|].
    destruct (Z.eqb_spec (align_up n) (size st c)) as [E|_]; [contradiction|].
    reflexivity. }
  destruct (malloc_sound st L bk (align_up n) fuel Hs ltac:(lia)
              ltac:(unfold HDR, ALLOCATED_BYTES in *; lia) Hfuel)
    as (p & st1 & L1 & bk1 & Hm & Hs1 & Hlen1 & Hp & Hlive).
  rewrite Hm in Hun.
  destruct (Hlive c HcL Hcf) as (Hcp & HcL1 & Hcf1 & Hcs1 & Hcb1).
  destruct Hp as [->|(c2 & -> & Hc2L1 & Hc2f & Hc2s & Hc2a & _)].
  - (* no memory: the block stays *)
    exists 0, st1, L1, bk1. split; [exact Hun|]. split; [exact Hs1|].
    split; [intros a HaL _ Hfa; apply (Hlive a HaL Hfa)|].
    left. repeat split; assumption.
  - pose proof Hs1 as (Ha1 & _). pose proof Ha1 as (Hb1 & Hcl1 & _).
    destruct (chunk_list_placed st1 L1 Hb1 Hcl1 c2 Hc2L1) as (Hd0 & Hd1).
    assert (Hwc2 : wrap (c2 + HDR - HDR) = c2)
      by (replace (c2 + HDR - HDR) with c2 by lia; apply wrap_small;
          unfold HDR, WORD in *; lia).
    assert (Hne : c2 <> c) by (intros ->; apply Hcp; reflexivity).
    destruct (Z.eqb_spec (c2 + HDR) 0) as [E|_]; [unfold HDR in *; lia|].
    rewrite Hwc2 in Hun. cbv zeta in Hun.
    set (asz := if size st1 c <? size st1 c2 then size st1 c else size st1 c2)
      in *.
    assert (Hasz : asz <= size st1 c2 /\ asz <= size st1 c /\
                   (asz = size st1 c \/ asz = size st1 c2)).
    { unfold asz. destruct (Z.ltb_spec (size st1 c) (size st1 c2)); lia. }
    destruct (copy_sound st1 L1 bk1 (c + HDR) c2 asz Hs1 Hc2L1 Hc2f
                (proj1 Hasz)) as (Hs2 & F2 & Hcopy & Hout2).
    set (st2 := with_mem st1 (memcpy (mem st1) (c2 + HDR) (c + HDR) asz)) in *.
    destruct (free_sound st2 L1 bk1 c fuel Hs2 HcL1)
      as (st3 & L3 & bk3 & Hfr & Hs3 & Hlen3 & Hgone & Hkeep).
    { rewrite (proj1 (F2 c HcL1)). exact Hcf1. }
    { lia. }
    rewrite Hfr in Hun.
    assert (Hc2f2 : is_free st2 c2 = 0)
      by (rewrite (proj1 (F2 c2 Hc2L1)); exact Hc2f).
    destruct (Hkeep c2 Hc2L1 Hne Hc2f2) as (Hc2L3 & Hc2f3 & Hc2s3 & Hc2b3).
    exists (c2 + HDR), st3, L3, bk3. split; [exact Hun|]. split; [exact Hs3|].
    split.
    { intros a HaL Hac Hfa.
      destruct (Hlive a HaL Hfa) as (Hap & HaL1 & Haf1 & Has1 & Hab1).
      assert (Haf2 : is_free st2 a = 0)
        by (rewrite (proj1 (F2 a HaL1)); exact Haf1).
      destruct (Hkeep a HaL1 Hac Haf2) as (HaL3 & Haf3 & Has3 & Hab3).
      split; [exact Hap|]. split; [exact HaL3|]. split; [exact Haf3|].
      split; [rewrite Has3, (proj2 (F2 a HaL1)); exact Has1|].
      intros i Hi. rewrite Hab3 by (rewrite (proj2 (F2 a HaL1)), Has1; exact Hi).
      rewrite <- (Hab1 i Hi). unfold load8. apply Hout2.
      assert (Hac2 : a <> c2) by (intros ->; apply Hap; reflexivity).
      pose proof (payloads_apart st1 L1 a c2 Hb1 Hcl1 HaL1 Hc2L1 Hac2 Haf1
                    Hc2f i ltac:(rewrite Has1; exact Hi)).
      lia. }
    right. exists c2. split; [reflexivity|]. split; [exact Hne|].
    split; [exact Hc2L3|]. split; [exact Hc2f3|].
    split; [rewrite Hc2s3, (proj2 (F2 c2 Hc2L1)); lia|].
    split; [exact Hc2a|].
    split; [intros a HaL3 Hz; apply (Hgone a HaL3 Hz)|].
    intros i Hi Hi2.
    rewrite Hc2s3, (proj2 (F2 c2 Hc2L1)) in Hi2.
    rewrite Hc2b3 by (rewrite (proj2 (F2 c2 Hc2L1)); lia).
    rewrite (Hcopy i) by lia.
    replace (c + HDR + i) with (c + HDR + i) by reflexivity.
    apply Hcb1. exact Hi.
Qed.

(** [HMMrealloc] with size 0 (lines 441-445): the block is freed and a
    block of [ALIGNMENT] bytes is allocated. *)
Lemma realloc_zero_sound st L bk c fuel :
  sound st L bk -> In c L -> is_free st c = 0 ->
  (2 * length L + 6 < fuel)%nat ->
  exists st1 p st' L' bk',
    HMMfree fuel (c + HDR) st = Some st1 /\
    HMMmalloc fuel ALIGNMENT st1 = Some (p, st') /\
    HMMrealloc fuel (c + HDR) 0 st = Some (p, st') /\ sound st' L' bk' /\
    (p = 0 \/
     exists c2, p = c2 + HDR /\ In c2 L' /\ is_free st' c2 = 0 /\
       ALIGNMENT <= size st' c2 /\ (c2 + HDR) mod 8 = 0) /\
    (forall a, In a L -> a <> c -> is_free st a = 0 ->
       a + HDR <> p /\ In a L' /\ is_free st' a = 0 /\
       size st' a = size st a /\
       forall i, 0 <= i < size st a ->
         load8 (mem st') (a + HDR + i) = load8 (mem st) (a + HDR + i)).
Proof.
  intros Hs HcL Hcf Hfuel.
  pose proof Hs as (Ha & _). pose proof Ha as (Hb & Hcl & _).
  destruct (chunk_list_placed st L Hb Hcl c HcL) as (Hc0 & Hc1).
  destruct (free_sound st L bk c fuel Hs HcL Hcf ltac:(lia))
    as (st1 & L1 & bk1 & Hfr & Hs1 & Hlen1 & _ & Hkeep).
  destruct (malloc_sound st1 L1 bk1 ALIGNMENT fuel Hs1
              ltac:(unfold ALIGNMENT; lia)
              ltac:(unfold ALIGNMENT, HDR, ALLOCATED_BYTES; lia) ltac:(lia))
    as (p & st' & L' & bk' & Hm & Hs' & _ & Hp & Hlive).
  exists st1, p, st', L', bk'. split; [exact Hfr|]. split; [exact Hm|].
  split.
  { unfold HMMrealloc. change (align_up 0) with 0.
    destruct (Z.eqb_spec (c + HDR) 0) as [E|_]; [unfold HDR in *; lia|].
    cbn [Z.eqb]. rewrite Hfr. exact Hm. }
  split; [exact Hs'|]. split.
  { destruct Hp as [E|(c2 & A & B & C & D & F & _)]; [left; exact E|right].
    exists c2. auto. }
  intros a HaL Hac Hfa.
  destruct (Hkeep a HaL Hac Hfa) as (HaL1 & Haf1 & Has1 & Hab1).
  destruct (Hlive a HaL1 Haf1) as (A & B & C & D & F).
  split; [exact A|]. split; [exact B|]. split; [exact C|].
  split; [rewrite D; exact Has1|].
  intros i Hi. rewrite F by (rewrite Has1; exact Hi). apply Hab1. exact Hi.
Qed.

(** * The driver *)

(** [sbrk(0)] reads the break. *)
Lemma sbrk0_sound st L bk :
  sound st L bk ->
  let s := snd (sbrk 0 st) in
  sound s L bk /\ same_heap st s.
Proof.
  intros ((Hb & Hcl & Hix & Henv & Htop) & Hbase & Hif & Hal & Hhi).
  assert (Hs : snd (sbrk 0 st)
               = mkState (mem st) (block_freq st) (head st) (tail st)
                         (current_free_size st) (brk st) (brk_lo st)
                         (brk_hi st) (0 :: sbrk_log st)).
  { unfold sbrk, to_signed. change (0 <? 2 ^ 63) with true. cbv iota.
    rewrite Z.add_0_r. destruct Henv as (_ & (H1 & H2) & _).
    destruct (Z.leb_spec (brk_lo st) (brk st)); [|lia].
    destruct (Z.leb_spec (brk st) (brk_hi st)); [|lia]. reflexivity. }
  cbv zeta. rewrite Hs.
  set (s := mkState _ _ _ _ _ _ _ _ _).
  assert (Hsame : same_heap st s) by (repeat split; reflexivity).
  split; [|exact Hsame].
  split.
  { split; [apply (same_heap_bytes st s Hsame Hb)|].
    split; [apply (same_heap_chunk_list st s L Hsame Hcl)|].
    split; [apply (same_heap_index st s L bk Hsame Hix)|].
    split; [exact Henv|].
    intros Hne. rewrite (same_heap_span st s L Hsame). apply Htop. exact Hne. }
  split; [exact Hbase|]. split; [|split; [exact Hal|exact Hhi]].
  intros i a Hi Hin. apply (Hif i a Hi Hin).
Qed.

Lemma distinct_live_skipn st L : forall k ps,
  distinct_live st L ps -> distinct_live st L (skipn k ps).
Proof.
  induction k as [|k IH]; intros ps H; [exact H|].
  destruct ps as [|p ps]; [exact I|]. cbn [skipn]. apply IH. apply H.
Qed.

Lemma distinct_live_free st L st' L' c : forall ps,
  ~ In (c + HDR) ps ->
  (forall a, In a L -> a <> c -> is_free st a = 0 ->
     In a L' /\ is_free st' a = 0) ->
  distinct_live st L ps -> distinct_live st' L' ps.
Proof.
  induction ps as [|p ps IH]; intros Hnin Hk H; [exact I|].
  destruct H as (Hp & Hrest). split.
  - destruct Hp as [->|(a & -> & HaL & Haf & Hn)]; [left; reflexivity|right].
    exists a. split; [reflexivity|].
    assert (Hac : a <> c) by (intros ->; apply Hnin; left; reflexivity).
    destruct (Hk a HaL Hac Haf) as (A & B). auto.
  - apply IH; [|exact Hk|exact Hrest].
    intros Hin. apply Hnin. right. exact Hin.
Qed.

Lemma distinct_live_mono st L st' L' : forall ps,
  (forall a, In a L -> is_free st a = 0 -> In a L' /\ is_free st' a = 0) ->
  distinct_live st L ps -> distinct_live st' L' ps.
Proof.
  induction ps as [|p ps IH]; intros Hk H; [exact I|].
  destruct H as (Hp & Hrest). split; [|apply IH; assumption].
  destruct Hp as [->|(a & -> & HaL & Haf & Hn)]; [left; reflexivity|right].
  exists a. split; [reflexivity|]. destruct (Hk a HaL Haf) as (A & B). auto.
Qed.

(** The allocation loop: every pointer stored is null or a fresh live
    payload. *)
Lemma alloc_loop_spec fuel bsize :
  0 <= bsize -> bsize + HDR + ALLOCATED_BYTES + 8 < 2 ^ 63 ->
  forall count st L bk,
    sound st L bk -> (2 * (length L + 2 * count) + 6 < fuel)%nat ->
    exists ps st' L' bk',
      alloc_loop fuel count bsize st = Some (ps, st') /\ sound st' L' bk' /\
      length ps = count /\ (length L' <= length L + 2 * count)%nat /\
      distinct_live st' L' ps /\
      (forall a, In a L -> is_free st a = 0 ->
         In a L' /\ is_free st' a = 0 /\ ~ In (a + HDR) ps).
Proof.
  intros Hb0 Hb1. induction count as [|k IH]; intros st L bk Hs Hfuel.
  - exists [], st, L, bk. split; [reflexivity|]. split; [exact Hs|].
    split; [reflexivity|]. split; [lia|]. split; [exact I|].
    intros a Ha Hf. split; [exact Ha|]. split; [exact Hf|]. intros [].
  - cbn [alloc_loop]. unfold malloc.
    destruct (malloc_sound st L bk bsize fuel Hs Hb0 Hb1 ltac:(lia))
      as (p & st1 & L1 & bk1 & Hm & Hs1 & Hlen1 & Hp & Hlive).
    rewrite Hm.
    destruct (IH st1 L1 bk1 Hs1 ltac:(lia))
      as (ps & st' & L' & bk' & Hal & Hs' & Hlen & HlenL & Hdl & Hkeep).
    rewrite Hal. exists (p :: ps), st', L', bk'.
    split; [reflexivity|]. split; [exact Hs'|].
    split; [cbn [length]; rewrite Hlen; reflexivity|]. split; [lia|].
    split.
    { split; [|exact Hdl].
      destruct Hp as [->|(c & -> & HcL1 & Hcf1 & _)]; [left; reflexivity|right].
      exists c. split; [reflexivity|].
      destruct (Hkeep c HcL1 Hcf1) as (A & B & C). auto. }
    intros a Ha Hf. destruct (Hlive a Ha Hf) as (Hap & HaL1 & Haf1 & _).
    destruct (Hkeep a HaL1 Haf1) as (A & B & C).
    split; [exact A|]. split; [exact B|].
    intros [E|E]; [apply Hap; symmetry; exact E|exact (C E)].
Qed.

Lemma nth_hd_skipn (l : list Z) : forall k, nth k l 0 = hd 0 (skipn k l).
Proof.
  induction l as [|a l IH]; intros [|k]; try reflexivity. cbn. apply IH.
Qed.

Lemma skipn_tl (l : list Z) : forall k, tl (skipn k l) = skipn (S k) l.
Proof.
  induction l as [|a l IH]; intros [|k]; try reflexivity. cbn [skipn].
  rewrite IH. reflexivity.
Qed.

(** The free loop: every pointer it passes to [free] is null or still
    live, so every call returns. *)
Lemma free_loop_spec fuel fmax fstep ptr :
  0 < fstep ->
  forall steps j st L bk,
    sound st L bk -> 0 <= j ->
    distinct_live st L (skipn (Z.to_nat j) ptr) ->
    (2 * length L < fuel)%nat -> (Z.to_nat (fmax - j) < steps)%nat ->
    exists st' L' bk',
      free_loop steps fuel j fmax fstep ptr st = Some st' /\
      sound st' L' bk' /\ (length L' <= length L)%nat.
Proof.
  intros Hstep. induction steps as [|s IH]; intros j st L bk Hs Hj Hdl Hfuel Hst;
    [lia|].
  cbn [free_loop]. destruct (Z.ltb_spec j fmax) as [Hlt|Hge].
  2:{ exists st, L, bk. split; [reflexivity|]. split; [exact Hs|lia]. }
  rewrite nth_hd_skipn. unfold free.
  assert (Hnext : forall st1 L1, distinct_live st1 L1 (tl (skipn (Z.to_nat j) ptr)) ->
            distinct_live st1 L1 (skipn (Z.to_nat (j + fstep)) ptr)).
  { intros st1 L1 H. rewrite skipn_tl in H.
    replace (Z.to_nat (j + fstep))
      with ((Z.to_nat (j + fstep) - S (Z.to_nat j)) + S (Z.to_nat j))%nat by lia.
    rewrite <- skipn_skipn. apply distinct_live_skipn. exact H. }
  destruct (skipn (Z.to_nat j) ptr) as [|p rest] eqn:Esk.
  - (* past the end of the array: the slot reads as null *)
    cbn [hd]. change (HMMfree fuel 0 st) with (Some st).
    apply (IH (j + fstep) st L bk Hs ltac:(lia)); [|exact Hfuel|lia].
    apply Hnext. exact I.
  - cbn [hd tl] in *. destruct Hdl as (Hp & Hrest).
    destruct Hp as [->|(c & -> & HcL & Hcf & Hnin)].
    + change (HMMfree fuel 0 st) with (Some st).
      apply (IH (j + fstep) st L bk Hs ltac:(lia)); [|exact Hfuel|lia].
      apply Hnext. exact Hrest.
    + destruct (free_sound st L bk c fuel Hs HcL Hcf Hfuel)
        as (st1 & L1 & bk1 & Hfr & Hs1 & Hlen1 & _ & Hkeep).
      rewrite Hfr.
      destruct (IH (j + fstep) st1 L1 bk1 Hs1 ltac:(lia))
        as (st' & L' & bk' & Hl & Hs' & Hlen'); [|lia|lia|].
      * apply Hnext. apply (distinct_live_free st L st1 L1 c rest Hnin);
          [|exact Hrest].
        intros a Ha Hac Haf. destruct (Hkeep a Ha Hac Haf) as (A & B & _). auto.
      * exists st', L', bk'. split; [exact Hl|]. split; [exact Hs'|lia].
Qed.

(** [main] on a sound arena. *)
Lemma driver_spec st L bk r1 r2 r3 r4 r5 steps fuel :
  sound st L bk ->
  0 <= r1 -> 0 <= r2 -> 0 <= r3 -> 0 <= r4 -> 0 <= r5 ->
  (Z.to_nat MAX_ALLOCS < steps)%nat ->
  (2 * (length L + 2 * Z.to_nat MAX_ALLOCS) + 6 < fuel)%nat ->
  exists st' L' bk',
    driver steps fuel r1 r2 r3 r4 r5 st = Some st' /\ sound st' L' bk'.
Proof.
  intros Hs H1 H2 H3 H4 H5 Hsteps Hfuel.
  destruct (draw_ranges r1 r2 r3 r4 r5 H1 H2 H3 H4 H5)
    as (Hna & Hbs & Hfs & Hfm & Hfx).
  unfold driver. set (p := draw r1 r2 r3 r4 r5) in *.
  destruct (sbrk0_sound st L bk Hs) as (Hs0 & _).
  set (st0 := snd (sbrk 0 st)) in *.
  unfold MAX_ALLOCS in *.
  destruct (alloc_loop_spec fuel (blockSize p) ltac:(lia)
              ltac:(unfold HDR, ALLOCATED_BYTES; lia)
              (Z.to_nat (numAllocs p)) st0 L bk Hs0 ltac:(lia))
    as (ptr & st1 & L1 & bk1 & Hal & Hs1 & Hlen & HlenL & Hdl & _).
  rewrite Hal.
  destruct (sbrk0_sound st1 L1 bk1 Hs1) as (Hs1' & Hsame1).
  set (st1' := snd (sbrk 0 st1)) in *.
  assert (Hdl' : distinct_live st1' L1 ptr).
  { apply (distinct_live_mono st1 L1 st1' L1 ptr); [|exact Hdl].
    intros a Ha Hf. split; [exact Ha|].
    destruct (same_heap_fields st1 st1' a Hsame1) as (_ & -> & _). exact Hf. }
  destruct (free_loop_spec fuel (freeMax p) (freeStep p) ptr ltac:(lia)
              steps (freeMin p - 1) st1' L1 bk1 Hs1' ltac:(lia))
    as (st2 & L2 & bk2 & Hfl & Hs2 & _); [| lia | lia |].
  { apply distinct_live_skipn. exact Hdl'. }
  rewrite Hfl.
  destruct (sbrk0_sound st2 L2 bk2 Hs2) as (Hs2' & _).
  exists (snd (sbrk 0 st2)), L2, bk2. split; [reflexivity|exact Hs2'].
Qed.

(** * The concrete heaps are sound *)

Lemma heap1_sound : sound heap1 chunks1 buckets1.
Proof.
  split; [exact heap1_arena|]. split; [exact heap1_based|].
  split; [|split; [exact heap1_aligned|vm_compute; reflexivity]].
  intros i a Hi Hin. unfold buckets1 in Hin.
  destruct (i =? 7); [|destruct Hin].
  destruct Hin as [<-|[]]. vm_compute. reflexivity.
Qed.

Lemma heap0_sound : sound heap0 [] (fun _ => []).
Proof.
  split; [exact heap0_arena|]. split; [intros a []|].
  split; [intros i a _ []|].
  split; [split; [vm_compute; reflexivity|intros a []]|vm_compute; reflexivity].
Qed.

(** * Further properties of the code *)

(** X1: [HMMremove_free_block] on a chunk [b] of a well-formed heap
    returns.  When [b] is in the bucket of its size class it is unlinked
    from that bucket, its [is_added] flag is cleared and the accumulator
    goes down by its size; the other chunks keep their flags and the chunk
    list is as before.  When [b] is not in its bucket, or its size class is
    outside the index, the state is unchanged. *)
Theorem remove_free_block_unlinks st L bk b fuel :
  bytes_ok st ->
  chunk_list st L ->
  index_ok st L bk ->
  In b L ->
  (length L < fuel)%nat ->
  exists st',
    HMMremove_free_block fuel b st = Some st' /\
    chunk_list st' L /\
    index_ok st' L (bk_remove bk (bucket_of st b) b) /\
    (forall a, In a L -> a <> b -> is_added st' a = is_added st a) /\
    (In b (bk (bucket_of st b)) -> bucket_of st b < MULTIPLES_MAX ->
       is_added st' b = 0 /\
       current_free_size st' = wrap (current_free_size st - size st b)) /\
    (~ In b (bk (bucket_of st b)) \/ MULTIPLES_MAX <= bucket_of st b ->
       st' = st).
Proof.
  intros Hb Hcl Hix HbL Hfuel.
  pose proof (chunk_list_apart st L Hb Hcl) as Hap.
  pose proof (chunk_list_placed st L Hb Hcl) as Hpl.
  destruct (HMMremove_spec st L bk b fuel Hb Hap Hpl Hix HbL Hfuel)
    as (st' & Hrm & Hix' & Hstep & _ & Hoth & Hin & Hout).
  exists st'. split; [exact Hrm|].
  split; [apply (chunk_list_step L st st' Hap Hstep Hcl)|].
  split; [exact Hix'|]. split; [exact Hoth|]. split; [exact Hin|exact Hout].
Qed.

Lemma remove_free_block_unlinks_witness :
  exists st',
    HMMremove_free_block 4 4194408 heap1 = Some st' /\
    chunk_list st' chunks1 /\
    index_ok st' chunks1 (bk_remove buckets1 (bucket_of heap1 4194408) 4194408) /\
    (forall a, In a chunks1 -> a <> 4194408 -> is_added st' a = is_added heap1 a) /\
    (In 4194408 (buckets1 (bucket_of heap1 4194408)) -> bucket_of heap1 4194408 < MULTIPLES_MAX ->
       is_added st' 4194408 = 0 /\
       current_free_size st' = wrap (current_free_size heap1 - size heap1 4194408)) /\
    (~ In 4194408 (buckets1 (bucket_of heap1 4194408)) \/ MULTIPLES_MAX <= bucket_of heap1 4194408 ->
       st' = heap1).
Proof.
  apply (remove_free_block_unlinks heap1 chunks1 buckets1 4194408 4).
  - exact heap1_bytes.
  - exact heap1_chunk_list.
  - exact heap1_index.
  - right; left; reflexivity.
  - cbn; lia.
Defined.

(** X2: [HMMadd_free_block] on a chunk [b] of a well-formed heap.  When the
    size class of [b] is inside the index and its [is_added] flag is clear,
    [b] becomes the head of its bucket, the flag is set and the accumulator
    goes up by its size.  When the flag is already set, or the size class
    is [MULTIPLES_MAX] or more, nothing changes.  The chunk list is as
    before either way. *)
Theorem add_free_block_pushes st L bk b :
  bytes_ok st ->
  chunk_list st L ->
  index_ok st L bk ->
  In b L ->
  chunk_list (HMMadd_free_block b st) L /\
  (bucket_of st b < MULTIPLES_MAX -> is_added st b = 0 ->
     index_ok (HMMadd_free_block b st) L (bk_add bk (bucket_of st b) b) /\
     block_freq (HMMadd_free_block b st) (bucket_of st b) = b /\
     is_added (HMMadd_free_block b st) b = 1 /\
     current_free_size (HMMadd_free_block b st)
     = wrap (current_free_size st + size st b)) /\
  (MULTIPLES_MAX <= bucket_of st b \/ is_added st b <> 0 ->
     HMMadd_free_block b st = st).
Proof.
  intros Hb Hcl Hix HbL.
  pose proof (chunk_list_apart st L Hb Hcl) as Hap.
  pose proof (chunk_list_placed st L Hb Hcl) as Hpl.
  destruct (HMMadd_spec st L bk b Hb Hap Hpl Hix HbL) as (Hstep & _ & HA & HB).
  split; [apply (chunk_list_step L st _ Hap Hstep Hcl)|]. split; [|exact HB].
  intros Hlt Hz. destruct (HA Hlt Hz) as (I1 & A1 & C1 & _).
  split; [exact I1|]. split; [|split; [exact A1|exact C1]].
  destruct (I1 (bucket_of st b) (conj (bucket_of_nonneg st b) Hlt)) as (Hch & _).
  unfold bk_add in Hch. rewrite Z.eqb_refl in Hch. apply Hch.
Qed.

Lemma add_free_block_pushes_witness :
  chunk_list (HMMadd_free_block 4194304 heap1) chunks1 /\
  (bucket_of heap1 4194304 < MULTIPLES_MAX -> is_added heap1 4194304 = 0 ->
     index_ok (HMMadd_free_block 4194304 heap1) chunks1 (bk_add buckets1 (bucket_of heap1 4194304) 4194304) /\
     block_freq (HMMadd_free_block 4194304 heap1) (bucket_of heap1 4194304) = 4194304 /\
     is_added (HMMadd_free_block 4194304 heap1) 4194304 = 1 /\
     current_free_size (HMMadd_free_block 4194304 heap1)
     = wrap (current_free_size heap1 + size heap1 4194304)) /\
  (MULTIPLES_MAX <= bucket_of heap1 4194304 \/ is_added heap1 4194304 <> 0 ->
     HMMadd_free_block 4194304 heap1 = heap1).
Proof.
  apply (add_free_block_pushes heap1 chunks1 buckets1 4194304).
  - exact heap1_bytes.
  - exact heap1_chunk_list.
  - exact heap1_index.
  - left; reflexivity.
Defined.

(** X3: Round trip: inserting a chunk whose [is_added] flag is clear into
    the index and removing it again gives back the index (same bucket
    contents, same bucket heads), the accumulator, and every flag, size
    and link of the chunk list. *)
Theorem add_then_remove_restores_index st L bk b fuel :
  bytes_ok st ->
  chunk_list st L ->
  index_ok st L bk ->
  In b L ->
  bucket_of st b < MULTIPLES_MAX ->
  is_added st b = 0 ->
  0 <= current_free_size st < WORD ->
  (length L < fuel)%nat ->
  exists st',
    HMMremove_free_block fuel b (HMMadd_free_block b st) = Some st' /\
    bytes_ok st' /\ chunk_list st' L /\ index_ok st' L bk /\
    current_free_size st' = current_free_size st /\
    (forall i, 0 <= i < MULTIPLES_MAX -> block_freq st' i = block_freq st i) /\
    (forall a, In a L ->
       is_added st' a = is_added st a /\ is_free st' a = is_free st a /\
       size st' a = size st a /\ prev st' a = prev st a /\
       next st' a = next st a).
Proof.
  apply add_remove_round_trip.
Qed.

Lemma add_then_remove_restores_index_witness :
  exists st',
    HMMremove_free_block 4 4194304 (HMMadd_free_block 4194304 heap1) = Some st' /\
    bytes_ok st' /\ chunk_list st' chunks1 /\ index_ok st' chunks1 buckets1 /\
    current_free_size st' = current_free_size heap1 /\
    (forall i, 0 <= i < MULTIPLES_MAX -> block_freq st' i = block_freq heap1 i) /\
    (forall a, In a chunks1 ->
       is_added st' a = is_added heap1 a /\ is_free st' a = is_free heap1 a /\
       size st' a = size heap1 a /\ prev st' a = prev heap1 a /\
       next st' a = next heap1 a).
Proof.
  apply (add_then_remove_restores_index heap1 chunks1 buckets1 4194304 4).
  - exact heap1_bytes.
  - exact heap1_chunk_list.
  - exact heap1_index.
  - left; reflexivity.
  - vm_compute; reflexivity.
  - vm_compute; reflexivity.
  - vm_compute; split; [discriminate|reflexivity].
  - cbn; lia.
Defined.



(** X5: The split of [HMMget_free_chunk] (lines 238-258) on a chunk [c]
    that is not in the index and has more than [sz + HDR] payload bytes:
    the chunk list gets one new chunk right after [c], at [c + HDR + sz];
    [c] has exactly [sz] bytes, the new chunk is free and has the rest
    minus one header, so that the bytes covered by the list are the same;
    the other chunks keep their size and state and no byte outside the
    headers is written; an index of free chunks stays one. *)
Theorem split_chunk_conserves_bytes st pre c post sz bk :
  bytes_ok st ->
  chunk_list st (pre ++ c :: post) ->
  index_ok st (pre ++ c :: post) bk ->
  (forall i, 0 <= i < MULTIPLES_MAX -> ~ In c (bk i)) ->
  0 <= sz ->
  HDR + sz < size st c ->
  exists bk',
    bytes_ok (split_chunk c sz st) /\
    chunk_list (split_chunk c sz st) (pre ++ c :: (c + HDR + sz) :: post) /\
    index_ok (split_chunk c sz st) (pre ++ c :: (c + HDR + sz) :: post) bk' /\
    size (split_chunk c sz st) c = sz /\
    size (split_chunk c sz st) (c + HDR + sz) = size st c - sz - HDR /\
    is_free (split_chunk c sz st) (c + HDR + sz) = 1 /\
    span (split_chunk c sz st) (pre ++ c :: (c + HDR + sz) :: post)
    = span st (pre ++ c :: post) /\
    (forall a, In a (pre ++ c :: post) ->
       is_free (split_chunk c sz st) a = is_free st a) /\
    (forall a, In a (pre ++ c :: post) -> a <> c ->
       size (split_chunk c sz st) a = size st a) /\
    (forall x,
       (forall a, In a (pre ++ c :: (c + HDR + sz) :: post) ->
                  x < a \/ a + HDR <= x) ->
       mem (split_chunk c sz st) x = mem st x) /\
    (index_free st bk -> index_free (split_chunk c sz st) bk').
Proof.
  intros Hb Hcl Hix Hnc Hsz Hfit.
  destruct (split_chunk_spec st pre c post sz bk Hb Hcl Hix Hnc Hsz Hfit)
    as (bk' & A1 & A2 & A3 & A4 & A5 & A6 & A7 & A8 & A9 & _ & _ & _ & _ & _ &
        _ & A10 & _ & A11).
  exists bk'. repeat (split; [assumption|]). exact A11.
Qed.

Lemma split_chunk_conserves_bytes_witness :
  exists bk',
    bytes_ok (split_chunk 4194512 16 heap1) /\
    chunk_list (split_chunk 4194512 16 heap1) ([4194304; 4194408] ++ 4194512 :: (4194512 + HDR + 16) :: []) /\
    index_ok (split_chunk 4194512 16 heap1) ([4194304; 4194408] ++ 4194512 :: (4194512 + HDR + 16) :: []) bk' /\
    size (split_chunk 4194512 16 heap1) 4194512 = 16 /\
    size (split_chunk 4194512 16 heap1) (4194512 + HDR + 16) = size heap1 4194512 - 16 - HDR /\
    is_free (split_chunk 4194512 16 heap1) (4194512 + HDR + 16) = 1 /\
    span (split_chunk 4194512 16 heap1) ([4194304; 4194408] ++ 4194512 :: (4194512 + HDR + 16) :: [])
    = span heap1 ([4194304; 4194408] ++ 4194512 :: []) /\
    (forall a, In a ([4194304; 4194408] ++ 4194512 :: []) ->
       is_free (split_chunk 4194512 16 heap1) a = is_free heap1 a) /\
    (forall a, In a ([4194304; 4194408] ++ 4194512 :: []) -> a <> 4194512 ->
       size (split_chunk 4194512 16 heap1) a = size heap1 a) /\
    (forall x,
       (forall a, In a ([4194304; 4194408] ++ 4194512 :: (4194512 + HDR + 16) :: []) ->
                  x < a \/ a + HDR <= x) ->
       mem (split_chunk 4194512 16 heap1) x = mem heap1 x) /\
    (index_free heap1 buckets1 -> index_free (split_chunk 4194512 16 heap1) bk').
Proof.
  apply (split_chunk_conserves_bytes heap1 [4194304; 4194408] 4194512 [] 16 buckets1).
  - exact heap1_bytes.
  - exact heap1_chunk_list.
  - exact heap1_index.
  - intros i _ Hin; unfold buckets1 in Hin; destruct (i =? 7); [destruct Hin as [E|[]]; discriminate E|destruct Hin].
  - lia.
  - vm_compute; reflexivity.
Defined.

(** X6: [HMMget_free_chunk] on a well-formed arena, for a request [sz > 0]
    that is a multiple of 8 with [sz + HDR + ALLOCATED_BYTES < 2^63]: it
    returns, and either yields a chunk of [sz] to [sz + HDR] bytes that
    has left the index, after at most one call of the break primitive
    ([granted]), or yields null because the break primitive refused
    [num_allocated_bytes sz] more bytes, with the arena as it was
    ([refused]). *)
Theorem get_free_chunk_grows_at_most_once st L bk sz fuel :
  arena_ok st L bk ->
  0 < sz ->
  sz mod 8 = 0 ->
  sz + HDR + ALLOCATED_BYTES < 2 ^ 63 ->
  (2 * length L + 6 < fuel)%nat ->
  (exists r st' L' bk',
     HMMget_free_chunk fuel sz st = Some (r, st') /\ r <> 0 /\
     granted st L bk sz r st' L' bk') \/
  (exists st' bk',
     HMMget_free_chunk fuel sz st = Some (0, st') /\
     refused st L bk sz st' bk').
Proof.
  apply get_free_chunk_spec.
Qed.

Lemma get_free_chunk_grows_at_most_once_witness :
  (exists r st' L' bk',
     HMMget_free_chunk 13 64 heap1 = Some (r, st') /\ r <> 0 /\
     granted heap1 chunks1 buckets1 64 r st' L' bk') \/
  (exists st' bk',
     HMMget_free_chunk 13 64 heap1 = Some (0, st') /\
     refused heap1 chunks1 buckets1 64 st' bk').
Proof.
  apply (get_free_chunk_grows_at_most_once heap1 chunks1 buckets1 64 13).
  - exact heap1_arena.
  - lia.
  - reflexivity.
  - unfold HDR, ALLOCATED_BYTES; lia.
  - cbn; lia.
Defined.

(** X7: [HMMmalloc] on a sound arena, for [n] below [2^63 - 8 MiB - 48]:
    it returns, the arena it leaves is sound again with at most two more
    chunks, and the pointer is null or the payload address, a multiple of
    8, of a chunk that is now allocated, has at least [n] bytes and, when
    it existed before the call, was free. *)
Theorem malloc_returns_fresh_aligned_chunk st L bk n fuel :
  sound st L bk ->
  0 <= n ->
  n + HDR + ALLOCATED_BYTES + 8 < 2 ^ 63 ->
  (2 * length L + 6 < fuel)%nat ->
  exists p st' L' bk',
    HMMmalloc fuel n st = Some (p, st') /\ sound st' L' bk' /\
    (length L' <= length L + 2)%nat /\
    (p = 0 \/
     exists c, p = c + HDR /\ In c L' /\ is_free st' c = 0 /\
       n <= size st' c /\ (c + HDR) mod 8 = 0 /\
       (In c L -> is_free st c = 1)).
Proof.
  intros Hs Hn Hb Hfuel.
  destruct (malloc_sound st L bk n fuel Hs Hn Hb Hfuel)
    as (p & st' & L' & bk' & A & B & C & D & _).
  exists p, st', L', bk'. auto.
Qed.

Lemma malloc_returns_fresh_aligned_chunk_witness :
  exists p st' L' bk',
    HMMmalloc 13 64 heap1 = Some (p, st') /\ sound st' L' bk' /\
    (length L' <= length chunks1 + 2)%nat /\
    (p = 0 \/
     exists c, p = c + HDR /\ In c L' /\ is_free st' c = 0 /\
       64 <= size st' c /\ (c + HDR) mod 8 = 0 /\
       (In c chunks1 -> is_free heap1 c = 1)).
Proof.
  apply (malloc_returns_fresh_aligned_chunk heap1 chunks1 buckets1 64 13).
  - exact heap1_sound.
  - lia.
  - unfold HDR, ALLOCATED_BYTES; lia.
  - cbn; lia.
Defined.







(** X11: [HMMcalloc] on a well-formed arena, when [nmemb * sz] is below
    [2^63 - 8 MiB - 57]: it returns; a non-null result is the payload of
    an allocated chunk of at least [nmemb * sz] bytes all of whose payload
    bytes (the whole chunk, not only the requested ones) are zero, in an
    arena that is again well-formed; no byte outside that payload differs
    from the state [HMMmalloc] left. *)
Theorem calloc_zero_fills_whole_chunk st L bk nmemb sz fuel :
  arena_ok st L bk ->
  0 <= nmemb ->
  0 <= sz ->
  nmemb * sz + HDR + ALLOCATED_BYTES + 17 < 2 ^ 63 ->
  (2 * length L + 6 < fuel)%nat ->
  (exists c st1 st' L' bk',
     HMMmalloc fuel (calloc_size nmemb sz) st = Some (c + HDR, st1) /\
     HMMcalloc fuel nmemb sz st = Some (c + HDR, st') /\ c <> 0 /\
     arena_ok st' L' bk' /\ In c L' /\
     is_free st' c = 0 /\ nmemb * sz <= size st' c /\
     (forall i, 0 <= i < size st' c -> load8 (mem st') (c + HDR + i) = 0) /\
     (forall x, ~ (c + HDR <= x < c + HDR + size st' c) ->
                mem st' x = mem st1 x)) \/
  (exists st' bk',
     HMMcalloc fuel nmemb sz st = Some (0, st') /\
     refused st L bk (calloc_size nmemb sz) st' bk').
Proof.
  intros Ha Hn Hs Hb Hfuel.
  destruct (calloc_spec st L bk nmemb sz fuel Ha Hn Hs Hb Hfuel)
    as [(c & st1 & st' & L' & bk' & A1 & A2 & A3 & A4 & A5 & _ & _ & A6 & A7 &
         A8 & A9)|H]; [left|right; exact H].
  exists c, st1, st', L', bk'.
  destruct A4 as (_ & HcL' & _).
  repeat (split; [assumption|]). exact A9.
Qed.

Lemma calloc_zero_fills_whole_chunk_witness :
  (exists c st1 st' L' bk',
     HMMmalloc 13 (calloc_size 4 16) heap1 = Some (c + HDR, st1) /\
     HMMcalloc 13 4 16 heap1 = Some (c + HDR, st') /\ c <> 0 /\
     arena_ok st' L' bk' /\ In c L' /\
     is_free st' c = 0 /\ 4 * 16 <= size st' c /\
     (forall i, 0 <= i < size st' c -> load8 (mem st') (c + HDR + i) = 0) /\
     (forall x, ~ (c + HDR <= x < c + HDR + size st' c) ->
                mem st' x = mem st1 x)) \/
  (exists st' bk',
     HMMcalloc 13 4 16 heap1 = Some (0, st') /\
     refused heap1 chunks1 buckets1 (calloc_size 4 16) st' bk').
Proof.
  apply (calloc_zero_fills_whole_chunk heap1 chunks1 buckets1 4 16 13).
  - exact heap1_arena.
  - lia.
  - lia.
  - unfold HDR, ALLOCATED_BYTES; lia.
  - cbn; lia.
Defined.

(** X12: [HMMfree] on the payload of an allocated chunk [c] of a sound
    arena: it returns, whether or not the shrink walk runs, and leaves a
    sound arena with no more chunks than before in which [c] is no longer
    allocated: every chunk allocated afterwards was allocated before and
    is not [c]. *)
Theorem free_returns_sound_arena st L bk c fuel :
  sound st L bk ->
  In c L ->
  is_free st c = 0 ->
  (2 * length L < fuel)%nat ->
  exists st' L' bk',
    HMMfree fuel (c + HDR) st = Some st' /\ sound st' L' bk' /\
    (length L' <= length L)%nat /\
    (forall a, In a L' -> is_free st' a = 0 ->
       a <> c /\ In a L /\ is_free st a = 0).
Proof.
  intros Hs HcL Hcf Hfuel.
  destruct (free_sound st L bk c fuel Hs HcL Hcf Hfuel)
    as (st' & L' & bk' & A & B & C & D & _).
  exists st', L', bk'. auto.
Qed.

Lemma free_returns_sound_arena_witness :
  exists st' L' bk',
    HMMfree 7 (4194304 + HDR) heap1 = Some st' /\ sound st' L' bk' /\
    (length L' <= length chunks1)%nat /\
    (forall a, In a L' -> is_free st' a = 0 ->
       a <> 4194304 /\ In a chunks1 /\ is_free heap1 a = 0).
Proof.
  apply (free_returns_sound_arena heap1 chunks1 buckets1 4194304 7).
  - exact heap1_sound.
  - left; reflexivity.
  - vm_compute; reflexivity.
  - cbn; lia.
Defined.

(** X13: [HMMfree] never disturbs another live block: a chunk [a] other
    than the one freed that is allocated before the call is still in the
    chunk list and allocated afterwards, with the same size and the same
    payload bytes, also when free chunks are merged or given back to the
    system. *)
Theorem free_keeps_live_blocks st L bk c fuel a :
  sound st L bk ->
  In c L ->
  is_free st c = 0 ->
  (2 * length L < fuel)%nat ->
  In a L ->
  a <> c ->
  is_free st a = 0 ->
  exists st',
    HMMfree fuel (c + HDR) st = Some st' /\
    is_free st' a = 0 /\ size st' a = size st a /\
    forall i, 0 <= i < size st a ->
      load8 (mem st') (a + HDR + i) = load8 (mem st) (a + HDR + i).
Proof.
  intros Hs HcL Hcf Hfuel HaL Hac Hfa.
  destruct (free_sound st L bk c fuel Hs HcL Hcf Hfuel)
    as (st' & L' & bk' & A & _ & _ & _ & Hkeep).
  destruct (Hkeep a HaL Hac Hfa) as (_ & B & C & D).
  exists st'. auto.
Qed.

Lemma free_keeps_live_blocks_witness :
  exists st',
    HMMfree 7 (4194304 + HDR) heap1 = Some st' /\
    is_free st' 4194512 = 0 /\ size st' 4194512 = size heap1 4194512 /\
    forall i, 0 <= i < size heap1 4194512 ->
      load8 (mem st') (4194512 + HDR + i) = load8 (mem heap1) (4194512 + HDR + i).
Proof.
  apply (free_keeps_live_blocks heap1 chunks1 buckets1 4194304 7 4194512).
  - exact heap1_sound.
  - left; reflexivity.
  - vm_compute; reflexivity.
  - cbn; lia.
  - right; right; left; reflexivity.
  - discriminate.
  - vm_compute; reflexivity.
Defined.

(** X14: [HMMfree] moves the break at most once.  When it does, it asks
    the break primitive for [- t] (as an unsigned word) with
    [t >= ALLOCATED_BYTES], the break goes down by exactly [t], and the
    new break is the address of a chunk of the old list: only whole
    chunks at the end of the arena are given back. *)
Theorem free_lowers_break_by_free_tail st L bk c fuel :
  arena_ok st L bk ->
  based st L ->
  brk_hi st < 2 ^ 63 ->
  In c L ->
  is_free st c = 0 ->
  (2 * length L < fuel)%nat ->
  exists st',
    HMMfree fuel (c + HDR) st = Some st' /\
    (sbrk_log st' = sbrk_log st /\ brk st' = brk st \/
     exists t, ALLOCATED_BYTES <= t /\
       sbrk_log st' = wrap (- t) :: sbrk_log st /\ brk st' = brk st - t /\
       In (brk st') L).
Proof.
  intros Ha Hbase Hhi HcL Hcf Hfuel.
  destruct (HMMfree_spec st L bk c fuel Ha Hbase Hhi HcL Hcf Hfuel)
    as (st' & L' & bk' & A & _ & _ & B & _).
  exists st'. auto.
Qed.

Lemma free_lowers_break_by_free_tail_witness :
  exists st',
    HMMfree 7 (4194304 + HDR) heap1 = Some st' /\
    (sbrk_log st' = sbrk_log heap1 /\ brk st' = brk heap1 \/
     exists t, ALLOCATED_BYTES <= t /\
       sbrk_log st' = wrap (- t) :: sbrk_log heap1 /\ brk st' = brk heap1 - t /\
       In (brk st') chunks1).
Proof.
  apply (free_lowers_break_by_free_tail heap1 chunks1 buckets1 4194304 7).
  - exact heap1_arena.
  - exact heap1_based.
  - vm_compute; reflexivity.
  - left; reflexivity.
  - vm_compute; reflexivity.
  - cbn; lia.
Defined.

(** X15: [HMMfree] does nothing on the null pointer, and nothing on the
    payload of a chunk whose [is_free] flag is already set (a double
    free of a chunk that is still in the list). *)
Theorem free_ignores_null_and_free_chunks st L c fuel :
  bytes_ok st ->
  chunk_list st L ->
  In c L ->
  is_free st c <> 0 ->
  HMMfree fuel 0 st = Some st /\ HMMfree fuel (c + HDR) st = Some st.
Proof.
  intros Hb Hcl HcL Hcf. split; [reflexivity|].
  destruct (chunk_list_placed st L Hb Hcl c HcL) as (Hc0 & Hc1).
  unfold HMMfree.
  destruct (Z.eqb_spec (c + HDR) 0) as [E|_]; [unfold HDR in *; lia|].
  replace (c + HDR - HDR) with c by lia.
  rewrite (wrap_small c) by (unfold HDR, WORD in *; lia).
  destruct (Z.eqb_spec (is_free st c) 0) as [E|_]; [contradiction|reflexivity].
Qed.

Lemma free_ignores_null_and_free_chunks_witness :
  HMMfree 7 0 heap1 = Some heap1 /\ HMMfree 7 (4194408 + HDR) heap1 = Some heap1.
Proof.
  apply (free_ignores_null_and_free_chunks heap1 chunks1 4194408 7).
  - exact heap1_bytes.
  - exact heap1_chunk_list.
  - right; left; reflexivity.
  - vm_compute; discriminate.
Defined.

(** X16: [HMMrealloc] of a live block [c] to a size [n > 0] whose rounding
    differs from the current size, on a sound arena: it returns and
    leaves a sound arena in which every other live block is untouched.
    Either the result is null and [c] is still allocated with its size
    and bytes, or it is the 8-aligned payload of another chunk [c2],
    allocated, of at least [n] bytes, whose first [min (old size, new
    size)] bytes are those of the old block, and [c] is no longer
    allocated. *)
Theorem realloc_moves_contents st L bk c n fuel :
  sound st L bk ->
  In c L ->
  is_free st c = 0 ->
  0 < n ->
  n + HDR + ALLOCATED_BYTES + 16 < 2 ^ 63 ->
  align_up n <> size st c ->
  (2 * length L + 6 < fuel)%nat ->
  exists p st' L' bk',
    HMMrealloc fuel (c + HDR) n st = Some (p, st') /\ sound st' L' bk' /\
    (forall a, In a L -> a <> c -> is_free st a = 0 ->
       a + HDR <> p /\ In a L' /\ is_free st' a = 0 /\
       size st' a = size st a /\
       forall i, 0 <= i < size st a ->
         load8 (mem st') (a + HDR + i) = load8 (mem st) (a + HDR + i)) /\
    (p = 0 /\ In c L' /\ is_free st' c = 0 /\ size st' c = size st c /\
     (forall i, 0 <= i < size st c ->
        load8 (mem st') (c + HDR + i) = load8 (mem st) (c + HDR + i)) \/
     exists c2, p = c2 + HDR /\ c2 <> c /\ In c2 L' /\ is_free st' c2 = 0 /\
       n <= size st' c2 /\ (c2 + HDR) mod 8 = 0 /\
       (forall a, In a L' -> is_free st' a = 0 -> a <> c) /\
       (forall i, 0 <= i < size st c -> i < size st' c2 ->
          load8 (mem st') (c2 + HDR + i) = load8 (mem st) (c + HDR + i))).
Proof.
  apply realloc_sound.
Qed.

Lemma realloc_moves_contents_witness :
  exists p st' L' bk',
    HMMrealloc 13 (4194304 + HDR) 16 heap1 = Some (p, st') /\ sound st' L' bk' /\
    (forall a, In a chunks1 -> a <> 4194304 -> is_free heap1 a = 0 ->
       a + HDR <> p /\ In a L' /\ is_free st' a = 0 /\
       size st' a = size heap1 a /\
       forall i, 0 <= i < size heap1 a ->
         load8 (mem st') (a + HDR + i) = load8 (mem heap1) (a + HDR + i)) /\
    (p = 0 /\ In 4194304 L' /\ is_free st' 4194304 = 0 /\ size st' 4194304 = size heap1 4194304 /\
     (forall i, 0 <= i < size heap1 4194304 ->
        load8 (mem st') (4194304 + HDR + i) = load8 (mem heap1) (4194304 + HDR + i)) \/
     exists c2, p = c2 + HDR /\ c2 <> 4194304 /\ In c2 L' /\ is_free st' c2 = 0 /\
       16 <= size st' c2 /\ (c2 + HDR) mod 8 = 0 /\
       (forall a, In a L' -> is_free st' a = 0 -> a <> 4194304) /\
       (forall i, 0 <= i < size heap1 4194304 -> i < size st' c2 ->
          load8 (mem st') (c2 + HDR + i) = load8 (mem heap1) (4194304 + HDR + i))).
Proof.
  apply (realloc_moves_contents heap1 chunks1 buckets1 4194304 16 13).
  - exact heap1_sound.
  - left; reflexivity.
  - vm_compute; reflexivity.
  - lia.
  - unfold HDR, ALLOCATED_BYTES; lia.
  - vm_compute; discriminate.
  - cbn; lia.
Defined.





(** X19: The parameters [main] draws: [numAllocs] lies in [1, MAX_ALLOCS],
    so the allocation loop stays inside [ptr]; [freeMax <= numAllocs], so
    the test [freeMax > numAllocs] of line 31 never holds and its message
    is never printed; the free loop ends and every index it visits lies
    in [freeMin - 1, freeMax), inside the part of [ptr] the allocation
    loop filled. *)
Theorem driver_frees_inside_array r1 r2 r3 r4 r5 steps :
  0 <= r1 ->
  0 <= r2 ->
  0 <= r3 ->
  0 <= r4 ->
  0 <= r5 ->
  (Z.to_nat MAX_ALLOCS < steps)%nat ->
  warns (draw r1 r2 r3 r4 r5) = false /\
  1 <= numAllocs (draw r1 r2 r3 r4 r5) <= MAX_ALLOCS /\
  exists l,
    free_indices steps (freeMin (draw r1 r2 r3 r4 r5) - 1)
      (freeMax (draw r1 r2 r3 r4 r5)) (freeStep (draw r1 r2 r3 r4 r5))
    = Some l /\
    forall i, In i l ->
      freeMin (draw r1 r2 r3 r4 r5) - 1 <= i /\
      0 <= i < numAllocs (draw r1 r2 r3 r4 r5).
Proof.
  intros H1 H2 H3 H4 H5 Hsteps.
  destruct (draw_ranges r1 r2 r3 r4 r5 H1 H2 H3 H4 H5)
    as (Hna & _ & Hfs & Hfm & Hfx).
  set (p := draw r1 r2 r3 r4 r5) in *.
  split; [unfold warns; apply Z.ltb_ge; lia|]. split; [exact Hna|].
  destruct (free_indices_spec (freeMax p) (freeStep p) ltac:(lia) steps
              (freeMin p - 1) ltac:(lia)) as (l & Hl & Hin).
  { unfold MAX_ALLOCS in *. lia. }
  exists l. split; [exact Hl|]. intros i Hi. specialize (Hin i Hi). lia.
Qed.

Lemma driver_frees_inside_array_witness :
  warns (draw 12345 64 2 0 99) = false /\
  1 <= numAllocs (draw 12345 64 2 0 99) <= MAX_ALLOCS /\
  exists l,
    free_indices (Z.to_nat 10001) (freeMin (draw 12345 64 2 0 99) - 1)
      (freeMax (draw 12345 64 2 0 99)) (freeStep (draw 12345 64 2 0 99))
    = Some l /\
    forall i, In i l ->
      freeMin (draw 12345 64 2 0 99) - 1 <= i /\
      0 <= i < numAllocs (draw 12345 64 2 0 99).
Proof.
  apply (driver_frees_inside_array 12345 64 2 0 99 (Z.to_nat 10001)).
  - lia.
  - lia.
  - lia.
  - lia.
  - lia.
  - unfold MAX_ALLOCS; lia.
Defined.

(** X20: The rounding [(x + 7) & ~7] of [HMMmalloc], [HMMcalloc] and
    [HMMrealloc], for [x] with [x + 7 < 2^64]: the result is the least
    multiple of 8 that is at least [x]. *)
Theorem align_up_rounds_to_next_multiple x :
  0 <= x ->
  x + 7 < WORD ->
  x <= align_up x < x + 8 /\ align_up x mod 8 = 0.
Proof.
  apply align_up_bounds.
Qed.

Lemma align_up_rounds_to_next_multiple_witness :
  13 <= align_up 13 < 13 + 8 /\ align_up 13 mod 8 = 0.
Proof.
  apply (align_up_rounds_to_next_multiple 13).
  - lia.
  - unfold WORD; lia.
Defined.

(** X21: The amount [HMMget_free_chunk] asks the break primitive for (line
    271), for a request [sz > 0] with [sz + HDR + ALLOCATED_BYTES < 2^63]:
    it is more than [sz + HDR], so that one grow step is enough for the
    request and its header, at most [sz + HDR + ALLOCATED_BYTES], and a
    multiple of 8. *)
Theorem grow_amount_covers_request sz :
  0 < sz ->
  sz + HDR + ALLOCATED_BYTES < 2 ^ 63 ->
  sz + HDR < num_allocated_bytes sz /\
  num_allocated_bytes sz <= sz + HDR + ALLOCATED_BYTES /\
  num_allocated_bytes sz mod 8 = 0.
Proof.
  apply num_bounds.
Qed.

Lemma grow_amount_covers_request_witness :
  16 + HDR < num_allocated_bytes 16 /\
  num_allocated_bytes 16 <= 16 + HDR + ALLOCATED_BYTES /\
  num_allocated_bytes 16 mod 8 = 0.
Proof.
  apply (grow_amount_covers_request 16).
  - lia.
  - unfold HDR, ALLOCATED_BYTES; lia.
Defined.

(** X22: [HMMrealloc] of a live block with size 0, on a sound arena: it
    frees the block and returns what [HMMmalloc ALIGNMENT] returns on the
    arena [HMMfree] left: null, or the 8-aligned payload of an allocated
    chunk of at least 8 bytes.  The arena stays sound and every other
    live block is untouched. *)
Theorem realloc_to_zero_frees_then_allocates st L bk c fuel :
  sound st L bk ->
  In c L ->
  is_free st c = 0 ->
  (2 * length L + 6 < fuel)%nat ->
  exists st1 p st' L' bk',
    HMMfree fuel (c + HDR) st = Some st1 /\
    HMMmalloc fuel ALIGNMENT st1 = Some (p, st') /\
    HMMrealloc fuel (c + HDR) 0 st = Some (p, st') /\ sound st' L' bk' /\
    (p = 0 \/
     exists c2, p = c2 + HDR /\ In c2 L' /\ is_free st' c2 = 0 /\
       ALIGNMENT <= size st' c2 /\ (c2 + HDR) mod 8 = 0) /\
    (forall a, In a L -> a <> c -> is_free st a = 0 ->
       a + HDR <> p /\ In a L' /\ is_free st' a = 0 /\
       size st' a = size st a /\
       forall i, 0 <= i < size st a ->
         load8 (mem st') (a + HDR + i) = load8 (mem st) (a + HDR + i)).
Proof.
  apply realloc_zero_sound.
Qed.

Lemma realloc_to_zero_frees_then_allocates_witness :
  exists st1 p st' L' bk',
    HMMfree 13 (4194304 + HDR) heap1 = Some st1 /\
    HMMmalloc 13 ALIGNMENT st1 = Some (p, st') /\
    HMMrealloc 13 (4194304 + HDR) 0 heap1 = Some (p, st') /\ sound st' L' bk' /\
    (p = 0 \/
     exists c2, p = c2 + HDR /\ In c2 L' /\ is_free st' c2 = 0 /\
       ALIGNMENT <= size st' c2 /\ (c2 + HDR) mod 8 = 0) /\
    (forall a, In a chunks1 -> a <> 4194304 -> is_free heap1 a = 0 ->
       a + HDR <> p /\ In a L' /\ is_free st' a = 0 /\
       size st' a = size heap1 a /\
       forall i, 0 <= i < size heap1 a ->
         load8 (mem st') (a + HDR + i) = load8 (mem heap1) (a + HDR + i)).
Proof.
  apply (realloc_to_zero_frees_then_allocates heap1 chunks1 buckets1 4194304 13).
  - exact heap1_sound.
  - left; reflexivity.
  - vm_compute; reflexivity.
  - cbn; lia.
Defined.
